(** * Release pipeline of create-python-modern

    A shallow embedding of the two release scripts of the repository:
    [scripts/release.js] (module [Release]) and its reworked sibling
    (module [ReleaseFixed]), both built around the class [ReleaseManager].

    The scripts drive git and npm through [execSync], read and write a few
    files, and keep a report object.  The embedding threads one explicit
    state (the manager object together with the part of the outside world
    the scripts touch) through a small state-and-exception monad, and
    records every external effect in a trace.

    The check script [test-release.js] (module [TestRelease]) is embedded
    in the same way; it shares the tools and the world with the release
    scripts. *)

From Stdlib Require Import String Ascii List Arith NArith Bool Lia.
Import ListNotations.
Local Open Scope list_scope.
Local Open Scope string_scope.

(** ** JavaScript string operations used by the scripts *)

Module JsString.

Definition nl_char : ascii := ascii_of_nat 10.
Definition nl : string := String nl_char EmptyString.
Definition quote_char : ascii := ascii_of_nat 34.

(** [s.startsWith(p)] *)
Definition startsWith (s p : string) : bool := String.prefix p s.

(** [s.includes(sub)] *)
Fixpoint includes (s sub : string) : bool :=
  String.prefix sub s ||
  match s with
  | EmptyString => false
  | String _ r => includes r sub
  end.

(** [s.split(sep)] for a one-character separator: never the empty list. *)
Fixpoint split (sep : ascii) (s : string) : list string :=
  match s with
  | EmptyString => [EmptyString]
  | String c r =>
      if Ascii.eqb c sep then EmptyString :: split sep r
      else match split sep r with
           | [] => [String c EmptyString]
           | l :: ls => String c l :: ls
           end
  end.

(** [lines.join(sep)] *)
Definition join (sep : string) (ls : list string) : string :=
  String.concat sep ls.

(** [lines.slice(0, i)] and [lines.slice(i)] for [0 <= i] *)
Definition slice_to {A} (i : nat) (l : list A) : list A := firstn i l.
Definition slice_from {A} (i : nat) (l : list A) : list A := skipn i l.

(** White space removed by [trim] (the ASCII part of it). *)
Definition is_space (c : ascii) : bool :=
  let n := nat_of_ascii c in
  (n =? 32)%nat || ((9 <=? n)%nat && (n <=? 13)%nat).

Fixpoint trimStart (s : string) : string :=
  match s with
  | EmptyString => EmptyString
  | String c r => if is_space c then trimStart r else s
  end.

(** Drops the trailing white space: a character is kept when it is not
    white space or when something is kept after it. *)
Fixpoint trimEnd (s : string) : string :=
  match s with
  | EmptyString => EmptyString
  | String c r =>
      match trimEnd r with
      | EmptyString => if is_space c then EmptyString else String c EmptyString
      | r' => String c r'
      end
  end.

(** [s.trim()] *)
Definition trim (s : string) : string := trimEnd (trimStart s).

(** The global replacement that deletes every double-quote character. *)
Fixpoint removeQuotes (s : string) : string :=
  match s with
  | EmptyString => EmptyString
  | String c r =>
      if Ascii.eqb c quote_char then removeQuotes r
      else String c (removeQuotes r)
  end.

(** Truthiness of a string: only the empty string is falsy. *)
Definition truthy (s : string) : bool :=
  match s with EmptyString => false | _ => true end.

(** [a || b] on strings *)
Definition or_else (a b : string) : string := if truthy a then a else b.

Definition is_digit (c : ascii) : bool :=
  let n := nat_of_ascii c in (48 <=? n)%nat && (n <=? 57)%nat.

End JsString.
Import JsString.

(** ** The changelog insertion of [updateChangelog]

    The pure text manipulation of step 5, shared verbatim by both scripts. *)

Module Changelog.

(** The loop
    [for (let i = 0; i < lines.length; i++)
       if (lines[i].startsWith('## [')) { insertIndex = i; break }]
    started at index [i]; [insertIndex] stays [0] when no line matches. *)
Fixpoint findInsertIndex (lines : list string) (i : nat) : nat :=
  match lines with
  | [] => 0
  | l :: rest =>
      if startsWith l "## [" then i else findInsertIndex rest (S i)
  end.

(** [lines.slice(0, insertIndex).join('\n') + '\n' + newEntry +
     lines.slice(insertIndex).join('\n')] *)
Definition insertEntry (changelog newEntry : string) : string :=
  let lines := split nl_char changelog in
  let insertIndex := findInsertIndex lines 0 in
  join nl (slice_to insertIndex lines) ++ nl ++ newEntry
    ++ join nl (slice_from insertIndex lines).

(** The template literal that builds the new section. *)
Definition newEntry (version today : string) (changes : list string) : string :=
  "## [" ++ version ++ "] - " ++ today ++ nl ++ nl ++ "### Changed" ++ nl
    ++ or_else (join nl changes) "- Release automático" ++ nl ++ nl.

(** *** The decomposition the specification speaks of

    The specification describes the result as
    [header + newEntry + C_without_header].  [cutAtHeading true C] scans
    the text itself: the header is everything before the first line that
    starts with [## [], the rest starts at that line.  [bol] tells whether
    the scan stands at the beginning of a line. *)
Fixpoint cutAtHeading (bol : bool) (s : string) : option (string * string) :=
  if bol && String.prefix "## [" s then Some (EmptyString, s)
  else match s with
       | EmptyString => None
       | String c r =>
           match cutAtHeading (Ascii.eqb c nl_char) r with
           | Some (h, t) => Some (String c h, t)
           | None => None
           end
       end.

Definition header (C : string) : string :=
  match cutAtHeading true C with Some (h, _) => h | None => C end.

Definition withoutHeader (C : string) : string :=
  match cutAtHeading true C with Some (_, t) => t | None => EmptyString end.

(** Some line of [C] is a version heading. *)
Definition hasVersionHeading (C : string) : bool :=
  existsb (fun l => startsWith l "## [") (split nl_char C).

(** Index of the first heading among [lines]; the first line only counts
    when [bol] holds. *)
Fixpoint firstHeading (bol : bool) (lines : list string) : option nat :=
  match lines with
  | [] => None
  | l :: rest =>
      if bol && startsWith l "## [" then Some 0
      else option_map S (firstHeading true rest)
  end.

(** What the script's slices give when the heading sits at line [i]. *)
Definition cutLines (lines : list string) (i : nat) : string * string :=
  (join nl (slice_to i lines) ++ (if Nat.eqb i 0 then "" else nl),
   join nl (slice_from i lines)).

End Changelog.

(** ** Semantic versions

    The test [/^\d+\.\d+\.\d+$/] of pre-verification and the effect of
    [npm version patch|minor|major] on a plain [X.Y.Z] version. *)

Module Semver.

Definition dot_char : ascii := ascii_of_nat 46.

Fixpoint all_digits (s : string) : bool :=
  match s with
  | EmptyString => true
  | String c r => is_digit c && all_digits r
  end.

(** [\d+] *)
Definition digits1 (s : string) : bool := truthy s && all_digits s.

(** [versionRegex.test(v)]: the three runs of digits cannot contain the
    dot, so the match is decided on the dot-separated parts. *)
Definition versionRegex_test (v : string) : bool :=
  match split dot_char v with
  | [a; b; c] => digits1 a && digits1 b && digits1 c
  | _ => false
  end.

(** [Number.MAX_SAFE_INTEGER], the largest numeric identifier a version
    may hold. *)
Definition MAX_SAFE_INTEGER : N := 9007199254740991%N.

Definition safe (n : N) : option N :=
  if (n <=? MAX_SAFE_INTEGER)%N then Some n else None.

Fixpoint N_of_digits (acc : N) (s : string) : N :=
  match s with
  | EmptyString => acc
  | String c r => N_of_digits (10 * acc + (N_of_ascii c - 48))%N r
  end.

(** A numeric identifier of a valid version: digits, no leading zero, not
    above [Number.MAX_SAFE_INTEGER]. *)
Definition numeric_id (s : string) : option N :=
  if digits1 s
  then match s with
       | String c (String _ _) =>
           if Ascii.eqb c (ascii_of_nat 48) then None
           else safe (N_of_digits 0 s)
       | _ => safe (N_of_digits 0 s)
       end
  else None.

Definition parse (v : string) : option (N * N * N) :=
  match split dot_char v with
  | [a; b; c] =>
      match numeric_id a, numeric_id b, numeric_id c with
      | Some x, Some y, Some z => Some (x, y, z)
      | _, _, _ => None
      end
  | _ => None
  end.

(** Decimal numeral of a natural number, least significant digit
    produced first; [fuel] bounds the number of digits. *)
Fixpoint digits_of (fuel n : nat) (acc : string) : string :=
  match fuel with
  | 0 => acc
  | S f =>
      let acc' := String (ascii_of_nat (48 + n mod 10)) acc in
      if (n <? 10)%nat then acc' else digits_of f (n / 10) acc'
  end.

Definition string_of_nat (n : nat) : string := digits_of (S n) n EmptyString.

(** The same for a binary number; it has no more decimal digits than
    binary ones. *)
Fixpoint digits_of_N (fuel : nat) (n : N) (acc : string) : string :=
  match fuel with
  | 0 => acc
  | S f =>
      let acc' := String (ascii_of_N (48 + n mod 10)%N) acc in
      if (n <? 10)%N then acc' else digits_of_N f (n / 10)%N acc'
  end.

Definition string_of_N (n : N) : string := digits_of_N (S (N.size_nat n)) n EmptyString.

Definition print (x y z : N) : string :=
  string_of_N x ++ "." ++ string_of_N y ++ "." ++ string_of_N z.

(** The version [x.y.z], when its identifiers are within the safe
    range. *)
Definition checked (x y z : N) : option string :=
  match safe x, safe y, safe z with
  | Some _, Some _, Some _ => Some (print x y z)
  | _, _, _ => None
  end.

(** The increment [npm version] makes for the kinds [patch], [minor] and
    [major], on a version and to a version whose identifiers are within
    the safe range; what it does with any other argument or version is
    left to [npm_version_other]. *)
Definition bump (releaseType : string) (v : string) : option string :=
  match parse v with
  | Some (x, y, z) =>
      if releaseType =? "patch" then checked x y (z + 1)%N
      else if releaseType =? "minor" then checked x (y + 1)%N 0%N
      else if releaseType =? "major" then checked (x + 1)%N 0%N 0%N
      else None
  | None => None
  end.

End Semver.

(** ** The outside world and the manager object *)

Module Model.

(** The fields of [package.json] the scripts look at; [other] stands for
    the rest of the file. *)
Record Manifest := {
  name : string;
  version : string;
  scripts_build : bool;
  other : string
}.

Definition manifest_eqb (a b : Manifest) : bool :=
  (name a =? name b) && (version a =? version b)
  && Bool.eqb (scripts_build a) (scripts_build b) && (other a =? other b).

Definition set_version (v : string) (m : Manifest) : Manifest :=
  {| name := name m; version := v; scripts_build := scripts_build m;
     other := other m |}.

(** The command lines handed to [execSync]. *)
Inductive Cmd :=
| GitCurrentBranch
| GitStatus
| NpmPkgFix
| NpmCi
| NpmTest
| NpmRunBuild
| NpmPkgGetVersion
| GitTagList (tag : string)
| NpmVersion (releaseType : string)
| GitDescribe
| GitLog (lastTag : string)
| GitDiffCached
| GitAddAll
| GitCommit (noVerify : bool) (message : string)
| GitTagAnnotated (tag message : string)
| GitRevList
| GitPush (branch : string)
| GitPushTags
| GitRevParseHead
| NpmPublish
| NpmPublishGitHub
| NpmViewVersion (pkg : string)
| NpmView (pkg : string).

Definition dq : string := String quote_char EmptyString.

(** The text of each command line, as the template literals build it. *)
Definition render (c : Cmd) : string :=
  match c with
  | GitCurrentBranch => "git rev-parse --abbrev-ref HEAD"
  | GitStatus => "git status --porcelain"
  | NpmPkgFix => "npm pkg fix"
  | NpmCi => "npm ci"
  | NpmTest => "npm test"
  | NpmRunBuild => "npm run build"
  | NpmPkgGetVersion => "npm pkg get version"
  | GitTagList tag => "git tag -l " ++ tag
  | NpmVersion releaseType => "npm version " ++ releaseType ++ " --no-git-tag-version"
  | GitDescribe => "git describe --tags --abbrev=0"
  | GitLog lastTag => "git log " ++ lastTag ++ "..HEAD --oneline"
  | GitDiffCached => "git diff --cached --name-only"
  | GitAddAll => "git add ."
  | GitCommit false message => "git commit -m " ++ dq ++ message ++ dq
  | GitCommit true message => "git commit --no-verify -m " ++ dq ++ message ++ dq
  | GitTagAnnotated tag message => "git tag -a " ++ tag ++ " -m " ++ dq ++ message ++ dq
  | GitRevList => "git rev-list HEAD ^origin/master 2>/dev/null || git rev-list HEAD"
  | GitPush branch => "git push origin " ++ branch
  | GitPushTags => "git push --tags"
  | GitRevParseHead => "git rev-parse HEAD"
  | NpmPublish => "npm publish --access public"
  | NpmPublishGitHub => "npm publish --registry=https://npm.pkg.github.com"
  | NpmViewVersion pkg => "npm view " ++ pkg ++ " version"
  | NpmView pkg => "npm view " ++ pkg
  end.

(** Letters and digits. *)
Definition is_alnum (c : ascii) : bool :=
  let n := nat_of_ascii c in
  ((48 <=? n) && (n <=? 57) || (65 <=? n) && (n <=? 90)
   || (97 <=? n) && (n <=? 122))%nat.

(** Characters a shell hands on as they are, wherever they stand in a
    word: letters, digits, [-], [.] and [_]. *)
Definition is_word_char (c : ascii) : bool :=
  let n := nat_of_ascii c in
  is_alnum c || (n =? 45)%nat || (n =? 46)%nat || (n =? 95)%nat.

Fixpoint all_word_chars (s : string) : bool :=
  match s with
  | EmptyString => true
  | String c r => is_word_char c && all_word_chars r
  end.

(** A release kind that reaches the tool as one argument and not as an
    option: it starts with a letter or a digit and goes on with word
    characters ([patch], [prerelease], [from-git], [1.2.3-rc.1]). *)
Definition single_word (k : string) : bool :=
  match k with
  | EmptyString => false
  | String c r => is_alnum c && all_word_chars r
  end.

Inductive Stream := Stdout | Stderr.

(** What a run does to its surroundings, in the order it happens
    (the trace is kept newest first). *)
Inductive Event :=
| Exec (c : Cmd) (ok : bool)
| WriteFile (path content : string)
| Console (stream : Stream) (line : string)
| Sleep (ms : nat).

(** What the run cannot influence: the behaviour of the tools, the
    environment variables, the clock. *)
Record Env := {
  (** [process.env.NPM_TOKEN] *)
  NPM_TOKEN : option string;
  (** [fails n c]: the error message when the [n]-th [execSync] call of
      the run, issuing [c], exits with a failure. *)
  fails : nat -> Cmd -> option string;
  (** standard output of the queries whose answer the run does not
      determine (current branch, git log, npm view, ...) *)
  stdout : Cmd -> string;
  (** what [npm pkg fix] makes of a manifest *)
  normalize : Manifest -> Manifest;
  (** [npm version k] for an argument or a version outside the three
      kinds on plain versions: the new version, if the tool accepts *)
  npm_version_other : string -> string -> option string;
  (** [npm_git k v']: the commit and the tag [npm version] makes on its
      own when the release kind [k], spliced into the command line, is
      not a single word and keeps [--no-git-tag-version] from taking
      effect (as [patch #] does); [v'] is the new version *)
  npm_git : string -> string -> option (string * string);
  (** paths git ignores *)
  ignored : string -> bool;
  (** [new Date().toISOString()], the clock being frozen for the run *)
  now : string
}.

(** The part of the working tree, the repository and the file system the
    scripts read or change. *)
Record World := {
  manifest : Manifest;
  files : string -> option string;
  dirty : list string;
  commits : list string;
  tags : list string;
  trace : list Event;
  clock : nat
}.

Record Report := {
  timestamp : string;
  r_version : option string;
  commitSha : option string;
  changes : list string;
  issues : list string;
  solutions : list string;
  packageInfo : option string;
  registryUrls : list string;
  status : string
}.

(** The fields of a [ReleaseManager]; [currentBranch] only exists in the
    reworked script. *)
Record Manager := {
  warnings : list string;
  errors : list string;
  currentBranch : option string;
  report : Report
}.

Record State := { this : Manager; world : World }.

(** [null] and a string, where a template literal interpolates them. *)
Definition show (o : option string) : string :=
  match o with Some s => s | None => "null" end.

Definition option_eqb (a b : option string) : bool :=
  match a, b with
  | Some x, Some y => x =? y
  | None, None => true
  | _, _ => false
  end.

(** *** Field updates *)

Definition with_world (f : World -> World) (s : State) : State :=
  {| this := this s; world := f (world s) |}.
Definition with_this (f : Manager -> Manager) (s : State) : State :=
  {| this := f (this s); world := world s |}.
Definition with_report (f : Report -> Report) (m : Manager) : Manager :=
  {| warnings := warnings m; errors := errors m;
     currentBranch := currentBranch m; report := f (report m) |}.

Definition push_warning (msg : string) (m : Manager) : Manager :=
  {| warnings := (warnings m ++ [msg])%list; errors := errors m;
     currentBranch := currentBranch m; report := report m |}.
Definition push_error (msg : string) (m : Manager) : Manager :=
  {| warnings := warnings m; errors := (errors m ++ [msg])%list;
     currentBranch := currentBranch m; report := report m |}.
Definition set_currentBranch (b : string) (m : Manager) : Manager :=
  {| warnings := warnings m; errors := errors m;
     currentBranch := Some b; report := report m |}.

Definition set_r_version (v : option string) (r : Report) : Report :=
  {| timestamp := timestamp r; r_version := v; commitSha := commitSha r;
     changes := changes r; issues := issues r; solutions := solutions r;
     packageInfo := packageInfo r; registryUrls := registryUrls r;
     status := status r |}.
Definition set_commitSha (v : string) (r : Report) : Report :=
  {| timestamp := timestamp r; r_version := r_version r; commitSha := Some v;
     changes := changes r; issues := issues r; solutions := solutions r;
     packageInfo := packageInfo r; registryUrls := registryUrls r;
     status := status r |}.
Definition push_issue (v : string) (r : Report) : Report :=
  {| timestamp := timestamp r; r_version := r_version r; commitSha := commitSha r;
     changes := changes r; issues := (issues r ++ [v])%list;
     solutions := solutions r;
     packageInfo := packageInfo r; registryUrls := registryUrls r;
     status := status r |}.
Definition push_solution (v : string) (r : Report) : Report :=
  {| timestamp := timestamp r; r_version := r_version r; commitSha := commitSha r;
     changes := changes r; issues := issues r;
     solutions := (solutions r ++ [v])%list;
     packageInfo := packageInfo r; registryUrls := registryUrls r;
     status := status r |}.
Definition set_packageInfo (v : string) (r : Report) : Report :=
  {| timestamp := timestamp r; r_version := r_version r; commitSha := commitSha r;
     changes := changes r; issues := issues r; solutions := solutions r;
     packageInfo := Some v; registryUrls := registryUrls r;
     status := status r |}.
Definition push_registryUrl (v : string) (r : Report) : Report :=
  {| timestamp := timestamp r; r_version := r_version r; commitSha := commitSha r;
     changes := changes r; issues := issues r; solutions := solutions r;
     packageInfo := packageInfo r;
     registryUrls := (registryUrls r ++ [v])%list;
     status := status r |}.
Definition set_status_issues (st : string) (l : list string) (r : Report) : Report :=
  {| timestamp := timestamp r; r_version := r_version r; commitSha := commitSha r;
     changes := changes r; issues := l; solutions := solutions r;
     packageInfo := packageInfo r; registryUrls := registryUrls r;
     status := st |}.

Definition set_manifest (m : Manifest) (w : World) : World :=
  {| manifest := m; files := files w; dirty := dirty w; commits := commits w;
     tags := tags w; trace := trace w; clock := clock w |}.
Definition set_files (f : string -> option string) (w : World) : World :=
  {| manifest := manifest w; files := f; dirty := dirty w; commits := commits w;
     tags := tags w; trace := trace w; clock := clock w |}.
Definition set_dirty (d : list string) (w : World) : World :=
  {| manifest := manifest w; files := files w; dirty := d; commits := commits w;
     tags := tags w; trace := trace w; clock := clock w |}.
Definition set_commits (c : list string) (w : World) : World :=
  {| manifest := manifest w; files := files w; dirty := dirty w; commits := c;
     tags := tags w; trace := trace w; clock := clock w |}.
Definition set_tags (t : list string) (w : World) : World :=
  {| manifest := manifest w; files := files w; dirty := dirty w;
     commits := commits w; tags := t; trace := trace w; clock := clock w |}.
Definition record (e : Event) (w : World) : World :=
  {| manifest := manifest w; files := files w; dirty := dirty w;
     commits := commits w; tags := tags w; trace := e :: trace w;
     clock := clock w |}.
Definition tick (w : World) : World :=
  {| manifest := manifest w; files := files w; dirty := dirty w;
     commits := commits w; tags := tags w; trace := trace w;
     clock := S (clock w) |}.

(** [constructor()] *)
Definition new_manager (env : Env) : Manager :=
  {| warnings := []; errors := []; currentBranch := None;
     report := {| timestamp := now env; r_version := None; commitSha := None;
                  changes := []; issues := []; solutions := [];
                  packageInfo := None; registryUrls := [];
                  status := "pending" |} |}.

End Model.

(** ** A monad for the scripts: state that survives exceptions *)

Module Js.
Import Model.

(** A JavaScript computation either returns or throws an [Error] with a
    message; the changes made before a [throw] stay. *)
Inductive Outcome (A : Type) :=
| Return (a : A)
| Throw (message : string).
Arguments Return {A} a.
Arguments Throw {A} message.

Definition Js (A : Type) : Type := State -> Outcome A * State.

Definition ret {A} (a : A) : Js A := fun s => (Return a, s).

Definition bind {A B} (m : Js A) (k : A -> Js B) : Js B :=
  fun s => match m s with
           | (Return a, s') => k a s'
           | (Throw e, s') => (Throw e, s')
           end.

Definition throw {A} (message : string) : Js A := fun s => (Throw message, s).

(** [try { m } catch (error) { h error.message }] *)
Definition try_catch {A} (m : Js A) (h : string -> Js A) : Js A :=
  fun s => match m s with
           | (Return a, s') => (Return a, s')
           | (Throw e, s') => h e s'
           end.

Definition gets {A} (f : State -> A) : Js A := fun s => (Return (f s), s).
Definition modify (f : State -> State) : Js unit := fun s => (Return tt, f s).

Declare Scope js_scope.
Delimit Scope js_scope with js.
Notation "x <- m ;; k" := (bind m (fun x => k))
  (at level 61, m at next level, right associativity) : js_scope.
Notation "m ;; k" := (bind m (fun _ => k))
  (at level 61, right associativity) : js_scope.
Local Open Scope js_scope.

Section Primitives.
Variable env : Env.

(** *** The tools *)

Definition mark_dirty (path : string) (w : World) : World :=
  if ignored env path || existsb (String.eqb path) (dirty w) then w
  else set_dirty (path :: dirty w) w.

(** [git status --porcelain]: one line per changed path. *)
Definition porcelain (d : list string) : string :=
  String.concat "" (map (fun p => " M " ++ p ++ nl) d).

Definition command_failed (c : Cmd) : string :=
  "Command failed: " ++ render c.

(** The new manifest version [npm version releaseType] computes. *)
Definition npm_version (releaseType v : string) : option string :=
  match Semver.bump releaseType v with
  | Some v' => Some v'
  | None => npm_version_other env releaseType v
  end.

(** [npm version] running without [--no-git-tag-version]: it commits what
    it changed and tags the commit. *)
Definition npm_commits (releaseType v' : string) (w : World) : World :=
  match npm_git env releaseType v' with
  | Some (message, tag) =>
      set_dirty [] (set_tags (tag :: tags w) (set_commits (message :: commits w) w))
  | None => w
  end.

(** What a command that starts normally does to the world, and what it
    prints.  [git tag -l] prints the matching tag or nothing and exits
    normally either way; [git describe] and [git tag -a] are the two
    commands whose failure the world itself determines.  The release kind
    is spliced into the line [npm version k --no-git-tag-version] that
    [execSync] hands to a shell: a kind that is a single word reaches
    [npm version] as its argument, followed by the flag; for any other
    kind the flag may be lost, and what [npm version] then commits and
    tags is up to [npm_git]. *)
Definition effect (c : Cmd) (w : World) : Outcome string * World :=
  match c with
  | GitStatus => (Return (porcelain (dirty w)), w)
  | NpmPkgFix =>
      let m' := normalize env (manifest w) in
      (Return "",
       if manifest_eqb m' (manifest w) then w
       else mark_dirty "package.json" (set_manifest m' w))
  | NpmPkgGetVersion =>
      (Return (dq ++ version (manifest w) ++ dq ++ nl), w)
  | GitTagList tag =>
      (Return (if existsb (String.eqb tag) (tags w) then tag ++ nl else ""), w)
  | NpmVersion releaseType =>
      match npm_version releaseType (version (manifest w)) with
      | Some v' =>
          let w' := mark_dirty "package.json"
                      (set_manifest (set_version v' (manifest w)) w) in
          (Return ("v" ++ v' ++ nl),
           if single_word releaseType then w' else npm_commits releaseType v' w')
      | None => (Throw (command_failed c), w)
      end
  | GitDescribe =>
      match tags w with
      | [] => (Throw (command_failed c), w)
      | t :: _ => (Return (t ++ nl), w)
      end
  | GitCommit _ message =>
      (Return "", set_dirty [] (set_commits (message :: commits w) w))
  | GitTagAnnotated tag _ =>
      if existsb (String.eqb tag) (tags w) then (Throw (command_failed c), w)
      else (Return "", set_tags (tag :: tags w) w)
  | GitCurrentBranch | GitLog _ | GitDiffCached | GitRevList
  | GitRevParseHead | NpmViewVersion _ | NpmView _ =>
      (Return (stdout env c), w)
  | NpmCi | NpmTest | NpmRunBuild | GitAddAll | GitPush _ | GitPushTags
  | NpmPublish | NpmPublishGitHub =>
      (Return "", w)
  end.

(** [execSync(command)]: throws when the command exits with a failure.
    Every call is recorded, with its exit status. *)
Definition execSync (c : Cmd) : Js string :=
  fun s =>
    let w := world s in
    match fails env (clock w) c with
    | Some message =>
        (Throw message,
         {| this := this s; world := record (Exec c false) (tick w) |})
    | None =>
        match effect c (tick w) with
        | (Return out, w') =>
            (Return out, {| this := this s; world := record (Exec c true) w' |})
        | (Throw message, w') =>
            (Throw message, {| this := this s; world := record (Exec c false) w' |})
        end
    end.

(** *** Console and file system *)

Definition console (stream : Stream) (line : string) : Js unit :=
  modify (with_world (record (Console stream line))).

Definition sleep (ms : nat) : Js unit :=
  modify (with_world (record (Sleep ms))).

(** [fs.writeFileSync(path, content)] *)
Definition writeFileSync (path content : string) : Js unit :=
  modify (with_world (fun w =>
    let changed := negb (option_eqb (files w path) (Some content)) in
    let w' := set_files (fun p => if p =? path then Some content else files w p) w in
    record (WriteFile path content) (if changed then mark_dirty path w' else w'))).

(** [fs.existsSync(path)] *)
Definition existsSync (path : string) : Js bool :=
  gets (fun s => match files (world s) path with Some _ => true | None => false end).

(** [fs.readFileSync(path, 'utf8')] *)
Definition readFileSync (path : string) : Js string :=
  fun s => match files (world s) path with
           | Some content => (Return content, s)
           | None => (Throw ("ENOENT: no such file or directory, open '" ++ path ++ "'"), s)
           end.

(** [JSON.parse(fs.readFileSync('package.json', 'utf8'))] *)
Definition readPackageJson : Js Manifest := gets (fun s => manifest (world s)).

(** *** The manager's own helpers *)

(** [log(message)] *)
Definition log (message : string) : Js unit :=
  console Stdout ("[" ++ now env ++ "] " ++ message).

(** [warn(message)] *)
Definition warn (message : string) : Js unit :=
  modify (with_this (push_warning message)) ;;
  console Stderr ("⚠️  " ++ message).

(** [error(message)] *)
Definition error (message : string) : Js unit :=
  modify (with_this (push_error message)) ;;
  console Stderr ("❌ " ++ message).

Definition update_report (f : Report -> Report) : Js unit :=
  modify (with_this (with_report f)).

Definition get_report : Js Report := gets (fun s => report (this s)).

(** *** Steps shared verbatim by the two scripts *)

(** [new Date().toISOString().split('T')[0]] *)
Definition today : string := hd "" (split (ascii_of_nat 84) (now env)).

(** The changes collected by [updateChangelog]. *)
Definition collectChanges (lastTag : string) : Js (list string) :=
  if truthy lastTag then
    out <- execSync (GitLog lastTag) ;;
    let commits := trim out in
    if truthy commits then
      ret (map (fun commit => "- " ++ commit) (split nl_char commits))
    else
      out <- execSync GitDiffCached ;;
      let staged := trim out in
      if truthy staged then
        ret ["- Cambios en archivos: " ++ join ", " (split nl_char staged)]
      else ret []
  else ret [].

(** [updateChangelog()] *)
Definition updateChangelog : Js unit :=
  log "=== PASO 5: CHANGELOG ===" ;;
  lastTag <- try_catch
               (out <- execSync GitDescribe ;; ret (trim out))
               (fun _ => warn "No se encontraron tags anteriores" ;; ret "") ;;
  changes <- collectChanges lastTag ;;
  (if Nat.eqb (List.length changes) 0
   then warn "No se encontraron cambios desde el último tag"
   else ret tt) ;;
  present <- existsSync "CHANGELOG.md" ;;
  changelog <- (if present then readFileSync "CHANGELOG.md" else ret "") ;;
  r <- get_report ;;
  let newEntry := Changelog.newEntry (show (r_version r)) today changes in
  writeFileSync "CHANGELOG.md" (Changelog.insertEntry changelog newEntry) ;;
  log "✅ CHANGELOG.md actualizado".

Definition bullets (l : list string) : string :=
  join nl (map (fun x => "- " ++ x) l).

(** The template literal of the report. *)
Definition reportContent (r : Report) : string :=
  "# Reporte de Publicación" ++ nl
  ++ "**Fecha:** " ++ timestamp r ++ nl
  ++ "**Estado:** " ++ status r ++ nl
  ++ "**Versión:** " ++ show (r_version r) ++ nl
  ++ "**Commit SHA:** " ++ show (commitSha r) ++ nl
  ++ nl
  ++ "## URLs de Registros" ++ nl
  ++ bullets (registryUrls r) ++ nl
  ++ nl
  ++ "## Problemas Encontrados" ++ nl
  ++ (if Nat.ltb 0 (List.length (issues r)) then bullets (issues r) else "Ninguno") ++ nl
  ++ nl
  ++ "## Soluciones Aplicadas" ++ nl
  ++ (if Nat.ltb 0 (List.length (solutions r)) then bullets (solutions r) else "Ninguna") ++ nl
  ++ nl
  ++ "## Información del Paquete" ++ nl
  ++ "```" ++ nl
  ++ or_else (match packageInfo r with Some i => i | None => "" end) "No disponible" ++ nl
  ++ "```" ++ nl.

(** [generateReport()] *)
Definition generateReport : Js unit :=
  log "=== PASO 11: Generación de reporte ===" ;;
  modify (with_this (fun m =>
    with_report
      (set_status_issues
         (if Nat.ltb 0 (List.length (errors m)) then "failed" else "completed")
         (errors m ++ warnings m)%list) m)) ;;
  r <- get_report ;;
  writeFileSync "report.md" (reportContent r) ;;
  log "✅ Reporte generado: report.md".

End Primitives.

End Js.

(** ** [scripts/release.js] *)

Module Release.
Import Model Js.
Local Open Scope js_scope.

Section Steps.
Variable env : Env.

Local Abbreviation execSync := (Js.execSync env).
Local Abbreviation log := (Js.log env).

(** [preVerification()] *)
Definition preVerification : Js unit :=
  log "=== PASO 1: Verificación previa ===" ;;
  out <- execSync GitCurrentBranch ;;
  let branch := trim out in
  if negb (branch =? "master") && negb (branch =? "main") then
    throw ("Rama actual es '" ++ branch ++ "'. Debe estar en 'master' o 'main'")
  else
    log ("✅ Rama correcta: " ++ branch) ;;
    out <- execSync GitStatus ;;
    let gitStatus := trim out in
    if truthy gitStatus then
      throw "Hay cambios sin añadir. Por favor, añade o descarta los cambios antes de continuar."
    else
      log "✅ Repositorio limpio" ;;
      log "🔧 Ejecutando npm pkg fix..." ;;
      execSync NpmPkgFix ;;
      packageJson <- readPackageJson ;;
      if negb (Semver.versionRegex_test (version packageJson)) then
        throw ("Versión '" ++ version packageJson ++ "' no sigue formato semver X.Y.Z")
      else
        update_report (set_r_version (Some (version packageJson))) ;;
        log ("✅ Versión semver válida: " ++ version packageJson).

(** [dependenciesAndTests()] *)
Definition dependenciesAndTests : Js unit :=
  log "=== PASO 2: Dependencias y pruebas ===" ;;
  log "📦 Instalando dependencias..." ;;
  execSync NpmCi ;;
  log "🧪 Ejecutando tests..." ;;
  try_catch
    (execSync NpmTest ;;
     log "✅ Tests pasaron exitosamente")
    (fun _ =>
       warn "Paquete sin tests configurados - continuando con advertencia" ;;
       update_report (push_issue "Tests no configurados") ;;
       update_report (push_solution "Se recomienda agregar tests antes del próximo release")).

(** [build()] *)
Definition build : Js unit :=
  log "=== PASO 3: Build ===" ;;
  packageJson <- readPackageJson ;;
  if scripts_build packageJson then
    log "🔨 Ejecutando build..." ;;
    execSync NpmRunBuild ;;
    log "✅ Build completado"
  else
    log "ℹ️  No hay script de build definido - omitiendo".

(** [versioning(releaseType)]: the bump sits in the [catch] of the
    [git tag -l] call. *)
Definition versioning (releaseType : string) : Js unit :=
  log "=== PASO 4: Versionado ===" ;;
  out <- execSync NpmPkgGetVersion ;;
  let currentVersion := removeQuotes (trim out) in
  update_report (set_r_version (Some currentVersion)) ;;
  try_catch
    (execSync (GitTagList ("v" ++ currentVersion)) ;;
     log ("✅ Usando versión existente: " ++ currentVersion ++ " (tag ya existe)"))
    (fun _ =>
       execSync (NpmVersion releaseType) ;;
       out <- execSync NpmPkgGetVersion ;;
       let newVersion := removeQuotes (trim out) in
       update_report (set_r_version (Some newVersion)) ;;
       log ("✅ Versión incrementada: " ++ currentVersion ++ " → " ++ newVersion)).

(** [commitAndTag()] *)
Definition commitAndTag : Js unit :=
  log "=== PASO 6: Commit y tag ===" ;;
  execSync GitAddAll ;;
  out <- execSync GitStatus ;;
  let gitStatus := trim out in
  if negb (truthy gitStatus) then
    log "ℹ️  No hay cambios para commitear"
  else
    r <- get_report ;;
    let v := show (r_version r) in
    let commitMessage := "chore(release): v" ++ v in
    try_catch
      (execSync (GitCommit false commitMessage) ;; ret tt)
      (fun message =>
         if includes message "pre-commit" then
           warn "Hook pre-commit no encontrado - usando --no-verify" ;;
           execSync (GitCommit true commitMessage) ;;
           update_report (push_issue "Hooks de pre-commit no ejecutados") ;;
           update_report (push_solution "Se recomienda ejecutar hooks de calidad manualmente")
         else throw message) ;;
    try_catch
      (execSync (GitTagList ("v" ++ v)) ;;
       log ("ℹ️  Tag v" ++ v ++ " ya existe - omitiendo creación"))
      (fun _ =>
         execSync (GitTagAnnotated ("v" ++ v) ("Release v" ++ v)) ;;
         log ("✅ Tag creado: v" ++ v)) ;;
    log ("✅ Commit procesado: " ++ commitMessage).

(** [push()]: the branch is pushed when there are local commits; a
    failing push of the tags is caught and logged. *)
Definition push : Js unit :=
  log "=== PASO 7: Push ===" ;;
  out <- execSync GitRevList ;;
  let localCommits := trim out in
  (if truthy localCommits then
     execSync (GitPush "master") ;;
     log "✅ Push de commits completado"
   else
     log "ℹ️  No hay commits nuevos para pushear") ;;
  try_catch
    (execSync GitPushTags ;;
     log "✅ Push de tags completado")
    (fun _ => log "ℹ️  No hay tags nuevos para pushear o ya están en el remoto") ;;
  out <- execSync GitRevParseHead ;;
  update_report (set_commitSha (trim out)).

(** [!process.env.NPM_TOKEN] *)
Definition token_missing : bool :=
  match NPM_TOKEN env with
  | Some t => negb (truthy t)
  | None => true
  end.

(** [publishToNpm()] *)
Definition publishToNpm : Js unit :=
  log "=== PASO 8: Publicación en npmjs ===" ;;
  if token_missing then
    throw "Variable de entorno NPM_TOKEN no configurada"
  else
    execSync NpmPublish ;;
    update_report (push_registryUrl "https://www.npmjs.com/package/create-python-modern") ;;
    log "✅ Publicación en npm completada".

(** [publishToGitHub()] *)
Definition publishToGitHub : Js unit :=
  log "=== PASO 9: Publicación en GitHub Packages ===" ;;
  packageJson <- readPackageJson ;;
  if includes (name packageJson) "/" then
    present <- existsSync ".npmrc" ;;
    if present then
      execSync NpmPublishGitHub ;;
      update_report (push_registryUrl "https://github.com/jhonma82/create-python-modern/packages") ;;
      log "✅ Publicación en GitHub Packages completada"
    else
      warn "Archivo .npmrc no encontrado para GitHub Packages"
  else
    warn "Paquete sin scope - omitiendo GitHub Packages".

(** [verification()] *)
Definition verification : Js unit :=
  log "=== PASO 10: Verificación ===" ;;
  packageJson <- readPackageJson ;;
  out <- execSync (NpmViewVersion (name packageJson)) ;;
  let npmVersion := trim out in
  r <- get_report ;;
  if negb (option_eqb (Some npmVersion) (r_version r)) then
    throw ("Versión en npm (" ++ npmVersion ++ ") no coincide con versión local ("
           ++ show (r_version r) ++ ")")
  else
    log ("✅ Versión verificada en npm: " ++ npmVersion) ;;
    out <- execSync (NpmView (name packageJson)) ;;
    update_report (set_packageInfo (trim out)).

(** The body of the [try] block of [run], up to the report. *)
Definition steps (releaseType : string) : Js unit :=
  console Stdout "🚀 DEBUG: Ejecutando preVerification()" ;;
  preVerification ;;
  console Stdout "📦 DEBUG: Ejecutando dependenciesAndTests()" ;;
  dependenciesAndTests ;;
  console Stdout "🔨 DEBUG: Ejecutando build()" ;;
  build ;;
  console Stdout "🔢 DEBUG: Ejecutando versioning()" ;;
  versioning releaseType ;;
  console Stdout "📝 DEBUG: Ejecutando updateChangelog()" ;;
  updateChangelog env ;;
  console Stdout "💾 DEBUG: Ejecutando commitAndTag()" ;;
  commitAndTag ;;
  console Stdout "⬆️  DEBUG: Ejecutando push()" ;;
  push ;;
  console Stdout "📤 DEBUG: Ejecutando publishToNpm()" ;;
  publishToNpm ;;
  console Stdout "📥 DEBUG: Ejecutando publishToGitHub()" ;;
  publishToGitHub ;;
  console Stdout "✅ DEBUG: Ejecutando verification()" ;;
  verification.

(** [run(releaseType = 'patch')]: the [catch] writes the report and
    rethrows, without recording the error.  Of [error.stack] only the
    first line is kept. *)
Definition run (arg : option string) : Js unit :=
  let releaseType := match arg with Some k => k | None => "patch" end in
  console Stdout ("🔍 DEBUG: Iniciando run() con releaseType: " ++ releaseType) ;;
  try_catch
    (steps releaseType ;;
     console Stdout "📋 DEBUG: Ejecutando generateReport()" ;;
     generateReport env ;;
     log "🎉 ¡Proceso de liberación completado exitosamente!" ;;
     r <- get_report ;;
     log ("Versión publicada: " ++ show (r_version r)) ;;
     log ("Commit: " ++ show (commitSha r)))
    (fun message =>
       console Stderr ("❌ DEBUG: Error en el proceso: " ++ message) ;;
       console Stderr ("❌ DEBUG: Stack trace: Error: " ++ message) ;;
       generateReport env ;;
       throw message).

(** The entry point: [process.argv[2] || 'patch'], a fresh manager, and
    the exit code. *)
Definition main (argv2 : option string) (w : World) : nat * State :=
  let releaseType := or_else (match argv2 with Some a => a | None => "" end) "patch" in
  match run (Some releaseType) {| this := new_manager env; world := w |} with
  | (Return _, s) => (0, s)
  | (Throw message, s) =>
      (1, with_world (record (Console Stderr ("❌ Proceso de liberación fallido: " ++ message))) s)
  end.

End Steps.

End Release.

(** ** The reworked release script

    The sibling of [scripts/release.js] that carries the corrections: the
    tag checks read the output of [git tag -l], the pushes are fatal, the
    registry query is retried, and [run] records the error it catches. *)

Module ReleaseFixed.
Import Model Js.
Local Open Scope js_scope.

Section Steps.
Variable env : Env.

Local Abbreviation execSync := (Js.execSync env).
Local Abbreviation log := (Js.log env).

(** [preVerification()] *)
Definition preVerification : Js unit :=
  log "=== PASO 1: Verificación previa ===" ;;
  out <- execSync GitCurrentBranch ;;
  let branch := trim out in
  modify (with_this (set_currentBranch branch)) ;;
  if negb (branch =? "master") && negb (branch =? "main") then
    throw ("Rama actual es '" ++ branch ++ "'. Debe estar en 'master' o 'main'")
  else
    log ("✅ Rama correcta: " ++ branch) ;;
    out <- execSync GitStatus ;;
    let gitStatus := trim out in
    if truthy gitStatus then
      throw "Hay cambios sin añadir. Por favor, añade o descarta los cambios antes de continuar."
    else
      log "✅ Repositorio limpio" ;;
      log "🔧 Ejecutando npm pkg fix..." ;;
      execSync NpmPkgFix ;;
      packageJson <- readPackageJson ;;
      if negb (Semver.versionRegex_test (version packageJson)) then
        throw ("Versión '" ++ version packageJson ++ "' no sigue formato semver X.Y.Z")
      else
        update_report (set_r_version (Some (version packageJson))) ;;
        log ("✅ Versión semver válida: " ++ version packageJson).

(** [dependenciesAndTests()] *)
Definition dependenciesAndTests : Js unit :=
  log "=== PASO 2: Dependencias y pruebas ===" ;;
  log "📦 Instalando dependencias..." ;;
  try_catch
    (execSync NpmCi ;; ret tt)
    (fun message => throw ("Error instalando dependencias: " ++ message)) ;;
  log "🧪 Ejecutando tests..." ;;
  try_catch
    (execSync NpmTest ;;
     log "✅ Tests pasaron exitosamente")
    (fun _ =>
       warn "Paquete sin tests configurados - continuando con advertencia" ;;
       update_report (push_issue "Tests no configurados") ;;
       update_report (push_solution "Se recomienda agregar tests antes del próximo release")).

(** [build()] *)
Definition build : Js unit :=
  log "=== PASO 3: Build ===" ;;
  packageJson <- readPackageJson ;;
  if scripts_build packageJson then
    log "🔨 Ejecutando build..." ;;
    try_catch
      (execSync NpmRunBuild ;;
       log "✅ Build completado")
      (fun message => throw ("Error en build: " ++ message))
  else
    log "ℹ️  No hay script de build definido - omitiendo".

(** [versioning(releaseType)]: the branch is taken on the output of
    [git tag -l]. *)
Definition versioning (releaseType : string) : Js unit :=
  log "=== PASO 4: Versionado ===" ;;
  out <- execSync NpmPkgGetVersion ;;
  let currentVersion := removeQuotes (trim out) in
  update_report (set_r_version (Some currentVersion)) ;;
  out <- execSync (GitTagList ("v" ++ currentVersion)) ;;
  let existingTags := trim out in
  if truthy existingTags then
    log ("✅ Usando versión existente: " ++ currentVersion ++ " (tag ya existe)")
  else
    log ("🔢 Incrementando versión " ++ releaseType ++ ": " ++ currentVersion) ;;
    execSync (NpmVersion releaseType) ;;
    out <- execSync NpmPkgGetVersion ;;
    let newVersion := removeQuotes (trim out) in
    update_report (set_r_version (Some newVersion)) ;;
    log ("✅ Versión incrementada: " ++ currentVersion ++ " → " ++ newVersion).

(** [commitAndTag()] *)
Definition commitAndTag : Js unit :=
  log "=== PASO 6: Commit y tag ===" ;;
  execSync GitAddAll ;;
  out <- execSync GitStatus ;;
  let gitStatus := trim out in
  if negb (truthy gitStatus) then
    log "ℹ️  No hay cambios para commitear"
  else
    r <- get_report ;;
    let v := show (r_version r) in
    let commitMessage := "chore(release): v" ++ v in
    try_catch
      (execSync (GitCommit false commitMessage) ;; ret tt)
      (fun message =>
         if includes message "pre-commit" then
           warn "Hook pre-commit no encontrado - usando --no-verify" ;;
           execSync (GitCommit true commitMessage) ;;
           update_report (push_issue "Hooks de pre-commit no ejecutados") ;;
           update_report (push_solution "Se recomienda ejecutar hooks de calidad manualmente")
         else throw message) ;;
    out <- execSync (GitTagList ("v" ++ v)) ;;
    let existingTags := trim out in
    (if truthy existingTags then
       log ("ℹ️  Tag v" ++ v ++ " ya existe - omitiendo creación")
     else
       execSync (GitTagAnnotated ("v" ++ v) ("Release v" ++ v)) ;;
       log ("✅ Tag creado: v" ++ v)) ;;
    log ("✅ Commit procesado: " ++ commitMessage).

(** [push()]: both pushes sit in one [try]; either failure is rethrown. *)
Definition push : Js unit :=
  log "=== PASO 7: Push ===" ;;
  m <- gets this ;;
  try_catch
    (execSync (GitPush (show (currentBranch m))) ;;
     log "✅ Push de commits completado" ;;
     execSync GitPushTags ;;
     log "✅ Push de tags completado")
    (fun message => throw ("Error en push: " ++ message)) ;;
  out <- execSync GitRevParseHead ;;
  update_report (set_commitSha (trim out)).

(** [!process.env.NPM_TOKEN] *)
Definition token_missing : bool :=
  match NPM_TOKEN env with
  | Some t => negb (truthy t)
  | None => true
  end.

(** [publishToNpm()] *)
Definition publishToNpm : Js unit :=
  log "=== PASO 8: Publicación en npmjs ===" ;;
  if token_missing then
    throw "Variable de entorno NPM_TOKEN no configurada"
  else
    try_catch
      (execSync NpmPublish ;;
       packageJson <- readPackageJson ;;
       update_report (push_registryUrl ("https://www.npmjs.com/package/" ++ name packageJson)) ;;
       log "✅ Publicación en npm completada")
      (fun message => throw ("Error publicando en npm: " ++ message)).

(** [publishToGitHub()] *)
Definition publishToGitHub : Js unit :=
  log "=== PASO 9: Publicación en GitHub Packages ===" ;;
  packageJson <- readPackageJson ;;
  if includes (name packageJson) "/" then
    present <- existsSync ".npmrc" ;;
    if present then
      npmrcContent <- readFileSync ".npmrc" ;;
      if includes npmrcContent "npm.pkg.github.com" then
        try_catch
          (execSync NpmPublishGitHub ;;
           update_report (push_registryUrl "https://github.com/jhonma82/create-python-modern/packages") ;;
           log "✅ Publicación en GitHub Packages completada")
          (fun message =>
             warn ("Error publicando en GitHub Packages: " ++ message) ;;
             update_report (push_issue "Error en publicación de GitHub Packages") ;;
             update_report (push_solution "Verificar configuración de autenticación de GitHub"))
      else
        warn "Archivo .npmrc no configurado correctamente para GitHub Packages" ;;
        update_report (push_issue ".npmrc sin configuración de GitHub Packages") ;;
        update_report (push_solution "Agregar configuración de registry en .npmrc")
    else
      warn "Archivo .npmrc no encontrado para GitHub Packages" ;;
      update_report (push_issue "Archivo .npmrc no encontrado") ;;
      update_report (push_solution "Crear .npmrc con configuración de GitHub Packages")
  else
    warn "Paquete sin scope - omitiendo GitHub Packages según instrucciones".

(** The [while (retries > 0 && !npmVersion)] loop of [verification];
    [retries] is the counter before the attempt. *)
Fixpoint queryVersion (pkg : string) (retries : nat) : Js (option string) :=
  match retries with
  | 0 => ret None
  | S remaining =>
      try_catch
        (out <- execSync (NpmViewVersion pkg) ;; ret (Some (trim out)))
        (fun message =>
           if Nat.ltb 0 remaining then
             log ("⏳ Esperando propagación en npm... ("
                  ++ Semver.string_of_nat (3 - remaining) ++ "/3)") ;;
             sleep 5000 ;;
             queryVersion pkg remaining
           else
             throw ("No se pudo verificar la publicación en npm: " ++ message))
  end.

(** [verification()] *)
Definition verification : Js unit :=
  log "=== PASO 10: Verificación ===" ;;
  packageJson <- readPackageJson ;;
  npmVersion <- queryVersion (name packageJson) 3 ;;
  r <- get_report ;;
  if negb (option_eqb npmVersion (r_version r)) then
    throw ("Versión en npm (" ++ show npmVersion ++ ") no coincide con versión local ("
           ++ show (r_version r) ++ ")")
  else
    log ("✅ Versión verificada en npm: " ++ show npmVersion) ;;
    try_catch
      (out <- execSync (NpmView (name packageJson)) ;;
       update_report (set_packageInfo (trim out)))
      (fun message =>
         warn ("No se pudo obtener información completa del paquete: " ++ message) ;;
         update_report (set_packageInfo "Información no disponible")).

(** The steps of the [try] block of [run], up to the report. *)
Definition steps (releaseType : string) : Js unit :=
  preVerification ;;
  dependenciesAndTests ;;
  build ;;
  versioning releaseType ;;
  updateChangelog env ;;
  commitAndTag ;;
  push ;;
  publishToNpm ;;
  publishToGitHub ;;
  verification.

Fixpoint log_each (l : list string) : Js unit :=
  match l with
  | [] => ret tt
  | url :: rest => log ("   - " ++ url) ;; log_each rest
  end.

(** [run(releaseType = 'patch')]: the [catch] records the error, writes
    the report and rethrows. *)
Definition run (arg : option string) : Js unit :=
  let releaseType := match arg with Some k => k | None => "patch" end in
  try_catch
    (steps releaseType ;;
     generateReport env ;;
     log "🎉 ¡Proceso de liberación completado exitosamente!" ;;
     r <- get_report ;;
     log ("Versión publicada: " ++ show (r_version r)) ;;
     log ("Commit: " ++ show (commitSha r)) ;;
     if Nat.ltb 0 (List.length (registryUrls r)) then
       log "📦 Paquete disponible en:" ;;
       log_each (registryUrls r)
     else ret tt)
    (fun message =>
       error ("Error en el proceso: " ++ message) ;;
       generateReport env ;;
       throw message).

(** The entry point: [process.argv[2] || 'patch'], a fresh manager, and
    the exit code. *)
Definition main (argv2 : option string) (w : World) : nat * State :=
  let releaseType := or_else (match argv2 with Some a => a | None => "" end) "patch" in
  match run (Some releaseType) {| this := new_manager env; world := w |} with
  | (Return _, s) => (0, s)
  | (Throw message, s) =>
      (1, with_world (record (Console Stderr ("❌ Proceso de liberación fallido: " ++ message))) s)
  end.

End Steps.

End ReleaseFixed.

(** ** [test-release.js]

    The script that checks, without changing anything, whether a release
    can be started. *)

Module TestRelease.
Import Model Js.
Local Open Scope js_scope.

Section Checks.
Variable env : Env.

Local Abbreviation execSync := (Js.execSync env).
Local Abbreviation say := (console Stdout).

(** [!process.env.NPM_TOKEN], after [config()] has loaded [.env] *)
Definition token_missing : bool :=
  match NPM_TOKEN env with
  | Some t => negb (truthy t)
  | None => true
  end.

(** The body of the [try] block. *)
Definition checks : Js unit :=
  say "1️⃣  Verificando NPM_TOKEN..." ;;
  if token_missing then throw "NPM_TOKEN no encontrado en .env"
  else
    say ("✅ NPM_TOKEN encontrado" ++ nl) ;;
    say "2️⃣  Verificando rama actual..." ;;
    out <- execSync GitCurrentBranch ;;
    let branch := trim out in
    if negb (branch =? "master") && negb (branch =? "main") then
      throw ("Rama incorrecta: " ++ branch)
    else
      say ("✅ Rama correcta: " ++ branch ++ nl) ;;
      say "3️⃣  Verificando estado del repositorio..." ;;
      out <- execSync GitStatus ;;
      let gitStatus := trim out in
      if truthy gitStatus then
        say "⚠️  Cambios detectados:" ;;
        say gitStatus ;;
        say (nl ++ "💡 Necesitas hacer commit de los cambios primero:") ;;
        say "   git add ." ;;
        say ("   git commit -m " ++ dq ++ "tu mensaje" ++ dq) ;;
        throw "Hay cambios sin commitear"
      else
        say ("✅ Repositorio limpio" ++ nl) ;;
        say "4️⃣  Verificando package.json..." ;;
        packageJson <- readPackageJson ;;
        if negb (Semver.versionRegex_test (version packageJson)) then
          throw ("Versión inválida: " ++ version packageJson)
        else
          say ("✅ Versión válida: " ++ version packageJson ++ nl) ;;
          say "5️⃣  Verificando tags existentes..." ;;
          try_catch
            (execSync (GitTagList ("v" ++ version packageJson)) ;;
             say ("✅ Tag v" ++ version packageJson ++ " ya existe" ++ nl))
            (fun _ =>
               say ("ℹ️  Tag v" ++ version packageJson ++ " no existe (se creará)" ++ nl)) ;;
          say "🎉 ¡Todas las verificaciones pasaron exitosamente!" ;;
          say (nl ++ "🚀 El script de release está listo para ejecutarse.") ;;
          say "Ejecuta: npm run release".

(** The script: the exit code and the state it leaves. *)
Definition main (s : State) : nat * State :=
  match (say ("🔍 [TEST] Iniciando verificación del script de release..." ++ nl) ;;
         checks) s with
  | (Return _, s') => (0, s')
  | (Throw message, s') =>
      (1, with_world (record (Console Stderr ("❌ ERROR: " ++ message))) s')
  end.

End Checks.

End TestRelease.

(** ** Concrete surroundings, for running the scripts *)

Module Examples.
Import Model Js.

Definition pkg (v : string) : Manifest :=
  {| name := "create-python-modern"; version := v; scripts_build := false;
     other := "" |}.

(** Every tool works; the branch is [master]; the registry answers with
    [published]. *)
Definition calm (published : string) : Env :=
  {| NPM_TOKEN := Some "npm_s3cr3t";
     fails := fun _ _ => None;
     stdout := fun c =>
       match c with
       | GitCurrentBranch => "master" ++ nl
       | GitRevList => "4f2a9c1" ++ nl
       | GitRevParseHead => "4f2a9c1" ++ nl
       | NpmViewVersion _ => published ++ nl
       | NpmView _ => "create-python-modern@" ++ published
       | _ => ""
       end;
     normalize := fun m => m;
     npm_version_other := fun _ _ => None;
     npm_git := fun _ _ => None;
     ignored := fun p => p =? "report.md";
     now := "2025-09-14T10:00:00.000Z" |}.

Definition with_stdout (f : Cmd -> string) (env : Env) : Env :=
  {| NPM_TOKEN := NPM_TOKEN env; fails := fails env; stdout := f;
     normalize := normalize env; npm_version_other := npm_version_other env;
     npm_git := npm_git env;
     ignored := ignored env; now := now env |}.

Definition with_fails (f : nat -> Cmd -> option string) (env : Env) : Env :=
  {| NPM_TOKEN := NPM_TOKEN env; fails := f; stdout := stdout env;
     normalize := normalize env; npm_version_other := npm_version_other env;
     npm_git := npm_git env;
     ignored := ignored env; now := now env |}.


Definition with_normalize (f : Manifest -> Manifest) (env : Env) : Env :=
  {| NPM_TOKEN := NPM_TOKEN env; fails := fails env; stdout := stdout env;
     normalize := f; npm_version_other := npm_version_other env;
     npm_git := npm_git env;
     ignored := ignored env; now := now env |}.

(** The checkout stands on another branch. *)
Definition on_branch (b : string) (env : Env) : Env :=
  with_stdout (fun c => match c with
                        | GitCurrentBranch => b ++ nl
                        | _ => stdout env c
                        end) env.

(** One command fails whenever it is issued. *)
Definition failing (bad : Cmd -> bool) (env : Env) : Env :=
  with_fails (fun n c => if bad c then Some ("Command failed: " ++ render c)
                         else fails env n c) env.

(** The test command fails; everything else works. *)
Definition tests_failing (published : string) : Env :=
  failing (fun c => match c with NpmTest => true | _ => false end) (calm published).

(** Pushing the tags fails; everything else works. *)
Definition tags_push_failing (published : string) : Env :=
  failing (fun c => match c with GitPushTags => true | _ => false end) (calm published).

Definition changelog0 : string :=
  "# Changelog" ++ nl ++ nl
  ++ "## [1.0.0] - 2025-09-01" ++ nl ++ nl
  ++ "### Added" ++ nl ++ "- Initial public release" ++ nl.

(** A clean checkout at version [v] with the given tags and commits. *)
Definition checkout (v : string) (tags commits : list string) : World :=
  {| manifest := pkg v;
     files := fun p => if p =? "CHANGELOG.md" then Some changelog0 else None;
     dirty := []; commits := commits; tags := tags; trace := []; clock := 0 |}.

(** The state [main] starts [run] in. *)
Definition fresh (env : Env) (w : World) : State :=
  {| this := new_manager env; world := w |}.

Definition report_file (s : State) : string :=
  match files (world s) "report.md" with Some c => c | None => "" end.

(** The state before the changelog step of a release of 1.0.1. *)
Definition changelog_state : State :=
  with_this (with_report (set_r_version (Some "1.0.1")))
    (fresh (calm "1.0.1") (checkout "1.0.1" [] [])).

(** A changelog that opens with a version heading, without title block. *)
Definition bare_changelog : string :=
  "## [1.0.0] - 2025-09-01" ++ nl ++ "- Initial public release" ++ nl.

Definition bare_state : State :=
  with_world (set_files (fun p => if p =? "CHANGELOG.md" then Some bare_changelog else None))
    changelog_state.

(** [npm pkg fix] rewrites the rest of the manifest. *)
Definition untidy (published : string) : Env :=
  with_normalize
    (fun m => {| name := name m; version := version m;
                 scripts_build := scripts_build m;
                 other := "repository: normalised" |})
    (calm published).

(** A checkout on which the release of 1.0.1 has already been made. *)
Definition released_checkout : World :=
  checkout "1.0.1" ["v1.0.1"; "v1.0.0"]
    ["chore(release): v1.0.1"; "chore(release): v1.0.0"].

(** The changelog a run leaves. *)
Definition changelog_file (s : State) : string :=
  match files (world s) "CHANGELOG.md" with Some c => c | None => "" end.


(** The state before the changelog step when no [CHANGELOG.md] exists. *)
Definition without_changelog : State :=
  with_world (set_files (fun _ => None)) changelog_state.

(** GitHub Packages refuses the publication; everything else works. *)
Definition github_failing (published : string) : Env :=
  failing (fun c => match c with NpmPublishGitHub => true | _ => false end) (calm published).

(** A clean checkout of a scoped package at version [v], with an
    [.npmrc] that names GitHub Packages. *)
Definition scoped_checkout (v : string) : World :=
  {| manifest := {| name := "@jhonma82/create-python-modern"; version := v;
                    scripts_build := false; other := "" |};
     files := fun p =>
       if p =? ".npmrc" then Some ("@jhonma82:registry=https://npm.pkg.github.com" ++ nl)
       else if p =? "CHANGELOG.md" then Some changelog0 else None;
     dirty := []; commits := []; tags := []; trace := []; clock := 0 |}.

(** The shell is handed the kind [patch #]: it takes what follows [#]
    for a comment, so [npm version] bumps the patch level and, not seeing
    [--no-git-tag-version], commits with the version as message and tags
    the commit. *)
Definition spliced (published : string) : Env :=
  {| NPM_TOKEN := NPM_TOKEN (calm published);
     fails := fails (calm published);
     stdout := stdout (calm published);
     normalize := normalize (calm published);
     npm_version_other := fun k v => if k =? "patch #" then Semver.bump "patch" v else None;
     npm_git := fun k v' => if k =? "patch #" then Some (v', "v" ++ v') else None;
     ignored := ignored (calm published);
     now := now (calm published) |}.

End Examples.

(** ** Vocabulary of the statements *)

Module Spec.
Import Model Js.
Local Open Scope js_scope.

(** [m] relates every start state to its end state by [R], whether it
    returns or throws. *)
Definition pres (R : State -> State -> Prop) {A} (m : Js A) : Prop :=
  forall s, R s (snd (m s)).


Definition is_report_write (e : Event) : bool :=
  match e with WriteFile p _ => p =? "report.md" | _ => false end.

Definition is_publish (e : Event) : bool :=
  match e with
  | Exec NpmPublish _ | Exec NpmPublishGitHub _ => true
  | _ => false
  end.

Definition is_failed_push (e : Event) : bool :=
  match e with
  | Exec (GitPush _) false | Exec GitPushTags false => true
  | _ => false
  end.

(** Commands that change the repository, the remote or the registry. *)
Definition is_repo_change (e : Event) : bool :=
  match e with
  | Exec (GitCommit _ _) _ | Exec (GitTagAnnotated _ _) _
  | Exec (GitPush _) _ | Exec GitPushTags _
  | Exec NpmPublish _ | Exec NpmPublishGitHub _ => true
  | _ => false
  end.

(** The test command exiting with a failure. *)
Definition is_failed_test (e : Event) : bool :=
  match e with Exec NpmTest false => true | _ => false end.

Definition nothing (e : Event) : bool := false.


(** [keeps P s s']: from [s] to [s'] the recorded errors are the same,
    warnings were only appended, no event selected by [P] happened, and
    the trace was only extended. *)
Definition keeps (P : Event -> bool) (s s' : State) : Prop :=
  errors (this s') = errors (this s)
  /\ (exists l, warnings (this s') = (warnings (this s) ++ l)%list)
  /\ filter P (trace (world s')) = filter P (trace (world s))
  /\ (exists new, trace (world s') = (new ++ trace (world s))%list).


(** Events that no step before the push produces, the tests apart. *)
Definition absent_before_push : list (Event -> bool) :=
  [is_report_write; is_publish; is_failed_push; is_failed_test; nothing].

(** Events that the dependencies-and-tests step does not produce. *)
Definition absent_in_tests : list (Event -> bool) :=
  [is_report_write; is_publish; is_failed_push; nothing].

(** Events that the push step does not produce. *)
Definition absent_in_push : list (Event -> bool) :=
  [is_report_write; is_publish; is_failed_test; nothing].

(** Events that no step after the push produces. *)
Definition absent_after_push : list (Event -> bool) :=
  [is_report_write; is_failed_push; is_failed_test; nothing].

(** Events that no numbered step produces. *)
Definition absent_in_steps : list (Event -> bool) :=
  [is_report_write; nothing].

(** Events that the report generation does not produce. *)
Definition absent_in_report : list (Event -> bool) :=
  [is_publish; is_failed_push; is_failed_test; is_repo_change; nothing].

(** Events that are not console lines. *)
Definition absent_in_console : list (Event -> bool) :=
  [is_report_write; is_publish; is_failed_push; is_failed_test;
   is_repo_change; nothing].


Definition report_writes (s : State) : list Event :=
  filter is_report_write (trace (world s)).

Definition events_of (P : Event -> bool) (s : State) : list Event :=
  filter P (trace (world s)).


(** What stays when only console lines are printed. *)
Definition printed_only (s s' : State) : Prop :=
  this s' = this s
  /\ files (world s') = files (world s)
  /\ report_writes s' = report_writes s.


(** The closing lines of the reworked [run], after the report. *)
Definition epilogue (env : Env) : Js unit :=
  Js.log env "🎉 ¡Proceso de liberación completado exitosamente!" ;;
  r <- get_report ;;
  Js.log env ("Versión publicada: " ++ show (r_version r)) ;;
  Js.log env ("Commit: " ++ show (commitSha r)) ;;
  if Nat.ltb 0 (List.length (registryUrls r)) then
    Js.log env "📦 Paquete disponible en:" ;;
    ReleaseFixed.log_each env (registryUrls r)
  else ret tt.

(** The part of [updateChangelog] that follows the collection of the
    changes. *)
Definition writeEntry (env : Env) (changes : list string) : Js unit :=
  (if Nat.eqb (List.length changes) 0
   then warn "No se encontraron cambios desde el último tag"
   else ret tt) ;;
  present <- existsSync "CHANGELOG.md" ;;
  changelog <- (if present then readFileSync "CHANGELOG.md" else ret "") ;;
  r <- get_report ;;
  let newEntry := Changelog.newEntry (show (r_version r)) (today env) changes in
  writeFileSync env "CHANGELOG.md" (Changelog.insertEntry changelog newEntry) ;;
  Js.log env "✅ CHANGELOG.md actualizado".

(** Same files, same report. *)
Definition undisturbed (s s' : State) : Prop :=
  files (world s') = files (world s) /\ report (this s') = report (this s).

Definition tests_warning : string :=
  "Paquete sin tests configurados - continuando con advertencia".


(** The line [log(message)] prints. *)
Definition logged (env : Env) (message : string) : Event :=
  Console Stdout ("[" ++ now env ++ "] " ++ message).


(** What follows the tests in the [try] block of [scripts/release.js]. *)
Definition original_after_tests (env : Env) (releaseType : string) : Js unit :=
  console Stdout "🔨 DEBUG: Ejecutando build()" ;;
  Release.build env ;;
  console Stdout "🔢 DEBUG: Ejecutando versioning()" ;;
  Release.versioning env releaseType ;;
  console Stdout "📝 DEBUG: Ejecutando updateChangelog()" ;;
  updateChangelog env ;;
  console Stdout "💾 DEBUG: Ejecutando commitAndTag()" ;;
  Release.commitAndTag env ;;
  console Stdout "⬆️  DEBUG: Ejecutando push()" ;;
  Release.push env ;;
  console Stdout "📤 DEBUG: Ejecutando publishToNpm()" ;;
  Release.publishToNpm env ;;
  console Stdout "📥 DEBUG: Ejecutando publishToGitHub()" ;;
  Release.publishToGitHub env ;;
  console Stdout "✅ DEBUG: Ejecutando verification()" ;;
  Release.verification env.


Definition inv (I : State -> Prop) {A} (m : Js A) : Prop :=
  forall s, I s -> I (snd (m s)).


(** A failed test run leaves its warning. *)
Definition test_warned (s : State) : Prop :=
  events_of is_failed_test s <> [] -> In tests_warning (warnings (this s)).


(** After a failed test run the build step has been entered. *)
Definition build_seen (env : Env) (s : State) : Prop :=
  events_of is_failed_test s <> [] ->
  In (logged env "=== PASO 3: Build ===") (trace (world s)).


Definition returns_mark {A} (m : Js A) (e : Event) : Prop :=
  forall s a, fst (m s) = Return a -> In e (trace (world (snd (m s)))).

(** The steps of the reworked script before the push, followed by [rest]. *)
Definition fixed_until_push (env : Env) (releaseType : string) (rest : Js unit) : Js unit :=
  ReleaseFixed.preVerification env ;;
  ReleaseFixed.dependenciesAndTests env ;;
  ReleaseFixed.build env ;;
  ReleaseFixed.versioning env releaseType ;;
  updateChangelog env ;;
  ReleaseFixed.commitAndTag env ;;
  rest.

(** The steps of the reworked script after the push. *)
Definition fixed_after_push (env : Env) : Js unit :=
  ReleaseFixed.publishToNpm env ;;
  ReleaseFixed.publishToGitHub env ;;
  ReleaseFixed.verification env.

(** [m1 ;; m2 ;; ... ;; rest] *)
Definition seq (ms : list (Js unit)) (rest : Js unit) : Js unit :=
  fold_right (fun m k => m ;; k) rest ms.

(** Neither a failed push nor a publication. *)
Definition unpublished (s s' : State) : Prop :=
  keeps is_failed_push s s' /\ keeps is_publish s s'.

(** Every tool starts and exits normally whenever it is run. *)
Definition tools_ok (env : Env) : Prop := forall n c, fails env n c = None.

(** The branch test of pre-verification. *)
Definition wrong_branch (env : Env) : bool :=
  let branch := trim (stdout env GitCurrentBranch) in
  negb (branch =? "master") && negb (branch =? "main").

(** Commands and writes that change the working tree, the repository, the
    remote or the registry. *)
Definition is_mutation (e : Event) : bool :=
  match e with
  | WriteFile _ _ => true
  | Exec c _ =>
      match c with
      | NpmPkgFix | NpmCi | NpmRunBuild | NpmVersion _ | GitAddAll
      | GitCommit _ _ | GitTagAnnotated _ _ | GitPush _ | GitPushTags
      | NpmPublish | NpmPublishGitHub => true
      | _ => false
      end
  | _ => false
  end.

(** The world apart from the trace and the clock. *)
Definition same_tree (s s' : State) : Prop :=
  manifest (world s') = manifest (world s)
  /\ files (world s') = files (world s)
  /\ dirty (world s') = dirty (world s)
  /\ commits (world s') = commits (world s)
  /\ tags (world s') = tags (world s).

(** The repository and the files apart from [package.json]. *)
Definition same_repo (s s' : State) : Prop :=
  files (world s') = files (world s)
  /\ commits (world s') = commits (world s)
  /\ tags (world s') = tags (world s).

(** The state in which [run] of [scripts/release.js] enters
    pre-verification: two lines have been printed. *)
Definition original_entry (arg : option string) (s : State) : State :=
  with_world
    (record (Console Stdout "🚀 DEBUG: Ejecutando preVerification()"))
    (with_world
       (record (Console Stdout
                  ("🔍 DEBUG: Iniciando run() con releaseType: "
                   ++ match arg with Some k => k | None => "patch" end)))
       s).

(** Pre-verification threw at [entry], [run] threw with it, nothing in the
    tree or the repository has changed, no changing command was issued
    up to the failure, and no commit, tag, push or publish command in the
    whole run. *)
Definition aborted_untouched (pre : Js unit) (result : Outcome unit * State)
    (entry : State) : Prop :=
  (exists e, fst (pre entry) = Throw e /\ fst result = Throw e)
  /\ same_tree entry (snd (pre entry))
  /\ events_of is_mutation (snd (pre entry)) = []
  /\ events_of is_repo_change (snd result) = [].

(** Pre-verification threw at [entry] after [npm pkg fix], the one
    changing command issued, rewrote the manifest; [run] threw with it;
    files, commits and tags are unchanged and no commit, tag, push or
    publish command was issued in the whole run. *)
Definition aborted_after_fix (env : Env) (pre : Js unit)
    (result : Outcome unit * State) (entry : State) : Prop :=
  (exists e, fst (pre entry) = Throw e /\ fst result = Throw e)
  /\ manifest (world (snd (pre entry))) = normalize env (manifest (world entry))
  /\ same_repo entry (snd (pre entry))
  /\ events_of is_mutation (snd (pre entry)) = [Exec NpmPkgFix true]
  /\ events_of is_repo_change (snd result) = [].

(** [wp m Q E s]: run from [s], [m] returns some [a] in a state where
    [Q a] holds, or throws some [e] in a state where [E e] holds. *)
Definition wp {A} (m : Js A) (Q : A -> State -> Prop) (E : string -> State -> Prop)
    (s : State) : Prop :=
  match m s with
  | (Return a, s') => Q a s'
  | (Throw e, s') => E e s'
  end.

(** The manifest is at version [v], the tags are [T], the commits [C]. *)
Definition released (v : string) (T C : list string) (s : State) : Prop :=
  version (manifest (world s)) = v /\ tags (world s) = T /\ commits (world s) = C.

(** As [released], with at most one more commit, the release commit of
    [v]. *)
Definition recommitted (v : string) (T C : list string) (s : State) : Prop :=
  version (manifest (world s)) = v /\ tags (world s) = T
  /\ (commits (world s) = C \/ commits (world s) = ("chore(release): v" ++ v) :: C).

(** Digits and dots only. *)
Fixpoint all_plain (s : string) : bool :=
  match s with
  | EmptyString => true
  | String c r => (is_digit c || Ascii.eqb c Semver.dot_char) && all_plain r
  end.

(** Same manifest, tags, commits and reported version. *)
Definition same_release (s s' : State) : Prop :=
  manifest (world s') = manifest (world s)
  /\ tags (world s') = tags (world s)
  /\ commits (world s') = commits (world s)
  /\ r_version (report (this s')) = r_version (report (this s)).

(** Commands that leave the manifest, the commits and the tags alone. *)
Definition is_query (c : Cmd) : bool :=
  match c with
  | NpmPkgFix | NpmVersion _ | GitCommit _ _ | GitTagAnnotated _ _ => false
  | _ => true
  end.

(** Same manifest, files, changed paths, commits, tags and reported
    version; the trace extended. *)
Definition carried (s s' : State) : Prop :=
  manifest (world s') = manifest (world s)
  /\ files (world s') = files (world s)
  /\ dirty (world s') = dirty (world s)
  /\ commits (world s') = commits (world s)
  /\ tags (world s') = tags (world s)
  /\ r_version (report (this s')) = r_version (report (this s))
  /\ exists new, trace (world s') = (new ++ trace (world s))%list.

(** The changelog file is the same and the trace was only extended. *)
Definition settled (s s' : State) : Prop :=
  files (world s') "CHANGELOG.md" = files (world s) "CHANGELOG.md"
  /\ exists new, trace (world s') = (new ++ trace (world s))%list.

(** Paths that were changed stay changed. *)
Definition still_dirty (s s' : State) : Prop :=
  forall p, In p (dirty (world s)) -> In p (dirty (world s')).

(** What the steps after the commit leave alone. *)
Definition kept (s s' : State) : Prop := same_release s s' /\ settled s s'.

(** The outcome of a release of [v'] cut from a checkout [w] whose
    changelog was [C0]: the manifest carries [v'], one tag and one commit
    were added, and the changelog has the new section. *)
Definition cut (env : Env) (w : World) (C0 v' : string) (s' : State) : Prop :=
  version (manifest (world s')) = v'
  /\ tags (world s') = ("v" ++ v') :: tags w
  /\ commits (world s') = ("chore(release): v" ++ v') :: commits w
  /\ In (Exec (GitTagAnnotated ("v" ++ v') ("Release v" ++ v')) true) (trace (world s'))
  /\ exists changes,
       files (world s') "CHANGELOG.md"
       = Some (Changelog.insertEntry C0 (Changelog.newEntry v' (today env) changes)).

Definition is_tag_query (c : Cmd) : bool :=
  match c with GitTagList _ => true | _ => false end.

(** Every tool except the tag query starts and exits normally whenever
    it is run. *)
Definition tools_work (env : Env) : Prop :=
  forall n c, is_tag_query c = false -> fails env n c = None.


(** Whether [npm version k] accepts [k] on version [v]. *)
Definition accepted (env : Env) (k v : string) : bool :=
  match npm_version env k v with Some _ => true | None => false end.

(** The trace was only extended. *)
Definition extends (s s' : State) : Prop :=
  exists new, trace (world s') = (new ++ trace (world s))%list.

Definition never {A} (_ : A) (_ : State) : Prop := False.

(** A version bump or the creation of a tag. *)
Definition is_bump_or_tag (e : Event) : bool :=
  match e with
  | Exec (NpmVersion _) _ | Exec (GitTagAnnotated _ _) _ => true
  | _ => false
  end.

Definition is_version_query (e : Event) : bool :=
  match e with Exec (NpmViewVersion _) _ => true | _ => false end.

Definition is_sleep (e : Event) : bool :=
  match e with Sleep _ => true | _ => false end.

(** What [k] failed attempts followed by the last one, [last], leave in
    the trace of [s'] on top of that of [s]: the queries, newest first,
    and one pause of five seconds after each failed attempt. *)
Definition attempted (pkg : string) (k : nat) (last : bool) (s s' : State) : Prop :=
  events_of is_version_query s'
  = (Exec (NpmViewVersion pkg) last :: repeat (Exec (NpmViewVersion pkg) false) k
     ++ events_of is_version_query s)%list
  /\ events_of is_sleep s'
     = (repeat (Sleep 5000) k ++ events_of is_sleep s)%list.

(** What [verification] of the reworked script does with the answer of
    the registry. *)
Definition compareVersion (env : Env) (pkg : string) (npmVersion : option string) : Js unit :=
  r <- get_report ;;
  if negb (option_eqb npmVersion (r_version r)) then
    throw ("Versión en npm (" ++ show npmVersion ++ ") no coincide con versión local ("
           ++ show (r_version r) ++ ")")
  else
    Js.log env ("✅ Versión verificada en npm: " ++ show npmVersion) ;;
    try_catch
      (out <- execSync env (NpmView pkg) ;;
       update_report (set_packageInfo (trim out)))
      (fun message =>
         warn ("No se pudo obtener información completa del paquete: " ++ message) ;;
         update_report (set_packageInfo "Información no disponible")).

(** Only console lines and the report file were added to the trace. *)
Definition quiet (s s' : State) : Prop :=
  forall P : Event -> bool,
    (forall st l, P (Console st l) = false) ->
    (forall c, P (WriteFile "report.md" c) = false) ->
    events_of P s' = events_of P s.

(** What the report and the closing lines leave alone. *)
Definition closing (s s' : State) : Prop :=
  same_release s s' /\ settled s s' /\ quiet s s'.

(** Printing a line does not disturb [P]. *)
Definition stable (P : State -> Prop) : Prop :=
  forall st l s, P s -> P (with_world (record (Console st l)) s).

(** Commits and tags are [C] and [T]. *)
Definition history (T C : list string) (s : State) : Prop :=
  tags (world s) = T /\ commits (world s) = C.

(** The release commit of the reported version [v] sits on the commits
    [C]; the tags are [T]. *)
Definition committed (T C : list string) (v : string) (s : State) : Prop :=
  r_version (report (this s)) = Some v
  /\ commits (world s) = ("chore(release): v" ++ v) :: C
  /\ tags (world s) = T.

(** On top of the commits [C] and the tags [T] there is nothing new, or
    the release commit of the reported version, alone or with the tag of
    that version. *)
Definition at_most_one_release (T C : list string) (s : State) : Prop :=
  history T C s
  \/ exists v,
       r_version (report (this s)) = Some v
       /\ commits (world s) = ("chore(release): v" ++ v) :: C
       /\ (tags (world s) = T \/ tags (world s) = ("v" ++ v) :: T).

(** Commands whose failure the reworked script catches without
    rethrowing. *)
Definition fixed_tolerates (c : Cmd) : bool :=
  match c with
  | NpmTest | GitDescribe | GitCommit false _ | NpmPublishGitHub
  | NpmViewVersion _ | NpmView _ => true
  | _ => false
  end.

(** Commands whose failure [scripts/release.js] catches without
    rethrowing. *)
Definition original_tolerates (c : Cmd) : bool :=
  match c with
  | NpmTest | GitTagList _ | GitDescribe | GitCommit false _ | GitPushTags => true
  | _ => false
  end.

(** A command that exited with a failure and is not among [tolerates]. *)
Definition is_failure_outside (tolerates : Cmd -> bool) (e : Event) : bool :=
  match e with Exec c false => negb (tolerates c) | _ => false end.

(** When [m] returns, no event selected by [P] has happened. *)
Definition survives (P : Event -> bool) {A} (m : Js A) : Prop :=
  forall s, wp m (fun _ s' => events_of P s' = events_of P s) (fun _ _ => True) s.

Definition is_branch_push (e : Event) : bool :=
  match e with Exec (GitPush _) _ => true | _ => false end.

(** A push of a branch other than [b]. *)
Definition is_push_of_other (b : string) (e : Event) : bool :=
  match e with Exec (GitPush b') _ => negb (b' =? b) | _ => false end.

Definition same_branch (s s' : State) : Prop :=
  currentBranch (this s') = currentBranch (this s).

(** The branch recorded by pre-verification is [b], one of the two
    release branches. *)
Definition on_release_branch (b : string) (s : State) : Prop :=
  currentBranch (this s) = Some b /\ (b = "master" \/ b = "main").

(** [npm ci] has exited normally. *)
Definition installed (s : State) : Prop :=
  In (Exec NpmCi true) (trace (world s)).

(** A branch and the tags have been pushed, both commands exiting
    normally. *)
Definition pushed (s : State) : Prop :=
  (exists b, In (Exec (GitPush b) true) (trace (world s)))
  /\ In (Exec GitPushTags true) (trace (world s)).

Definition is_github_publish (e : Event) : bool :=
  match e with Exec NpmPublishGitHub _ => true | _ => false end.

(** [process.env.NPM_TOKEN] is a non-empty string. *)
Definition token_set (env : Env) : Prop :=
  exists t, NPM_TOKEN env = Some t /\ truthy t = true.

(** No publish command has been issued, or the token is set, [G] holds,
    and the publication to GitHub Packages, if issued, came after a
    successful publication to npm. *)
Definition published_behind (env : Env) (G : State -> Prop) (s : State) : Prop :=
  events_of is_publish s = []
  \/ (token_set env /\ G s
      /\ (events_of is_github_publish s = []
          \/ In (Exec NpmPublish true) (trace (world s)))).

(** The publication to npm has succeeded, with the token set and [G]. *)
Definition npm_published (env : Env) (G : State -> Prop) (s : State) : Prop :=
  token_set env /\ G s /\ In (Exec NpmPublish true) (trace (world s)).

(** [G] stays once it holds, whatever is added to the trace. *)
Definition lasting (G : State -> Prop) : Prop :=
  forall s s', G s -> extends s s' -> G s'.

(** Three non-empty runs of digits joined by dots: the language of
    [/^\d+\.\d+\.\d+$/]. *)
Definition plain_version (v : string) : Prop :=
  exists a b c,
    Semver.digits1 a = true /\ Semver.digits1 b = true /\ Semver.digits1 c = true
    /\ v = a ++ "." ++ b ++ "." ++ c.

(** The queries for what changed since the last tag. *)
Definition is_history_query (e : Event) : bool :=
  match e with
  | Exec (GitLog _) _ | Exec GitDiffCached _ => true
  | _ => false
  end.

(** Same package name in the manifest. *)
Definition same_name (s s' : State) : Prop :=
  name (manifest (world s')) = name (manifest (world s)).

(** A publication that succeeded. *)
Definition is_published (e : Event) : bool :=
  match e with
  | Exec NpmPublish true | Exec NpmPublishGitHub true => true
  | _ => false
  end.

(** The address the scripts record for a publication; [n] is the package
    name. *)
Definition registry_url (n : string) (e : Event) : string :=
  match e with
  | Exec NpmPublish _ => "https://www.npmjs.com/package/" ++ n
  | _ => "https://github.com/jhonma82/create-python-modern/packages"
  end.

(** The report lists the registries of the publications that succeeded,
    in the order they were made. *)
Definition urls_match (n : string) (s : State) : Prop :=
  registryUrls (report (this s))
  = map (registry_url n) (rev (events_of is_published s)).

(** The report apart from its status and its issues. *)
Definition same_findings (s s' : State) : Prop :=
  exists st l, report (this s') = set_status_issues st l (report (this s)).

Definition same_urls (s s' : State) : Prop :=
  registryUrls (report (this s')) = registryUrls (report (this s)).

(** No registry is listed and no publication has succeeded. *)
Definition unlisted (s : State) : Prop :=
  registryUrls (report (this s)) = [] /\ events_of is_published s = [].

Definition is_commit (e : Event) : bool :=
  match e with Exec (GitCommit _ _) _ => true | _ => false end.

(** The commit commands a run has issued, newest first: none; or the
    plain commit (which has succeeded, when [strict]); or the plain
    commit, failed with a message that mentions [pre-commit], and then
    the commit with [--no-verify].  The message is that of the release
    of the reported version. *)
Definition commit_attempts (env : Env) (strict : bool) (s : State) : Prop :=
  let m := "chore(release): v" ++ show (r_version (report (this s))) in
  events_of is_commit s = []
  \/ (exists ok, events_of is_commit s = [Exec (GitCommit false m) ok]
                 /\ (strict = true -> ok = true))
  \/ (exists ok n msg,
        events_of is_commit s
        = [Exec (GitCommit true m) ok; Exec (GitCommit false m) false]
        /\ (strict = true -> ok = true)
        /\ fails env n (GitCommit false m) = Some msg
        /\ includes msg "pre-commit" = true).

Definition same_version (s s' : State) : Prop :=
  r_version (report (this s')) = r_version (report (this s)).

(** Step 9 has published to GitHub Packages and recorded no warning. *)
Definition github_published (s s' : State) : Prop :=
  events_of is_github_publish s'
  = Exec NpmPublishGitHub true :: events_of is_github_publish s
  /\ warnings (this s') = warnings (this s).

(** Step 9 has issued no publication and recorded one warning. *)
Definition github_skipped (s s' : State) : Prop :=
  events_of is_github_publish s' = events_of is_github_publish s
  /\ exists w, warnings (this s') = (warnings (this s) ++ [w])%list.

(** Step 9 has issued the publication, which failed, and recorded no
    warning. *)
Definition publication_failed (s s' : State) : Prop :=
  events_of is_github_publish s'
  = Exec NpmPublishGitHub false :: events_of is_github_publish s
  /\ warnings (this s') = warnings (this s).

(** Step 9 has issued the publication, which failed, and recorded one
    warning. *)
Definition publication_failed_warned (s s' : State) : Prop :=
  events_of is_github_publish s'
  = Exec NpmPublishGitHub false :: events_of is_github_publish s
  /\ exists w, warnings (this s') = (warnings (this s) ++ [w])%list.

(** Same manager, same tree and repository, and no command or write that
    changes anything. *)
Definition untouched (s s' : State) : Prop :=
  this s' = this s /\ same_tree s s'
  /\ events_of is_mutation s' = events_of is_mutation s.

(** The three queries the check script makes. *)
Definition is_check_query (c : Cmd) : bool :=
  match c with
  | GitCurrentBranch | GitStatus | GitTagList _ => true
  | _ => false
  end.

(** A command other than the three queries. *)
Definition is_other_command (e : Event) : bool :=
  match e with Exec c _ => negb (is_check_query c) | _ => false end.

(** The checks pre-verification makes on the checkout [s], [npm pkg fix]
    apart. *)
Definition checkout_ready (env : Env) (s : State) : bool :=
  negb (wrong_branch env)
  && negb (truthy (trim (porcelain (dirty (world s)))))
  && Semver.versionRegex_test (version (manifest (world s))).

Definition is_build (e : Event) : bool :=
  match e with Exec NpmRunBuild _ => true | _ => false end.

(** [npm run build] has not been issued, or [b] holds and it has been
    issued once. *)
Definition built_once (b : bool) (s : State) : Prop :=
  events_of is_build s = []
  \/ (b = true /\ exists ok, events_of is_build s = [Exec NpmRunBuild ok]).

(** The test command. *)
Definition is_test (c : Cmd) : bool :=
  match c with NpmTest => true | _ => false end.

(** Every tool except the test command starts and exits normally
    whenever it is run. *)
Definition tools_work_but_tests (env : Env) : Prop :=
  forall n c, is_test c = false -> fails env n c = None.

(** The manifest is [M] and the report holds its version. *)
Definition releasing (M : Manifest) (s : State) : Prop :=
  manifest (world s) = M /\ r_version (report (this s)) = Some (version M).

End Spec.

(** * Facts *)

Import Model Js Spec Examples.
Local Open Scope js_scope.

(** ** The changelog insertion *)

Section ChangelogFacts.
Import Changelog.

Lemma split_nonempty sep s : split sep s <> [].
Proof.
  destruct s as [|c r]; simpl; [discriminate|].
  destruct (Ascii.eqb c sep); [discriminate|].
  destruct (split sep r); discriminate.
Qed.

Lemma append_nil_r (s : string) : s ++ "" = s.
Proof. induction s; simpl; congruence. Qed.

Lemma append_assoc (a b c : string) : (a ++ b) ++ c = a ++ b ++ c.
Proof. induction a; simpl; congruence. Qed.

Lemma join_cons sep x l :
  l <> [] -> join sep (x :: l) = x ++ sep ++ join sep l.
Proof. destruct l; [congruence | reflexivity]. Qed.

(** [join] undoes [split]. *)
Lemma join_split s : join nl (split nl_char s) = s.
Proof.
  induction s as [|c r IH]; [reflexivity|].
  simpl. destruct (Ascii.eqb_spec c nl_char) as [->|Hc].
  - rewrite join_cons by apply split_nonempty. simpl. now rewrite IH.
  - pose proof (split_nonempty nl_char r) as Hne.
    destruct (split nl_char r) as [|l ls]; [congruence|].
    destruct ls as [|l' ls'].
    + simpl in *. congruence.
    + change (join nl (String c l :: l' :: ls'))
        with (String c (l ++ nl ++ join nl (l' :: ls'))).
      f_equal. exact IH.
Qed.

(** A heading prefix contains no line break, so it is seen on the first
    line of the split text exactly when it is seen on the text. *)
Lemma prefix_first_line p s :
  (forall c, In c (list_ascii_of_string p) -> c <> nl_char) ->
  String.prefix p s = String.prefix p (hd EmptyString (split nl_char s)).
Proof.
  revert s. induction p as [|a p IH]; intros s Hp.
  - destruct s; simpl; [reflexivity|]. now destruct (hd _ _).
  - destruct s as [|c r]; [reflexivity|].
    simpl split. destruct (Ascii.eqb_spec c nl_char) as [->|Hc].
    + simpl. destruct (ascii_dec a nl_char) as [E|E]; [|reflexivity].
      exfalso. apply (Hp a); [now left | exact E].
    + pose proof (split_nonempty nl_char r) as Hne.
      specialize (IH r (fun c' H => Hp c' (or_intror H))).
      destruct (split nl_char r) as [|l ls]; [congruence|].
      simpl in *. destruct (ascii_dec a c); [exact IH | reflexivity].
Qed.

Lemma heading_first_line s :
  String.prefix "## [" s
  = startsWith (hd EmptyString (split nl_char s)) "## [".
Proof.
  unfold startsWith. apply prefix_first_line.
  intros c Hc. simpl in Hc.
  intuition (subst; discriminate).
Qed.

Lemma join_cons_char c l ls :
  join nl (String c l :: ls) = String c (join nl (l :: ls)).
Proof. destruct ls; reflexivity. Qed.

Lemma cutLines_after_break X i :
  X <> [] ->
  cutLines (EmptyString :: X) (S i)
  = (String nl_char (fst (cutLines X i)), snd (cutLines X i)).
Proof.
  intros HX.
  unfold cutLines, slice_to, slice_from. simpl fst. simpl snd.
  simpl skipn. f_equal.
  destruct i as [|k].
  - reflexivity.
  - destruct X as [|x X']; [congruence|].
    change (firstn (S (S k)) (EmptyString :: x :: X'))
      with (EmptyString :: x :: firstn k X').
    change (firstn (S k) (x :: X')) with (x :: firstn k X').
    rewrite join_cons by discriminate. reflexivity.
Qed.

(** The scan of the text and the search among the split lines agree. *)
Lemma cut_split s : forall b,
  cutAtHeading b s
  = option_map (cutLines (split nl_char s)) (firstHeading b (split nl_char s)).
Proof.
  induction s as [|c r IH]; intros b.
  - simpl. now rewrite andb_false_r.
  - pose proof (heading_first_line (String c r)) as Hh.
    pose proof (join_split (String c r)) as Hj.
    cbn [cutAtHeading]. rewrite Hh.
    pose proof (split_nonempty nl_char (String c r)) as Hne.
    remember (split nl_char (String c r)) as lines eqn:El.
    destruct lines as [|l0 ls]; [congruence|].
    cbn [hd firstHeading].
    destruct (b && startsWith l0 "## [") eqn:Eb.
    + cbn [option_map]. unfold cutLines, slice_to, slice_from.
      cbn [firstn skipn Nat.eqb]. rewrite Hj. reflexivity.
    + simpl in El. destruct (Ascii.eqb_spec c nl_char) as [->|Hc].
      * injection El as -> ->.
        rewrite (IH true).
        destruct (firstHeading true (split nl_char r)) as [i|]; [|reflexivity].
        cbn [option_map].
        rewrite cutLines_after_break by apply split_nonempty.
        now destruct (cutLines (split nl_char r) i).
      * pose proof (split_nonempty nl_char r) as Hr.
        rewrite (IH false).
        destruct (split nl_char r) as [|l ls']; [congruence|].
        injection El as -> ->.
        cbn [firstHeading andb].
        destruct (firstHeading true ls') as [j|]; [|reflexivity].
        cbn [option_map]. unfold cutLines, slice_to, slice_from.
        cbn [firstn skipn Nat.eqb]. rewrite !join_cons_char. reflexivity.
Qed.

Lemma findInsertIndex_firstHeading lines : forall k,
  findInsertIndex lines k
  = match firstHeading true lines with Some i => k + i | None => 0 end.
Proof.
  induction lines as [|l rest IH]; intros k; [reflexivity|].
  cbn [findInsertIndex firstHeading andb].
  destruct (startsWith l "## ["); [now rewrite Nat.add_0_r|].
  rewrite IH. destruct (firstHeading true rest); simpl; [f_equal; lia | reflexivity].
Qed.

Lemma firstHeading_exists lines :
  existsb (fun l => startsWith l "## [") lines = true ->
  exists i, firstHeading true lines = Some i.
Proof.
  induction lines as [|l rest IH]; simpl; [discriminate|].
  destruct (startsWith l "## ["); [now exists 0|].
  simpl. intros H. destruct (IH H) as [i ->]. now exists (S i).
Qed.

(** The two parts found by the scan make up the text, and the second
    part starts with a version heading. *)
Lemma cutAtHeading_sound s : forall b h t,
  cutAtHeading b s = Some (h, t) ->
  s = h ++ t /\ startsWith t "## [" = true.
Proof.
  induction s as [|c r IH]; intros b h t; cbn [cutAtHeading].
  - rewrite andb_false_r. discriminate.
  - destruct (b && String.prefix "## [" (String c r)) eqn:Eb.
    + intros [= <- <-]. split; [reflexivity|].
      now apply andb_true_iff in Eb.
    + destruct (cutAtHeading (Ascii.eqb c nl_char) r) as [[h' t']|] eqn:Ec;
        [|discriminate].
      intros [= <- <-]. destruct (IH _ _ _ Ec) as [-> Ht].
      now split.
Qed.

End ChangelogFacts.

(** ** Reasoning about the scripts: what a computation leaves alone *)


Section Rules.
Variable R : State -> State -> Prop.
Hypothesis R_refl : forall s, R s s.
Hypothesis R_trans : forall a b c, R a b -> R b c -> R a c.

Lemma pres_ret A (a : A) : pres R (ret a).
Proof. intro s. apply R_refl. Qed.

Lemma pres_throw A e : pres R (@throw A e).
Proof. intro s. apply R_refl. Qed.

Lemma pres_gets A (f : State -> A) : pres R (gets f).
Proof. intro s. apply R_refl. Qed.

Lemma pres_bind A B (m : Js A) (k : A -> Js B) :
  pres R m -> (forall a, pres R (k a)) -> pres R (bind m k).
Proof.
  intros Hm Hk s. unfold bind. specialize (Hm s).
  destruct (m s) as [[a|e] s1]; simpl in *; [|exact Hm].
  eapply R_trans; [exact Hm | apply Hk].
Qed.

Lemma pres_try_catch A (m : Js A) (h : string -> Js A) :
  pres R m -> (forall e, pres R (h e)) -> pres R (try_catch m h).
Proof.
  intros Hm Hh s. unfold try_catch. specialize (Hm s).
  destruct (m s) as [[a|e] s1]; simpl in *; [exact Hm|].
  eapply R_trans; [exact Hm | apply Hh].
Qed.

Lemma pres_modify (f : State -> State) :
  (forall s, R s (f s)) -> pres R (modify f).
Proof. intros H s. apply H. Qed.

Lemma pres_readFileSync path : pres R (readFileSync path).
Proof.
  intro s. unfold readFileSync.
  destruct (files (world s) path); apply R_refl.
Qed.
End Rules.

(** *** The effect of the primitives, field by field *)

Section Fields.
Variable env : Env.

Lemma mark_dirty_fields p w :
  manifest (mark_dirty env p w) = manifest w
  /\ files (mark_dirty env p w) = files w
  /\ commits (mark_dirty env p w) = commits w
  /\ tags (mark_dirty env p w) = tags w
  /\ trace (mark_dirty env p w) = trace w
  /\ clock (mark_dirty env p w) = clock w.
Proof. unfold mark_dirty. destruct (_ || _); repeat split. Qed.

(** What [npm version] commits on its own leaves the manifest, the files,
    the trace and the clock alone. *)
Lemma npm_commits_fields k v w :
  manifest (npm_commits env k v w) = manifest w
  /\ files (npm_commits env k v w) = files w
  /\ trace (npm_commits env k v w) = trace w
  /\ clock (npm_commits env k v w) = clock w.
Proof. unfold npm_commits. destruct (npm_git env k v) as [[m t]|]; repeat split. Qed.

Lemma effect_trace c w : trace (snd (effect env c w)) = trace w.
Proof.
  destruct c; simpl; try reflexivity.
  - destruct (manifest_eqb _ _); [reflexivity|].
    now rewrite (proj1 (proj2 (proj2 (proj2 (proj2 (mark_dirty_fields _ _)))))).
  - destruct (npm_version _ _ _); [|reflexivity]. simpl.
    destruct (single_word _);
      rewrite ?(proj1 (proj2 (proj2 (npm_commits_fields _ _ _))));
      now rewrite (proj1 (proj2 (proj2 (proj2 (proj2 (mark_dirty_fields _ _)))))).
  - destruct (tags w); reflexivity.
  - destruct (existsb _ _); reflexivity.
Qed.

(** [execSync] leaves the manager alone and adds one event. *)
Lemma execSync_this c s : this (snd (execSync env c s)) = this s.
Proof.
  unfold execSync. destruct (fails env _ c); [reflexivity|].
  destruct (effect env c _) as [[out|e] w']; reflexivity.
Qed.

Lemma execSync_trace c s :
  exists ok, trace (world (snd (execSync env c s))) = Exec c ok :: trace (world s)
             /\ (ok = true <-> exists out, fst (execSync env c s) = Return out).
Proof.
  unfold execSync. destruct (fails env _ c).
  - exists false. simpl. split; [reflexivity|].
    split; [discriminate | intros [out H]; discriminate].
  - pose proof (effect_trace c (tick (world s))) as Ht.
    destruct (effect env c _) as [[out|e] w']; simpl in *.
    + exists true. rewrite Ht. split; [reflexivity|].
      split; [now exists out | reflexivity].
    + exists false. rewrite Ht. split; [reflexivity|].
      split; [discriminate | intros [out H]; discriminate].
Qed.

Lemma writeFileSync_this p c s : this (snd (writeFileSync env p c s)) = this s.
Proof. reflexivity. Qed.

Lemma writeFileSync_trace p c s :
  trace (world (snd (writeFileSync env p c s))) = WriteFile p c :: trace (world s).
Proof.
  unfold writeFileSync, modify, with_world. simpl.
  destruct (negb _); [|reflexivity].
  now rewrite (proj1 (proj2 (proj2 (proj2 (proj2 (mark_dirty_fields _ _)))))).
Qed.
End Fields.

(** *** Errors kept, warnings only added, chosen events absent *)

Lemma keeps_refl P s : keeps P s s.
Proof.
  repeat split; [exists []; now rewrite app_nil_r | now exists []].
Qed.

Lemma keeps_trans P a b c : keeps P a b -> keeps P b c -> keeps P a c.
Proof.
  intros (E1 & [l1 W1] & T1 & [n1 N1]) (E2 & [l2 W2] & T2 & [n2 N2]).
  repeat split.
  - congruence.
  - exists (l1 ++ l2)%list. rewrite W2, W1. now rewrite app_assoc.
  - congruence.
  - exists (n2 ++ n1)%list. rewrite N2, N1. now rewrite app_assoc.
Qed.

(** One more event, nothing else touched in the manager. *)
Lemma keeps_one_event P e s s' :
  P e = false ->
  errors (this s') = errors (this s) ->
  warnings (this s') = warnings (this s) ->
  trace (world s') = e :: trace (world s) ->
  keeps P s s'.
Proof.
  intros HP He Hw Ht. unfold keeps. rewrite He, Hw, Ht. simpl. rewrite HP.
  repeat split; [exists []; now rewrite app_nil_r | now exists [e]].
Qed.

Section Keeps.
Variable env : Env.
Variable P : Event -> bool.

Lemma keeps_ret A (a : A) : pres (keeps P) (ret a).
Proof. intro s. apply keeps_refl. Qed.

Lemma keeps_throw A e : pres (keeps P) (@throw A e).
Proof. intro s. apply keeps_refl. Qed.

Lemma keeps_gets A (f : State -> A) : pres (keeps P) (gets f).
Proof. intro s. apply keeps_refl. Qed.

Lemma keeps_readFileSync path : pres (keeps P) (readFileSync path).
Proof. apply pres_readFileSync, keeps_refl. Qed.

Lemma keeps_bind A B (m : Js A) (k : A -> Js B) :
  pres (keeps P) m -> (forall a, pres (keeps P) (k a)) -> pres (keeps P) (bind m k).
Proof. apply pres_bind, keeps_trans. Qed.

Lemma keeps_try_catch A (m : Js A) (h : string -> Js A) :
  pres (keeps P) m -> (forall e, pres (keeps P) (h e)) ->
  pres (keeps P) (try_catch m h).
Proof. apply pres_try_catch, keeps_trans. Qed.

Lemma keeps_execSync c :
  (forall ok, P (Exec c ok) = false) -> pres (keeps P) (execSync env c).
Proof.
  intros HP s. destruct (execSync_trace env c s) as (ok & Ht & _).
  apply (keeps_one_event P (Exec c ok)); auto.
  - now rewrite execSync_this.
  - now rewrite execSync_this.
Qed.

Lemma keeps_console st line :
  P (Console st line) = false -> pres (keeps P) (console st line).
Proof. intros HP s. now apply (keeps_one_event P (Console st line)). Qed.

Lemma keeps_sleep ms : P (Sleep ms) = false -> pres (keeps P) (sleep ms).
Proof. intros HP s. now apply (keeps_one_event P (Sleep ms)). Qed.

Lemma keeps_log msg :
  (forall line, P (Console Stdout line) = false) -> pres (keeps P) (Js.log env msg).
Proof. intros HP. apply keeps_console, HP. Qed.

Lemma keeps_warn msg :
  (forall line, P (Console Stderr line) = false) -> pres (keeps P) (warn msg).
Proof.
  intros HP s. unfold keeps. simpl. rewrite HP.
  repeat split; [now exists [msg] | now eexists [_]].
Qed.

Lemma keeps_update_report f : pres (keeps P) (update_report f).
Proof.
  intro s. unfold keeps. simpl.
  repeat split; [exists []; now rewrite app_nil_r | now exists []].
Qed.

Lemma keeps_with_this f :
  (forall m, errors (f m) = errors m /\ warnings (f m) = warnings m) ->
  pres (keeps P) (modify (with_this f)).
Proof.
  intros Hf s. unfold keeps. simpl. destruct (Hf (this s)) as [-> ->].
  repeat split; [exists []; now rewrite app_nil_r | now exists []].
Qed.

Lemma keeps_writeFileSync p c :
  P (WriteFile p c) = false -> pres (keeps P) (writeFileSync env p c).
Proof.
  intros HP s. apply (keeps_one_event P (WriteFile p c)); auto.
  apply writeFileSync_trace.
Qed.
End Keeps.

(** Decomposes a goal [pres (keeps P) m] along the structure of [m]; the
    conditions on [P] at the leaves are settled by computation.  A call
    the tactic does not know is left as a goal. *)
Ltac keeps_tac :=
  repeat
    (cbv zeta;
     lazymatch goal with
     | |- pres _ (Js.log _ _) => apply keeps_log; intro; reflexivity
     | |- pres _ (warn _) => apply keeps_warn; intro; reflexivity
     | |- pres _ (console _ _) => apply keeps_console; reflexivity
     | |- pres _ (sleep _) => apply keeps_sleep; reflexivity
     | |- pres _ (update_report _) => apply keeps_update_report
     | |- pres _ (writeFileSync _ _ _) => apply keeps_writeFileSync; reflexivity
     | |- pres _ (execSync _ _) => apply keeps_execSync; intros [|]; reflexivity
     | |- pres _ (modify (with_this _)) =>
         apply keeps_with_this; intro; split; reflexivity
     | |- pres _ (ret _) => apply keeps_ret
     | |- pres _ (throw _) => apply keeps_throw
     | |- pres _ (gets _) => apply keeps_gets
     | |- pres _ get_report => apply keeps_gets
     | |- pres _ readPackageJson => apply keeps_gets
     | |- pres _ (existsSync _) => apply keeps_gets
     | |- pres _ (readFileSync _) => apply keeps_readFileSync
     | |- pres _ (bind _ _) => apply keeps_bind; [| intro]
     | |- pres _ (try_catch _ _) => apply keeps_try_catch; [| intro]
     | |- pres _ (if ?b then _ else _) => destruct b
     | |- pres _ (match ?x with _ => _ end) => destruct x
     end).


(** ** Footprints of the steps *)


Ltac each_predicate tac :=
  match goal with H : In _ _ |- _ => simpl in H end;
  repeat match goal with
         | H : _ = _ \/ _ |- _ => destruct H as [<-|H]; [tac|]
         | H : False |- _ => destruct H
         end.

Section Shared.
Variable env : Env.

Lemma collectChanges_keeps P lastTag :
  In P absent_before_push -> pres (keeps P) (collectChanges env lastTag).
Proof. intro H. each_predicate ltac:(unfold collectChanges; keeps_tac). Qed.

Lemma updateChangelog_keeps P :
  In P absent_before_push -> pres (keeps P) (updateChangelog env).
Proof.
  intro H. pose proof (fun t => @collectChanges_keeps P t H) as Hc.
  each_predicate
    ltac:(unfold updateChangelog; keeps_tac; try apply Hc).
Qed.

Lemma generateReport_keeps P :
  In P absent_in_report -> pres (keeps P) (generateReport env).
Proof. intro H. each_predicate ltac:(unfold generateReport; keeps_tac). Qed.
End Shared.

Lemma steps_before_push P : In P absent_in_steps -> In P absent_before_push.
Proof. simpl. intuition. Qed.

Lemma steps_in_tests P : In P absent_in_steps -> In P absent_in_tests.
Proof. simpl. intuition. Qed.

Lemma steps_in_push P : In P absent_in_steps -> In P absent_in_push.
Proof. simpl. intuition. Qed.

Lemma steps_after_push P : In P absent_in_steps -> In P absent_after_push.
Proof. simpl. intuition. Qed.

Lemma before_push_console P : In P absent_before_push -> In P absent_in_console.
Proof. simpl. intuition. Qed.

Lemma in_push_console P : In P absent_in_push -> In P absent_in_console.
Proof. simpl. intuition. Qed.

Lemma after_push_console P : In P absent_after_push -> In P absent_in_console.
Proof. simpl. intuition. Qed.

Lemma in_report_console P : In P absent_in_report -> In P absent_in_console.
Proof. simpl. intuition. Qed.

Lemma console_keeps P st line :
  In P absent_in_console -> pres (keeps P) (console st line).
Proof.
  intro H. apply keeps_console.
  simpl in H. decompose [or] H; subst; try reflexivity. contradiction.
Qed.

Lemma log_keeps env P msg :
  In P absent_in_console -> pres (keeps P) (Js.log env msg).
Proof. apply console_keeps. Qed.

(** *** The reworked script *)


Section FixedSteps.
Variable env : Env.

Lemma fixed_preVerification_keeps P :
  In P absent_before_push -> pres (keeps P) (ReleaseFixed.preVerification env).
Proof. intro H. each_predicate ltac:(unfold ReleaseFixed.preVerification; keeps_tac). Qed.

Lemma fixed_dependenciesAndTests_keeps P :
  In P absent_in_tests -> pres (keeps P) (ReleaseFixed.dependenciesAndTests env).
Proof. intro H. each_predicate ltac:(unfold ReleaseFixed.dependenciesAndTests; keeps_tac). Qed.

Lemma fixed_build_keeps P :
  In P absent_before_push -> pres (keeps P) (ReleaseFixed.build env).
Proof. intro H. each_predicate ltac:(unfold ReleaseFixed.build; keeps_tac). Qed.

Lemma fixed_versioning_keeps P k :
  In P absent_before_push -> pres (keeps P) (ReleaseFixed.versioning env k).
Proof. intro H. each_predicate ltac:(unfold ReleaseFixed.versioning; keeps_tac). Qed.

Lemma fixed_commitAndTag_keeps P :
  In P absent_before_push -> pres (keeps P) (ReleaseFixed.commitAndTag env).
Proof. intro H. each_predicate ltac:(unfold ReleaseFixed.commitAndTag; keeps_tac). Qed.

Lemma fixed_push_keeps P :
  In P absent_in_push -> pres (keeps P) (ReleaseFixed.push env).
Proof. intro H. each_predicate ltac:(unfold ReleaseFixed.push; keeps_tac). Qed.

Lemma fixed_publishToNpm_keeps P :
  In P absent_after_push -> pres (keeps P) (ReleaseFixed.publishToNpm env).
Proof. intro H. each_predicate ltac:(unfold ReleaseFixed.publishToNpm; keeps_tac). Qed.

Lemma fixed_publishToGitHub_keeps P :
  In P absent_after_push -> pres (keeps P) (ReleaseFixed.publishToGitHub env).
Proof. intro H. each_predicate ltac:(unfold ReleaseFixed.publishToGitHub; keeps_tac). Qed.

Lemma fixed_queryVersion_keeps P pkg n :
  In P absent_after_push -> pres (keeps P) (ReleaseFixed.queryVersion env pkg n).
Proof.
  intro H. induction n as [|n IH]; cbn [ReleaseFixed.queryVersion].
  - apply keeps_ret.
  - each_predicate ltac:(keeps_tac; try apply IH).
Qed.

Lemma fixed_verification_keeps P :
  In P absent_after_push -> pres (keeps P) (ReleaseFixed.verification env).
Proof.
  intro H. pose proof (fun p n => @fixed_queryVersion_keeps P p n H) as Hq.
  each_predicate ltac:(unfold ReleaseFixed.verification; keeps_tac; try apply Hq).
Qed.

Lemma fixed_log_each_keeps P l :
  In P absent_in_report -> pres (keeps P) (ReleaseFixed.log_each env l).
Proof.
  intro H. induction l as [|u l IH]; cbn [ReleaseFixed.log_each].
  - apply keeps_ret.
  - each_predicate ltac:(keeps_tac; try apply IH).
Qed.
End FixedSteps.

(** *** [scripts/release.js] *)


Section OriginalSteps.
Variable env : Env.

Lemma original_preVerification_keeps P :
  In P absent_before_push -> pres (keeps P) (Release.preVerification env).
Proof. intro H. each_predicate ltac:(unfold Release.preVerification; keeps_tac). Qed.

Lemma original_dependenciesAndTests_keeps P :
  In P absent_in_tests -> pres (keeps P) (Release.dependenciesAndTests env).
Proof. intro H. each_predicate ltac:(unfold Release.dependenciesAndTests; keeps_tac). Qed.

Lemma original_build_keeps P :
  In P absent_before_push -> pres (keeps P) (Release.build env).
Proof. intro H. each_predicate ltac:(unfold Release.build; keeps_tac). Qed.

Lemma original_versioning_keeps P k :
  In P absent_before_push -> pres (keeps P) (Release.versioning env k).
Proof. intro H. each_predicate ltac:(unfold Release.versioning; keeps_tac). Qed.

Lemma original_commitAndTag_keeps P :
  In P absent_before_push -> pres (keeps P) (Release.commitAndTag env).
Proof. intro H. each_predicate ltac:(unfold Release.commitAndTag; keeps_tac). Qed.

Lemma original_push_keeps P :
  In P absent_in_push -> pres (keeps P) (Release.push env).
Proof. intro H. each_predicate ltac:(unfold Release.push; keeps_tac). Qed.

Lemma original_publishToNpm_keeps P :
  In P absent_after_push -> pres (keeps P) (Release.publishToNpm env).
Proof. intro H. each_predicate ltac:(unfold Release.publishToNpm; keeps_tac). Qed.

Lemma original_publishToGitHub_keeps P :
  In P absent_after_push -> pres (keeps P) (Release.publishToGitHub env).
Proof. intro H. each_predicate ltac:(unfold Release.publishToGitHub; keeps_tac). Qed.

Lemma original_verification_keeps P :
  In P absent_after_push -> pres (keeps P) (Release.verification env).
Proof. intro H. each_predicate ltac:(unfold Release.verification; keeps_tac). Qed.
End OriginalSteps.


(** ** The report step and the pipeline as a whole *)


Lemma bind_inv A B (m : Js A) (k : A -> Js B) s r s' :
  bind m k s = (r, s') ->
  (exists e, m s = (Throw e, s') /\ r = Throw e)
  \/ (exists a s1, m s = (Return a, s1) /\ k a s1 = (r, s')).
Proof.
  unfold bind. destruct (m s) as [[a|e] s1]; intros H.
  - right. now exists a, s1.
  - left. exists e. now inversion H.
Qed.

Lemma try_catch_inv A (m : Js A) (h : string -> Js A) s r s' :
  try_catch m h s = (r, s') ->
  (exists a, m s = (Return a, s') /\ r = Return a)
  \/ (exists e s1, m s = (Throw e, s1) /\ h e s1 = (r, s')).
Proof.
  unfold try_catch. destruct (m s) as [[a|e] s1]; intros H.
  - left. exists a. now inversion H.
  - right. now exists e, s1.
Qed.

Lemma pres_at R A (m : Js A) s r s' : pres R m -> m s = (r, s') -> R s s'.
Proof. intros H E. specialize (H s). now rewrite E in H. Qed.

Section Report.
Variable env : Env.

(** The report step always returns; it sets the status from the
    recorded errors, overwrites the issues with the errors followed by
    the warnings, and writes [report.md] once. *)
Lemma generateReport_spec s :
  exists s',
    generateReport env s = (Return tt, s')
    /\ errors (this s') = errors (this s)
    /\ warnings (this s') = warnings (this s)
    /\ status (report (this s'))
       = (if Nat.ltb 0 (List.length (errors (this s))) then "failed" else "completed")
    /\ issues (report (this s')) = (errors (this s) ++ warnings (this s))%list
    /\ files (world s') "report.md" = Some (reportContent (report (this s')))
    /\ report_writes s'
       = WriteFile "report.md" (reportContent (report (this s'))) :: report_writes s.
Proof.
  eexists. split; [reflexivity|]. simpl.
  repeat split.
  - destruct (negb _); [|reflexivity].
    rewrite (proj1 (proj2 (mark_dirty_fields _ _ _))). reflexivity.
  - unfold report_writes. simpl.
    destruct (negb _); [|reflexivity].
    rewrite (proj1 (proj2 (proj2 (proj2 (proj2 (mark_dirty_fields _ _ _)))))).
    reflexivity.
Qed.
End Report.

(** *** The numbered steps of either script write no report *)

Lemma in_steps_1 : In is_report_write absent_in_steps.
Proof. now left. Qed.

Lemma in_steps_2 : In nothing absent_in_steps.
Proof. right. now left. Qed.

Create HintDb footprint.
#[export] Hint Resolve
  fixed_preVerification_keeps fixed_dependenciesAndTests_keeps fixed_build_keeps
  fixed_versioning_keeps fixed_commitAndTag_keeps fixed_push_keeps
  fixed_publishToNpm_keeps fixed_publishToGitHub_keeps fixed_verification_keeps
  original_preVerification_keeps original_dependenciesAndTests_keeps
  original_build_keeps original_versioning_keeps original_commitAndTag_keeps
  original_push_keeps original_publishToNpm_keeps original_publishToGitHub_keeps
  original_verification_keeps updateChangelog_keeps
  steps_before_push steps_in_tests steps_in_push steps_after_push
  before_push_console in_push_console after_push_console in_report_console
  console_keeps log_keeps generateReport_keeps : footprint.

(** Walks down a chain [m1 ;; m2 ;; ...] of steps. *)
Ltac chain :=
  repeat (lazymatch goal with
          | |- pres _ (bind _ _) =>
              apply keeps_bind; [solve [auto with footprint] | intro]
          end);
  auto with footprint.

Lemma fixed_steps_keeps env P k :
  In P absent_in_steps -> pres (keeps P) (ReleaseFixed.steps env k).
Proof. intro H. unfold ReleaseFixed.steps. chain. Qed.

Lemma original_steps_keeps env P k :
  In P absent_in_steps -> pres (keeps P) (Release.steps env k).
Proof. intro H. unfold Release.steps. chain. Qed.

(** *** The lines printed after the report *)

Section Tail.
Variable env : Env.

Lemma printed_only_refl s : printed_only s s.
Proof. now repeat split. Qed.

Lemma log_spec msg s :
  fst (Js.log env msg s) = Return tt /\ printed_only s (snd (Js.log env msg s)).
Proof. now repeat split. Qed.

Lemma log_each_spec l : forall s,
  fst (ReleaseFixed.log_each env l s) = Return tt
  /\ printed_only s (snd (ReleaseFixed.log_each env l s)).
Proof.
  induction l as [|u l IH]; intro s; cbn [ReleaseFixed.log_each].
  - split; [reflexivity | apply printed_only_refl].
  - unfold bind, Js.log, console, modify. cbv beta iota.
    match goal with
    | |- context [ReleaseFixed.log_each env l ?st] =>
        destruct (IH st) as [E (T & F & W)]
    end.
    split; [exact E|]. repeat split; [rewrite T | rewrite F | rewrite W]; reflexivity.
Qed.
End Tail.

(** *** The reworked [run] *)

Section FixedRun.
Variable env : Env.

Lemma epilogue_spec s :
  fst (epilogue env s) = Return tt /\ printed_only s (snd (epilogue env s)).
Proof.
  unfold epilogue, bind, Js.log, console, modify, get_report, gets, ret.
  cbv beta iota.
  match goal with |- context [if ?c then _ else _] => destruct c end.
  - match goal with
    | |- context [ReleaseFixed.log_each env ?l ?st] =>
        destruct (log_each_spec env l st) as [E (T & F & W)]
    end.
    split; [exact E|]. repeat split; [rewrite T | rewrite F | rewrite W]; reflexivity.
  - now repeat split.
Qed.

Lemma run_eq arg :
  ReleaseFixed.run env arg
  = try_catch
      (ReleaseFixed.steps env (match arg with Some k => k | None => "patch" end) ;;
       generateReport env ;; epilogue env)
      (fun message =>
         error ("Error en el proceso: " ++ message) ;;
         generateReport env ;;
         throw message).
Proof. reflexivity. Qed.

Lemma fixed_run_report arg s :
  errors (this s) = [] ->
  report_writes s = [] ->
  let r := fst (ReleaseFixed.run env arg s) in
  let s' := snd (ReleaseFixed.run env arg s) in
  report_writes s' = [WriteFile "report.md" (reportContent (report (this s')))]
  /\ files (world s') "report.md" = Some (reportContent (report (this s')))
  /\ (status (report (this s')) = "failed" <-> exists e, r = Throw e)
  /\ (status (report (this s')) = "completed" <-> r = Return tt).
Proof.
  intros He Hw. cbv zeta.
  destruct (ReleaseFixed.run env arg s) as [r s'] eqn:Hrun. cbn [fst snd].
  rewrite run_eq in Hrun.
  set (k := match arg with Some k => k | None => "patch" end) in Hrun.
  assert (Hgen : forall s1 r2 s2,
             errors (this s1) = [] -> report_writes s1 = [] ->
             (generateReport env ;; epilogue env) s1 = (r2, s2) ->
             r2 = Return tt
             /\ status (report (this s2)) = "completed"
             /\ files (world s2) "report.md" = Some (reportContent (report (this s2)))
             /\ report_writes s2 = [WriteFile "report.md" (reportContent (report (this s2)))]).
  { intros s1 r2 s2 He1 Hw1 H.
    apply bind_inv in H as [(e & H & _) | ([] & s3 & H & Hep)];
      destruct (generateReport_spec env s1) as (s4 & Hg & _ & _ & St & _ & F & W);
      rewrite Hg in H; [discriminate|].
    injection H as <-.
    destruct (epilogue_spec s4) as [E (T & F' & W')].
    rewrite Hep in E, T, F', W'. cbn [fst snd] in *. subst r2.
    rewrite T, F', W', W, F, St, He1, Hw1. now repeat split. }
  pose proof (@fixed_steps_keeps env _ k in_steps_1 s) as Hk.
  apply try_catch_inv in Hrun as [(a & Hm & ->) | (e & s1 & Hm & Hh)].
  - (* the [try] block returned *)
    apply bind_inv in Hm as [(e & _ & [=]) | ([] & s1 & Hs & Hm)].
    rewrite Hs in Hk. destruct Hk as (E1 & _ & T1 & _). cbn [snd] in *.
    apply Hgen in Hm as (_ & St & F & W);
      [| congruence | unfold report_writes in *; congruence].
    rewrite W, F, St. destruct a. repeat split; try discriminate.
    intros [e H]. discriminate.
  - (* the [try] block threw [e] *)
    apply bind_inv in Hm as [(e' & Hs & [= <-]) | ([] & s2 & Hs & Hm)];
      rewrite Hs in Hk; destruct Hk as (E1 & _ & T1 & _); cbn [snd] in *.
    + (* a step threw: the handler records the error *)
      apply bind_inv in Hh as [(e' & H & _) | ([] & s3 & Herr & Hh)];
        [discriminate|].
      injection Herr as <-.
      match type of Hh with
      | _ ?st = _ =>
          destruct (generateReport_spec env st) as (s5 & Hg' & _ & _ & St & _ & F & W)
      end.
      apply bind_inv in Hh as [(e' & H & _) | ([] & s4 & Hg & Hh)];
        rewrite Hg' in *; [discriminate|].
      injection Hg as <-. injection Hh as <- <-.
      simpl in St. rewrite E1, He in St. simpl in St.
      unfold report_writes in W at 2. simpl in W. rewrite T1 in W.
      fold (report_writes s) in W. rewrite Hw in W.
      rewrite W, F, St. repeat split; try discriminate.
      intros _. now exists e.
    + (* the report or the closing lines cannot throw *)
      apply Hgen in Hm as (H & _);
        [discriminate | congruence | unfold report_writes in *; congruence].
Qed.
End FixedRun.

(** *** Symbolic execution of the glue around the steps *)

Ltac js_eval :=
  cbv beta iota zeta delta
    [bind try_catch ret throw gets modify console sleep Js.log warn error
     update_report get_report readPackageJson existsSync];
  cbn [fst snd].

Ltac js_eval_in H :=
  cbv beta iota zeta delta
    [bind try_catch ret throw gets modify console sleep Js.log warn error
     update_report get_report readPackageJson existsSync] in H;
  cbn [fst snd] in H.

(** *** [run] of [scripts/release.js] *)

Section OriginalRun.
Variable env : Env.

(** The [catch] of [scripts/release.js] never calls [error]: whatever
    happens, the report says [completed]. *)
Lemma original_run_always_completed arg s :
  errors (this s) = [] ->
  status (report (this (snd (Release.run env arg s)))) = "completed".
Proof.
  intros He. unfold Release.run.
  set (k := match arg with Some k => k | None => "patch" end).
  js_eval.
  match goal with
  | |- context [Release.steps env k ?st] =>
      pose proof (@original_steps_keeps env _ k in_steps_1 st) as (E1 & _);
      destruct (Release.steps env k st) as [[[]|e] s1]
  end; cbn [snd this with_world] in E1; js_eval.
  - match goal with
    | |- context [generateReport env ?st] =>
      destruct (generateReport_spec env st) as (s2 & -> & _ & _ & St & _)
    end.
    cbn [this with_world] in *. rewrite E1, He in St. exact St.
  - match goal with
    | |- context [generateReport env ?st] =>
      destruct (generateReport_spec env st) as (s2 & -> & _ & _ & St & _)
    end.
    cbn [this with_world] in *. rewrite E1, He in St. exact St.
Qed.

End OriginalRun.

(** C1, on [scripts/release.js]: started on branch [develop], [run] throws
    at pre-verification, writes [report.md] once, and the report it writes
    says [completed], not [failed]. *)
Theorem original_run_failure_reported_completed :
  let env := on_branch "develop" (calm "1.0.0") in
  let res := Release.run env None (fresh env (checkout "1.0.0" [] [])) in
  fst res = Throw "Rama actual es 'develop'. Debe estar en 'master' o 'main'"
  /\ List.length (report_writes (snd res)) = 1
  /\ status (report (this (snd res))) = "completed"
  /\ includes (report_file (snd res)) "**Estado:** completed" = true
  /\ includes (report_file (snd res)) "**Estado:** failed" = false.
Proof. vm_compute. repeat split. Qed.

(** C1, on the reworked script: for every run exactly one report is
    written, and its status is [failed] exactly when [run] throws and
    [completed] exactly when it returns. *)
Theorem fixed_run_one_report_status_iff_failure env arg w :
  trace w = [] ->
  let res := ReleaseFixed.run env arg (fresh env w) in
  List.length (report_writes (snd res)) = 1
  /\ files (world (snd res)) "report.md"
     = Some (reportContent (report (this (snd res))))
  /\ (status (report (this (snd res))) = "failed" <-> exists e, fst res = Throw e)
  /\ (status (report (this (snd res))) = "completed" <-> fst res = Return tt).
Proof.
  intros Ht. cbv zeta.
  destruct (@fixed_run_report env arg (fresh env w)) as (W & F & S1 & S2).
  - reflexivity.
  - unfold report_writes. simpl. now rewrite Ht.
  - rewrite W. repeat split; try assumption; try apply S1; try apply S2.
Qed.

Lemma fixed_run_one_report_witness :
  let env := calm "1.0.1" in
  let res := ReleaseFixed.run env None (fresh env (checkout "1.0.0" [] [])) in
  List.length (report_writes (snd res)) = 1
  /\ files (world (snd res)) "report.md"
     = Some (reportContent (report (this (snd res))))
  /\ (status (report (this (snd res))) = "failed" <-> exists e, fst res = Throw e)
  /\ (status (report (this (snd res))) = "completed" <-> fst res = Return tt).
Proof.
  apply (@fixed_run_one_report_status_iff_failure
           (calm "1.0.1") None (checkout "1.0.0" [] [])).
  reflexivity.
Defined.

(** ** The changelog step *)

Section Queries.
Variable env : Env.

Lemma effect_files c w : files (snd (effect env c w)) = files w.
Proof.
  destruct c; simpl; try reflexivity.
  - destruct (manifest_eqb _ _); [reflexivity|].
    now rewrite (proj1 (proj2 (mark_dirty_fields _ _ _))).
  - destruct (npm_version _ _ _); [|reflexivity]. simpl.
    destruct (single_word _);
      rewrite ?(proj1 (proj2 (npm_commits_fields _ _ _ _)));
      now rewrite (proj1 (proj2 (mark_dirty_fields _ _ _))).
  - destruct (tags w); reflexivity.
  - destruct (existsb _ _); reflexivity.
Qed.

Lemma execSync_files c s : files (world (snd (execSync env c s))) = files (world s).
Proof.
  unfold execSync. destruct (fails env _ c); [reflexivity|].
  pose proof (effect_files c (tick (world s))) as H.
  destruct (effect env c _) as [[out|e] w']; simpl in *; exact H.
Qed.

Lemma execSync_frame c s :
  this (snd (execSync env c s)) = this s
  /\ files (world (snd (execSync env c s))) = files (world s).
Proof. split; [apply execSync_this | apply execSync_files]. Qed.

(** A query that does not fail returns what the surroundings print. *)
Lemma execSync_GitLog t s :
  fails env (clock (world s)) (GitLog t) = None ->
  execSync env (GitLog t) s
  = (Return (stdout env (GitLog t)),
     with_world (fun w => record (Exec (GitLog t) true) (tick w)) s).
Proof. intros H. unfold execSync. now rewrite H. Qed.

Lemma execSync_GitDiffCached s :
  fails env (clock (world s)) GitDiffCached = None ->
  execSync env GitDiffCached s
  = (Return (stdout env GitDiffCached),
     with_world (fun w => record (Exec GitDiffCached true) (tick w)) s).
Proof. intros H. unfold execSync. now rewrite H. Qed.

End Queries.

Section ChangelogStep.
Import Changelog.
Variable env : Env.

Lemma insertEntry_decomposed C e :
  hasVersionHeading C = true ->
  C = header C ++ withoutHeader C
  /\ startsWith (withoutHeader C) "## [" = true
  /\ insertEntry C e
     = (if header C =? "" then nl else header C) ++ e ++ withoutHeader C.
Proof.
  intros H. unfold hasVersionHeading in H.
  destruct (firstHeading_exists _ H) as [i Hi].
  pose proof (cut_split C true) as Hc. rewrite Hi in Hc. cbn [option_map] in Hc.
  unfold header, withoutHeader. rewrite Hc.
  unfold cutLines in *.
  destruct (cutAtHeading_sound C true _ _ Hc) as [HC Hs].
  split; [exact HC|]. split; [exact Hs|].
  unfold insertEntry. rewrite findInsertIndex_firstHeading, Hi. cbn [Nat.add].
  destruct i as [|i].
  - cbn [Nat.eqb slice_to firstn join String.concat]. reflexivity.
  - cbn [Nat.eqb].
    set (h := join nl (slice_to (S i) (split nl_char C))).
    assert (Hne : (h ++ nl =? "") = false) by (destruct h; reflexivity).
    rewrite Hne. now rewrite append_assoc.
Qed.

Lemma writeFileSync_files p c s :
  files (world (snd (writeFileSync env p c s))) p = Some c.
Proof.
  unfold writeFileSync, modify, with_world. simpl.
  destruct (negb _).
  - rewrite (proj1 (proj2 (mark_dirty_fields _ _ _))). simpl.
    now rewrite String.eqb_refl.
  - simpl. now rewrite String.eqb_refl.
Qed.

Lemma updateChangelog_eq :
  updateChangelog env
  = (Js.log env "=== PASO 5: CHANGELOG ===" ;;
     lastTag <- try_catch
                  (out <- execSync env GitDescribe ;; ret (trim out))
                  (fun _ => warn "No se encontraron tags anteriores" ;; ret "") ;;
     changes <- collectChanges env lastTag ;;
     writeEntry env changes).
Proof. reflexivity. Qed.

Lemma writeEntry_spec changes s C :
  files (world s) "CHANGELOG.md" = Some C ->
  fst (writeEntry env changes s) = Return tt
  /\ files (world (snd (writeEntry env changes s))) "CHANGELOG.md"
     = Some (insertEntry C
               (newEntry (show (r_version (report (this s)))) (today env) changes)).
Proof.
  intros HC. unfold writeEntry.
  destruct (Nat.eqb (List.length changes) 0); js_eval;
    cbn [this world with_world with_this files record report push_warning];
    rewrite HC; unfold readFileSync;
    cbn [this world with_world with_this files record report push_warning];
    rewrite HC;
    match goal with
    | |- context [writeFileSync env ?p ?c ?st] =>
        pose proof (writeFileSync_files p c st) as W;
        destruct (writeFileSync env p c st) as [[[]|e] s1] eqn:E;
        [| discriminate E]
    end; cbn [fst snd world with_world files record] in *;
    (split; [reflexivity | exact W]).
Qed.

Lemma collectChanges_spec lastTag s :
  (forall n t, fails env n (GitLog t) = None) ->
  (forall n, fails env n GitDiffCached = None) ->
  exists changes,
    fst (collectChanges env lastTag s) = Return changes
    /\ undisturbed s (snd (collectChanges env lastTag s)).
Proof.
  intros Hlog Hdiff. unfold collectChanges, undisturbed.
  destruct (truthy lastTag); js_eval; [| now eexists].
  rewrite execSync_GitLog by apply Hlog. js_eval.
  destruct (truthy (trim (stdout env (GitLog lastTag)))); js_eval; [now eexists|].
  rewrite execSync_GitDiffCached by apply Hdiff. js_eval.
  destruct (truthy (trim (stdout env GitDiffCached))); js_eval; now eexists.
Qed.

(** With the two git queries answering, the step returns, and the file
    it leaves is the old text with the new section inserted. *)
Lemma updateChangelog_writes s C :
  files (world s) "CHANGELOG.md" = Some C ->
  (forall n t, fails env n (GitLog t) = None) ->
  (forall n, fails env n GitDiffCached = None) ->
  exists changes,
    fst (updateChangelog env s) = Return tt
    /\ files (world (snd (updateChangelog env s))) "CHANGELOG.md"
       = Some (insertEntry C
                 (newEntry (show (r_version (report (this s)))) (today env) changes)).
Proof.
  intros HC Hlog Hdiff. rewrite updateChangelog_eq. js_eval.
  match goal with
  | |- context [execSync env GitDescribe ?st] =>
      destruct (execSync_frame env GitDescribe st) as [T F];
      destruct (execSync env GitDescribe st) as [[out|e] s1]
  end; cbn [snd this world with_world with_this files record] in T, F; js_eval.
  - destruct (collectChanges_spec (trim out) s1 Hlog Hdiff) as (changes & E & F2 & R2).
    destruct (collectChanges env (trim out) s1) as [[ch|e] s2]; [|discriminate].
    cbn [fst snd] in *. injection E as ->.
    exists changes. rewrite <- T, <- R2.
    apply writeEntry_spec. now rewrite F2, F.
  - match goal with
    | |- context [collectChanges env ?t ?st] =>
        destruct (collectChanges_spec t st Hlog Hdiff) as (changes & E & F2 & R2);
        destruct (collectChanges env t st) as [[ch|e'] s2]; [|discriminate]
    end.
    cbn [fst snd this world with_world with_this files record report push_warning] in *.
    injection E as ->.
    exists changes. rewrite T in R2. rewrite <- R2.
    apply writeEntry_spec. now rewrite F2, F.
Qed.
End ChangelogStep.

Lemma prefix_app_cancel a p q : String.prefix (a ++ p) (a ++ q) = String.prefix p q.
Proof.
  induction a as [|c a IH]; [reflexivity|].
  simpl. destruct (ascii_dec c c); [exact IH | congruence].
Qed.

Lemma prefix_app p q : String.prefix p (p ++ q) = true.
Proof.
  rewrite <- (append_nil_r p) at 1. rewrite prefix_app_cancel.
  now destruct q.
Qed.

(** The new section opens with the heading line of the version and the
    day. *)
Lemma newEntry_heading version day changes :
  startsWith (Changelog.newEntry version day changes)
    ("## [" ++ version ++ "] - " ++ day ++ nl) = true.
Proof.
  unfold startsWith, Changelog.newEntry.
  rewrite !prefix_app_cancel.
  change (String.prefix nl (nl ++ nl ++ "### Changed" ++ nl
            ++ or_else (join nl changes) "- Release automático" ++ nl ++ nl) = true).
  apply prefix_app.
Qed.

(** C3, as the code has it: for every changelog [C] with a version
    heading, the step (its two git queries answering) leaves the title
    block of [C], the new section headed by the version and the day, and
    then all of [C] from its first version heading on, unchanged and in
    order; when [C] opens with a version heading, so that the title block
    is empty, one line break stands before the new section. *)
Theorem updateChangelog_inserts_after_header env s C :
  files (world s) "CHANGELOG.md" = Some C ->
  Changelog.hasVersionHeading C = true ->
  (forall n t, fails env n (GitLog t) = None) ->
  (forall n, fails env n GitDiffCached = None) ->
  exists changes,
    let version := show (r_version (report (this s))) in
    let entry := Changelog.newEntry version (today env) changes in
    fst (updateChangelog env s) = Return tt
    /\ files (world (snd (updateChangelog env s))) "CHANGELOG.md"
       = Some ((if Changelog.header C =? "" then nl else Changelog.header C)
               ++ entry ++ Changelog.withoutHeader C)
    /\ C = Changelog.header C ++ Changelog.withoutHeader C
    /\ startsWith (Changelog.withoutHeader C) "## [" = true
    /\ startsWith entry ("## [" ++ version ++ "] - " ++ today env ++ nl) = true.
Proof.
  intros HC Hh Hlog Hdiff.
  destruct (updateChangelog_writes env s C HC Hlog Hdiff) as (changes & E & F).
  exists changes. cbv zeta.
  destruct (insertEntry_decomposed C
              (Changelog.newEntry (show (r_version (report (this s)))) (today env) changes) Hh)
    as (H1 & H2 & H3).
  rewrite F, H3. repeat split; try assumption. apply newEntry_heading.
Qed.

Lemma updateChangelog_inserts_after_header_witness :
  exists changes,
    let version := show (r_version (report (this changelog_state))) in
    let entry := Changelog.newEntry version (today (calm "1.0.1")) changes in
    fst (updateChangelog (calm "1.0.1") changelog_state) = Return tt
    /\ files (world (snd (updateChangelog (calm "1.0.1") changelog_state))) "CHANGELOG.md"
       = Some ((if Changelog.header changelog0 =? "" then nl else Changelog.header changelog0)
               ++ entry ++ Changelog.withoutHeader changelog0)
    /\ changelog0 = Changelog.header changelog0 ++ Changelog.withoutHeader changelog0
    /\ startsWith (Changelog.withoutHeader changelog0) "## [" = true
    /\ startsWith entry ("## [" ++ version ++ "] - " ++ today (calm "1.0.1") ++ nl) = true.
Proof.
  apply (updateChangelog_inserts_after_header (calm "1.0.1") changelog_state changelog0).
  - reflexivity.
  - reflexivity.
  - intros; reflexivity.
  - intros; reflexivity.
Defined.

(** C3 as stated fails on a changelog without title block: the text
    written is not [header + newEntry + C_without_header], it has one more
    line break in front. *)
Lemma updateChangelog_bare_changelog_counterexample :
  let entry := Changelog.newEntry "1.0.1" "2025-09-14" [] in
  Changelog.hasVersionHeading bare_changelog = true
  /\ fst (updateChangelog (calm "1.0.1") bare_state) = Return tt
  /\ files (world (snd (updateChangelog (calm "1.0.1") bare_state))) "CHANGELOG.md"
     <> Some (Changelog.header bare_changelog ++ entry
              ++ Changelog.withoutHeader bare_changelog)
  /\ files (world (snd (updateChangelog (calm "1.0.1") bare_state))) "CHANGELOG.md"
     = Some (nl ++ entry ++ bare_changelog).
Proof. vm_compute. repeat split. discriminate. Qed.

(** ** A failing test run is a soft failure *)

Lemma failed_test_before_push : In is_failed_test absent_before_push.
Proof. simpl. tauto. Qed.

Lemma failed_test_in_push : In is_failed_test absent_in_push.
Proof. simpl. tauto. Qed.

Lemma failed_test_after_push : In is_failed_test absent_after_push.
Proof. simpl. tauto. Qed.

Lemma failed_test_in_report : In is_failed_test absent_in_report.
Proof. simpl. tauto. Qed.

Lemma nothing_in_tests : In nothing absent_in_tests.
Proof. simpl. tauto. Qed.

Lemma nothing_in_steps : In nothing absent_in_steps.
Proof. simpl. tauto. Qed.

Lemma nothing_in_report : In nothing absent_in_report.
Proof. simpl. tauto. Qed.
#[export] Hint Resolve failed_test_before_push failed_test_in_push
  failed_test_after_push failed_test_in_report nothing_in_tests
  nothing_in_steps nothing_in_report : footprint.

Lemma keeps_In {P s s'} e :
  keeps P s s' -> In e (trace (world s)) -> In e (trace (world s')).
Proof. intros (_ & _ & _ & [new ->]) H. apply in_or_app. now right. Qed.

Lemma keeps_events {P s s'} : keeps P s s' -> events_of P s' = events_of P s.
Proof. now intros (_ & _ & H & _). Qed.

Lemma keeps_warning {P s s'} x :
  keeps P s s' -> In x (warnings (this s)) -> In x (warnings (this s')).
Proof. intros (_ & [l ->] & _) H. apply in_or_app. now left. Qed.

Lemma inv_bind I A B (m : Js A) (k : A -> Js B) :
  inv I m -> (forall a, inv I (k a)) -> inv I (bind m k).
Proof.
  intros Hm Hk s Hs. unfold bind. specialize (Hm s Hs).
  destruct (m s) as [[a|e] s1]; cbn [snd] in *; [now apply Hk | exact Hm].
Qed.

Lemma inv_try_catch I A (m : Js A) (h : string -> Js A) :
  inv I m -> (forall e, inv I (h e)) -> inv I (try_catch m h).
Proof.
  intros Hm Hh s Hs. unfold try_catch. specialize (Hm s Hs).
  destruct (m s) as [[a|e] s1]; cbn [snd] in *; [exact Hm | now apply Hh].
Qed.

Lemma inv_of_keeps (I : State -> Prop) P A (m : Js A) :
  (forall s s', keeps P s s' -> I s -> I s') -> pres (keeps P) m -> inv I m.
Proof. intros H Hm s Hs. exact (H _ _ (Hm s) Hs). Qed.

Lemma test_warned_keeps s s' :
  keeps is_failed_test s s' -> test_warned s -> test_warned s'.
Proof.
  intros Hk H Hne. rewrite (keeps_events Hk) in Hne.
  exact (keeps_warning _ Hk (H Hne)).
Qed.

Section Tests.
Variable env : Env.

Lemma keeps_execSync_ok P c s out s' :
  execSync env c s = (Return out, s') -> P (Exec c true) = false -> keeps P s s'.
Proof.
  intros E HP. destruct (execSync_trace env c s) as (ok & Ht & Hok).
  pose proof (execSync_this env c s) as Hthis.
  rewrite E in *. cbn [fst snd] in *.
  assert (ok = true) as -> by (apply Hok; now eexists).
  apply (keeps_one_event P (Exec c true)); auto; now rewrite Hthis.
Qed.

Ltac inv_keeps :=
  apply (inv_of_keeps test_warned is_failed_test _ _ test_warned_keeps); keeps_tac.

Lemma tests_try_warned (done_msg : string) (h : Js unit) :
  pres (keeps is_failed_test) h ->
  inv test_warned
    (try_catch
       (execSync env NpmTest ;; Js.log env done_msg)
       (fun _ => warn tests_warning ;; h)).
Proof.
  intros Hh s Hs. js_eval.
  destruct (execSync env NpmTest s) as [[o|e] s1] eqn:E.
  - js_eval. apply (test_warned_keeps s); [|exact Hs].
    eapply keeps_trans.
    + apply (keeps_execSync_ok is_failed_test _ _ _ _ E). reflexivity.
    + apply (log_keeps env is_failed_test done_msg). simpl. tauto.
  - js_eval.
    match goal with
    | |- test_warned (snd (h ?st)) =>
        apply (test_warned_keeps st); [apply Hh|]
    end.
    intros _. cbn [this with_this with_world warnings push_warning].
    apply in_or_app. right. now left.
Qed.

Lemma original_tests_warned : inv test_warned (Release.dependenciesAndTests env).
Proof.
  unfold Release.dependenciesAndTests.
  repeat (apply inv_bind; [inv_keeps | intro]).
  apply tests_try_warned. keeps_tac.
Qed.

Lemma fixed_tests_warned : inv test_warned (ReleaseFixed.dependenciesAndTests env).
Proof.
  unfold ReleaseFixed.dependenciesAndTests.
  repeat (apply inv_bind; [inv_keeps | intro]).
  apply tests_try_warned. keeps_tac.
Qed.

(** When the step throws, it is the install that failed: no test was run. *)
Lemma original_tests_throw s e :
  fst (Release.dependenciesAndTests env s) = Throw e ->
  fails env (clock (world s)) NpmCi = Some e
  /\ keeps is_failed_test s (snd (Release.dependenciesAndTests env s)).
Proof.
  unfold Release.dependenciesAndTests. js_eval.
  match goal with
  | |- context [execSync env NpmCi ?st] =>
      pose proof (keeps_execSync env is_failed_test NpmCi (fun ok => eq_refl) st) as Hci;
      assert (Hf : fst (execSync env NpmCi st) = Throw e ->
                   fails env (clock (world s)) NpmCi = Some e);
      [| destruct (execSync env NpmCi st) as [[o|e'] s1] ]
  end.
  - unfold execSync. cbn [world with_world clock record].
    destruct (fails env (clock (world s)) NpmCi); [now intros [= ->]|].
    cbn [effect fst]. discriminate.
  - js_eval. destruct (execSync env NpmTest _) as [[o'|e'] s2]; js_eval; discriminate.
  - js_eval. cbn [snd] in Hci. intros [= ->]. split; [now apply Hf|].
    eapply keeps_trans; [|exact Hci].
    eapply keeps_trans; apply (log_keeps env is_failed_test); simpl; tauto.
Qed.

Ltac inv_auto :=
  first
    [ apply original_tests_warned
    | apply fixed_tests_warned
    | apply (inv_of_keeps test_warned is_failed_test _ _ test_warned_keeps);
      first [solve [auto with footprint] | solve [keeps_tac]] ].

Ltac inv_chain_with tac :=
  repeat (lazymatch goal with
          | |- inv _ (bind _ _) => apply inv_bind; [solve [tac] | intro]
          end);
  tac.

Ltac inv_chain := inv_chain_with inv_auto.

Lemma original_steps_warned k : inv test_warned (Release.steps env k).
Proof. unfold Release.steps. inv_chain. Qed.

Lemma fixed_steps_warned k : inv test_warned (ReleaseFixed.steps env k).
Proof. unfold ReleaseFixed.steps. inv_chain. Qed.

Lemma original_run_warned arg : inv test_warned (Release.run env arg).
Proof.
  unfold Release.run. cbv zeta.
  apply inv_bind; [inv_auto | intro].
  apply inv_try_catch; [| intro].
  - apply inv_bind; [apply original_steps_warned | intro].
    inv_chain.
  - inv_chain.
Qed.

(** *** After a failed test the build step is entered *)

Lemma build_seen_keeps s s' :
  keeps is_failed_test s s' -> build_seen env s -> build_seen env s'.
Proof.
  intros Hk H Hne. rewrite (keeps_events Hk) in Hne.
  exact (keeps_In _ Hk (H Hne)).
Qed.

Lemma log_then_In msg A (k : Js A) s :
  pres (keeps nothing) k ->
  In (logged env msg) (trace (world (snd ((Js.log env msg ;; k) s)))).
Proof.
  intros Hk. js_eval.
  match goal with
  | |- In _ (trace (world (snd (k ?st)))) => apply (keeps_In _ (Hk st))
  end.
  now left.
Qed.

Lemma In_bind_l e A B (m : Js A) (k : A -> Js B) s :
  In e (trace (world (snd (m s)))) ->
  (forall a, pres (keeps nothing) (k a)) ->
  In e (trace (world (snd (bind m k s)))).
Proof.
  intros H Hk. unfold bind. destruct (m s) as [[a|x] s1]; cbn [snd] in *.
  - exact (keeps_In _ (Hk a s1) H).
  - exact H.
Qed.

Lemma original_build_logs s :
  In (logged env "=== PASO 3: Build ===") (trace (world (snd (Release.build env s)))).
Proof. unfold Release.build. apply log_then_In. keeps_tac. Qed.

Lemma original_after_tests_logs k s :
  In (logged env "=== PASO 3: Build ===")
     (trace (world (snd (original_after_tests env k s)))).
Proof.
  unfold original_after_tests.
  match goal with
  | |- context [bind (console ?st ?line) ?k] =>
      change (bind (console st line) k s) with (k tt (with_world (record (Console st line)) s))
  end.
  apply In_bind_l; [apply original_build_logs | intro].
  chain.
Qed.

Lemma original_steps_eq k :
  Release.steps env k
  = (console Stdout "🚀 DEBUG: Ejecutando preVerification()" ;;
     Release.preVerification env ;;
     console Stdout "📦 DEBUG: Ejecutando dependenciesAndTests()" ;;
     Release.dependenciesAndTests env ;;
     original_after_tests env k).
Proof. reflexivity. Qed.

Ltac build_auto :=
  apply (inv_of_keeps (build_seen env) is_failed_test _ _ build_seen_keeps);
  first [solve [auto with footprint] | solve [keeps_tac]].

Lemma original_tests_then_build k :
  inv (build_seen env) (Release.dependenciesAndTests env ;; original_after_tests env k).
Proof.
  intros s Hs. unfold bind.
  pose proof (original_tests_throw s) as Ht.
  destruct (Release.dependenciesAndTests env s) as [[[]|e] s1]; cbn [fst snd] in *.
  - intros _. apply original_after_tests_logs.
  - destruct (Ht e eq_refl) as [_ Hk]. exact (build_seen_keeps _ _ Hk Hs).
Qed.

Lemma original_steps_build k : inv (build_seen env) (Release.steps env k).
Proof.
  rewrite original_steps_eq.
  do 3 (apply inv_bind; [build_auto | intro]).
  apply original_tests_then_build.
Qed.

Lemma original_run_build arg : inv (build_seen env) (Release.run env arg).
Proof.
  unfold Release.run. cbv zeta.
  apply inv_bind; [build_auto | intro].
  apply inv_try_catch; [| intro].
  - apply inv_bind; [apply original_steps_build | intro].
    inv_chain_with build_auto.
  - inv_chain_with build_auto.
Qed.

(** *** What a returning computation has done *)

Lemma mark_bind_l e A B (m : Js A) (k : A -> Js B) :
  returns_mark m e -> (forall a, pres (keeps nothing) (k a)) ->
  returns_mark (bind m k) e.
Proof.
  intros Hm Hk s b. unfold bind. specialize (Hm s).
  destruct (m s) as [[a|x] s1]; cbn [fst snd] in *; [|discriminate].
  intros _. exact (keeps_In _ (Hk a s1) (Hm a eq_refl)).
Qed.

Lemma mark_bind_r e A B (m : Js A) (k : A -> Js B) :
  (forall a, returns_mark (k a) e) -> returns_mark (bind m k) e.
Proof.
  intros Hk s b. unfold bind.
  destruct (m s) as [[a|x] s1]; cbn [fst snd]; [apply Hk | discriminate].
Qed.

Lemma mark_try_catch e A (m : Js A) (h : string -> Js A) :
  returns_mark m e -> (forall x s, exists x', fst (h x s) = Throw x') ->
  returns_mark (try_catch m h) e.
Proof.
  intros Hm Hh s b. unfold try_catch. specialize (Hm s).
  destruct (m s) as [[a|x] s1]; cbn [fst snd] in *.
  - intros _. now apply (Hm a).
  - destruct (Hh x s1) as [x' E]. rewrite E. discriminate.
Qed.

Lemma mark_log_first msg A (k : Js A) :
  pres (keeps nothing) k -> returns_mark (Js.log env msg ;; k) (logged env msg).
Proof. intros Hk s a _. now apply log_then_In. Qed.

Lemma original_versioning_mark k :
  returns_mark (Release.versioning env k) (logged env "=== PASO 4: Versionado ===").
Proof. unfold Release.versioning. apply mark_log_first. keeps_tac. Qed.

Lemma original_publish_mark :
  returns_mark (Release.publishToNpm env) (Exec NpmPublish true).
Proof.
  intros s a. unfold Release.publishToNpm. js_eval.
  destruct (Release.token_missing env); js_eval; [discriminate|].
  match goal with
  | |- context [execSync env NpmPublish ?st] =>
      destruct (execSync_trace env NpmPublish st) as (ok & Ht & Hok);
      destruct (execSync env NpmPublish st) as [[o|x] s1]
  end; cbn [fst snd] in *; js_eval; [|discriminate].
  intros _. cbn [world with_world with_this trace record]. right.
  rewrite Ht. left. f_equal. apply Hok. now eexists.
Qed.

Ltac mark_to target :=
  repeat first
    [ apply mark_bind_l; [apply target | intro; chain]
    | lazymatch goal with
      | |- returns_mark (bind _ _) _ => apply mark_bind_r; intro
      end ].

Lemma original_steps_mark_versioning k :
  returns_mark (Release.steps env k) (logged env "=== PASO 4: Versionado ===").
Proof. unfold Release.steps. mark_to original_versioning_mark. Qed.

Lemma original_steps_mark_publish k :
  returns_mark (Release.steps env k) (Exec NpmPublish true).
Proof. unfold Release.steps. mark_to original_publish_mark. Qed.

Lemma original_handler_throws x s :
  exists x',
    fst ((console Stderr ("❌ DEBUG: Error en el proceso: " ++ x) ;;
          console Stderr ("❌ DEBUG: Stack trace: Error: " ++ x) ;;
          generateReport env ;;
          @throw unit x) s) = Throw x'.
Proof.
  js_eval.
  match goal with
  | |- context [generateReport env ?st] =>
      destruct (generateReport_spec env st) as (s2 & -> & _)
  end.
  now exists x.
Qed.

Lemma original_run_mark arg e :
  (forall k, returns_mark (Release.steps env k) e) ->
  returns_mark (Release.run env arg) e.
Proof.
  intros He. unfold Release.run. cbv zeta.
  apply mark_bind_r; intro.
  apply mark_try_catch; [| apply original_handler_throws].
  apply mark_bind_l; [apply He | intro].
  keeps_tac. apply generateReport_keeps. simpl. tauto.
Qed.

(** The report of [scripts/release.js]: always [completed], its issues
    the recorded errors followed by the warnings. *)
Lemma original_run_report arg s :
  errors (this s) = [] ->
  let s' := snd (Release.run env arg s) in
  status (report (this s')) = "completed"
  /\ issues (report (this s')) = (errors (this s') ++ warnings (this s'))%list.
Proof.
  intros He. cbv zeta. unfold Release.run.
  set (k := match arg with Some k => k | None => "patch" end).
  js_eval.
  match goal with
  | |- context [Release.steps env k ?st] =>
      pose proof (@original_steps_keeps env _ k in_steps_1 st) as (E1 & _);
      destruct (Release.steps env k st) as [[[]|e] s1]
  end; cbn [snd this with_world] in E1; js_eval;
  match goal with
  | |- context [generateReport env ?st] =>
    destruct (generateReport_spec env st) as (s2 & -> & E2 & W2 & St & Is & _)
  end;
  cbn [this with_world snd] in *; rewrite E1, He in St; rewrite E2, W2;
  (split; [exact St | exact Is]).
Qed.
End Tests.

(** ** The issues of the report *)

(** C9, on both scripts: with the test command failing, the tests step
    appends the issue [Tests no configurados] to the report, the run goes
    through, and the issues of the final report do not hold that issue:
    the report step overwrites the list with the errors and the warnings. *)
Theorem recorded_issue_dropped_from_report :
  let env1 := tests_failing "1.0.0" in
  let s1 := fresh env1 (checkout "1.0.0" [] []) in
  let env2 := tests_failing "1.0.1" in
  let s2 := fresh env2 (checkout "1.0.0" [] []) in
  issues (report (this (snd ((Release.preVerification env1 ;;
                              Release.dependenciesAndTests env1) s1))))
  = ["Tests no configurados"]
  /\ fst (Release.run env1 None s1) = Return tt
  /\ existsb (String.eqb "Tests no configurados")
       (issues (report (this (snd (Release.run env1 None s1))))) = false
  /\ issues (report (this (snd ((ReleaseFixed.preVerification env2 ;;
                                 ReleaseFixed.dependenciesAndTests env2) s2))))
     = ["Tests no configurados"]
  /\ fst (ReleaseFixed.run env2 None s2) = Return tt
  /\ existsb (String.eqb "Tests no configurados")
       (issues (report (this (snd (ReleaseFixed.run env2 None s2))))) = false.
Proof. vm_compute. repeat split. Qed.

(** ** A failing push *)

Lemma failed_push_before_push : In is_failed_push absent_before_push.
Proof. simpl. tauto. Qed.

Lemma failed_push_in_tests : In is_failed_push absent_in_tests.
Proof. simpl. tauto. Qed.

Lemma failed_push_after_push : In is_failed_push absent_after_push.
Proof. simpl. tauto. Qed.

Lemma failed_push_in_report : In is_failed_push absent_in_report.
Proof. simpl. tauto. Qed.

Lemma publish_before_push : In is_publish absent_before_push.
Proof. simpl. tauto. Qed.

Lemma publish_in_tests : In is_publish absent_in_tests.
Proof. simpl. tauto. Qed.

Lemma publish_in_push : In is_publish absent_in_push.
Proof. simpl. tauto. Qed.

Lemma publish_in_report : In is_publish absent_in_report.
Proof. simpl. tauto. Qed.
#[export] Hint Resolve failed_push_before_push failed_push_in_tests
  failed_push_after_push failed_push_in_report publish_before_push
  publish_in_tests publish_in_push publish_in_report : footprint.

Section PushFailure.
Variable env : Env.

Lemma bind_cases R A B (m : Js A) (k : A -> Js B) s :
  pres R m ->
  R s (snd (m s))
  /\ ((exists e, fst (m s) = Throw e /\ bind m k s = (Throw e, snd (m s)))
      \/ (exists a, fst (m s) = Return a /\ bind m k s = k a (snd (m s)))).
Proof.
  intros Hm. split; [apply Hm|]. unfold bind.
  destruct (m s) as [[a|e] s1]; cbn [fst snd]; [right | left]; eauto.
Qed.

(** A chain of steps either throws or hands over to the rest. *)
Lemma seq_cases (R : State -> State -> Prop) ms rest :
  (forall s, R s s) -> (forall a b c, R a b -> R b c -> R a c) ->
  Forall (pres R) ms ->
  forall s, exists s1, R s s1
    /\ ((exists e, seq ms rest s = (Throw e, s1)) \/ seq ms rest s = rest s1).
Proof.
  intros Hrefl Htrans Hms. induction Hms as [|m ms Hm _ IH]; intros s.
  - exists s. split; [apply Hrefl | now right].
  - cbn [seq fold_right]. fold (seq ms rest).
    destruct (@bind_cases R _ _ m (fun _ => seq ms rest) s Hm)
      as [Hk [(e & _ & E) | ([] & _ & E)]]; rewrite E.
    + exists (snd (m s)). split; [exact Hk | left; now exists e].
    + destruct (IH (snd (m s))) as (s1 & Hk1 & Hc).
      exists s1. split; [exact (Htrans _ _ _ Hk Hk1) | exact Hc].
Qed.

Lemma fixed_until_push_eq k rest :
  fixed_until_push env k rest
  = seq [ReleaseFixed.preVerification env; ReleaseFixed.dependenciesAndTests env;
         ReleaseFixed.build env; ReleaseFixed.versioning env k;
         updateChangelog env; ReleaseFixed.commitAndTag env] rest.
Proof. reflexivity. Qed.

Lemma pres_unpublished A (m : Js A) :
  pres (keeps is_failed_push) m -> pres (keeps is_publish) m -> pres unpublished m.
Proof. intros H1 H2 x. split; [apply H1 | apply H2]. Qed.

(** The steps before the push either throw or hand over to the rest; in
    both cases nothing was pushed or published. *)
Lemma fixed_until_push_cases k rest s :
  exists s1, unpublished s s1
    /\ ((exists e, fixed_until_push env k rest s = (Throw e, s1))
        \/ fixed_until_push env k rest s = rest s1).
Proof.
  rewrite fixed_until_push_eq.
  apply seq_cases.
  - intros x. split; apply keeps_refl.
  - intros x y z [A1 B1] [A2 B2]. split; eapply keeps_trans; eauto.
  - repeat (apply Forall_cons; [apply pres_unpublished; auto with footprint|]).
    apply Forall_nil.
Qed.

(** When the push step returns, no push has failed. *)
Lemma fixed_push_returns s :
  fst (ReleaseFixed.push env s) = Return tt ->
  keeps is_failed_push s (snd (ReleaseFixed.push env s)).
Proof.
  unfold ReleaseFixed.push. js_eval.
  set (b := show (currentBranch (this _))).
  match goal with
  | |- context [execSync env (GitPush b) ?st] =>
      destruct (execSync env (GitPush b) st) as [[o|e] s1] eqn:E1
  end; js_eval; [|discriminate].
  match goal with
  | |- context [execSync env GitPushTags ?st] =>
      destruct (execSync env GitPushTags st) as [[o'|e] s2] eqn:E2
  end; js_eval; [|discriminate].
  intros _.
  assert (K : keeps is_failed_push s
                (with_world (record (Console Stdout ("[" ++ now env ++ "] " ++ "✅ Push de tags completado"))) s2)).
  { eapply keeps_trans; [apply (log_keeps env is_failed_push); simpl; tauto|].
    eapply keeps_trans; [apply (keeps_execSync_ok env is_failed_push _ _ _ _ E1); reflexivity|].
    eapply keeps_trans; [apply (log_keeps env is_failed_push); simpl; tauto|].
    eapply keeps_trans; [apply (keeps_execSync_ok env is_failed_push _ _ _ _ E2); reflexivity|].
    apply (log_keeps env is_failed_push). simpl. tauto. }
  match goal with
  | |- context [execSync env GitRevParseHead ?st] =>
      pose proof (keeps_execSync env is_failed_push GitRevParseHead (fun ok => eq_refl) st) as K3;
      destruct (execSync env GitRevParseHead st) as [[o3|e] s3]
  end; js_eval; cbn [snd] in K3.
  - eapply keeps_trans; [exact K|].
    eapply keeps_trans; [exact K3|]. apply keeps_update_report.
  - exact (keeps_trans _ _ _ _ K K3).
Qed.

Lemma epilogue_keeps P : In P absent_in_report -> pres (keeps P) (epilogue env).
Proof.
  intro H. pose proof (fun l => @fixed_log_each_keeps env P l H) as Hl.
  each_predicate ltac:(unfold epilogue; keeps_tac; try apply Hl).
Qed.

(** The reworked [run] around its steps: the outcome is that of the
    steps, and nothing is pushed, published or tested after them. *)
Lemma fixed_run_cases arg s :
  let k := match arg with Some k => k | None => "patch" end in
  let r1 := fst (ReleaseFixed.steps env k s) in
  let s1 := snd (ReleaseFixed.steps env k s) in
  let res := ReleaseFixed.run env arg s in
  (forall P, In P absent_in_report -> events_of P (snd res) = events_of P s1)
  /\ ((exists e, r1 = Throw e /\ fst res = Throw e)
      \/ (r1 = Return tt /\ fst res = Return tt)).
Proof.
  cbv zeta. rewrite run_eq.
  set (k := match arg with Some k => k | None => "patch" end).
  js_eval.
  destruct (ReleaseFixed.steps env k s) as [[[]|e] s1]; js_eval.
  - pose proof (fun P H => @generateReport_keeps env P H s1) as Hg.
    destruct (generateReport_spec env s1) as (s2 & Eg & _).
    rewrite Eg in *. cbn [snd] in Hg. js_eval.
    pose proof (fun P H => @epilogue_keeps P H s2) as He.
    destruct (epilogue_spec env s2) as [Ee _].
    destruct (epilogue env s2) as [[[]|e] s3]; [|discriminate]. cbn [fst snd] in *.
    split; [| right; now split].
    intros P HP. rewrite (keeps_events (He P HP)). apply (keeps_events (Hg P HP)).
  - match goal with
    | |- context [generateReport env ?st] =>
      pose proof (fun P H => @generateReport_keeps env P H st) as Hg;
      destruct (generateReport_spec env st) as (s2 & Eg & _);
      rewrite Eg in *
    end.
    cbn [fst snd] in *. split; [| left; eexists; now split].
    intros P HP. rewrite (keeps_events (Hg P HP)).
    unfold events_of. cbn [world with_world with_this trace record filter].
    simpl in HP. decompose [or] HP; subst; try reflexivity. contradiction.
Qed.

Lemma fixed_steps_eq k :
  ReleaseFixed.steps env k
  = fixed_until_push env k (ReleaseFixed.push env ;; fixed_after_push env).
Proof. reflexivity. Qed.

(** If a push failed among the steps, the steps threw and nothing was
    published. *)
Lemma fixed_steps_push_failure k s :
  events_of is_failed_push s = [] ->
  events_of is_publish s = [] ->
  events_of is_failed_push (snd (ReleaseFixed.steps env k s)) <> [] ->
  (exists e, fst (ReleaseFixed.steps env k s) = Throw e)
  /\ events_of is_publish (snd (ReleaseFixed.steps env k s)) = [].
Proof.
  intros Hf Hp. rewrite fixed_steps_eq.
  destruct (fixed_until_push_cases k (ReleaseFixed.push env ;; fixed_after_push env) s)
    as (s1 & [K1 K1'] & [[e E] | E]); rewrite E.
  - cbn [fst snd]. rewrite (keeps_events K1), Hf. congruence.
  - pose proof (@fixed_push_keeps env is_publish publish_in_push s1) as Kp.
    destruct (@bind_cases (keeps is_publish) _ _ (ReleaseFixed.push env)
                (fun _ => fixed_after_push env) s1
                (@fixed_push_keeps env is_publish publish_in_push))
      as [_ [(e & _ & E2) | ([] & R2 & E2)]]; rewrite E2.
    + cbn [fst snd]. intros _. split; [now exists e|].
      now rewrite (keeps_events Kp), (keeps_events K1').
    + intros Hne. exfalso. apply Hne.
      assert (Ka : pres (keeps is_failed_push) (fixed_after_push env)).
      { unfold fixed_after_push. chain. }
      rewrite (keeps_events (Ka _)).
      rewrite (keeps_events (fixed_push_returns _ R2)).
      now rewrite (keeps_events K1).
Qed.

End PushFailure.

(** C6, on the reworked script: when a push (of the branch or of the
    tags) fails during a run, the run throws, the report says [failed],
    and no publish command has been issued. *)
Theorem fixed_push_failure_aborts_before_publish env arg w :
  trace w = [] ->
  let res := ReleaseFixed.run env arg (fresh env w) in
  events_of is_failed_push (snd res) <> [] ->
  (exists e, fst res = Throw e)
  /\ status (report (this (snd res))) = "failed"
  /\ events_of is_publish (snd res) = [].
Proof.
  intros Hw. cbv zeta. intros Hne.
  set (k := match arg with Some k => k | None => "patch" end).
  assert (H0 : forall P, events_of P (fresh env w) = []).
  { intro P. unfold events_of. simpl. now rewrite Hw. }
  destruct (fixed_run_cases env arg (fresh env w)) as [Hev Hout]. fold k in Hev, Hout.
  rewrite (Hev is_failed_push failed_push_in_report) in Hne.
  destruct (fixed_steps_push_failure env k (fresh env w) (H0 _) (H0 _) Hne) as [[e He] Hp].
  rewrite (Hev is_publish publish_in_report).
  assert (Ht : exists e, fst (ReleaseFixed.run env arg (fresh env w)) = Throw e).
  { destruct Hout as [(e' & _ & H) | [H _]]; [now exists e' | congruence]. }
  split; [exact Ht|]. split; [|exact Hp].
  destruct (@fixed_run_report env arg (fresh env w) eq_refl (H0 _)) as (_ & _ & S1 & _).
  now apply S1.
Qed.

Lemma fixed_push_failure_aborts_before_publish_witness :
  let env := tags_push_failing "1.0.1" in
  let res := ReleaseFixed.run env None (fresh env (checkout "1.0.0" [] [])) in
  (exists e, fst res = Throw e)
  /\ status (report (this (snd res))) = "failed"
  /\ events_of is_publish (snd res) = [].
Proof.
  apply (fixed_push_failure_aborts_before_publish
           (tags_push_failing "1.0.1") None (checkout "1.0.0" [] [])).
  - reflexivity.
  - vm_compute. discriminate.
Defined.

(** C6, on [scripts/release.js]: with the push of the tags failing, the
    run is not aborted: it returns, the report says [completed], and the
    publish command has been issued after the failed push. *)
Theorem original_tags_push_failure_ignored :
  let env := tags_push_failing "1.0.0" in
  let res := Release.run env None (fresh env (checkout "1.0.0" [] [])) in
  fst res = Return tt
  /\ events_of is_failed_push (snd res) = [Exec GitPushTags false]
  /\ events_of is_publish (snd res) = [Exec NpmPublish true]
  /\ status (report (this (snd res))) = "completed".
Proof. vm_compute. repeat split. Qed.

(** ** The authentication token *)

Section MissingToken.
Variable env : Env.



Lemma events_of_record P e s :
  P e = false -> events_of P (with_world (record e) s) = events_of P s.
Proof. intros H. unfold events_of. simpl. now rewrite H. Qed.




(** [run] of [scripts/release.js] around its steps. *)
Lemma original_run_cases arg s :
  let k := match arg with Some k => k | None => "patch" end in
  let s0 := with_world
              (record (Console Stdout ("🔍 DEBUG: Iniciando run() con releaseType: " ++ k))) s in
  let r1 := fst (Release.steps env k s0) in
  let s1 := snd (Release.steps env k s0) in
  let res := Release.run env arg s in
  (forall P, In P absent_in_report -> events_of P (snd res) = events_of P s1)
  /\ ((exists e, r1 = Throw e /\ fst res = Throw e)
      \/ (r1 = Return tt /\ fst res = Return tt)).
Proof.
  cbv zeta. unfold Release.run.
  set (k := match arg with Some k => k | None => "patch" end).
  js_eval.
  match goal with
  | |- context [Release.steps env k ?st] =>
      destruct (Release.steps env k st) as [[[]|e] s1]
  end; js_eval;
  match goal with
  | |- context [generateReport env ?st] =>
    pose proof (fun P H => @generateReport_keeps env P H st) as Hg;
    destruct (generateReport_spec env st) as (s2 & Eg & _);
    rewrite Eg in *
  end; cbn [fst snd] in *.
  - split; [| right; now split].
    intros P HP. pose proof (keeps_events (Hg P HP)) as Hk.
    assert (Hc : forall st line, P (Console st line) = false)
      by (intros; simpl in HP; decompose [or] HP; subst; try reflexivity; contradiction).
    rewrite !events_of_record by apply Hc. rewrite Hk.
    now rewrite events_of_record by apply Hc.
  - split; [| left; eexists; now split].
    intros P HP. pose proof (keeps_events (Hg P HP)) as Hk.
    assert (Hc : forall st line, P (Console st line) = false)
      by (intros; simpl in HP; decompose [or] HP; subst; try reflexivity; contradiction).
    rewrite Hk. now rewrite !events_of_record by apply Hc.
Qed.
End MissingToken.




(** ** Pre-verification *)

Lemma trimEnd_nonspace c r : is_space c = false -> truthy (trimEnd (String c r)) = true.
Proof. intros H. cbn [trimEnd]. rewrite H. now destruct (trimEnd r). Qed.

(** [git status --porcelain] prints something exactly when a path has
    changed. *)
Lemma porcelain_truthy d :
  truthy (trim (porcelain d)) = match d with [] => false | _ => true end.
Proof.
  destruct d as [|p d]; [reflexivity|].
  unfold trim, porcelain. cbn [map String.concat].
  destruct d as [|q d].
  - cbn [map String.concat]. change (" M " ++ p ++ nl) with (String " " (String "M" (String " " (p ++ nl)))).
    cbn [trimStart]. change (is_space " ") with true. cbv iota.
    change (is_space "M") with false. cbv iota. now apply trimEnd_nonspace.
  - cbn [map]. change (String.concat "" ((" M " ++ p ++ nl) :: (fun p0 => " M " ++ p0 ++ nl) q :: map (fun p0 => " M " ++ p0 ++ nl) d))
      with ((" M " ++ p ++ nl) ++ "" ++ String.concat "" ((" M " ++ q ++ nl) :: map (fun p0 => " M " ++ p0 ++ nl) d)).
    change ((" M " ++ p ++ nl) ++ ?x) with (String " " (String "M" (String " " ((p ++ nl) ++ x)))).
    cbn [trimStart]. change (is_space " ") with true. cbv iota.
    change (is_space "M") with false. cbv iota. now apply trimEnd_nonspace.
Qed.

Section PreVerification.
Variable env : Env.

Lemma execSync_ok c s :
  fails env (clock (world s)) c = None ->
  execSync env c s
  = match effect env c (tick (world s)) with
    | (Return out, w') =>
        (Return out, {| this := this s; world := record (Exec c true) w' |})
    | (Throw message, w') =>
        (Throw message, {| this := this s; world := record (Exec c false) w' |})
    end.
Proof. intros H. unfold execSync. now rewrite H. Qed.

Lemma effect_commits_tags c w :
  (match c with
   | GitCommit _ _ | GitTagAnnotated _ _ => false
   | NpmVersion k => single_word k
   | _ => true
   end) = true ->
  commits (snd (effect env c w)) = commits w /\ tags (snd (effect env c w)) = tags w.
Proof.
  intros Hc. destruct c; try discriminate; cbn [effect];
    try (now split);
    try (destruct (manifest_eqb _ _));
    try (destruct (npm_version _ _ _));
    try (destruct (tags w) eqn:Et);
    cbv zeta; rewrite ?Hc;
    cbn [snd]; rewrite ?Et;
    rewrite ?(proj1 (proj2 (proj2 (mark_dirty_fields _ _ _)))),
            ?(proj1 (proj2 (proj2 (proj2 (mark_dirty_fields _ _ _)))));
    now split.
Qed.

(** Apart from commits and tags, and from a bump whose release kind is not
    a single word, no command touches commits and tags; no command
    touches the files. *)
Lemma execSync_same_repo c s :
  (match c with
   | GitCommit _ _ | GitTagAnnotated _ _ => false
   | NpmVersion k => single_word k
   | _ => true
   end) = true ->
  same_repo s (snd (execSync env c s)).
Proof.
  intros Hc. unfold same_repo. rewrite execSync_files.
  split; [reflexivity|].
  unfold execSync. destruct (fails env _ c); [now split|].
  pose proof (effect_commits_tags c (tick (world s)) Hc) as H.
  destruct (effect env c _) as [[out|e] w']; exact H.
Qed.

Lemma same_repo_refl s : same_repo s s.
Proof. now repeat split. Qed.

Lemma same_repo_trans a b c : same_repo a b -> same_repo b c -> same_repo a c.
Proof. intros (F1 & C1 & T1) (F2 & C2 & T2). repeat split; congruence. Qed.

Lemma same_repo_this f s : same_repo s (with_this f s).
Proof. now repeat split. Qed.

Lemma same_repo_record e s : same_repo s (with_world (record e) s).
Proof. now repeat split. Qed.

Ltac same_repo_tac :=
  repeat
    (cbv zeta;
     lazymatch goal with
     | |- pres _ (Js.log _ _) => intro; apply same_repo_record
     | |- pres _ (console _ _) => intro; apply same_repo_record
     | |- pres _ (update_report _) => intro; apply same_repo_this
     | |- pres _ (modify (with_this _)) => intro; apply same_repo_this
     | |- pres _ (execSync _ _) => intro; apply execSync_same_repo; reflexivity
     | |- pres _ (ret _) => apply pres_ret, same_repo_refl
     | |- pres _ (throw _) => apply pres_throw, same_repo_refl
     | |- pres _ readPackageJson => apply pres_gets, same_repo_refl
     | |- pres _ (bind _ _) => apply (pres_bind _ same_repo_trans); [| intro]
     | |- pres _ (if ?b then _ else _) => destruct b
     end).

Lemma original_preVerification_same_repo : pres same_repo (Release.preVerification env).
Proof. unfold Release.preVerification. same_repo_tac. Qed.

Lemma fixed_preVerification_same_repo : pres same_repo (ReleaseFixed.preVerification env).
Proof. unfold ReleaseFixed.preVerification. same_repo_tac. Qed.

Lemma original_preVerification_no_repo_change :
  pres (keeps is_repo_change) (Release.preVerification env).
Proof. unfold Release.preVerification. keeps_tac. Qed.

Lemma fixed_preVerification_no_repo_change :
  pres (keeps is_repo_change) (ReleaseFixed.preVerification env).
Proof. unfold ReleaseFixed.preVerification. keeps_tac. Qed.


Lemma manifest_eqb_eq a b : manifest_eqb a b = true -> a = b.
Proof.
  unfold manifest_eqb. intros H.
  apply andb_true_iff in H as [H Ho]. apply andb_true_iff in H as [H Hs].
  apply andb_true_iff in H as [Hn Hv].
  apply String.eqb_eq in Hn, Hv, Ho. apply Bool.eqb_prop in Hs.
  destruct a, b; simpl in *; congruence.
Qed.

Lemma events_of_exec P c ok (m : Manager) (w : World) :
  events_of P {| this := m; world := record (Exec c ok) w |}
  = if P (Exec c ok) then Exec c ok :: filter P (trace w) else filter P (trace w).
Proof. reflexivity. Qed.

Ltac pre_eval Htools :=
  js_eval;
  repeat (rewrite (execSync_ok _ _ (Htools _ _)); cbn [effect]; js_eval).

(** Wrong branch: the step throws with the tree untouched. *)
Lemma fixed_wrong_branch s :
  tools_ok env -> wrong_branch env = true ->
  (exists e, fst (ReleaseFixed.preVerification env s) = Throw e)
  /\ same_tree s (snd (ReleaseFixed.preVerification env s))
  /\ events_of is_mutation (snd (ReleaseFixed.preVerification env s))
     = events_of is_mutation s.
Proof.
  intros Htools Hb. unfold ReleaseFixed.preVerification. pre_eval Htools.
  unfold wrong_branch in Hb. cbv zeta in Hb. rewrite Hb. js_eval.
  split; [now eexists|]. split; [now repeat split | reflexivity].
Qed.

Lemma original_wrong_branch s :
  tools_ok env -> wrong_branch env = true ->
  (exists e, fst (Release.preVerification env s) = Throw e)
  /\ same_tree s (snd (Release.preVerification env s))
  /\ events_of is_mutation (snd (Release.preVerification env s))
     = events_of is_mutation s.
Proof.
  intros Htools Hb. unfold Release.preVerification. pre_eval Htools.
  unfold wrong_branch in Hb. cbv zeta in Hb. rewrite Hb. js_eval.
  split; [now eexists|]. split; [now repeat split | reflexivity].
Qed.

(** Dirty tree: the step throws with the tree untouched. *)
Lemma fixed_dirty_tree s :
  tools_ok env -> wrong_branch env = false -> dirty (world s) <> [] ->
  (exists e, fst (ReleaseFixed.preVerification env s) = Throw e)
  /\ same_tree s (snd (ReleaseFixed.preVerification env s))
  /\ events_of is_mutation (snd (ReleaseFixed.preVerification env s))
     = events_of is_mutation s.
Proof.
  intros Htools Hb Hd. unfold ReleaseFixed.preVerification. pre_eval Htools.
  unfold wrong_branch in Hb. cbv zeta in Hb. rewrite Hb. pre_eval Htools.
  cbn [world with_world with_this dirty record tick].
  rewrite porcelain_truthy. destruct (dirty (world s)); [congruence|]. js_eval.
  split; [now eexists|]. split; [now repeat split | reflexivity].
Qed.

Lemma original_dirty_tree s :
  tools_ok env -> wrong_branch env = false -> dirty (world s) <> [] ->
  (exists e, fst (Release.preVerification env s) = Throw e)
  /\ same_tree s (snd (Release.preVerification env s))
  /\ events_of is_mutation (snd (Release.preVerification env s))
     = events_of is_mutation s.
Proof.
  intros Htools Hb Hd. unfold Release.preVerification. pre_eval Htools.
  unfold wrong_branch in Hb. cbv zeta in Hb. rewrite Hb. pre_eval Htools.
  cbn [world with_world with_this dirty record tick].
  rewrite porcelain_truthy. destruct (dirty (world s)); [congruence|]. js_eval.
  split; [now eexists|]. split; [now repeat split | reflexivity].
Qed.

(** Bad version: the step throws after [npm pkg fix] has rewritten the
    manifest. *)
Lemma fixed_bad_version s :
  tools_ok env -> wrong_branch env = false -> dirty (world s) = [] ->
  Semver.versionRegex_test (version (normalize env (manifest (world s)))) = false ->
  (exists e, fst (ReleaseFixed.preVerification env s) = Throw e)
  /\ manifest (world (snd (ReleaseFixed.preVerification env s)))
     = normalize env (manifest (world s))
  /\ events_of is_mutation (snd (ReleaseFixed.preVerification env s))
     = Exec NpmPkgFix true :: events_of is_mutation s.
Proof.
  intros Htools Hb Hd Hv. unfold ReleaseFixed.preVerification. pre_eval Htools.
  unfold wrong_branch in Hb. cbv zeta in Hb. rewrite Hb. pre_eval Htools.
  cbn [world with_world with_this dirty record tick].
  rewrite porcelain_truthy, Hd. pre_eval Htools.
  cbn [world with_world with_this manifest record tick].
  destruct (manifest_eqb _ _) eqn:Em.
  - apply manifest_eqb_eq in Em. rewrite Em in Hv.
    cbn [world manifest record tick]. rewrite Hv. cbn [negb]. js_eval.
    split; [now eexists|]. split; [now rewrite Em | reflexivity].
  - match goal with
    | |- context [mark_dirty env ?p ?w] =>
        destruct (mark_dirty_fields env p w) as (Hm & _ & _ & _ & Ht & _);
        generalize dependent (mark_dirty env p w)
    end.
    intros w1 Hm Ht.
    unfold events_of.
    cbn [world this manifest trace record tick set_manifest with_world with_this] in *.
    rewrite Hm, Hv. cbn [negb]. js_eval.
    cbn [world this manifest trace record tick set_manifest with_world with_this].
    rewrite ?Hm, ?Ht.
    split; [now eexists|]. split; reflexivity.
Qed.

Lemma original_bad_version s :
  tools_ok env -> wrong_branch env = false -> dirty (world s) = [] ->
  Semver.versionRegex_test (version (normalize env (manifest (world s)))) = false ->
  (exists e, fst (Release.preVerification env s) = Throw e)
  /\ manifest (world (snd (Release.preVerification env s)))
     = normalize env (manifest (world s))
  /\ events_of is_mutation (snd (Release.preVerification env s))
     = Exec NpmPkgFix true :: events_of is_mutation s.
Proof.
  intros Htools Hb Hd Hv. unfold Release.preVerification. pre_eval Htools.
  unfold wrong_branch in Hb. cbv zeta in Hb. rewrite Hb. pre_eval Htools.
  cbn [world with_world with_this dirty record tick].
  rewrite porcelain_truthy, Hd. pre_eval Htools.
  cbn [world with_world with_this manifest record tick].
  destruct (manifest_eqb _ _) eqn:Em.
  - apply manifest_eqb_eq in Em. rewrite Em in Hv.
    cbn [world manifest record tick]. rewrite Hv. cbn [negb]. js_eval.
    split; [now eexists|]. split; [now rewrite Em | reflexivity].
  - match goal with
    | |- context [mark_dirty env ?p ?w] =>
        destruct (mark_dirty_fields env p w) as (Hm & _ & _ & _ & Ht & _);
        generalize dependent (mark_dirty env p w)
    end.
    intros w1 Hm Ht.
    unfold events_of.
    cbn [world this manifest trace record tick set_manifest with_world with_this] in *.
    rewrite Hm, Hv. cbn [negb]. js_eval.
    cbn [world this manifest trace record tick set_manifest with_world with_this].
    rewrite ?Hm, ?Ht.
    split; [now eexists|]. split; reflexivity.
Qed.

(** When pre-verification throws, so does the reworked [run], and no
    commit, tag, push or publish command is issued in the whole run. *)
Lemma fixed_run_aborts arg s e :
  fst (ReleaseFixed.preVerification env s) = Throw e ->
  fst (ReleaseFixed.run env arg s) = Throw e
  /\ events_of is_repo_change (snd (ReleaseFixed.run env arg s))
     = events_of is_repo_change s.
Proof.
  intros Hp.
  destruct (fixed_run_cases env arg s) as [Hev Hout].
  set (k := match arg with Some k => k | None => "patch" end) in *.
  pose proof (fixed_preVerification_no_repo_change s) as Hk.
  assert (Es : ReleaseFixed.steps env k s = (Throw e, snd (ReleaseFixed.preVerification env s))).
  { unfold ReleaseFixed.steps, bind.
    destruct (ReleaseFixed.preVerification env s) as [[a|e'] s1]; [discriminate|].
    cbn [fst snd] in *. congruence. }
  rewrite Es in *. cbn [fst snd] in *.
  rewrite (Hev is_repo_change ltac:(simpl; tauto)), (keeps_events Hk).
  split; [|reflexivity].
  destruct Hout as [(e' & [= <-] & H) | [H _]]; [exact H | discriminate].
Qed.

Lemma original_run_aborts arg s e :
  fst (Release.preVerification env (original_entry arg s)) = Throw e ->
  fst (Release.run env arg s) = Throw e
  /\ events_of is_repo_change (snd (Release.run env arg s))
     = events_of is_repo_change s.
Proof.
  intros Hp.
  destruct (original_run_cases env arg s) as [Hev Hout].
  set (k := match arg with Some k => k | None => "patch" end) in *.
  pose proof (original_preVerification_no_repo_change (original_entry arg s)) as Hk.
  match type of Hout with
  | context [Release.steps env k ?st] =>
      assert (Es : Release.steps env k st
                   = (Throw e, snd (Release.preVerification env (original_entry arg s))))
  end.
  { unfold Release.steps. js_eval. fold k. unfold original_entry in *. fold k in Hp |- *.
    destruct (Release.preVerification env _) as [[a|e'] s1]; [discriminate|].
    cbn [fst snd] in *. congruence. }
  rewrite Es in *. cbn [fst snd] in *.
  rewrite (Hev is_repo_change ltac:(simpl; tauto)), (keeps_events Hk).
  split; [| reflexivity].
  destruct Hout as [(e' & [= <-] & H) | [H _]]; [exact H | discriminate].
Qed.
End PreVerification.

(** C4, as the code has it, on both scripts, the tools themselves working.
    On a wrong branch or a dirty tree the run aborts before any mutation.
    On a manifest version that does not match X.Y.Z the run aborts after
    [npm pkg fix] has normalised the manifest in place, and before any
    other write, commit, tag, push or publish. *)
Theorem preVerification_failure_effects env arg w :
  trace w = [] ->
  tools_ok env ->
  (wrong_branch env = true \/ dirty w <> [] ->
     aborted_untouched (ReleaseFixed.preVerification env)
       (ReleaseFixed.run env arg (fresh env w)) (fresh env w)
     /\ aborted_untouched (Release.preVerification env)
          (Release.run env arg (fresh env w)) (original_entry arg (fresh env w)))
  /\ (wrong_branch env = false -> dirty w = [] ->
      Semver.versionRegex_test (version (normalize env (manifest w))) = false ->
      aborted_after_fix env (ReleaseFixed.preVerification env)
        (ReleaseFixed.run env arg (fresh env w)) (fresh env w)
      /\ aborted_after_fix env (Release.preVerification env)
           (Release.run env arg (fresh env w)) (original_entry arg (fresh env w))).
Proof.
  intros Hw Htools.
  assert (H0 : forall P, events_of P (fresh env w) = []).
  { intro P. unfold events_of. simpl. now rewrite Hw. }
  assert (H1 : events_of is_mutation (original_entry arg (fresh env w)) = []).
  { unfold events_of. simpl. now rewrite Hw. }
  split.
  - intros Hc.
    assert (Hf : (exists e, fst (ReleaseFixed.preVerification env (fresh env w)) = Throw e)
                 /\ same_tree (fresh env w) (snd (ReleaseFixed.preVerification env (fresh env w)))
                 /\ events_of is_mutation (snd (ReleaseFixed.preVerification env (fresh env w)))
                    = events_of is_mutation (fresh env w)).
    { destruct (wrong_branch env) eqn:Hb.
      - now apply fixed_wrong_branch.
      - destruct Hc as [Hc|Hc]; [discriminate|]. now apply fixed_dirty_tree. }
    assert (Ho : (exists e, fst (Release.preVerification env (original_entry arg (fresh env w))) = Throw e)
                 /\ same_tree (original_entry arg (fresh env w))
                      (snd (Release.preVerification env (original_entry arg (fresh env w))))
                 /\ events_of is_mutation (snd (Release.preVerification env (original_entry arg (fresh env w))))
                    = events_of is_mutation (original_entry arg (fresh env w))).
    { destruct (wrong_branch env) eqn:Hb.
      - now apply original_wrong_branch.
      - destruct Hc as [Hc|Hc]; [discriminate|]. now apply original_dirty_tree. }
    destruct Hf as ([e He] & Ht & Hm). destruct Ho as ([e' He'] & Ht' & Hm').
    destruct (fixed_run_aborts env arg (fresh env w) e He) as [Hr Hc1].
    destruct (original_run_aborts env arg (fresh env w) e' He') as [Hr' Hc1'].
    split.
    + split; [now exists e|]. split; [exact Ht|].
      split; [now rewrite Hm | now rewrite Hc1].
    + split; [now exists e'|]. split; [exact Ht'|].
      split; [now rewrite Hm' | now rewrite Hc1'].
  - intros Hb Hd Hv.
    destruct (fixed_bad_version env (fresh env w) Htools Hb Hd Hv) as ([e He] & Hn & Hm).
    destruct (original_bad_version env (original_entry arg (fresh env w)) Htools Hb Hd Hv)
      as ([e' He'] & Hn' & Hm').
    destruct (fixed_run_aborts env arg (fresh env w) e He) as [Hr Hc1].
    destruct (original_run_aborts env arg (fresh env w) e' He') as [Hr' Hc1'].
    split.
    + split; [now exists e|]. split; [exact Hn|].
      split; [apply fixed_preVerification_same_repo|].
      split; [now rewrite Hm, H0 | now rewrite Hc1].
    + split; [now exists e'|]. split; [exact Hn'|].
      split; [apply original_preVerification_same_repo|].
      split; [now rewrite Hm', H1 | now rewrite Hc1'].
Qed.

Lemma preVerification_failure_effects_witness :
  let env1 := on_branch "develop" (calm "1.0.0") in
  let w1 := checkout "1.0.0" [] [] in
  let env2 := untidy "1.0.0" in
  let w2 := checkout "1.0.0-beta.1" [] [] in
  (aborted_untouched (ReleaseFixed.preVerification env1)
     (ReleaseFixed.run env1 None (fresh env1 w1)) (fresh env1 w1)
   /\ aborted_untouched (Release.preVerification env1)
        (Release.run env1 None (fresh env1 w1)) (original_entry None (fresh env1 w1)))
  /\ (aborted_after_fix env2 (ReleaseFixed.preVerification env2)
        (ReleaseFixed.run env2 None (fresh env2 w2)) (fresh env2 w2)
      /\ aborted_after_fix env2 (Release.preVerification env2)
           (Release.run env2 None (fresh env2 w2)) (original_entry None (fresh env2 w2))).
Proof.
  split.
  - apply (preVerification_failure_effects
             (on_branch "develop" (calm "1.0.0")) None (checkout "1.0.0" [] [])).
    + reflexivity.
    + intros n c. reflexivity.
    + left. reflexivity.
  - apply (preVerification_failure_effects
             (untidy "1.0.0") None (checkout "1.0.0-beta.1" [] [])).
    + reflexivity.
    + intros n c. reflexivity.
    + reflexivity.
    + reflexivity.
    + reflexivity.
Defined.

(** C4 as stated fails for the version check: with a manifest at version
    1.0.0-beta.1 that [npm pkg fix] rewrites, pre-verification throws on
    the version format after the manifest has been changed in place. *)
Lemma preVerification_bad_version_counterexample :
  let env := untidy "1.0.0" in
  let w := checkout "1.0.0-beta.1" [] [] in
  fst (ReleaseFixed.preVerification env (fresh env w))
  = Throw "Versión '1.0.0-beta.1' no sigue formato semver X.Y.Z"
  /\ fst (Release.preVerification env (original_entry None (fresh env w)))
     = Throw "Versión '1.0.0-beta.1' no sigue formato semver X.Y.Z"
  /\ dirty (world (snd (ReleaseFixed.preVerification env (fresh env w)))) = ["package.json"]
  /\ dirty (world (snd (Release.preVerification env (original_entry None (fresh env w)))))
     = ["package.json"]
  /\ ~ aborted_untouched (ReleaseFixed.preVerification env)
         (ReleaseFixed.run env None (fresh env w)) (fresh env w)
  /\ ~ aborted_untouched (Release.preVerification env)
         (Release.run env None (fresh env w)) (original_entry None (fresh env w)).
Proof.
  repeat split; try (vm_compute; reflexivity);
    intros (_ & (Hm & _) & _); vm_compute in Hm; discriminate.
Qed.

(** * Versions, tags and commits *)

(** ** Weakest preconditions *)

Section Wp.
Context {A B : Type}.

Lemma wp_ret (a : A) Q E s : Q a s -> wp (ret a) Q E s.
Proof. exact (fun H => H). Qed.

Lemma wp_throw e (Q : A -> State -> Prop) E s : E e s -> wp (throw e) Q E s.
Proof. exact (fun H => H). Qed.

Lemma wp_gets (f : State -> A) Q E s : Q (f s) s -> wp (gets f) Q E s.
Proof. exact (fun H => H). Qed.

Lemma wp_bind (m : Js A) (k : A -> Js B) Q E s :
  wp m (fun a s' => wp (k a) Q E s') E s -> wp (bind m k) Q E s.
Proof. unfold wp, bind. now destruct (m s) as [[a|e] s1]. Qed.

Lemma wp_try_catch (m : Js A) h Q E s :
  wp m Q (fun e s' => wp (h e) Q E s') s -> wp (try_catch m h) Q E s.
Proof. unfold wp, try_catch. now destruct (m s) as [[a|e] s1]. Qed.

Lemma wp_mono (m : Js A) (Q Q' : A -> State -> Prop) (E E' : string -> State -> Prop) s :
  wp m Q E s ->
  (forall a s', Q a s' -> Q' a s') -> (forall e s', E e s' -> E' e s') ->
  wp m Q' E' s.
Proof. unfold wp. destruct (m s) as [[a|e] s1]; auto. Qed.

Lemma wp_pres R (m : Js A) (Q : A -> State -> Prop) (E : string -> State -> Prop) s :
  pres R m ->
  (forall a s', R s s' -> Q a s') -> (forall e s', R s s' -> E e s') ->
  wp m Q E s.
Proof.
  intros Hm HQ HE. specialize (Hm s). unfold wp.
  destruct (m s) as [[a|e] s1]; cbn [snd] in Hm; auto.
Qed.

Lemma wp_returns (m : Js A) Q E s a :
  wp m Q E s -> fst (m s) = Return a -> Q a (snd (m s)).
Proof. unfold wp. destruct (m s) as [[a'|e] s1]; cbn; intros H [= ->]; exact H. Qed.

Lemma wp_final (m : Js A) (I : State -> Prop) s :
  wp m (fun _ => I) (fun _ => I) s -> I (snd (m s)).
Proof. unfold wp. now destruct (m s) as [[a'|e] s1]. Qed.
End Wp.

Lemma wp_modify f (Q : unit -> State -> Prop) E s : Q tt (f s) -> wp (modify f) Q E s.
Proof. exact (fun H => H). Qed.

Lemma wp_seq {A B} (m : Js A) (k : A -> Js B) Q1 E1 Q E s :
  wp m Q1 E1 s ->
  (forall a s1, Q1 a s1 -> wp (k a) Q E s1) ->
  (forall e s1, E1 e s1 -> E e s1) ->
  wp (bind m k) Q E s.
Proof. intros Hm Hk HE. apply wp_bind. exact (wp_mono _ _ _ _ _ _ Hm Hk HE). Qed.

Section WpPrimitives.
Variable env : Env.

Lemma wp_log msg (Q : unit -> State -> Prop) E s :
  Q tt (with_world (record (logged env msg)) s) -> wp (Js.log env msg) Q E s.
Proof. exact (fun H => H). Qed.

Lemma wp_console st line (Q : unit -> State -> Prop) E s :
  Q tt (with_world (record (Console st line)) s) -> wp (console st line) Q E s.
Proof. exact (fun H => H). Qed.

Lemma wp_warn msg (Q : unit -> State -> Prop) E s :
  Q tt (with_world (record (Console Stderr ("⚠️  " ++ msg))) (with_this (push_warning msg) s)) ->
  wp (warn msg) Q E s.
Proof. exact (fun H => H). Qed.

Lemma wp_update_report f (Q : unit -> State -> Prop) E s :
  Q tt (with_this (with_report f) s) -> wp (update_report f) Q E s.
Proof. exact (fun H => H). Qed.

(** [execSync]: the command fails to run, or it runs and has its effect. *)
Lemma wp_execSync c (Q : string -> State -> Prop) E s :
  (forall msg, fails env (clock (world s)) c = Some msg ->
     E msg {| this := this s; world := record (Exec c false) (tick (world s)) |}) ->
  (fails env (clock (world s)) c = None ->
     match effect env c (tick (world s)) with
     | (Return out, w') => Q out {| this := this s; world := record (Exec c true) w' |}
     | (Throw msg, w') => E msg {| this := this s; world := record (Exec c false) w' |}
     end) ->
  wp (execSync env c) Q E s.
Proof.
  intros Hf Hr. unfold wp, execSync.
  destruct (fails env (clock (world s)) c) as [msg|].
  - now apply Hf.
  - specialize (Hr eq_refl). now destruct (effect env c _) as [[out|msg] w'].
Qed.
End WpPrimitives.

Lemma wp_readFileSync path (Q : string -> State -> Prop) (E : string -> State -> Prop) s :
  (forall c, files (world s) path = Some c -> Q c s) ->
  (files (world s) path = None ->
   E ("ENOENT: no such file or directory, open '" ++ path ++ "'") s) ->
  wp (readFileSync path) Q E s.
Proof.
  intros HQ HE. unfold wp, readFileSync.
  destruct (files (world s) path) as [c|]; [now apply HQ | now apply HE].
Qed.

Lemma wp_writeFileSync env path content (Q : unit -> State -> Prop) E s :
  Q tt (snd (writeFileSync env path content s)) ->
  wp (writeFileSync env path content) Q E s.
Proof. exact (fun H => H). Qed.

Ltac wp_step :=
  cbv zeta;
  lazymatch goal with
  | |- wp (bind _ _) _ _ _ => apply wp_bind
  | |- wp (try_catch _ _) _ _ _ => apply wp_try_catch
  | |- wp (ret _) _ _ _ => apply wp_ret
  | |- wp (throw _) _ _ _ => apply wp_throw
  | |- wp (Js.log _ _) _ _ _ => apply wp_log
  | |- wp (console _ _) _ _ _ => apply wp_console
  | |- wp (warn _) _ _ _ => apply wp_warn
  | |- wp (update_report _) _ _ _ => apply wp_update_report
  | |- wp (modify _) _ _ _ => apply wp_modify
  | |- wp (gets _) _ _ _ => apply wp_gets
  | |- wp get_report _ _ _ => apply wp_gets
  | |- wp readPackageJson _ _ _ => apply wp_gets
  | |- wp (existsSync _) _ _ _ => apply wp_gets
  end.

(** ** The version printed by [npm pkg get version] *)

Lemma plain_char c :
  is_digit c || Ascii.eqb c Semver.dot_char = true -> Ascii.eqb c quote_char = false.
Proof.
  destruct c as [[] [] [] [] [] [] [] []]; try discriminate; reflexivity.
Qed.

Lemma split_plain s :
  forallb Semver.all_digits (split Semver.dot_char s) = true -> all_plain s = true.
Proof.
  induction s as [|c r IH]; [reflexivity|].
  cbn [split all_plain]. destruct (Ascii.eqb c Semver.dot_char) eqn:Ec.
  - cbn [forallb Semver.all_digits andb]. intros H. rewrite orb_true_r. now apply IH.
  - destruct (split Semver.dot_char r) as [|l ls] eqn:Es.
    + cbn [forallb Semver.all_digits]. intros H.
      apply andb_true_iff in H as [H _]. apply andb_true_iff in H as [H _].
      rewrite H. now apply IH.
    + cbn [forallb Semver.all_digits]. intros H.
      apply andb_true_iff in H as [H Hls]. apply andb_true_iff in H as [Hc Hl].
      rewrite Hc. apply IH. cbn [forallb]. now rewrite Hl, Hls.
Qed.

Lemma versionRegex_plain v : Semver.versionRegex_test v = true -> all_plain v = true.
Proof.
  unfold Semver.versionRegex_test, Semver.digits1. intros H. apply split_plain.
  destruct (split Semver.dot_char v) as [|a [|b [|c [|d l]]]]; try discriminate.
  apply andb_true_iff in H as [H Hc]. apply andb_true_iff in H as [Ha Hb].
  apply andb_true_iff in Ha as [_ Ha]. apply andb_true_iff in Hb as [_ Hb].
  apply andb_true_iff in Hc as [_ Hc].
  cbn [forallb]. now rewrite Ha, Hb, Hc.
Qed.

Lemma removeQuotes_plain v : all_plain v = true -> removeQuotes v = v.
Proof.
  induction v as [|c r IH]; [reflexivity|]. cbn [all_plain removeQuotes].
  intros H. apply andb_true_iff in H as [Hc Hr].
  rewrite (plain_char c Hc). now rewrite IH.
Qed.

Lemma removeQuotes_app a b : removeQuotes (a ++ b) = removeQuotes a ++ removeQuotes b.
Proof.
  induction a as [|c a IH]; [reflexivity|]. cbn [append removeQuotes].
  destruct (Ascii.eqb c quote_char); [exact IH | now rewrite IH].
Qed.

Lemma trimEnd_app a b : truthy (trimEnd b) = true -> trimEnd (a ++ b) = a ++ trimEnd b.
Proof.
  intros Hb. induction a as [|c a IH]; [reflexivity|].
  cbn [append trimEnd]. rewrite IH.
  destruct (a ++ trimEnd b) eqn:E; [|reflexivity].
  destruct a; [|discriminate]. cbn in E. now rewrite E in Hb.
Qed.

(** What the script makes of the output of [npm pkg get version]. *)
Lemma version_read_back v :
  Semver.versionRegex_test v = true -> removeQuotes (trim (dq ++ v ++ dq ++ nl)) = v.
Proof.
  intros H. apply versionRegex_plain in H.
  unfold trim. change (trimStart (dq ++ v ++ dq ++ nl)) with (dq ++ v ++ dq ++ nl).
  rewrite <- (append_assoc dq v (dq ++ nl)).
  rewrite trimEnd_app by reflexivity.
  change (trimEnd (dq ++ nl)) with dq.
  rewrite !removeQuotes_app. change (removeQuotes dq) with "".
  rewrite (removeQuotes_plain v H). cbn. now rewrite append_nil_r.
Qed.

Lemma tag_listed t T :
  In t T -> existsb (String.eqb t) T = true.
Proof. intros H. apply existsb_exists. exists t. split; [exact H | apply String.eqb_refl]. Qed.

Lemma tag_unlisted t T :
  ~ In t T -> existsb (String.eqb t) T = false.
Proof.
  intros H. destruct (existsb _ T) eqn:E; [|reflexivity].
  apply existsb_exists in E as (x & Hx & Ex). apply String.eqb_eq in Ex. now subst.
Qed.

Lemma tag_line_truthy v : truthy (trim (("v" ++ v) ++ nl)) = true.
Proof.
  unfold trim. change (("v" ++ v) ++ nl) with (String "v" (v ++ nl)).
  cbn [trimStart]. change (is_space "v") with false. cbv iota.
  now apply trimEnd_nonspace.
Qed.

(** Reads a field through the updates made so far. *)
Ltac fields :=
  cbn [this world warnings errors currentBranch report
       manifest files dirty commits tags trace clock
       name version scripts_build other
       timestamp r_version commitSha changes issues solutions packageInfo
       registryUrls status
       with_world with_this with_report push_warning push_error
       set_currentBranch set_r_version set_commitSha push_issue push_solution
       set_packageInfo push_registryUrl set_status_issues
       set_manifest set_files set_dirty set_commits set_tags record tick
       set_version].

Ltac fields_in H :=
  cbn [this world warnings errors currentBranch report
       manifest files dirty commits tags trace clock
       name version scripts_build other
       timestamp r_version commitSha changes issues solutions packageInfo
       registryUrls status
       with_world with_this with_report push_warning push_error
       set_currentBranch set_r_version set_commitSha push_issue push_solution
       set_packageInfo push_registryUrl set_status_issues
       set_manifest set_files set_dirty set_commits set_tags record tick
       set_version] in H.

Ltac dirty_fields :=
  rewrite ?(proj1 (mark_dirty_fields _ _ _)),
          ?(proj1 (proj2 (mark_dirty_fields _ _ _))),
          ?(proj1 (proj2 (proj2 (mark_dirty_fields _ _ _)))),
          ?(proj1 (proj2 (proj2 (proj2 (mark_dirty_fields _ _ _))))),
          ?(proj1 (proj2 (proj2 (proj2 (proj2 (mark_dirty_fields _ _ _)))))),
          ?(proj2 (proj2 (proj2 (proj2 (proj2 (mark_dirty_fields _ _ _)))))).

(** A command that cannot have its effect leaves a state in which the
    goal is an invariant of the fields. *)
Ltac wp_exec :=
  apply wp_execSync; [intros ? _; fields | intros _; cbn [effect]; fields].

Section Rerun.
Variable env : Env.
Variables (v : string) (T C : list string).
Hypothesis Hv : Semver.versionRegex_test v = true.
Hypothesis HT : In ("v" ++ v) T.

Lemma fixed_versioning_reuses k s :
  released v T C s ->
  wp (ReleaseFixed.versioning env k)
     (fun _ s' => released v T C s' /\ r_version (report (this s')) = Some v)
     (fun _ s' => released v T C s') s.
Proof.
  intros (Hver & Htags & Hcommits). unfold ReleaseFixed.versioning, released.
  repeat wp_step. wp_exec; [easy|].
  rewrite Hver, (version_read_back v Hv).
  repeat wp_step. wp_exec; [easy|].
  rewrite Htags, (tag_listed _ _ HT), tag_line_truthy.
  repeat wp_step. fields. easy.
Qed.

Lemma original_versioning_reuses k s :
  (forall n t, fails env n (GitTagList t) = None) ->
  released v T C s ->
  wp (Release.versioning env k)
     (fun _ s' => released v T C s' /\ r_version (report (this s')) = Some v)
     (fun _ s' => released v T C s') s.
Proof.
  intros Hq (Hver & Htags & Hcommits). unfold Release.versioning, released.
  repeat wp_step. wp_exec; [easy|].
  rewrite Hver, (version_read_back v Hv).
  repeat wp_step.
  apply wp_execSync; [intros msg Hf; now rewrite Hq in Hf | intros _; cbn [effect]; fields].
  repeat wp_step. fields. easy.
Qed.

Lemma commit_adds_one noVerify s (Q : string -> State -> Prop) E :
  released v T C s ->
  (forall out s', recommitted v T C s' -> this s' = this s -> Q out s') ->
  (forall e s', released v T C s' -> this s' = this s -> E e s') ->
  wp (execSync env (GitCommit noVerify ("chore(release): v" ++ v))) Q E s.
Proof.
  intros (Hver & Htags & Hcommits) HQ HE.
  apply wp_execSync; [intros msg _; apply HE | intros _; cbn [effect]; apply HQ];
    unfold recommitted, released; fields; rewrite ?Hcommits; auto.
Qed.

Lemma fixed_tag_check s :
  recommitted v T C s ->
  wp (out <- execSync env (GitTagList ("v" ++ v)) ;;
      (if truthy (trim out) then
         Js.log env ("ℹ️  Tag v" ++ v ++ " ya existe - omitiendo creación")
       else
         execSync env (GitTagAnnotated ("v" ++ v) ("Release v" ++ v)) ;;
         Js.log env ("✅ Tag creado: v" ++ v)) ;;
      Js.log env ("✅ Commit procesado: " ++ "chore(release): v" ++ v))
     (fun _ s' => recommitted v T C s') (fun _ s' => recommitted v T C s') s.
Proof.
  intros (Hver & Htags & Hcommits). unfold recommitted.
  repeat wp_step. wp_exec; [now auto|].
  rewrite Htags, (tag_listed _ _ HT), tag_line_truthy.
  repeat wp_step. fields. now auto.
Qed.

Lemma original_tag_check s :
  (forall n t, fails env n (GitTagList t) = None) ->
  recommitted v T C s ->
  wp (try_catch
        (execSync env (GitTagList ("v" ++ v)) ;;
         Js.log env ("ℹ️  Tag v" ++ v ++ " ya existe - omitiendo creación"))
        (fun _ =>
           execSync env (GitTagAnnotated ("v" ++ v) ("Release v" ++ v)) ;;
           Js.log env ("✅ Tag creado: v" ++ v)) ;;
      Js.log env ("✅ Commit procesado: " ++ "chore(release): v" ++ v))
     (fun _ s' => recommitted v T C s') (fun _ s' => recommitted v T C s') s.
Proof.
  intros Hq (Hver & Htags & Hcommits). unfold recommitted.
  repeat wp_step.
  apply wp_execSync; [intros msg Hf; now rewrite Hq in Hf | intros _; cbn [effect]; fields].
  repeat wp_step. fields. now auto.
Qed.

(** The commit of step 6, with its retry without hooks. *)
Lemma commit_or_retry s :
  released v T C s ->
  wp (try_catch
        (execSync env (GitCommit false ("chore(release): v" ++ v)) ;; ret tt)
        (fun message =>
           if includes message "pre-commit" then
             warn "Hook pre-commit no encontrado - usando --no-verify" ;;
             execSync env (GitCommit true ("chore(release): v" ++ v)) ;;
             update_report (push_issue "Hooks de pre-commit no ejecutados") ;;
             update_report (push_solution "Se recomienda ejecutar hooks de calidad manualmente")
           else throw message))
     (fun _ s' => recommitted v T C s') (fun _ s' => recommitted v T C s') s.
Proof.
  intros Hs. assert (Hw : forall s', released v T C s' -> recommitted v T C s').
  { intros s' (H1 & H2 & H3). repeat split; auto. }
  repeat wp_step. apply commit_adds_one; [exact Hs | intros out s' H _; now wp_step |].
  intros e s' Hs' _. destruct (includes e "pre-commit").
  - repeat wp_step. apply commit_adds_one.
    + destruct Hs' as (H1 & H2 & H3). now repeat split.
    + intros out s2 H _. repeat wp_step. exact H.
    + intros e2 s2 H _. now apply Hw.
  - wp_step. now apply Hw.
Qed.

Lemma fixed_commitAndTag_reuses s :
  released v T C s -> r_version (report (this s)) = Some v ->
  wp (ReleaseFixed.commitAndTag env)
     (fun _ s' => recommitted v T C s') (fun _ s' => recommitted v T C s') s.
Proof.
  intros (Hver & Htags & Hcommits) Hr. unfold ReleaseFixed.commitAndTag.
  repeat wp_step. wp_exec; [unfold recommitted; fields; now auto|].
  repeat wp_step. wp_exec; [unfold recommitted; fields; now auto|].
  destruct (negb _).
  { repeat wp_step. unfold recommitted. fields. now auto. }
  wp_step. wp_step. fields. rewrite Hr. cbn [show].
  eapply wp_seq; [apply commit_or_retry; now repeat split | | intros e s1 H; exact H].
  intros a s1 H. now apply fixed_tag_check.
Qed.

Lemma original_commitAndTag_reuses s :
  (forall n t, fails env n (GitTagList t) = None) ->
  released v T C s -> r_version (report (this s)) = Some v ->
  wp (Release.commitAndTag env)
     (fun _ s' => recommitted v T C s') (fun _ s' => recommitted v T C s') s.
Proof.
  intros Hq (Hver & Htags & Hcommits) Hr. unfold Release.commitAndTag.
  repeat wp_step. wp_exec; [unfold recommitted; fields; now auto|].
  repeat wp_step. wp_exec; [unfold recommitted; fields; now auto|].
  destruct (negb _).
  { repeat wp_step. unfold recommitted. fields. now auto. }
  wp_step. wp_step. fields. rewrite Hr. cbn [show].
  eapply wp_seq; [apply commit_or_retry; now repeat split | | intros e s1 H; exact H].
  intros a s1 H. now apply original_tag_check.
Qed.
End Rerun.

(** ** What the steps around versioning and commit leave alone *)

Lemma same_release_refl s : same_release s s.
Proof. now repeat split. Qed.

Lemma same_release_trans a b c : same_release a b -> same_release b c -> same_release a c.
Proof. intros (A1 & A2 & A3 & A4) (B1 & B2 & B3 & B4). repeat split; congruence. Qed.

(** Walks down a computation for a frame [pres R m]; [leaf] settles the
    state updates and the commands. *)
Ltac frame_tac Rrefl Rtrans leaf :=
  repeat
    (cbv beta zeta;
     lazymatch goal with
     | |- pres _ (bind _ _) => apply (pres_bind _ Rtrans); [| intro]
     | |- pres _ (try_catch _ _) => apply (pres_try_catch _ Rtrans); [| intro]
     | |- pres _ (ret _) => apply (pres_ret _ Rrefl)
     | |- pres _ (throw _) => apply (pres_throw _ Rrefl)
     | |- pres _ (gets _) => apply (pres_gets _ Rrefl)
     | |- pres _ get_report => apply (pres_gets _ Rrefl)
     | |- pres _ readPackageJson => apply (pres_gets _ Rrefl)
     | |- pres _ (existsSync _) => apply (pres_gets _ Rrefl)
     | |- pres _ (readFileSync _) => apply (pres_readFileSync _ Rrefl)
     | |- pres _ (warn _) => unfold warn
     | |- pres _ (error _) => unfold error
     | |- pres _ (Js.log _ _) => unfold Js.log
     | |- pres _ (if ?b then _ else _) => destruct b
     | |- pres _ (match ?x with _ => _ end) => destruct x
     | |- pres _ _ => leaf
     end).

Section SameRelease.
Variable env : Env.

Lemma effect_manifest c w :
  is_query c = true -> manifest (snd (effect env c w)) = manifest w.
Proof.
  intros Hc. destruct c; try discriminate; cbn [effect snd]; try reflexivity.
  destruct (tags w); reflexivity.
Qed.

Lemma execSync_same_release c s :
  is_query c = true -> same_release s (snd (execSync env c s)).
Proof.
  intros Hc. unfold same_release. rewrite execSync_this.
  assert (Hq : (match c with
                | GitCommit _ _ | GitTagAnnotated _ _ => false
                | NpmVersion k => single_word k
                | _ => true
                end) = true)
    by (destruct c; try reflexivity; discriminate).
  unfold execSync. destruct (fails env _ c); [now repeat split|].
  pose proof (effect_commits_tags env c (tick (world s)) Hq) as [H1 H2].
  pose proof (effect_manifest c (tick (world s)) Hc) as H3.
  destruct (effect env c _) as [[out|e] w']; cbn [snd world] in *; now repeat split.
Qed.

Lemma writeFileSync_same_release p c s :
  same_release s (snd (writeFileSync env p c s)).
Proof.
  unfold same_release, writeFileSync, modify. cbn [snd]. fields.
  destruct (negb _); fields; [|now repeat split].
  destruct (mark_dirty_fields env p
              (set_files (fun p0 => if (p0 =? p)%string then Some c else files (world s) p0) (world s)))
    as (H1 & _ & H3 & H4 & _).
  rewrite H1, H3, H4. now repeat split.
Qed.

Ltac release_leaf :=
  idtac;
  lazymatch goal with
  | |- pres _ (execSync _ _) => intro; apply execSync_same_release; reflexivity
  | |- pres _ (writeFileSync _ _ _) => intro; apply writeFileSync_same_release
  | |- pres _ (modify _) => intro; now repeat split
  | |- pres _ (console _ _) => intro; now repeat split
  | |- pres _ (sleep _) => intro; now repeat split
  | |- pres _ (update_report _) => intro; now repeat split
  end.

Ltac release_tac := frame_tac same_release_refl same_release_trans release_leaf.

Lemma collectChanges_same_release t : pres same_release (collectChanges env t).
Proof. unfold collectChanges. release_tac. Qed.

Lemma updateChangelog_same_release : pres same_release (updateChangelog env).
Proof.
  pose proof collectChanges_same_release as Hc.
  unfold updateChangelog. release_tac; try apply Hc.
Qed.

Lemma fixed_dependenciesAndTests_same_release :
  pres same_release (ReleaseFixed.dependenciesAndTests env).
Proof. unfold ReleaseFixed.dependenciesAndTests. release_tac. Qed.

Lemma fixed_build_same_release : pres same_release (ReleaseFixed.build env).
Proof. unfold ReleaseFixed.build. release_tac. Qed.

Lemma fixed_push_same_release : pres same_release (ReleaseFixed.push env).
Proof. unfold ReleaseFixed.push. release_tac. Qed.

Lemma fixed_publishToNpm_same_release : pres same_release (ReleaseFixed.publishToNpm env).
Proof. unfold ReleaseFixed.publishToNpm. release_tac. Qed.

Lemma fixed_publishToGitHub_same_release :
  pres same_release (ReleaseFixed.publishToGitHub env).
Proof. unfold ReleaseFixed.publishToGitHub. release_tac. Qed.

Lemma fixed_queryVersion_same_release pkg n :
  pres same_release (ReleaseFixed.queryVersion env pkg n).
Proof.
  induction n as [|n IH]; cbn [ReleaseFixed.queryVersion]; release_tac; apply IH.
Qed.

Lemma fixed_verification_same_release : pres same_release (ReleaseFixed.verification env).
Proof.
  pose proof fixed_queryVersion_same_release as Hq.
  unfold ReleaseFixed.verification. release_tac; try apply Hq.
Qed.

Lemma log_each_same_release l : pres same_release (ReleaseFixed.log_each env l).
Proof. induction l as [|u l IH]; cbn [ReleaseFixed.log_each]; release_tac; apply IH. Qed.

Lemma epilogue_same_release : pres same_release (epilogue env).
Proof.
  pose proof log_each_same_release as Hl.
  unfold epilogue. release_tac; try apply Hl.
Qed.

Lemma generateReport_same_release : pres same_release (generateReport env).
Proof. unfold generateReport. release_tac. Qed.

Lemma original_dependenciesAndTests_same_release :
  pres same_release (Release.dependenciesAndTests env).
Proof. unfold Release.dependenciesAndTests. release_tac. Qed.

Lemma original_build_same_release : pres same_release (Release.build env).
Proof. unfold Release.build. release_tac. Qed.

Lemma original_push_same_release : pres same_release (Release.push env).
Proof. unfold Release.push. release_tac. Qed.

Lemma original_publishToNpm_same_release : pres same_release (Release.publishToNpm env).
Proof. unfold Release.publishToNpm. release_tac. Qed.

Lemma original_publishToGitHub_same_release :
  pres same_release (Release.publishToGitHub env).
Proof. unfold Release.publishToGitHub. release_tac. Qed.

Lemma original_verification_same_release : pres same_release (Release.verification env).
Proof. unfold Release.verification. release_tac. Qed.

(** What follows step 6 in the reworked [run], on either path. *)
Lemma fixed_after_commit_same_release :
  pres same_release
    (try_catch
       ((ReleaseFixed.push env ;; ReleaseFixed.publishToNpm env ;;
         ReleaseFixed.publishToGitHub env ;; ReleaseFixed.verification env) ;;
        generateReport env ;; epilogue env)
       (fun message =>
          error ("Error en el proceso: " ++ message) ;;
          generateReport env ;; throw message)).
Proof.
  pose proof fixed_push_same_release. pose proof fixed_publishToNpm_same_release.
  pose proof fixed_publishToGitHub_same_release.
  pose proof fixed_verification_same_release.
  pose proof generateReport_same_release. pose proof epilogue_same_release.
  release_tac; assumption.
Qed.

(** The [catch] of the reworked [run]. *)
Lemma fixed_catch_same_release message :
  pres same_release
    (error ("Error en el proceso: " ++ message) ;; generateReport env ;;
     @throw unit message).
Proof. pose proof generateReport_same_release. release_tac; assumption. Qed.

Lemma original_catch_same_release message :
  pres same_release
    (console Stderr ("❌ DEBUG: Error en el proceso: " ++ message) ;;
     console Stderr ("❌ DEBUG: Stack trace: Error: " ++ message) ;;
     generateReport env ;; @throw unit message).
Proof. pose proof generateReport_same_release. release_tac; assumption. Qed.
End SameRelease.

Lemma released_same_release v T C a b :
  released v T C a -> same_release a b -> released v T C b.
Proof. intros (H1 & H2 & H3) (M & Tg & Cm & _). unfold released. now rewrite M, Tg, Cm. Qed.

Lemma recommitted_same_release v T C a b :
  recommitted v T C a -> same_release a b -> recommitted v T C b.
Proof. intros (H1 & H2 & H3) (M & Tg & Cm & _). unfold recommitted. now rewrite M, Tg, Cm. Qed.

Lemma released_recommitted v T C s : released v T C s -> recommitted v T C s.
Proof. intros (H1 & H2 & H3). repeat split; auto. Qed.

(** ** Re-running a release *)

Section RerunPipeline.
Variable env : Env.
Variables (v : string) (T C : list string).
Hypothesis HT : In ("v" ++ v) T.

Lemma fixed_preVerification_released s :
  released v T C s -> version (normalize env (manifest (world s))) = v ->
  wp (ReleaseFixed.preVerification env)
     (fun _ s' => released v T C s' /\ Semver.versionRegex_test v = true)
     (fun _ s' => released v T C s') s.
Proof.
  intros (Hver & Htags & Hcommits) Hn. unfold ReleaseFixed.preVerification, released.
  repeat wp_step. wp_exec; [easy|].
  repeat wp_step. destruct (_ && _); [now wp_step|].
  repeat wp_step. wp_exec; [easy|].
  destruct (truthy _); [now wp_step|].
  repeat wp_step. wp_exec; [easy|].
  repeat wp_step. fields.
  destruct (manifest_eqb _ _); fields; dirty_fields; fields; rewrite ?Hver, ?Hn;
    (destruct (Semver.versionRegex_test v) eqn:Ev; cbn [negb]; repeat wp_step;
     fields; dirty_fields; fields; auto).
Qed.

Lemma original_preVerification_released s :
  released v T C s -> version (normalize env (manifest (world s))) = v ->
  wp (Release.preVerification env)
     (fun _ s' => released v T C s' /\ Semver.versionRegex_test v = true)
     (fun _ s' => released v T C s') s.
Proof.
  intros (Hver & Htags & Hcommits) Hn. unfold Release.preVerification, released.
  repeat wp_step. wp_exec; [easy|].
  repeat wp_step. destruct (_ && _); [now wp_step|].
  repeat wp_step. wp_exec; [easy|].
  destruct (truthy _); [now wp_step|].
  repeat wp_step. wp_exec; [easy|].
  repeat wp_step. fields.
  destruct (manifest_eqb _ _); fields; dirty_fields; fields; rewrite ?Hver, ?Hn;
    (destruct (Semver.versionRegex_test v) eqn:Ev; cbn [negb]; repeat wp_step;
     fields; dirty_fields; fields; auto).
Qed.

(** Re-running the reworked script where the tag of the current version
    exists. *)
Lemma fixed_rerun arg s :
  released v T C s -> version (normalize env (manifest (world s))) = v ->
  recommitted v T C (snd (ReleaseFixed.run env arg s)).
Proof.
  intros Hs Hn. apply wp_final. rewrite run_eq.
  set (k := match arg with Some k => k | None => "patch" end).
  assert (Hcatch : forall e s', recommitted v T C s' ->
            wp (error ("Error en el proceso: " ++ e) ;; generateReport env ;; @throw unit e)
               (fun _ => recommitted v T C) (fun _ => recommitted v T C) s').
  { intros e s' H. apply (wp_pres same_release); [apply fixed_catch_same_release | |];
      intros ? s2 R; exact (recommitted_same_release _ _ _ _ _ H R). }
  assert (Hcatch' : forall e s', released v T C s' ->
            wp (error ("Error en el proceso: " ++ e) ;; generateReport env ;; @throw unit e)
               (fun _ => recommitted v T C) (fun _ => recommitted v T C) s').
  { intros e s' H. now apply Hcatch, released_recommitted. }
  apply wp_try_catch. apply wp_bind. unfold ReleaseFixed.steps.
  eapply wp_seq; [apply fixed_preVerification_released; assumption | | exact Hcatch'].
  intros a s1 [H1 Hv].
  eapply wp_seq;
    [apply (wp_pres same_release _ (fun _ => released v T C) (fun _ => released v T C));
     [apply fixed_dependenciesAndTests_same_release | |];
     intros ? s' R; exact (released_same_release _ _ _ _ _ H1 R)
    | | exact Hcatch'].
  clear s1 H1 a. intros a s1 H1.
  eapply wp_seq;
    [apply (wp_pres same_release _ (fun _ => released v T C) (fun _ => released v T C));
     [apply fixed_build_same_release | |];
     intros ? s' R; exact (released_same_release _ _ _ _ _ H1 R)
    | | exact Hcatch'].
  clear s1 H1 a. intros a s1 H1.
  eapply wp_seq; [apply (fixed_versioning_reuses env v T C); assumption | | exact Hcatch'].
  clear s1 H1 a. intros a s1 [H1 Hr].
  eapply wp_seq;
    [apply (wp_pres same_release _
              (fun _ s' => released v T C s' /\ r_version (report (this s')) = Some v)
              (fun _ => released v T C));
     [apply updateChangelog_same_release | |];
     intros ? s' R;
     [split; [exact (released_same_release _ _ _ _ _ H1 R)
             | now rewrite (proj2 (proj2 (proj2 R)))]
     | exact (released_same_release _ _ _ _ _ H1 R)]
    | | exact Hcatch'].
  clear s1 H1 Hr a. intros a s1 [H1 Hr].
  eapply wp_seq; [apply (fixed_commitAndTag_reuses env v T C); assumption | | exact Hcatch].
  clear s1 H1 Hr a. intros a s1 H1. cbv beta in H1.
  apply (wp_pres same_release).
  - pose proof (fixed_push_same_release env). pose proof (fixed_publishToNpm_same_release env).
    pose proof (fixed_publishToGitHub_same_release env).
    pose proof (fixed_verification_same_release env).
    frame_tac same_release_refl same_release_trans ltac:(idtac; assumption).
  - intros ? s2 R2. pose proof (recommitted_same_release _ _ _ _ _ H1 R2) as H2.
    apply (wp_pres same_release).
    + apply (pres_bind _ same_release_trans);
        [apply generateReport_same_release | intro; apply epilogue_same_release].
    + intros ? s3 R3. exact (recommitted_same_release _ _ _ _ _ H2 R3).
    + intros e s3 R3. apply Hcatch. exact (recommitted_same_release _ _ _ _ _ H2 R3).
  - intros e s2 R2. apply Hcatch. exact (recommitted_same_release _ _ _ _ _ H1 R2).
Qed.

Lemma released_record e s : released v T C s -> released v T C (with_world (record e) s).
Proof. exact (fun H => H). Qed.

Lemma recommitted_record e s :
  recommitted v T C s -> recommitted v T C (with_world (record e) s).
Proof. exact (fun H => H). Qed.

(** Re-running [scripts/release.js] where the tag of the current version
    exists, the tag queries exiting normally. *)
Lemma original_rerun arg s :
  (forall n t, fails env n (GitTagList t) = None) ->
  released v T C s -> version (normalize env (manifest (world s))) = v ->
  recommitted v T C (snd (Release.run env arg s)).
Proof.
  intros Hq Hs Hn. apply wp_final. unfold Release.run.
  set (k := match arg with Some k => k | None => "patch" end).
  assert (Hcatch : forall e s', recommitted v T C s' ->
            wp (console Stderr ("❌ DEBUG: Error en el proceso: " ++ e) ;;
                console Stderr ("❌ DEBUG: Stack trace: Error: " ++ e) ;;
                generateReport env ;; @throw unit e)
               (fun _ => recommitted v T C) (fun _ => recommitted v T C) s').
  { intros e s' H. apply (wp_pres same_release); [apply original_catch_same_release | |];
      intros ? s2 R; exact (recommitted_same_release _ _ _ _ _ H R). }
  assert (Hcatch' : forall e s', released v T C s' ->
            wp (console Stderr ("❌ DEBUG: Error en el proceso: " ++ e) ;;
                console Stderr ("❌ DEBUG: Stack trace: Error: " ++ e) ;;
                generateReport env ;; @throw unit e)
               (fun _ => recommitted v T C) (fun _ => recommitted v T C) s').
  { intros e s' H. now apply Hcatch, released_recommitted. }
  cbv zeta. wp_step. wp_step. apply wp_try_catch. apply wp_bind. unfold Release.steps.
  wp_step. wp_step.
  eapply wp_seq; [apply original_preVerification_released; assumption | | exact Hcatch'].
  intros a s1 [H1 Hv]. wp_step. wp_step. apply (released_record (Console Stdout "📦 DEBUG: Ejecutando dependenciesAndTests()")) in H1.
  eapply wp_seq;
    [apply (wp_pres same_release _ (fun _ => released v T C) (fun _ => released v T C));
     [apply original_dependenciesAndTests_same_release | |];
     intros ? s' R; exact (released_same_release _ _ _ _ _ H1 R)
    | | exact Hcatch'].
  clear s1 H1 a. intros a s1 H1. wp_step. wp_step.
  apply (released_record (Console Stdout "🔨 DEBUG: Ejecutando build()")) in H1.
  eapply wp_seq;
    [apply (wp_pres same_release _ (fun _ => released v T C) (fun _ => released v T C));
     [apply original_build_same_release | |];
     intros ? s' R; exact (released_same_release _ _ _ _ _ H1 R)
    | | exact Hcatch'].
  clear s1 H1 a. intros a s1 H1. wp_step. wp_step.
  apply (released_record (Console Stdout "🔢 DEBUG: Ejecutando versioning()")) in H1.
  eapply wp_seq; [apply (original_versioning_reuses env v T C); assumption | | exact Hcatch'].
  clear s1 H1 a. intros a s1 [H1 Hr]. wp_step. wp_step.
  apply (released_record (Console Stdout "📝 DEBUG: Ejecutando updateChangelog()")) in H1.
  eapply wp_seq;
    [apply (wp_pres same_release _
              (fun _ s' => released v T C s' /\ r_version (report (this s')) = Some v)
              (fun _ => released v T C));
     [apply updateChangelog_same_release | |];
     intros ? s' R;
     [split; [exact (released_same_release _ _ _ _ _ H1 R)
             | rewrite (proj2 (proj2 (proj2 R))); exact Hr]
     | exact (released_same_release _ _ _ _ _ H1 R)]
    | | exact Hcatch'].
  clear s1 H1 Hr a. intros a s1 [H1 Hr]. wp_step. wp_step.
  apply (released_record (Console Stdout "💾 DEBUG: Ejecutando commitAndTag()")) in H1.
  eapply wp_seq; [apply (original_commitAndTag_reuses env v T C); assumption | | exact Hcatch].
  clear s1 H1 Hr a. intros a s1 H1. cbv beta in H1.
  apply (wp_pres same_release).
  - pose proof (original_push_same_release env). pose proof (original_publishToNpm_same_release env).
    pose proof (original_publishToGitHub_same_release env).
    pose proof (original_verification_same_release env).
    frame_tac same_release_refl same_release_trans ltac:(idtac; first [assumption | intro; now repeat split]).
  - intros ? s2 R2. pose proof (recommitted_same_release _ _ _ _ _ H1 R2) as H2.
    apply (wp_pres same_release).
    + pose proof (generateReport_same_release env).
      frame_tac same_release_refl same_release_trans ltac:(idtac; first [assumption | intro; now repeat split]).
    + intros ? s3 R3. exact (recommitted_same_release _ _ _ _ _ H2 R3).
    + intros e s3 R3. apply Hcatch. exact (recommitted_same_release _ _ _ _ _ H2 R3).
  - intros e s2 R2. apply Hcatch. exact (recommitted_same_release _ _ _ _ _ H1 R2).
Qed.
End RerunPipeline.

(** C5, as the code has it, on both scripts (on [scripts/release.js] with
    the tag queries exiting normally, as git's do): when the tag of the
    current version exists, a run, whatever else happens in it, leaves the
    manifest version and the tags as they were, and adds at most one
    commit, [chore(release): v<version>]. *)
Theorem rerun_reuses_version_and_tag env arg w :
  In ("v" ++ version (manifest w)) (tags w) ->
  version (normalize env (manifest w)) = version (manifest w) ->
  recommitted (version (manifest w)) (tags w) (commits w)
    (snd (ReleaseFixed.run env arg (fresh env w)))
  /\ ((forall n t, fails env n (GitTagList t) = None) ->
      recommitted (version (manifest w)) (tags w) (commits w)
        (snd (Release.run env arg (fresh env w)))).
Proof.
  intros HT Hn. split; [| intros Hq].
  - apply (fixed_rerun env _ _ _ HT); [now repeat split | exact Hn].
  - apply original_rerun; [exact Hq | now repeat split | exact Hn].
Qed.

Lemma rerun_reuses_version_and_tag_witness :
  recommitted "1.0.1" ["v1.0.1"; "v1.0.0"]
    ["chore(release): v1.0.1"; "chore(release): v1.0.0"]
    (snd (ReleaseFixed.run (calm "1.0.1") None (fresh (calm "1.0.1") released_checkout)))
  /\ recommitted "1.0.1" ["v1.0.1"; "v1.0.0"]
       ["chore(release): v1.0.1"; "chore(release): v1.0.0"]
       (snd (Release.run (calm "1.0.1") None (fresh (calm "1.0.1") released_checkout))).
Proof.
  destruct (rerun_reuses_version_and_tag (calm "1.0.1") None released_checkout)
    as [H1 H2].
  - simpl. left. reflexivity.
  - reflexivity.
  - split; [exact H1 | apply H2; intros n t; reflexivity].
Defined.

(** C5 as stated fails for the commit: on a checkout where 1.0.1 is
    released and tagged, a second run writes another changelog section and
    commits it under the message of the release commit. *)
Lemma rerun_duplicate_commit_counterexample :
  let env := calm "1.0.1" in
  let after := world (snd (ReleaseFixed.run env None (fresh env released_checkout))) in
  let after' := world (snd (Release.run env None (fresh env released_checkout))) in
  In "v1.0.1" (tags released_checkout)
  /\ fst (ReleaseFixed.run env None (fresh env released_checkout)) = Return tt
  /\ fst (Release.run env None (fresh env released_checkout)) = Return tt
  /\ commits after
     = ["chore(release): v1.0.1"; "chore(release): v1.0.1"; "chore(release): v1.0.0"]
  /\ commits after'
     = ["chore(release): v1.0.1"; "chore(release): v1.0.1"; "chore(release): v1.0.0"]
  /\ commits after <> commits released_checkout
  /\ commits after' <> commits released_checkout
  /\ version (manifest after) = "1.0.1" /\ tags after = ["v1.0.1"; "v1.0.0"]
  /\ version (manifest after') = "1.0.1" /\ tags after' = ["v1.0.1"; "v1.0.0"].
Proof.
  cbv zeta. repeat split; try (vm_compute; reflexivity); try (vm_compute; tauto);
    vm_compute; discriminate.
Qed.

(** ** A release from an untagged version *)

Lemma grows_nil {A} (l : list A) : exists new, l = (new ++ l)%list.
Proof. now exists []. Qed.

Lemma grows_cons {A} (x : A) l l0 :
  (exists new, l = (new ++ l0)%list) -> exists new, x :: l = (new ++ l0)%list.
Proof. intros [new ->]. now exists (x :: new). Qed.

Ltac grows := repeat apply grows_cons; apply grows_nil.

Lemma settled_refl s : settled s s.
Proof. split; [reflexivity | now exists []]. Qed.

Lemma settled_trans a b c : settled a b -> settled b c -> settled a c.
Proof.
  intros [F1 [n1 T1]] [F2 [n2 T2]]. split; [congruence|].
  exists (n2 ++ n1)%list. rewrite T2, T1. now rewrite app_assoc.
Qed.

Lemma still_dirty_refl s : still_dirty s s.
Proof. now intros p. Qed.

Lemma still_dirty_trans a b c : still_dirty a b -> still_dirty b c -> still_dirty a c.
Proof. intros H1 H2 p Hp. now apply H2, H1. Qed.

Section Settled.
Variable env : Env.

Lemma execSync_settled c s : settled s (snd (execSync env c s)).
Proof.
  split; [now rewrite execSync_files|].
  destruct (execSync_trace env c s) as (ok & -> & _). now exists [Exec c ok].
Qed.

Lemma writeFileSync_settled p c s :
  (p =? "CHANGELOG.md") = false -> settled s (snd (writeFileSync env p c s)).
Proof.
  intros Hp. split; [| rewrite writeFileSync_trace; now exists [WriteFile p c]].
  unfold writeFileSync, modify. cbn [snd]. fields.
  destruct (negb _); fields; dirty_fields; fields;
    rewrite String.eqb_sym, Hp; reflexivity.
Qed.

Ltac settled_leaf :=
  idtac;
  lazymatch goal with
  | |- pres _ (execSync _ _) => intro; apply execSync_settled
  | |- pres _ (writeFileSync _ _ _) => intro; apply writeFileSync_settled; reflexivity
  | |- pres _ (modify _) => intro; split; [reflexivity | fields; grows]
  | |- pres _ (console _ _) => intro; split; [reflexivity | fields; grows]
  | |- pres _ (sleep _) => intro; split; [reflexivity | fields; grows]
  | |- pres _ (update_report _) => intro; split; [reflexivity | fields; grows]
  end.

Ltac settled_tac := frame_tac settled_refl settled_trans settled_leaf.

Lemma generateReport_settled : pres settled (generateReport env).
Proof. unfold generateReport. settled_tac. Qed.

Lemma fixed_push_settled : pres settled (ReleaseFixed.push env).
Proof. unfold ReleaseFixed.push. settled_tac. Qed.

Lemma fixed_publishToNpm_settled : pres settled (ReleaseFixed.publishToNpm env).
Proof. unfold ReleaseFixed.publishToNpm. settled_tac. Qed.

Lemma fixed_publishToGitHub_settled : pres settled (ReleaseFixed.publishToGitHub env).
Proof. unfold ReleaseFixed.publishToGitHub. settled_tac. Qed.

Lemma fixed_queryVersion_settled pkg n : pres settled (ReleaseFixed.queryVersion env pkg n).
Proof. induction n as [|n IH]; cbn [ReleaseFixed.queryVersion]; settled_tac; apply IH. Qed.

Lemma fixed_verification_settled : pres settled (ReleaseFixed.verification env).
Proof.
  pose proof fixed_queryVersion_settled as Hq.
  unfold ReleaseFixed.verification. settled_tac; try apply Hq.
Qed.

Lemma log_each_settled l : pres settled (ReleaseFixed.log_each env l).
Proof. induction l as [|u l IH]; cbn [ReleaseFixed.log_each]; settled_tac; apply IH. Qed.

Lemma epilogue_settled : pres settled (epilogue env).
Proof. pose proof log_each_settled as Hl. unfold epilogue. settled_tac; try apply Hl. Qed.







(** The changelog step only extends the trace. *)
Lemma updateChangelog_extends s :
  exists new, trace (world (snd (updateChangelog env s))) = (new ++ trace (world s))%list.
Proof.
  destruct (updateChangelog_keeps env nothing ltac:(simpl; tauto) s) as (_ & _ & _ & H).
  exact H.
Qed.

(** What follows step 6 in the reworked [run], on either path. *)
Lemma fixed_after_commit_settled :
  pres settled
    (try_catch
       ((ReleaseFixed.push env ;; ReleaseFixed.publishToNpm env ;;
         ReleaseFixed.publishToGitHub env ;; ReleaseFixed.verification env) ;;
        generateReport env ;; epilogue env)
       (fun message =>
          error ("Error en el proceso: " ++ message) ;;
          generateReport env ;; throw message)).
Proof.
  pose proof fixed_push_settled. pose proof fixed_publishToNpm_settled.
  pose proof fixed_publishToGitHub_settled. pose proof fixed_verification_settled.
  pose proof generateReport_settled. pose proof epilogue_settled.
  frame_tac settled_refl settled_trans ltac:(idtac; first [assumption | settled_leaf]).
Qed.
End Settled.

Lemma kept_refl s : kept s s.
Proof. split; [apply same_release_refl | apply settled_refl]. Qed.

Lemma kept_trans a b c : kept a b -> kept b c -> kept a c.
Proof.
  intros [A1 A2] [B1 B2].
  split; [exact (same_release_trans _ _ _ A1 B1) | exact (settled_trans _ _ _ A2 B2)].
Qed.

Lemma pres_kept {A} (m : Js A) : pres same_release m -> pres settled m -> pres kept m.
Proof. intros H1 H2 s. split; [apply H1 | apply H2]. Qed.

Lemma cut_kept env w C0 v' a b : cut env w C0 v' a -> kept a b -> cut env w C0 v' b.
Proof.
  intros (H1 & H2 & H3 & H4 & H5) [(M & Tg & Cm & _) (F & [new Tr])].
  unfold cut. rewrite M, Tg, Cm, F, Tr. repeat (split; [assumption|]).
  split; [apply in_or_app; now right | exact H5].
Qed.

Section Kept.
Variable env : Env.

Ltac kept_leaf :=
  idtac;
  lazymatch goal with
  | |- pres _ (ReleaseFixed.push _) =>
      exact (pres_kept _ (fixed_push_same_release env) (fixed_push_settled env))
  | |- pres _ (ReleaseFixed.publishToNpm _) =>
      exact (pres_kept _ (fixed_publishToNpm_same_release env) (fixed_publishToNpm_settled env))
  | |- pres _ (ReleaseFixed.publishToGitHub _) =>
      exact (pres_kept _ (fixed_publishToGitHub_same_release env)
               (fixed_publishToGitHub_settled env))
  | |- pres _ (ReleaseFixed.verification _) =>
      exact (pres_kept _ (fixed_verification_same_release env)
               (fixed_verification_settled env))
  | |- pres _ (generateReport _) =>
      exact (pres_kept _ (generateReport_same_release env) (generateReport_settled env))
  | |- pres _ (epilogue _) =>
      exact (pres_kept _ (epilogue_same_release env) (epilogue_settled env))
  | |- pres _ (modify _) =>
      intro; split; [now repeat split | split; [reflexivity | fields; grows]]
  | |- pres _ (console _ _) =>
      intro; split; [now repeat split | split; [reflexivity | fields; grows]]
  end.

Ltac kept_tac := frame_tac kept_refl kept_trans kept_leaf.

Lemma fixed_after_commit_kept :
  pres kept
    (ReleaseFixed.push env ;; ReleaseFixed.publishToNpm env ;;
     ReleaseFixed.publishToGitHub env ;; ReleaseFixed.verification env).
Proof. kept_tac. Qed.

Lemma fixed_report_kept : pres kept (generateReport env ;; epilogue env).
Proof. kept_tac. Qed.

Lemma fixed_catch_kept message :
  pres kept
    (error ("Error en el proceso: " ++ message) ;; generateReport env ;;
     @throw unit message).
Proof. kept_tac. Qed.

(** Whatever holds after step 6 of the reworked script and is not
    disturbed by the later steps holds at the end of [run]. *)
Lemma fixed_run_after_commit (I : State -> Prop) s :
  (forall a b, I a -> kept a b -> I b) ->
  I s ->
  wp (ReleaseFixed.push env ;; ReleaseFixed.publishToNpm env ;;
      ReleaseFixed.publishToGitHub env ;; ReleaseFixed.verification env)
     (fun _ s' =>
        wp (generateReport env ;; epilogue env) (fun _ => I)
           (fun e s2 =>
              wp (error ("Error en el proceso: " ++ e) ;; generateReport env ;;
                  @throw unit e) (fun _ => I) (fun _ => I) s2) s')
     (fun e s' =>
        wp (error ("Error en el proceso: " ++ e) ;; generateReport env ;;
            @throw unit e) (fun _ => I) (fun _ => I) s') s.
Proof.
  intros HI Hs.
  assert (Hcatch : forall e s', I s' ->
            wp (error ("Error en el proceso: " ++ e) ;; generateReport env ;; @throw unit e)
               (fun _ => I) (fun _ => I) s').
  { intros e s' H. apply (wp_pres kept); [apply fixed_catch_kept | |];
      intros ? s2 R; exact (HI _ _ H R). }
  apply (wp_pres kept); [apply fixed_after_commit_kept | |].
  - intros ? s2 R2. pose proof (HI _ _ Hs R2) as H2.
    apply (wp_pres kept); [apply fixed_report_kept | |].
    + intros ? s3 R3. exact (HI _ _ H2 R3).
    + intros e s3 R3. apply Hcatch. exact (HI _ _ H2 R3).
  - intros e s2 R2. apply Hcatch. exact (HI _ _ Hs R2).
Qed.
End Kept.

Lemma tools_ok_work env : tools_ok env -> tools_work env.
Proof. intros H n c _. apply H. Qed.

Section Working.
Variable env : Env.
Hypothesis Hwork : tools_work env.

Ltac wp_run :=
  apply wp_execSync;
  [intros ? Hf;
   match type of Hf with
   | fails _ _ ?c = _ => rewrite (Hwork _ c eq_refl) in Hf
   end; discriminate
  | intros _; cbn [effect]; fields].

Lemma fixed_preVerification_passes s :
  wrong_branch env = false -> dirty (world s) = [] ->
  Semver.versionRegex_test (version (normalize env (manifest (world s)))) = true ->
  wp (ReleaseFixed.preVerification env)
     (fun _ s' =>
        manifest (world s') = normalize env (manifest (world s))
        /\ files (world s') = files (world s)
        /\ commits (world s') = commits (world s)
        /\ tags (world s') = tags (world s)
        /\ exists new, trace (world s') = (new ++ trace (world s))%list)
     never s.
Proof.
  intros Hb Hd Hv. unfold ReleaseFixed.preVerification.
  repeat wp_step. wp_run.
  unfold wrong_branch in Hb. cbv zeta in Hb. rewrite Hb.
  repeat wp_step. wp_run. rewrite porcelain_truthy, Hd.
  repeat wp_step. wp_run. repeat wp_step. fields.
  destruct (manifest_eqb _ _) eqn:Em; fields; dirty_fields; fields.
  - apply manifest_eqb_eq in Em. rewrite Em in Hv. rewrite Hv. cbn [negb].
    repeat wp_step. fields. rewrite Em. repeat split. grows.
  - rewrite Hv. cbn [negb]. repeat wp_step. fields. dirty_fields. fields.
    repeat split. grows.
Qed.


(** The test run may fail: it is caught. *)
Lemma fixed_dependenciesAndTests_passes s :
  wp (ReleaseFixed.dependenciesAndTests env) (fun _ s' => carried s s') never s.
Proof.
  unfold ReleaseFixed.dependenciesAndTests, carried.
  repeat wp_step. wp_run. repeat wp_step. wp_run. repeat wp_step.
  fields. repeat split. grows.
Qed.


Lemma fixed_build_passes s :
  wp (ReleaseFixed.build env) (fun _ s' => carried s s') never s.
Proof.
  unfold ReleaseFixed.build, carried. repeat wp_step.
  destruct (scripts_build _); repeat wp_step; [wp_run; repeat wp_step|];
    fields; repeat split; grows.
Qed.


End Working.

Section Untagged.
Variable env : Env.
Hypothesis Htools : tools_ok env.

Ltac wp_run :=
  apply wp_execSync;
  [intros ? Hf; rewrite Htools in Hf; discriminate
  | intros _; cbn [effect]; fields].

Lemma mark_dirty_In p w : ignored env p = false -> In p (dirty (mark_dirty env p w)).
Proof.
  intros Hi. unfold mark_dirty. rewrite Hi. cbn [orb].
  destruct (existsb _ _) eqn:E; [| now left].
  apply existsb_exists in E as (x & Hx & Ex). apply String.eqb_eq in Ex. now subst.
Qed.


(** The same step for a kind that is a single word, so that the shell
    hands [npm version] the kind and [--no-git-tag-version] as written:
    the manifest is bumped and the repository is left as it was. *)
Lemma fixed_versioning_bumps k s v :
  single_word k = true ->
  version (manifest (world s)) = v ->
  Semver.versionRegex_test v = true ->
  ~ In ("v" ++ v) (tags (world s)) ->
  wp (ReleaseFixed.versioning env k)
     (fun _ s' =>
        exists v', npm_version env k v = Some v'
        /\ manifest (world s') = set_version v' (manifest (world s))
        /\ r_version (report (this s')) = Some (removeQuotes (trim (dq ++ v' ++ dq ++ nl)))
        /\ files (world s') = files (world s)
        /\ commits (world s') = commits (world s)
        /\ tags (world s') = tags (world s)
        /\ (ignored env "package.json" = false -> In "package.json" (dirty (world s')))
        /\ In (Exec (NpmVersion k) true) (trace (world s'))
        /\ exists new, trace (world s') = (new ++ trace (world s))%list)
     (fun _ s' =>
        npm_version env k v = None
        /\ In (Exec (NpmVersion k) false) (trace (world s'))
        /\ exists new, trace (world s') = (new ++ trace (world s))%list) s.
Proof.
  intros Hk Hver Hv Ht. unfold ReleaseFixed.versioning.
  repeat wp_step. wp_run. rewrite Hver, (version_read_back v Hv).
  repeat wp_step. wp_run. rewrite (tag_unlisted _ _ Ht).
  change (truthy (trim "")) with false. cbv iota.
  repeat wp_step. wp_run. rewrite Hver.
  destruct (npm_version env k v) as [v'|] eqn:En; cbv zeta; rewrite ?Hk; fields.
  - repeat wp_step. wp_run. dirty_fields. fields.
    repeat wp_step. fields. dirty_fields. fields.
    exists v'. repeat (split; [reflexivity|]).
    split; [intros Hi; now apply mark_dirty_In|].
    split; [right; right; now left | grows].
  - split; [reflexivity|]. split; [now left | grows].
Qed.

Lemma mark_dirty_mono q w p : In p (dirty w) -> In p (dirty (mark_dirty env q w)).
Proof.
  intros H. unfold mark_dirty. destruct (_ || _); [exact H | now right].
Qed.

Lemma execSync_still_dirty c s :
  (match c with
   | GitCommit _ _ => false
   | NpmVersion k => single_word k
   | _ => true
   end) = true ->
  still_dirty s (snd (execSync env c s)).
Proof.
  intros Hc p Hp. unfold execSync. destruct (fails env _ c); [exact Hp|].
  destruct c; try discriminate; cbn [effect]; fields; try exact Hp.
  - destruct (manifest_eqb _ _); fields; [exact Hp | now apply mark_dirty_mono].
  - destruct (npm_version _ _ _); cbv zeta; rewrite ?Hc; fields;
      [now apply mark_dirty_mono | exact Hp].
  - destruct (tags (world s)); exact Hp.
  - destruct (existsb _ _); exact Hp.
Qed.

Lemma writeFileSync_still_dirty p c s : still_dirty s (snd (writeFileSync env p c s)).
Proof.
  intros q Hq. unfold writeFileSync, modify. cbn [snd]. fields.
  destruct (negb _); fields; [now apply mark_dirty_mono | exact Hq].
Qed.

Ltac dirty_leaf :=
  idtac;
  lazymatch goal with
  | |- pres _ (execSync _ _) => intro; apply execSync_still_dirty; reflexivity
  | |- pres _ (writeFileSync _ _ _) => intro; apply writeFileSync_still_dirty
  | |- pres _ (modify _) => intros ? ? Hp; exact Hp
  | |- pres _ (console _ _) => intros ? ? Hp; exact Hp
  | |- pres _ (update_report _) => intros ? ? Hp; exact Hp
  end.

Lemma collectChanges_still_dirty t : pres still_dirty (collectChanges env t).
Proof. unfold collectChanges. frame_tac still_dirty_refl still_dirty_trans dirty_leaf. Qed.

Lemma updateChangelog_still_dirty : pres still_dirty (updateChangelog env).
Proof.
  pose proof collectChanges_still_dirty as Hc. unfold updateChangelog.
  frame_tac still_dirty_refl still_dirty_trans ltac:(idtac; first [apply Hc | dirty_leaf]).
Qed.

(** Step 5, the tools working: the section of the reported version is
    inserted; manifest, tags, commits and reported version stay. *)
Lemma updateChangelog_passes s C0 :
  files (world s) "CHANGELOG.md" = Some C0 ->
  wp (updateChangelog env)
     (fun _ s' =>
        same_release s s' /\ still_dirty s s'
        /\ (exists changes,
              files (world s') "CHANGELOG.md"
              = Some (Changelog.insertEntry C0
                        (Changelog.newEntry (show (r_version (report (this s))))
                           (today env) changes)))
        /\ exists new, trace (world s') = (new ++ trace (world s))%list)
     never s.
Proof.
  intros HC.
  destruct (updateChangelog_writes env s C0 HC (fun n t => Htools n _) (fun n => Htools n _))
    as (changes & Hr & Hf).
  pose proof (updateChangelog_same_release env s) as H1.
  pose proof (updateChangelog_still_dirty s) as H2.
  pose proof (updateChangelog_extends env s) as H3.
  unfold wp. destruct (updateChangelog env s) as [[[]|e] s1]; [|discriminate].
  cbn [fst snd] in *. repeat (split; [assumption|]). split; [now exists changes | exact H3].
Qed.

(** Step 6 of the reworked script, the tools working, with something to
    commit and the tag of the reported version absent: one commit, one
    annotated tag. *)
Lemma fixed_commitAndTag_tags s v :
  r_version (report (this s)) = Some v ->
  dirty (world s) <> [] ->
  ~ In ("v" ++ v) (tags (world s)) ->
  wp (ReleaseFixed.commitAndTag env)
     (fun _ s' =>
        manifest (world s') = manifest (world s)
        /\ files (world s') = files (world s)
        /\ commits (world s') = ("chore(release): v" ++ v) :: commits (world s)
        /\ tags (world s') = ("v" ++ v) :: tags (world s)
        /\ In (Exec (GitTagAnnotated ("v" ++ v) ("Release v" ++ v)) true) (trace (world s'))
        /\ exists new, trace (world s') = (new ++ trace (world s))%list)
     never s.
Proof.
  intros Hr Hd Ht. unfold ReleaseFixed.commitAndTag.
  repeat wp_step. wp_run. repeat wp_step. wp_run.
  rewrite porcelain_truthy. destruct (dirty (world s)) as [|p d]; [congruence|].
  cbn [negb]. repeat wp_step. fields. rewrite Hr. cbn [show].
  wp_run. repeat wp_step. wp_run. rewrite (tag_unlisted _ _ Ht).
  change (truthy (trim "")) with false. cbv iota.
  repeat wp_step. wp_run. rewrite (tag_unlisted _ _ Ht).
  repeat wp_step. fields. repeat (split; [reflexivity|]).
  split; [right; right; now left | grows].
Qed.

(** A run of the reworked script on a clean checkout whose version [v]
    has no tag, the tools working and [npm version k] giving [v']. *)
Lemma fixed_release_untagged arg w v v' C0 :
  let k := match arg with Some k => k | None => "patch" end in
  single_word k = true ->
  wrong_branch env = false -> dirty w = [] ->
  version (normalize env (manifest w)) = v ->
  Semver.versionRegex_test v = true ->
  npm_version env k v = Some v' ->
  removeQuotes (trim (dq ++ v' ++ dq ++ nl)) = v' ->
  ~ In ("v" ++ v) (tags w) -> ~ In ("v" ++ v') (tags w) ->
  ignored env "package.json" = false ->
  files w "CHANGELOG.md" = Some C0 ->
  cut env w C0 v' (snd (ReleaseFixed.run env arg (fresh env w))).
Proof.
  intros k Hword Hb Hd Hn Hv Hk Hback Ht Ht' Hi HC.
  apply wp_final. rewrite run_eq. fold k.
  apply wp_try_catch. apply wp_bind. unfold ReleaseFixed.steps.
  eapply wp_seq; [apply (fixed_preVerification_passes env (tools_ok_work env Htools)); [exact Hb | exact Hd | unfold fresh; fields; now rewrite Hn]
                 | | intros e s1 []].
  intros a s1 (M1 & F1 & C1 & T1 & _). unfold fresh in M1, F1, C1, T1.
  fields_in M1. fields_in F1. fields_in C1. fields_in T1.
  eapply wp_seq; [apply (fixed_dependenciesAndTests_passes env (tools_ok_work env Htools)) | | intros e s2 []].
  clear a. intros a s2 (M2 & F2 & _ & C2 & T2 & _).
  eapply wp_seq; [apply (fixed_build_passes env (tools_ok_work env Htools)) | | intros e s3 []].
  clear a. intros a s3 (M3 & F3 & _ & C3 & T3 & _).
  eapply wp_seq;
    [apply (fixed_versioning_bumps k s3 v);
     [exact Hword | now rewrite M3, M2, M1 | exact Hv | now rewrite T3, T2, T1] | |].
  2:{ intros e s4 (Hnone & _). congruence. }
  clear a. intros a s4 (v'' & Hsome & M4 & R4 & F4 & C4 & T4 & D4 & _).
  assert (v'' = v') by congruence. subst v''. rewrite Hback in R4.
  eapply wp_seq;
    [apply (updateChangelog_passes s4 C0); now rewrite F4, F3, F2, F1 | | intros e s5 []].
  clear a. intros a s5 ((M5 & T5 & C5 & R5) & D5 & [changes F5] & _).
  rewrite R4 in F5. cbn [show] in F5.
  eapply wp_seq;
    [apply (fixed_commitAndTag_tags s5 v');
     [now rewrite R5
     | intros Hnil; specialize (D5 _ (D4 Hi)); now rewrite Hnil in D5
     | now rewrite T5, T4, T3, T2, T1] | | intros e s6 []].
  clear a. intros a s6 (M6 & F6 & C6 & T6 & E6 & _).
  apply (fixed_run_after_commit env (cut env w C0 v')); [apply cut_kept|].
  unfold cut. rewrite M6, M5, M4, T6, T5, T4, T3, T2, T1, C6, C5, C4, C3, C2, C1, F6.
  repeat (split; [reflexivity|]). split; [exact E6 | now exists changes].
Qed.
End Untagged.

(** ** The release kind *)






Section Extends.
Variable env : Env.









End Extends.

(** ** The patch release of 1.0.0 *)

(** C2, on [scripts/release.js]: on a clean checkout of 1.0.0 without
    tags, [run('patch')] returns with the version still 1.0.0: no bump
    command and no tag command was issued, no tag exists, and the section
    added to the changelog is headed [1.0.0], not [1.0.1]. *)
Theorem original_patch_release_not_bumped :
  let env := calm "1.0.0" in
  let w := checkout "1.0.0" [] [] in
  let res := Release.run env (Some "patch") (fresh env w) in
  version (manifest w) = "1.0.0" /\ tags w = []
  /\ fst res = Return tt
  /\ version (manifest (world (snd res))) = "1.0.0"
  /\ r_version (report (this (snd res))) = Some "1.0.0"
  /\ tags (world (snd res)) = []
  /\ events_of is_bump_or_tag (snd res) = []
  /\ startsWith (changelog_file (snd res))
       ("# Changelog" ++ nl ++ nl ++ "## [1.0.0] - 2025-09-14" ++ nl) = true
  /\ includes (changelog_file (snd res)) "[1.0.1]" = false.
Proof. vm_compute. repeat split. Qed.

(** On [scripts/release.js], with the tag queries exiting normally as
    git's do, no run changes the manifest version or the tags. *)
Lemma original_run_never_bumps env arg w :
  (forall n t, fails env n (GitTagList t) = None) ->
  version (normalize env (manifest w)) = version (manifest w) ->
  version (manifest (world (snd (Release.run env arg (fresh env w))))) = version (manifest w)
  /\ tags (world (snd (Release.run env arg (fresh env w)))) = tags w.
Proof.
  intros Hq Hn.
  destruct (original_rerun env (version (manifest w)) (tags w) (commits w) arg (fresh env w) Hq)
    as (H1 & H2 & _); [now repeat split | exact Hn | now split].
Qed.

(** C2, on the reworked script: on a clean checkout of 1.0.0 on which
    neither [v1.0.0] nor [v1.0.1] exists, the tools working,
    [run('patch')] leaves the manifest at 1.0.1, has created the
    annotated tag [v1.0.1] on a commit of its own, and has inserted into
    the changelog a section headed [## [1.0.1] - <today>]. *)
Theorem fixed_patch_release_bumps_and_tags env w C0 :
  tools_ok env -> wrong_branch env = false -> dirty w = [] ->
  version (manifest w) = "1.0.0" ->
  version (normalize env (manifest w)) = "1.0.0" ->
  ~ In "v1.0.0" (tags w) -> ~ In "v1.0.1" (tags w) ->
  ignored env "package.json" = false ->
  files w "CHANGELOG.md" = Some C0 ->
  cut env w C0 "1.0.1" (snd (ReleaseFixed.run env (Some "patch") (fresh env w)))
  /\ forall changes,
       startsWith (Changelog.newEntry "1.0.1" (today env) changes)
         ("## [1.0.1] - " ++ today env ++ nl) = true.
Proof.
  intros Htools Hb Hd _ Hn Ht Ht' Hi HC. split.
  - apply (fixed_release_untagged env Htools (Some "patch") w "1.0.0" "1.0.1" C0);
      try assumption; reflexivity.
  - intros changes. apply newEntry_heading.
Qed.

Lemma fixed_patch_release_bumps_and_tags_witness :
  cut (calm "1.0.1") (checkout "1.0.0" [] []) changelog0 "1.0.1"
    (snd (ReleaseFixed.run (calm "1.0.1") (Some "patch")
            (fresh (calm "1.0.1") (checkout "1.0.0" [] []))))
  /\ forall changes,
       startsWith (Changelog.newEntry "1.0.1" (today (calm "1.0.1")) changes)
         ("## [1.0.1] - " ++ today (calm "1.0.1") ++ nl) = true.
Proof.
  apply (fixed_patch_release_bumps_and_tags (calm "1.0.1") (checkout "1.0.0" [] []) changelog0).
  - intros n c. reflexivity.
  - reflexivity.
  - reflexivity.
  - reflexivity.
  - reflexivity.
  - simpl. tauto.
  - simpl. tauto.
  - reflexivity.
  - reflexivity.
Defined.

(** ** The release kind is not validated *)

(** The entry point takes an absent and an empty argument for [patch]. *)
Lemma main_defaults env w :
  ReleaseFixed.main env None w = ReleaseFixed.main env (Some "patch") w
  /\ ReleaseFixed.main env (Some "") w = ReleaseFixed.main env (Some "patch") w
  /\ Release.main env None w = Release.main env (Some "patch") w
  /\ Release.main env (Some "") w = Release.main env (Some "patch") w.
Proof. repeat split. Qed.

(** Outside the three kinds, whether the bump goes through is up to
    [npm version]. *)
Lemma accepted_other env k v :
  (k =? "patch") = false -> (k =? "minor") = false -> (k =? "major") = false ->
  accepted env k v
  = match npm_version_other env k v with Some _ => true | None => false end.
Proof.
  intros H1 H2 H3. unfold accepted, npm_version, Semver.bump.
  destruct (Semver.parse v) as [[[x y] z]|]; [|reflexivity].
  now rewrite H1, H2, H3.
Qed.



(** * Further properties of the scripts *)

(** ** A changelog without version heading *)

Lemma firstHeading_none lines :
  existsb (fun l => startsWith l "## [") lines = false ->
  Changelog.firstHeading true lines = None.
Proof.
  induction lines as [|l rest IH]; [reflexivity|].
  cbn [existsb Changelog.firstHeading andb].
  destruct (startsWith l "## ["); [discriminate|].
  cbn [orb]. intros H. now rewrite (IH H).
Qed.

(** Without a version heading the insertion index stays [0]: the new
    section goes in front of the whole text. *)
Lemma insertEntry_without_heading C e :
  Changelog.hasVersionHeading C = false ->
  Changelog.insertEntry C e = nl ++ e ++ C.
Proof.
  intros H. unfold Changelog.hasVersionHeading in H.
  unfold Changelog.insertEntry. rewrite findInsertIndex_firstHeading.
  rewrite (firstHeading_none _ H).
  unfold slice_to, slice_from. cbn [firstn skipn join String.concat].
  now rewrite join_split.
Qed.

Section ChangelogAny.
Variable env : Env.

Lemma writeEntry_any changes s :
  fst (writeEntry env changes s) = Return tt
  /\ files (world (snd (writeEntry env changes s))) "CHANGELOG.md"
     = Some (Changelog.insertEntry (changelog_file s)
               (Changelog.newEntry (show (r_version (report (this s)))) (today env) changes)).
Proof.
  destruct (files (world s) "CHANGELOG.md") as [C|] eqn:HC.
  - unfold changelog_file. rewrite HC. now apply writeEntry_spec.
  - unfold changelog_file. rewrite HC. unfold writeEntry.
    destruct (Nat.eqb (List.length changes) 0); js_eval;
      cbn [this world with_world with_this files record report push_warning];
      rewrite HC;
      match goal with
      | |- context [writeFileSync env ?p ?c ?st] =>
          pose proof (writeFileSync_files env p c st) as W;
          destruct (writeFileSync env p c st) as [[[]|e] s1] eqn:E;
          [| discriminate E]
      end; cbn [fst snd world with_world files record] in *;
      (split; [reflexivity | exact W]).
Qed.

(** The changelog step, whether or not the file exists. *)
Lemma updateChangelog_writes_any s :
  (forall n t, fails env n (GitLog t) = None) ->
  (forall n, fails env n GitDiffCached = None) ->
  exists changes,
    fst (updateChangelog env s) = Return tt
    /\ files (world (snd (updateChangelog env s))) "CHANGELOG.md"
       = Some (Changelog.insertEntry (changelog_file s)
                 (Changelog.newEntry (show (r_version (report (this s)))) (today env) changes)).
Proof.
  intros Hlog Hdiff. rewrite updateChangelog_eq. js_eval.
  match goal with
  | |- context [execSync env GitDescribe ?st] =>
      destruct (execSync_frame env GitDescribe st) as [T F];
      destruct (execSync env GitDescribe st) as [[out|e] s1]
  end; cbn [snd this world with_world with_this files record] in T, F; js_eval.
  - destruct (collectChanges_spec env (trim out) s1 Hlog Hdiff) as (changes & E & F2 & R2).
    destruct (collectChanges env (trim out) s1) as [[ch|e] s2]; [|discriminate].
    cbn [fst snd] in *. injection E as ->.
    exists changes. rewrite <- T, <- R2.
    replace (changelog_file s) with (changelog_file s2)
      by (unfold changelog_file; now rewrite F2, F).
    apply writeEntry_any.
  - match goal with
    | |- context [collectChanges env ?t ?st] =>
        destruct (collectChanges_spec env t st Hlog Hdiff) as (changes & E & F2 & R2);
        destruct (collectChanges env t st) as [[ch|e'] s2]; [|discriminate]
    end.
    cbn [fst snd this world with_world with_this files record report push_warning] in *.
    injection E as ->.
    exists changes. rewrite T in R2. rewrite <- R2.
    replace (changelog_file s) with (changelog_file s2)
      by (unfold changelog_file; now rewrite F2, F).
    apply writeEntry_any.
Qed.
End ChangelogAny.

(** X1: when [CHANGELOG.md] is missing, empty, or has no line starting
    with [## [], the changelog step (its two git queries answering) writes
    a line break, the new section, and then the whole old text: the
    section lands in front of any title block. *)
Theorem changelog_without_heading_entry_on_top env s :
  Changelog.hasVersionHeading (changelog_file s) = false ->
  (forall n t, fails env n (GitLog t) = None) ->
  (forall n, fails env n GitDiffCached = None) ->
  exists changes,
    fst (updateChangelog env s) = Return tt
    /\ files (world (snd (updateChangelog env s))) "CHANGELOG.md"
       = Some (nl ++ Changelog.newEntry (show (r_version (report (this s)))) (today env) changes
                  ++ changelog_file s).
Proof.
  intros Hh Hlog Hdiff.
  destruct (updateChangelog_writes_any env s Hlog Hdiff) as (changes & E & F).
  exists changes. split; [exact E|]. rewrite F. f_equal.
  now apply insertEntry_without_heading.
Qed.

Lemma changelog_without_heading_entry_on_top_witness :
  exists changes,
    fst (updateChangelog (calm "1.0.1") without_changelog) = Return tt
    /\ files (world (snd (updateChangelog (calm "1.0.1") without_changelog))) "CHANGELOG.md"
       = Some (nl ++ Changelog.newEntry (show (r_version (report (this without_changelog))))
                       (today (calm "1.0.1")) changes
                  ++ changelog_file without_changelog).
Proof.
  apply (changelog_without_heading_entry_on_top (calm "1.0.1") without_changelog).
  - reflexivity.
  - intros; reflexivity.
  - intros; reflexivity.
Defined.

(** ** The registry query and its retries *)

Section Retries.
Variable env : Env.

Lemma repeat_snoc {A} (x : A) n : (repeat x n ++ [x])%list = x :: repeat x n.
Proof. induction n as [|n IH]; [reflexivity|]. cbn. now rewrite IH. Qed.

Lemma execSync_events P c s :
  exists ok,
    events_of P (snd (execSync env c s))
    = (if P (Exec c ok) then Exec c ok :: events_of P s else events_of P s)
    /\ (ok = true <-> exists out, fst (execSync env c s) = Return out).
Proof.
  destruct (execSync_trace env c s) as (ok & Ht & Hok).
  exists ok. split; [| exact Hok]. unfold events_of. rewrite Ht. reflexivity.
Qed.

Lemma queryVersion_S pkg remaining :
  ReleaseFixed.queryVersion env pkg (S remaining)
  = try_catch
      (out <- execSync env (NpmViewVersion pkg) ;; ret (Some (trim out)))
      (fun message =>
         if Nat.ltb 0 remaining then
           Js.log env ("⏳ Esperando propagación en npm... ("
                       ++ Semver.string_of_nat (3 - remaining) ++ "/3)") ;;
           sleep 5000 ;;
           ReleaseFixed.queryVersion env pkg remaining
         else
           throw ("No se pudo verificar la publicación en npm: " ++ message)).
Proof. reflexivity. Qed.

(** The loop of [verification]: with [r] attempts left it makes between
    one and [r] queries; it pauses after each failed one but the last;
    it throws exactly when all [r] failed. *)
Lemma queryVersion_attempts pkg r : forall s,
  exists k, k < S r
    /\ match fst (ReleaseFixed.queryVersion env pkg (S r) s) with
       | Return (Some _) =>
           attempted pkg k true s (snd (ReleaseFixed.queryVersion env pkg (S r) s))
       | Return None => False
       | Throw e =>
           k = r
           /\ attempted pkg k false s (snd (ReleaseFixed.queryVersion env pkg (S r) s))
           /\ exists msg, e = "No se pudo verificar la publicación en npm: " ++ msg
       end.
Proof.
  induction r as [|r IH]; intros s;
    destruct (execSync_events is_version_query (NpmViewVersion pkg) s) as (ok & Hq & Hok);
    destruct (execSync_events is_sleep (NpmViewVersion pkg) s) as (ok' & Hs & _);
    cbn [is_version_query is_sleep] in Hq, Hs;
    destruct (execSync env (NpmViewVersion pkg) s) as [[out|e] s1] eqn:E;
    cbn [fst snd] in *.
  - assert (ok = true) by (apply Hok; now exists out). subst ok.
    assert (Hres : ReleaseFixed.queryVersion env pkg 1 s = (Return (Some (trim out)), s1))
      by (rewrite queryVersion_S; unfold try_catch, bind; now rewrite E).
    rewrite Hres. exists 0. split; [lia|]. split; [exact Hq | exact Hs].
  - assert (ok = false).
    { destruct ok; [|reflexivity]. destruct (proj1 Hok eq_refl) as [o Ho]. discriminate. }
    subst ok.
    assert (Hres : ReleaseFixed.queryVersion env pkg 1 s
                   = (Throw ("No se pudo verificar la publicación en npm: " ++ e), s1))
      by (rewrite queryVersion_S; unfold try_catch, bind; now rewrite E).
    rewrite Hres. exists 0. split; [lia|]. cbn [fst snd].
    split; [reflexivity|]. split; [split; [exact Hq | exact Hs] | now exists e].
  - assert (ok = true) by (apply Hok; now exists out). subst ok.
    assert (Hres : ReleaseFixed.queryVersion env pkg (S (S r)) s
                   = (Return (Some (trim out)), s1))
      by (rewrite queryVersion_S; unfold try_catch, bind; now rewrite E).
    rewrite Hres. exists 0. split; [lia|]. split; [exact Hq | exact Hs].
  - assert (ok = false).
    { destruct ok; [|reflexivity]. destruct (proj1 Hok eq_refl) as [o Ho]. discriminate. }
    subst ok.
    set (s2 := with_world (record (Sleep 5000))
                 (with_world
                    (record (logged env ("⏳ Esperando propagación en npm... ("
                                         ++ Semver.string_of_nat (3 - S r) ++ "/3)"))) s1)).
    assert (Hres : ReleaseFixed.queryVersion env pkg (S (S r)) s
                   = ReleaseFixed.queryVersion env pkg (S r) s2)
      by (rewrite (queryVersion_S pkg (S r)); unfold try_catch, bind; now rewrite E).
    rewrite Hres.
    assert (Hq2 : events_of is_version_query s2
                  = Exec (NpmViewVersion pkg) false :: events_of is_version_query s)
      by exact Hq.
    assert (Hs2 : events_of is_sleep s2 = Sleep 5000 :: events_of is_sleep s)
      by (unfold s2, events_of; cbn; unfold events_of in Hs; now rewrite Hs).
    destruct (IH s2) as (k & Hk & H). exists (S k). split; [lia|].
    destruct (ReleaseFixed.queryVersion env pkg (S r) s2) as [[[v|]|e'] s3];
      cbn [fst snd] in *.
    + destruct H as [A B]. split.
      * rewrite A, Hq2. cbn [repeat]. rewrite <- repeat_snoc, <- app_assoc. reflexivity.
      * rewrite B, Hs2. cbn [repeat]. rewrite <- repeat_snoc, <- app_assoc. reflexivity.
    + exact H.
    + destruct H as (-> & [A B] & Hm). split; [reflexivity|]. split; [|exact Hm]. split.
      * rewrite A, Hq2. cbn [repeat]. rewrite <- repeat_snoc, <- app_assoc. reflexivity.
      * rewrite B, Hs2. cbn [repeat]. rewrite <- repeat_snoc, <- app_assoc. reflexivity.
Qed.

Lemma verification_eq :
  ReleaseFixed.verification env
  = (Js.log env "=== PASO 10: Verificación ===" ;;
     packageJson <- readPackageJson ;;
     npmVersion <- ReleaseFixed.queryVersion env (name packageJson) 3 ;;
     compareVersion env (name packageJson) npmVersion).
Proof. reflexivity. Qed.

Lemma compareVersion_queries pkg v : pres (keeps is_version_query) (compareVersion env pkg v).
Proof. unfold compareVersion. keeps_tac. Qed.

Lemma compareVersion_sleeps pkg v : pres (keeps is_sleep) (compareVersion env pkg v).
Proof. unfold compareVersion. keeps_tac. Qed.
End Retries.

(** X2: step 10 of the reworked script asks the registry for the version
    at least once and at most three times.  It stops at the first answer;
    after each failed attempt but the third it waits five seconds; when
    the third attempt fails too it throws.  [k] is the number of failed
    attempts before the last one. *)
Theorem verification_retries env s :
  let pkg := name (manifest (world s)) in
  let res := ReleaseFixed.verification env s in
  exists k last,
    k <= 2
    /\ attempted pkg k last s (snd res)
    /\ (last = false ->
        k = 2
        /\ exists msg,
             fst res = Throw ("No se pudo verificar la publicación en npm: " ++ msg)).
Proof.
  cbv zeta. rewrite verification_eq. js_eval.
  set (s0 := with_world (record _) s).
  set (pkg := name (manifest (world s0))).
  change (name (manifest (world s))) with pkg.
  assert (H0 : forall P, (forall l, P (Console Stdout l) = false) ->
                         events_of P s0 = events_of P s).
  { intros P HP. unfold s0, events_of. cbn. now rewrite HP. }
  destruct (queryVersion_attempts env pkg 2 s0) as (k & Hk & H).
  destruct (ReleaseFixed.queryVersion env pkg 3 s0) as [[[v|]|e] s1]; cbn [fst snd] in *.
  - exists k, true. split; [lia|]. split; [| discriminate].
    destruct H as [A B].
    pose proof (compareVersion_queries env pkg (Some v) s1) as Kq.
    pose proof (compareVersion_sleeps env pkg (Some v) s1) as Ks.
    split.
    + rewrite (keeps_events Kq), A, (H0 _ (fun _ => eq_refl)). reflexivity.
    + rewrite (keeps_events Ks), B, (H0 _ (fun _ => eq_refl)). reflexivity.
  - destruct H.
  - destruct H as (-> & [A B] & msg & ->).
    exists 2, false. split; [lia|]. split.
    + split; [rewrite A | rewrite B]; now rewrite (H0 _ (fun _ => eq_refl)).
    + intros _. split; [reflexivity | now exists msg].
Qed.

(** ** What a passed verification means *)

Section Verified.
Variable env : Env.

(** A query of the registry that exits normally prints what the registry
    answers. *)
Lemma execSync_answer c s out :
  (match c with NpmViewVersion _ | NpmView _ => true | _ => false end) = true ->
  fst (execSync env c s) = Return out -> out = stdout env c.
Proof.
  intros Hc. unfold execSync. destruct (fails env _ c); [discriminate|].
  destruct c; try discriminate Hc; cbn [effect fst]; now intros [= <-].
Qed.

Lemma queryVersion_answer pkg r : forall s v,
  fst (ReleaseFixed.queryVersion env pkg r s) = Return (Some v) ->
  v = trim (stdout env (NpmViewVersion pkg)).
Proof.
  induction r as [|r IH]; intros s v; [discriminate|].
  rewrite queryVersion_S. unfold try_catch, bind.
  pose proof (execSync_answer (NpmViewVersion pkg) s) as Ha.
  destruct (execSync env (NpmViewVersion pkg) s) as [[out|e] s1]; cbn [fst snd] in *.
  - intros [= <-]. now rewrite (Ha out eq_refl eq_refl).
  - destruct (Nat.ltb 0 r); [| discriminate].
    unfold Js.log, console, sleep, modify. cbv beta iota. apply IH.
Qed.

Lemma queryVersion_some pkg r : forall s,
  0 < r -> fst (ReleaseFixed.queryVersion env pkg r s) <> Return None.
Proof.
  induction r as [|r IH]; intros s Hr; [lia|].
  rewrite queryVersion_S. unfold try_catch, bind.
  destruct (execSync env (NpmViewVersion pkg) s) as [[out|e] s1]; cbn [fst snd];
    [discriminate|].
  destruct r as [|r]; [discriminate|].
  change (Nat.ltb 0 (S r)) with true. cbv iota.
  unfold Js.log, console, sleep, modify. cbv beta iota. apply IH. lia.
Qed.
Lemma option_eqb_some a o : option_eqb (Some a) o = true -> o = Some a.
Proof.
  destruct o as [b|]; [|discriminate]. cbn. intros H.
  apply String.eqb_eq in H. now subst.
Qed.

Lemma compareVersion_passes pkg a s :
  wp (compareVersion env pkg (Some a))
     (fun _ s' =>
        r_version (report (this s)) = Some a
        /\ (packageInfo (report (this s')) = Some (trim (stdout env (NpmView pkg)))
            \/ packageInfo (report (this s')) = Some "Información no disponible"))
     (fun _ _ => True) s.
Proof.
  unfold compareVersion. repeat wp_step.
  destruct (option_eqb (Some a) (r_version (report (this s)))) eqn:E; cbn [negb];
    [| now wp_step].
  apply option_eqb_some in E.
  repeat wp_step. apply wp_execSync; [intros msg _ | intros _; cbn [effect]].
  - repeat wp_step. fields. split; [exact E | now right].
  - repeat wp_step. fields. split; [exact E | now left].
Qed.

Lemma original_verification_passes s :
  wp (Release.verification env)
     (fun _ s' =>
        r_version (report (this s))
        = Some (trim (stdout env (NpmViewVersion (name (manifest (world s))))))
        /\ packageInfo (report (this s'))
           = Some (trim (stdout env (NpmView (name (manifest (world s)))))))
     (fun _ _ => True) s.
Proof.
  unfold Release.verification. repeat wp_step.
  apply wp_execSync; [now intros | intros _; cbn [effect]]. fields.
  repeat wp_step. fields.
  match goal with
  | |- context [option_eqb (Some ?a) ?o] =>
      destruct (option_eqb (Some a) o) eqn:E; cbn [negb]; [| now wp_step]
  end.
  apply option_eqb_some in E. repeat wp_step.
  apply wp_execSync; [now intros | intros _; cbn [effect]]. fields.
  repeat wp_step. fields. now split.
Qed.
End Verified.

(** X3: in either script, step 10 returns only if the version the
    registry answers, trimmed, is the version held in the report; the
    package information is then recorded: the registry's description of
    the package or, in the reworked script when that query fails, a
    placeholder. *)
Theorem verification_passes_only_on_reported_version env s :
  let pkg := name (manifest (world s)) in
  let answer := trim (stdout env (NpmViewVersion pkg)) in
  let info := trim (stdout env (NpmView pkg)) in
  (fst (ReleaseFixed.verification env s) = Return tt ->
   r_version (report (this s)) = Some answer
   /\ (packageInfo (report (this (snd (ReleaseFixed.verification env s)))) = Some info
       \/ packageInfo (report (this (snd (ReleaseFixed.verification env s))))
          = Some "Información no disponible"))
  /\ (fst (Release.verification env s) = Return tt ->
      r_version (report (this s)) = Some answer
      /\ packageInfo (report (this (snd (Release.verification env s)))) = Some info).
Proof.
  cbv zeta. split.
  - rewrite verification_eq. js_eval.
    set (s0 := with_world (record _) s).
    change (name (manifest (world s0))) with (name (manifest (world s))).
    set (pkg := name (manifest (world s))).
    pose proof (queryVersion_answer env pkg 3 s0) as Ha.
    pose proof (queryVersion_some env pkg 3 s0 ltac:(lia)) as Hs.
    pose proof (fixed_queryVersion_same_release env pkg 3 s0) as (_ & _ & _ & R).
    destruct (ReleaseFixed.queryVersion env pkg 3 s0) as [[[v|]|e] s1] eqn:Eq;
      cbn [fst snd] in *; [| congruence | discriminate].
    specialize (Ha v eq_refl). subst v.
    intros Hret.
    pose proof (wp_returns _ _ _ _ _ (compareVersion_passes env pkg _ s1) Hret) as [H1 H2].
    split; [| exact H2]. rewrite <- H1. symmetry. exact R.
  - intros Hret.
    exact (wp_returns _ _ _ _ _ (original_verification_passes env s) Hret).
Qed.

Lemma verification_passes_only_on_reported_version_witness :
  r_version (report (this changelog_state)) = Some "1.0.1"
  /\ packageInfo (report (this (snd (ReleaseFixed.verification (calm "1.0.1") changelog_state))))
     = Some "create-python-modern@1.0.1"
  /\ packageInfo (report (this (snd (Release.verification (calm "1.0.1") changelog_state))))
     = Some "create-python-modern@1.0.1".
Proof.
  destruct (verification_passes_only_on_reported_version (calm "1.0.1") changelog_state)
    as [H1 H2].
  destruct (H1 eq_refl) as [A [B|B]]; [| discriminate B].
  destruct (H2 eq_refl) as [_ C].
  split; [exact A | split; [exact B | exact C]].
Defined.

(** ** The reworked [run], step by step *)

Lemma quiet_refl s : quiet s s.
Proof. now intros P _ _. Qed.

Lemma quiet_trans a b c : quiet a b -> quiet b c -> quiet a c.
Proof. intros H1 H2 P Hc Hw. now rewrite (H2 P Hc Hw), (H1 P Hc Hw). Qed.

Lemma closing_refl s : closing s s.
Proof. split; [apply same_release_refl | split; [apply settled_refl | apply quiet_refl]]. Qed.

Lemma closing_trans a b c : closing a b -> closing b c -> closing a c.
Proof.
  intros (A1 & A2 & A3) (B1 & B2 & B3).
  split; [exact (same_release_trans _ _ _ A1 B1)|].
  split; [exact (settled_trans _ _ _ A2 B2) | exact (quiet_trans _ _ _ A3 B3)].
Qed.

Section Closing.
Variable env : Env.

Lemma quiet_console st l s : quiet s (with_world (record (Console st l)) s).
Proof. intros P Hc _. unfold events_of. cbn. now rewrite Hc. Qed.

Lemma closing_console st l : pres closing (console st l).
Proof.
  intro s. split; [now repeat split|].
  split; [split; [reflexivity | now exists [Console st l]] | apply quiet_console].
Qed.

Lemma closing_this f :
  (forall m, r_version (report (f m)) = r_version (report m)) ->
  pres closing (modify (with_this f)).
Proof.
  intros Hf s. split; [repeat split; apply Hf|].
  split; [split; [reflexivity | now exists []] | now intros P _ _].
Qed.

Lemma closing_report_write c : pres closing (writeFileSync env "report.md" c).
Proof.
  intro s. split; [apply writeFileSync_same_release|].
  split; [now apply writeFileSync_settled|].
  intros P _ Hw. unfold events_of. rewrite writeFileSync_trace. cbn. now rewrite Hw.
Qed.

Ltac closing_leaf :=
  idtac;
  lazymatch goal with
  | |- pres _ (console _ _) => apply closing_console
  | |- pres _ (writeFileSync _ _ _) => apply closing_report_write
  | |- pres _ (modify (with_this _)) => apply closing_this; intro; reflexivity
  end.

Ltac closing_tac := frame_tac closing_refl closing_trans closing_leaf.

Lemma generateReport_closing : pres closing (generateReport env).
Proof. unfold generateReport. closing_tac. Qed.

Lemma log_each_closing l : pres closing (ReleaseFixed.log_each env l).
Proof. induction l as [|u l IH]; cbn [ReleaseFixed.log_each]; closing_tac; apply IH. Qed.

Lemma epilogue_closing : pres closing (epilogue env).
Proof.
  pose proof log_each_closing as Hl. unfold epilogue.
  frame_tac closing_refl closing_trans ltac:(idtac; first [apply Hl | closing_leaf]).
Qed.

Lemma fixed_report_closing : pres closing (generateReport env ;; epilogue env).
Proof.
  apply (pres_bind _ closing_trans);
    [apply generateReport_closing | intro; apply epilogue_closing].
Qed.

Lemma fixed_catch_closing message :
  pres closing
    (error ("Error en el proceso: " ++ message) ;; generateReport env ;;
     @throw unit message).
Proof.
  pose proof generateReport_closing as Hg.
  frame_tac closing_refl closing_trans ltac:(idtac; first [apply Hg | closing_leaf]).
Qed.

Lemma original_report_closing :
  pres closing
    (console Stdout "📋 DEBUG: Ejecutando generateReport()" ;;
     generateReport env ;;
     Js.log env "🎉 ¡Proceso de liberación completado exitosamente!" ;;
     r <- get_report ;;
     Js.log env ("Versión publicada: " ++ show (r_version r)) ;;
     Js.log env ("Commit: " ++ show (commitSha r))).
Proof.
  pose proof generateReport_closing as Hg.
  frame_tac closing_refl closing_trans ltac:(idtac; first [apply Hg | closing_leaf]).
Qed.

Lemma original_catch_closing message :
  pres closing
    (console Stderr ("❌ DEBUG: Error en el proceso: " ++ message) ;;
     console Stderr ("❌ DEBUG: Stack trace: Error: " ++ message) ;;
     generateReport env ;; @throw unit message).
Proof.
  pose proof generateReport_closing as Hg.
  frame_tac closing_refl closing_trans ltac:(idtac; first [apply Hg | closing_leaf]).
Qed.

(** The [catch] of either [run] rethrows what it caught. *)
Lemma fixed_catch_wp e s (E : string -> State -> Prop) :
  (forall s', closing s s' -> E e s') ->
  wp (error ("Error en el proceso: " ++ e) ;; generateReport env ;; @throw unit e)
     never E s.
Proof.
  intros HE. pose proof (fixed_catch_closing e s) as Hc. revert Hc. unfold wp.
  unfold bind, error, console, modify. cbv beta iota. unfold bind. cbv beta iota.
  match goal with
  | |- context [generateReport env ?st] =>
      destruct (generateReport_spec env st) as (s2 & -> & _)
  end.
  unfold throw. cbn [snd]. exact (HE _).
Qed.

Lemma original_catch_wp e s (E : string -> State -> Prop) :
  (forall s', closing s s' -> E e s') ->
  wp (console Stderr ("❌ DEBUG: Error en el proceso: " ++ e) ;;
      console Stderr ("❌ DEBUG: Stack trace: Error: " ++ e) ;;
      generateReport env ;; @throw unit e)
     never E s.
Proof.
  intros HE. pose proof (original_catch_closing e s) as Hc. revert Hc. unfold wp.
  unfold bind, console, modify. cbv beta iota.
  match goal with
  | |- context [generateReport env ?st] =>
      destruct (generateReport_spec env st) as (s2 & -> & _)
  end.
  unfold throw. cbn [snd]. exact (HE _).
Qed.

(** The reworked [run] from the specifications of its steps: [Pi] holds
    when step [i] has returned, [F e] when a step has thrown [e]. *)
Lemma fixed_run_wp arg s
    (P1 P2 P3 P4 P5 P6 P7 P8 P9 P10 Qf : State -> Prop) (F Ef : string -> State -> Prop) :
  let k := match arg with Some k => k | None => "patch" end in
  wp (ReleaseFixed.preVerification env) (fun _ => P1) F s ->
  (forall s, P1 s -> wp (ReleaseFixed.dependenciesAndTests env) (fun _ => P2) F s) ->
  (forall s, P2 s -> wp (ReleaseFixed.build env) (fun _ => P3) F s) ->
  (forall s, P3 s -> wp (ReleaseFixed.versioning env k) (fun _ => P4) F s) ->
  (forall s, P4 s -> wp (updateChangelog env) (fun _ => P5) F s) ->
  (forall s, P5 s -> wp (ReleaseFixed.commitAndTag env) (fun _ => P6) F s) ->
  (forall s, P6 s -> wp (ReleaseFixed.push env) (fun _ => P7) F s) ->
  (forall s, P7 s -> wp (ReleaseFixed.publishToNpm env) (fun _ => P8) F s) ->
  (forall s, P8 s -> wp (ReleaseFixed.publishToGitHub env) (fun _ => P9) F s) ->
  (forall s, P9 s -> wp (ReleaseFixed.verification env) (fun _ => P10) F s) ->
  (forall s s', P10 s -> closing s s' -> Qf s') ->
  (forall e s s', F e s -> closing s s' -> Ef e s') ->
  wp (ReleaseFixed.run env arg) (fun _ => Qf) Ef s.
Proof.
  intros k H1 H2 H3 H4 H5 H6 H7 H8 H9 H10 HQ HE.
  assert (Hcatch : forall e s1, F e s1 ->
            wp (error ("Error en el proceso: " ++ e) ;; generateReport env ;; @throw unit e)
               (fun _ => Qf) Ef s1).
  { intros e s1 Hf. eapply wp_mono; [apply fixed_catch_wp; intros s' Hc; exact (HE _ _ _ Hf Hc) | |].
    - intros a s' [].
    - now intros. }
  rewrite run_eq. fold k. apply wp_try_catch. apply wp_bind. unfold ReleaseFixed.steps.
  eapply wp_seq; [exact H1 | | exact Hcatch]. intros a1 s1 Q1. cbv beta in Q1.
  eapply wp_seq; [exact (H2 _ Q1) | | exact Hcatch]. intros a2 s2 Q2. cbv beta in Q2.
  eapply wp_seq; [exact (H3 _ Q2) | | exact Hcatch]. intros a3 s3 Q3. cbv beta in Q3.
  eapply wp_seq; [exact (H4 _ Q3) | | exact Hcatch]. intros a4 s4 Q4. cbv beta in Q4.
  eapply wp_seq; [exact (H5 _ Q4) | | exact Hcatch]. intros a5 s5 Q5. cbv beta in Q5.
  eapply wp_seq; [exact (H6 _ Q5) | | exact Hcatch]. intros a6 s6 Q6. cbv beta in Q6.
  eapply wp_seq; [exact (H7 _ Q6) | | exact Hcatch]. intros a7 s7 Q7. cbv beta in Q7.
  eapply wp_seq; [exact (H8 _ Q7) | | exact Hcatch]. intros a8 s8 Q8. cbv beta in Q8.
  eapply wp_seq; [exact (H9 _ Q8) | | exact Hcatch]. intros a9 s9 Q9. cbv beta in Q9.
  eapply wp_mono; [exact (H10 _ Q9) | | exact Hcatch]. intros a10 s10 Q10. cbv beta in Q10.
  pose proof (fixed_report_closing s10) as Hc.
  unfold wp, bind in *.
  destruct (generateReport_spec env s10) as (s11 & Eg & _). rewrite Eg in *.
  destruct (epilogue_spec env s11) as [Ee _].
  destruct (epilogue env s11) as [[[]|e] s12]; [| discriminate Ee].
  cbn [snd] in Hc. exact (HQ _ _ Q10 Hc).
Qed.

(** [run] of [scripts/release.js] from the specifications of its steps;
    a line is printed before each step. *)
Lemma original_run_wp arg s
    (P0 P1 P2 P3 P4 P5 P6 P7 P8 P9 P10 Qf : State -> Prop) (F Ef : string -> State -> Prop) :
  let k := match arg with Some k => k | None => "patch" end in
  P0 s ->
  stable P0 -> stable P1 -> stable P2 -> stable P3 -> stable P4 ->
  stable P5 -> stable P6 -> stable P7 -> stable P8 -> stable P9 ->
  (forall s, P0 s -> wp (Release.preVerification env) (fun _ => P1) F s) ->
  (forall s, P1 s -> wp (Release.dependenciesAndTests env) (fun _ => P2) F s) ->
  (forall s, P2 s -> wp (Release.build env) (fun _ => P3) F s) ->
  (forall s, P3 s -> wp (Release.versioning env k) (fun _ => P4) F s) ->
  (forall s, P4 s -> wp (updateChangelog env) (fun _ => P5) F s) ->
  (forall s, P5 s -> wp (Release.commitAndTag env) (fun _ => P6) F s) ->
  (forall s, P6 s -> wp (Release.push env) (fun _ => P7) F s) ->
  (forall s, P7 s -> wp (Release.publishToNpm env) (fun _ => P8) F s) ->
  (forall s, P8 s -> wp (Release.publishToGitHub env) (fun _ => P9) F s) ->
  (forall s, P9 s -> wp (Release.verification env) (fun _ => P10) F s) ->
  (forall s s', P10 s -> closing s s' -> Qf s') ->
  (forall e s s', F e s -> closing s s' -> Ef e s') ->
  wp (Release.run env arg) (fun _ => Qf) Ef s.
Proof.
  intros k Hs S0 S1 S2 S3 S4 S5 S6 S7 S8 S9 H1 H2 H3 H4 H5 H6 H7 H8 H9 H10 HQ HE.
  assert (Hcatch : forall e s1, F e s1 ->
            wp (console Stderr ("❌ DEBUG: Error en el proceso: " ++ e) ;;
                console Stderr ("❌ DEBUG: Stack trace: Error: " ++ e) ;;
                generateReport env ;; @throw unit e)
               (fun _ => Qf) Ef s1).
  { intros e s1 Hf.
    eapply wp_mono; [apply original_catch_wp; intros s' Hc; exact (HE _ _ _ Hf Hc) | |].
    - intros a s' [].
    - now intros. }
  unfold Release.run. fold k. cbv zeta.
  wp_step. wp_step. apply wp_try_catch. apply wp_bind. unfold Release.steps.
  wp_step. wp_step.
  eapply wp_seq; [apply H1; now apply S0, S0 | | exact Hcatch].
  intros a1 s1 Q1. cbv beta in Q1. wp_step. wp_step.
  eapply wp_seq; [apply H2; now apply S1 | | exact Hcatch].
  intros a2 s2 Q2. cbv beta in Q2. wp_step. wp_step.
  eapply wp_seq; [apply H3; now apply S2 | | exact Hcatch].
  intros a3 s3 Q3. cbv beta in Q3. wp_step. wp_step.
  eapply wp_seq; [apply H4; now apply S3 | | exact Hcatch].
  intros a4 s4 Q4. cbv beta in Q4. wp_step. wp_step.
  eapply wp_seq; [apply H5; now apply S4 | | exact Hcatch].
  intros a5 s5 Q5. cbv beta in Q5. wp_step. wp_step.
  eapply wp_seq; [apply H6; now apply S5 | | exact Hcatch].
  intros a6 s6 Q6. cbv beta in Q6. wp_step. wp_step.
  eapply wp_seq; [apply H7; now apply S6 | | exact Hcatch].
  intros a7 s7 Q7. cbv beta in Q7. wp_step. wp_step.
  eapply wp_seq; [apply H8; now apply S7 | | exact Hcatch].
  intros a8 s8 Q8. cbv beta in Q8. wp_step. wp_step.
  eapply wp_seq; [apply H9; now apply S8 | | exact Hcatch].
  intros a9 s9 Q9. cbv beta in Q9. wp_step. wp_step.
  eapply wp_mono; [apply H10; now apply S9 | | exact Hcatch].
  intros a10 s10 Q10. cbv beta in Q10.
  pose proof (original_report_closing s10) as Hc. revert Hc.
  unfold wp, bind, console, Js.log, modify, get_report, gets. cbv beta iota.
  match goal with
  | |- context [generateReport env ?st] =>
      destruct (generateReport_spec env st) as (s11 & -> & _)
  end.
  cbn [snd]. exact (HQ _ _ Q10).
Qed.
End Closing.

(** ** A failed test run and the steps after it *)

Lemma stable_releasing M : stable (releasing M).
Proof. now intros st l s H. Qed.

Section TestsApart.
Variable env : Env.
Hypothesis Hothers : tools_work_but_tests env.

Ltac wp_run :=
  apply wp_execSync;
  [intros ? Hf;
   match type of Hf with
   | fails _ _ ?c = _ => rewrite (Hothers _ c eq_refl) in Hf
   end; discriminate
  | intros _; cbn [effect]; fields].

Ltac wp_go := repeat first [wp_step | progress cbv beta | wp_run].

Lemma original_preVerification_returns s :
  wrong_branch env = false -> dirty (world s) = [] ->
  Semver.versionRegex_test (version (normalize env (manifest (world s)))) = true ->
  wp (Release.preVerification env)
     (fun _ => releasing (normalize env (manifest (world s)))) never s.
Proof.
  intros Hb Hd Hv. unfold Release.preVerification, releasing.
  repeat wp_step. wp_run.
  unfold wrong_branch in Hb. cbv zeta in Hb. rewrite Hb.
  repeat wp_step. wp_run. rewrite porcelain_truthy, Hd.
  repeat wp_step. wp_run. repeat wp_step. fields.
  destruct (manifest_eqb _ _) eqn:Em; fields; dirty_fields; fields.
  - apply manifest_eqb_eq in Em. rewrite Em in Hv. rewrite Hv. cbn [negb].
    repeat wp_step. fields. rewrite Em. now split.
  - rewrite Hv. cbn [negb]. repeat wp_step. fields. dirty_fields. fields.
    now split.
Qed.

(** The test run may fail: it is caught, and the step returns. *)
Lemma original_dependenciesAndTests_returns M s :
  releasing M s ->
  wp (Release.dependenciesAndTests env) (fun _ => releasing M) never s.
Proof.
  intros Hs. unfold Release.dependenciesAndTests.
  repeat wp_step. wp_run. repeat wp_step.
  apply wp_execSync; [intros msg _ | intros _; cbn [effect]]; repeat wp_step; exact Hs.
Qed.

Lemma original_build_returns M s :
  releasing M s -> wp (Release.build env) (fun _ => releasing M) never s.
Proof.
  intros Hs. unfold Release.build. repeat wp_step.
  destruct (scripts_build _); wp_go; exact Hs.
Qed.

(** The tag query exits normally, so step 4 keeps the version. *)
Lemma original_versioning_returns M k s :
  Semver.versionRegex_test (version M) = true ->
  releasing M s -> wp (Release.versioning env k) (fun _ => releasing M) never s.
Proof.
  intros Hv [Hm Hr]. unfold Release.versioning, releasing.
  repeat wp_step. wp_run. rewrite Hm, (version_read_back _ Hv).
  wp_go. now split.
Qed.

Lemma updateChangelog_returns M s :
  releasing M s -> wp (updateChangelog env) (fun _ => releasing M) never s.
Proof.
  intros Hs.
  assert (Hr : wp (updateChangelog env) (fun _ _ => True) never s).
  { unfold updateChangelog. wp_step. wp_step.
    assert (Hc : forall lastTag s1,
              wp (collectChanges env lastTag) (fun _ _ => True) never s1).
    { intros lastTag s1. unfold collectChanges.
      destruct (truthy lastTag); [| now wp_step].
      wp_go. destruct (truthy _); [now wp_step|].
      wp_go. destruct (truthy _); now wp_step. }
    assert (Hrest : forall lastTag s1,
              wp (changes <- collectChanges env lastTag ;;
                  (if Nat.eqb (List.length changes) 0
                   then warn "No se encontraron cambios desde el último tag"
                   else ret tt) ;;
                  present <- existsSync "CHANGELOG.md" ;;
                  changelog <- (if present then readFileSync "CHANGELOG.md" else ret "") ;;
                  r <- get_report ;;
                  writeFileSync env "CHANGELOG.md"
                    (Changelog.insertEntry changelog
                       (Changelog.newEntry (show (r_version r)) (today env) changes)) ;;
                  Js.log env "✅ CHANGELOG.md actualizado")
                 (fun _ _ => True) never s1).
    { intros lastTag s1. eapply wp_seq; [apply Hc | | now intros].
      intros changes s2 _. wp_step.
      destruct (Nat.eqb _ _); repeat wp_step;
        (destruct (files _ "CHANGELOG.md") as [c|] eqn:Ec;
         [apply wp_readFileSync; [intros c' _ | congruence] | wp_step];
         repeat wp_step; apply wp_writeFileSync; now wp_step). }
    eapply wp_seq with (Q1 := fun _ _ => True) (E1 := never);
      [| intros lastTag s1 _; apply Hrest | now intros].
    wp_step. wp_step.
    apply wp_execSync; [intros ? Hf; rewrite (Hothers _ GitDescribe eq_refl) in Hf;
                        discriminate|].
    intros _. cbn [effect]. fields.
    destruct (tags (world s)); repeat wp_step; exact I. }
  pose proof (updateChangelog_same_release env s) as Hf.
  unfold wp in *. destruct (updateChangelog env s) as [[a|e] s']; [| exact Hr].
  cbn [snd] in Hf. destruct Hs as [Hm Hv], Hf as (F1 & _ & _ & F4).
  split; congruence.
Qed.

Lemma original_commitAndTag_returns M s :
  releasing M s -> wp (Release.commitAndTag env) (fun _ => releasing M) never s.
Proof.
  intros [Hm Hr]. unfold Release.commitAndTag, releasing.
  wp_go. destruct (negb _); wp_go; now split.
Qed.

Lemma original_push_returns M s :
  releasing M s -> wp (Release.push env) (fun _ => releasing M) never s.
Proof.
  intros [Hm Hr]. unfold Release.push, releasing.
  wp_go. destruct (truthy _); wp_go; now split.
Qed.

Lemma original_publishToNpm_returns M s :
  token_set env -> releasing M s ->
  wp (Release.publishToNpm env)
     (fun _ s' => releasing M s' /\ In (Exec NpmPublish true) (trace (world s'))) never s.
Proof.
  intros (t & Ht & Htr) [Hm Hr]. unfold Release.publishToNpm, Release.token_missing, releasing.
  rewrite Ht, Htr. cbn [negb]. wp_go. split; [now split | right; now left].
Qed.

Lemma original_publishToGitHub_returns M s :
  releasing M s -> wp (Release.publishToGitHub env) (fun _ => releasing M) never s.
Proof.
  intros [Hm Hr]. unfold Release.publishToGitHub, releasing.
  wp_go. destruct (includes _ "/"); wp_go; [| now split].
  destruct (files _ ".npmrc"); wp_go; now split.
Qed.

Lemma original_verification_returns M s :
  trim (stdout env (NpmViewVersion (name M))) = version M ->
  releasing M s -> wp (Release.verification env) (fun _ _ => True) never s.
Proof.
  intros Ha [Hm Hr]. unfold Release.verification.
  repeat wp_step. wp_run. repeat wp_step. fields.
  rewrite Hm, Ha, Hr. cbn [option_eqb]. rewrite String.eqb_refl. cbn [negb].
  wp_go. exact I.
Qed.

(** With every tool but the test command working, [run] of
    [scripts/release.js] returns, whether the tests pass or not. *)
Lemma original_run_returns arg w :
  wrong_branch env = false -> dirty w = [] ->
  Semver.versionRegex_test (version (normalize env (manifest w))) = true ->
  token_set env ->
  trim (stdout env (NpmViewVersion (name (normalize env (manifest w)))))
  = version (normalize env (manifest w)) ->
  fst (Release.run env arg (fresh env w)) = Return tt.
Proof.
  intros Hb Hd Hv Ht Ha.
  set (M := normalize env (manifest w)) in *.
  assert (H : wp (Release.run env arg) (fun _ _ => True) never (fresh env w)).
  { apply (original_run_wp env arg (fresh env w)
             (fun s => manifest (world s) = manifest w /\ dirty (world s) = [])
             (releasing M) (releasing M) (releasing M) (releasing M) (releasing M)
             (releasing M) (releasing M) (releasing M) (releasing M)
             (fun _ => True) (fun _ => True) never never);
      try apply stable_releasing; try (now intros st l s H).
    - now split.
    - intros s [Hm Hd']. unfold M. rewrite <- Hm.
      apply original_preVerification_returns; [exact Hb | exact Hd' | now rewrite Hm].
    - intros s. apply original_dependenciesAndTests_returns.
    - intros s. apply original_build_returns.
    - intros s. now apply original_versioning_returns.
    - intros s. apply updateChangelog_returns.
    - intros s. apply original_commitAndTag_returns.
    - intros s. apply original_push_returns.
    - intros s Hs.
      eapply wp_mono; [apply original_publishToNpm_returns; [exact Ht | exact Hs] | | now intros].
      now intros a s' [H _].
    - intros s. apply original_publishToGitHub_returns.
    - intros s. now apply original_verification_returns. }
  unfold wp in H. now destruct (Release.run env arg (fresh env w)) as [[[]|e] s'].
Qed.
End TestsApart.

(** C8: when the test command fails during a run of [scripts/release.js],
    the run is not aborted by it.  The run goes on into the build step,
    and the issues of the final report hold the warning about the tests;
    the tests step itself throws only when the install fails; a run that
    returns has entered the versioning step and issued the publish
    command; and the run does return when nothing else stands in its
    way: every tool but the test command working, on a release branch and
    a clean checkout of a plain version, the token set, and the registry
    answering the released version. *)
Theorem test_failure_does_not_abort env arg w :
  trace w = [] ->
  let res := Release.run env arg (fresh env w) in
  events_of is_failed_test (snd res) <> [] ->
  In (logged env "=== PASO 3: Build ===") (trace (world (snd res)))
  /\ In tests_warning (issues (report (this (snd res))))
  /\ (forall s e, fst (Release.dependenciesAndTests env s) = Throw e ->
                  fails env (clock (world s)) NpmCi = Some e)
  /\ (fst res = Return tt ->
      In (logged env "=== PASO 4: Versionado ===") (trace (world (snd res)))
      /\ In (Exec NpmPublish true) (trace (world (snd res))))
  /\ (tools_work_but_tests env ->
      wrong_branch env = false -> dirty w = [] ->
      Semver.versionRegex_test (version (normalize env (manifest w))) = true ->
      token_set env ->
      trim (stdout env (NpmViewVersion (name (normalize env (manifest w)))))
      = version (normalize env (manifest w)) ->
      fst res = Return tt).
Proof.
  intros Hw. cbv zeta. intros Hne.
  assert (H0 : events_of is_failed_test (fresh env w) = []).
  { unfold events_of. simpl. now rewrite Hw. }
  split; [| split; [| split; [| split]]].
  - apply (original_run_build env arg (fresh env w)); [|exact Hne].
    intros H. now rewrite H0 in H.
  - destruct (original_run_report env arg (fresh env w) eq_refl) as [_ ->].
    apply in_or_app. right.
    apply (original_run_warned env arg (fresh env w)); [|exact Hne].
    intros H. now rewrite H0 in H.
  - intros s e H. now apply original_tests_throw.
  - intros Hr. split.
    + apply (original_run_mark env arg _ (original_steps_mark_versioning env) _ tt Hr).
    + apply (original_run_mark env arg _ (original_steps_mark_publish env) _ tt Hr).
  - intros Hothers Hb Hd Hv Ht Ha. now apply original_run_returns.
Qed.

Lemma test_failure_does_not_abort_witness :
  let env := tests_failing "1.0.0" in
  let res := Release.run env None (fresh env (checkout "1.0.0" [] [])) in
  events_of is_failed_test (snd res) = [Exec NpmTest false]
  /\ fst res = Return tt
  /\ In (logged env "=== PASO 3: Build ===") (trace (world (snd res)))
  /\ In (logged env "=== PASO 4: Versionado ===") (trace (world (snd res)))
  /\ In (Exec NpmPublish true) (trace (world (snd res)))
  /\ In tests_warning (issues (report (this (snd res)))).
Proof.
  cbv zeta.
  destruct (test_failure_does_not_abort (tests_failing "1.0.0") None (checkout "1.0.0" [] []))
    as (Hbuild & Hissue & _ & Hmarks & Hret).
  - reflexivity.
  - vm_compute. discriminate.
  - assert (Hr : fst (Release.run (tests_failing "1.0.0") None
                        (fresh (tests_failing "1.0.0") (checkout "1.0.0" [] [])))
                 = Return tt).
    { apply Hret.
      - intros n c Hc. destruct c; try reflexivity; discriminate Hc.
      - vm_compute; reflexivity.
      - reflexivity.
      - vm_compute; reflexivity.
      - exists "npm_s3cr3t". split; reflexivity.
      - vm_compute; reflexivity. }
    destruct (Hmarks Hr) as [Hv Hp].
    split; [vm_compute; reflexivity|].
    exact (conj Hr (conj Hbuild (conj Hv (conj Hp Hissue)))).
Defined.

(** ** One commit and one tag at most *)

Lemma history_same_release T C a b : history T C a -> same_release a b -> history T C b.
Proof. intros [H1 H2] (_ & Tg & Cm & _). unfold history. now rewrite Tg, Cm. Qed.

Lemma history_same_repo T C a b : history T C a -> same_repo a b -> history T C b.
Proof. intros [H1 H2] (_ & Cm & Tg). unfold history. now rewrite Tg, Cm. Qed.

Lemma one_release_same_release T C a b :
  at_most_one_release T C a -> same_release a b -> at_most_one_release T C b.
Proof.
  intros [H | (v & R & Cm & Tg)] Hs.
  - left. exact (history_same_release _ _ _ _ H Hs).
  - destruct Hs as (_ & Tg' & Cm' & R'). right. exists v.
    rewrite R', Cm', Tg'. now repeat split.
Qed.

Lemma stable_history T C : stable (history T C).
Proof. now intros st l s H. Qed.

Lemma stable_one_release T C : stable (at_most_one_release T C).
Proof. now intros st l s H. Qed.

Section OneRelease.
Variable env : Env.
Variables T C : list string.

(** Whatever a command does, the manager object is the same after it. *)
Lemma wp_execSync_this c (Q : string -> State -> Prop) (E : string -> State -> Prop) s :
  (forall out s', this s' = this s -> same_repo s s' \/ is_query c = false -> Q out s') ->
  (forall e s', this s' = this s -> same_repo s s' \/ is_query c = false -> E e s') ->
  wp (execSync env c) Q E s.
Proof.
  intros HQ HE. unfold wp.
  pose proof (execSync_this env c s) as Ht.
  assert (Hr : same_repo s (snd (execSync env c s)) \/ is_query c = false).
  { destruct (is_query c) eqn:Eq; [left | now right].
    apply execSync_same_repo. destruct c; try reflexivity; discriminate. }
  destruct (execSync env c s) as [[out|e] s']; cbn [snd] in *; auto.
Qed.

Ltac same_repo_leaf :=
  idtac;
  lazymatch goal with
  | |- pres _ (execSync _ _) =>
      intro; apply execSync_same_repo; first [reflexivity | assumption]
  | |- pres _ (modify _) => intro; now repeat split
  | |- pres _ (console _ _) => intro; now repeat split
  | |- pres _ (update_report _) => intro; now repeat split
  end.

(** Step 4 with a kind that is a single word: the shell hands
    [npm version] the kind and [--no-git-tag-version] as written, and the
    repository is left as it was. *)
Lemma fixed_versioning_same_repo k :
  single_word k = true -> pres same_repo (ReleaseFixed.versioning env k).
Proof.
  intros Hk. unfold ReleaseFixed.versioning.
  frame_tac same_repo_refl same_repo_trans same_repo_leaf.
Qed.

Lemma original_versioning_same_repo k :
  single_word k = true -> pres same_repo (Release.versioning env k).
Proof.
  intros Hk. unfold Release.versioning.
  frame_tac same_repo_refl same_repo_trans same_repo_leaf.
Qed.

(** Step 4 leaves a version in the report when it returns. *)
Lemma fixed_versioning_reports k s :
  wp (ReleaseFixed.versioning env k)
     (fun _ s' => exists v, r_version (report (this s')) = Some v) (fun _ _ => True) s.
Proof.
  unfold ReleaseFixed.versioning. repeat wp_step.
  apply wp_execSync_this; [| now intros]. intros out s1 H1 _.
  repeat wp_step. apply wp_execSync_this; [| now intros]. intros out2 s2 H2 _.
  destruct (truthy _).
  - repeat wp_step. fields. rewrite H2. fields. now eexists.
  - repeat wp_step. apply wp_execSync_this; [| now intros]. intros out3 s3 H3 _.
    repeat wp_step. apply wp_execSync_this; [| now intros]. intros out4 s4 H4 _.
    repeat wp_step. fields. now eexists.
Qed.

Lemma original_versioning_reports k s :
  wp (Release.versioning env k)
     (fun _ s' => exists v, r_version (report (this s')) = Some v) (fun _ _ => True) s.
Proof.
  unfold Release.versioning. repeat wp_step.
  apply wp_execSync_this; [| now intros]. intros out s1 H1 _.
  repeat wp_step. apply wp_execSync_this.
  - intros out2 s2 H2 _. repeat wp_step. fields. rewrite H2. fields. now eexists.
  - intros e s2 H2 _. repeat wp_step.
    apply wp_execSync_this; [| now intros]. intros out3 s3 H3 _.
    repeat wp_step. apply wp_execSync_this; [| now intros]. intros out4 s4 H4 _.
    repeat wp_step. fields. now eexists.
Qed.

Lemma committed_one_release v s : committed T C v s -> at_most_one_release T C s.
Proof. intros (R & Cm & Tg). right. exists v. auto. Qed.

Lemma commit_once noVerify v s (Q : string -> State -> Prop) (E : string -> State -> Prop) :
  history T C s -> r_version (report (this s)) = Some v ->
  (forall out s', committed T C v s' -> Q out s') ->
  (forall e s', history T C s' -> this s' = this s -> E e s') ->
  wp (execSync env (GitCommit noVerify ("chore(release): v" ++ v))) Q E s.
Proof.
  intros [Ht Hc] Hr HQ HE.
  apply wp_execSync; [intros msg _; apply HE | intros _; cbn [effect]; apply HQ];
    unfold committed, history; fields; rewrite ?Hc, ?Ht; auto.
Qed.

(** The commit of step 6, with its retry without hooks. *)
Lemma commit_or_retry_once v s :
  history T C s -> r_version (report (this s)) = Some v ->
  wp (try_catch
        (execSync env (GitCommit false ("chore(release): v" ++ v)) ;; ret tt)
        (fun message =>
           if includes message "pre-commit" then
             warn "Hook pre-commit no encontrado - usando --no-verify" ;;
             execSync env (GitCommit true ("chore(release): v" ++ v)) ;;
             update_report (push_issue "Hooks de pre-commit no ejecutados") ;;
             update_report (push_solution "Se recomienda ejecutar hooks de calidad manualmente")
           else throw message))
     (fun _ s' => committed T C v s') (fun _ s' => history T C s') s.
Proof.
  intros Hs Hr. repeat wp_step.
  apply (commit_once false v); [exact Hs | exact Hr | intros out s' H; now wp_step |].
  intros e s' Hs' Ht. destruct (includes e "pre-commit").
  - repeat wp_step. apply (commit_once true v).
    + exact Hs'.
    + fields. now rewrite Ht.
    + intros out s2 (R & Cm & Tg). repeat wp_step. unfold committed. fields. auto.
    + intros e2 s2 H _. exact H.
  - wp_step. exact Hs'.
Qed.

Lemma tag_once v s (Q : string -> State -> Prop) (E : string -> State -> Prop) :
  committed T C v s ->
  (forall out s', at_most_one_release T C s' -> Q out s') ->
  (forall e s', at_most_one_release T C s' -> E e s') ->
  wp (execSync env (GitTagAnnotated ("v" ++ v) ("Release v" ++ v))) Q E s.
Proof.
  intros (R & Cm & Tg) HQ HE.
  apply wp_execSync; [intros msg _; apply HE | intros _; cbn [effect]; fields].
  - right. exists v. fields. auto.
  - destruct (existsb _ _); [apply HE | apply HQ]; right; exists v; fields;
      rewrite ?Tg; auto.
Qed.

Lemma query_keeps_committed c v s (Q : string -> State -> Prop) (E : string -> State -> Prop) :
  is_query c = true ->
  committed T C v s ->
  (forall out s', committed T C v s' -> Q out s') ->
  (forall e s', committed T C v s' -> E e s') ->
  wp (execSync env c) Q E s.
Proof.
  intros Hc (R & Cm & Tg) HQ HE.
  apply wp_execSync_this; intros x s' Ht [(_ & Cm' & Tg') | Hq]; try congruence;
    [apply HQ | apply HE]; unfold committed; now rewrite Ht, Cm', Tg'.
Qed.

Lemma query_keeps_history c s (Q : string -> State -> Prop) (E : string -> State -> Prop) :
  is_query c = true ->
  history T C s ->
  (forall out s', history T C s' -> this s' = this s -> Q out s') ->
  (forall e s', history T C s' -> this s' = this s -> E e s') ->
  wp (execSync env c) Q E s.
Proof.
  intros Hc [Tg Cm] HQ HE.
  apply wp_execSync_this; intros x s' Ht [(_ & Cm' & Tg') | Hq]; try congruence;
    [apply HQ | apply HE]; unfold history; try exact Ht; now rewrite Cm', Tg'.
Qed.

Lemma fixed_commitAndTag_once v s :
  history T C s -> r_version (report (this s)) = Some v ->
  wp (ReleaseFixed.commitAndTag env)
     (fun _ s' => at_most_one_release T C s') (fun _ s' => at_most_one_release T C s') s.
Proof.
  intros Hs Hr. unfold ReleaseFixed.commitAndTag. repeat wp_step.
  apply query_keeps_history; [reflexivity | exact Hs | | intros e s1 H _; now left].
  intros o1 s1 H1 T1. repeat wp_step.
  apply query_keeps_history; [reflexivity | exact H1 | | intros e s2 H _; now left].
  intros o2 s2 H2 T2. destruct (negb _); [repeat wp_step; now left|].
  wp_step. wp_step. fields. rewrite T2, T1. fields. rewrite Hr. cbn [show].
  eapply wp_seq;
    [apply (commit_or_retry_once v); [exact H2 | rewrite T2, T1; exact Hr] | |
     intros e s3 H; now left].
  intros a s3 H3. cbv beta in H3. repeat wp_step.
  apply (query_keeps_committed _ v);
    [reflexivity | exact H3 | | intros e s4 H; now apply (committed_one_release v)].
  intros o4 s4 H4. destruct (truthy _).
  - repeat wp_step. now apply (committed_one_release v).
  - repeat wp_step. apply (tag_once v); [exact H4 | | now intros].
    intros o5 s5 H5. repeat wp_step. exact H5.
Qed.

Lemma original_commitAndTag_once v s :
  history T C s -> r_version (report (this s)) = Some v ->
  wp (Release.commitAndTag env)
     (fun _ s' => at_most_one_release T C s') (fun _ s' => at_most_one_release T C s') s.
Proof.
  intros Hs Hr. unfold Release.commitAndTag. repeat wp_step.
  apply query_keeps_history; [reflexivity | exact Hs | | intros e s1 H _; now left].
  intros o1 s1 H1 T1. repeat wp_step.
  apply query_keeps_history; [reflexivity | exact H1 | | intros e s2 H _; now left].
  intros o2 s2 H2 T2. destruct (negb _); [repeat wp_step; now left|].
  wp_step. wp_step. fields. rewrite T2, T1. fields. rewrite Hr. cbn [show].
  eapply wp_seq;
    [apply (commit_or_retry_once v); [exact H2 | rewrite T2, T1; exact Hr] | |
     intros e s3 H; now left].
  intros a s3 H3. cbv beta in H3. repeat wp_step.
  apply (query_keeps_committed _ v); [reflexivity | exact H3 | |].
  - intros o4 s4 H4. repeat wp_step. now apply (committed_one_release v).
  - intros e s4 H4. repeat wp_step. apply (tag_once v); [exact H4 | | now intros].
    intros o5 s5 H5. repeat wp_step. exact H5.
Qed.

Lemma wp_and {A} (m : Js A) (Q1 Q2 : A -> State -> Prop) (E1 E2 : string -> State -> Prop) s :
  wp m Q1 E1 s -> wp m Q2 E2 s ->
  wp m (fun a s' => Q1 a s' /\ Q2 a s') (fun e s' => E1 e s' /\ E2 e s') s.
Proof. unfold wp. destruct (m s) as [[a|e] s']; now split. Qed.

(** A step that leaves manifest, tags, commits and reported version
    alone carries [history] and [at_most_one_release] over. *)
Lemma wp_history {A} (m : Js A) s :
  pres same_release m -> history T C s ->
  wp m (fun _ => history T C) (fun _ => at_most_one_release T C) s.
Proof.
  intros Hm Hs. apply (wp_pres same_release); [exact Hm | |]; intros x s' R.
  - exact (history_same_release _ _ _ _ Hs R).
  - left. exact (history_same_release _ _ _ _ Hs R).
Qed.

Lemma wp_one_release {A} (m : Js A) s :
  pres same_release m -> at_most_one_release T C s ->
  wp m (fun _ => at_most_one_release T C) (fun _ => at_most_one_release T C) s.
Proof.
  intros Hm Hs. apply (wp_pres same_release); [exact Hm | |]; intros x s' R;
    exact (one_release_same_release _ _ _ _ Hs R).
Qed.

Lemma fixed_run_one_release arg s :
  single_word (match arg with Some k => k | None => "patch" end) = true ->
  history T C s -> at_most_one_release T C (snd (ReleaseFixed.run env arg s)).
Proof.
  intros Hk Hs. apply wp_final.
  apply (fixed_run_wp env arg s
           (history T C) (history T C) (history T C)
           (fun s => history T C s /\ exists v, r_version (report (this s)) = Some v)
           (fun s => history T C s /\ exists v, r_version (report (this s)) = Some v)
           (at_most_one_release T C) (at_most_one_release T C) (at_most_one_release T C)
           (at_most_one_release T C) (at_most_one_release T C) (at_most_one_release T C)
           (fun _ => at_most_one_release T C) (fun _ => at_most_one_release T C)).
  - apply (wp_pres same_repo); [apply fixed_preVerification_same_repo | |]; intros x s' R.
    + exact (history_same_repo _ _ _ _ Hs R).
    + left. exact (history_same_repo _ _ _ _ Hs R).
  - intros s1 H. apply wp_history; [apply fixed_dependenciesAndTests_same_release | exact H].
  - intros s1 H. apply wp_history; [apply fixed_build_same_release | exact H].
  - intros s1 H.
    eapply wp_mono;
      [apply (wp_and _ _ _ _ _ _
                (wp_pres same_repo _ (fun _ => history T C) (fun _ => history T C) s1
                   (fixed_versioning_same_repo _ Hk)
                   (fun _ s' R => history_same_repo _ _ _ _ H R)
                   (fun _ s' R => history_same_repo _ _ _ _ H R))
                (fixed_versioning_reports _ s1)) | |].
    + now intros.
    + intros e s' [H' _]. now left.
  - intros s1 [H [v Hv]]. apply (wp_pres same_release); [apply updateChangelog_same_release | |];
      intros x s' R.
    + split; [exact (history_same_release _ _ _ _ H R)|]. exists v.
      now rewrite (proj2 (proj2 (proj2 R))).
    + left. exact (history_same_release _ _ _ _ H R).
  - intros s1 [H [v Hv]]. now apply (fixed_commitAndTag_once v).
  - intros s1 H. apply wp_one_release; [apply fixed_push_same_release | exact H].
  - intros s1 H. apply wp_one_release; [apply fixed_publishToNpm_same_release | exact H].
  - intros s1 H. apply wp_one_release; [apply fixed_publishToGitHub_same_release | exact H].
  - intros s1 H. apply wp_one_release; [apply fixed_verification_same_release | exact H].
  - intros s1 s' H (R & _). exact (one_release_same_release _ _ _ _ H R).
  - intros e s1 s' H (R & _). exact (one_release_same_release _ _ _ _ H R).
Qed.

Lemma original_run_one_release arg s :
  single_word (match arg with Some k => k | None => "patch" end) = true ->
  history T C s -> at_most_one_release T C (snd (Release.run env arg s)).
Proof.
  intros Hk Hs. apply wp_final.
  apply (original_run_wp env arg s (history T C)
           (history T C) (history T C) (history T C)
           (fun s => history T C s /\ exists v, r_version (report (this s)) = Some v)
           (fun s => history T C s /\ exists v, r_version (report (this s)) = Some v)
           (at_most_one_release T C) (at_most_one_release T C) (at_most_one_release T C)
           (at_most_one_release T C) (at_most_one_release T C) (at_most_one_release T C)
           (fun _ => at_most_one_release T C) (fun _ => at_most_one_release T C));
    try (now intros st l s0 H).
  - exact Hs.
  - intros s1 H. apply (wp_pres same_repo); [apply original_preVerification_same_repo | |];
      intros x s' R.
    + exact (history_same_repo _ _ _ _ H R).
    + left. exact (history_same_repo _ _ _ _ H R).
  - intros s1 H. apply wp_history; [apply original_dependenciesAndTests_same_release | exact H].
  - intros s1 H. apply wp_history; [apply original_build_same_release | exact H].
  - intros s1 H.
    eapply wp_mono;
      [apply (wp_and _ _ _ _ _ _
                (wp_pres same_repo _ (fun _ => history T C) (fun _ => history T C) s1
                   (original_versioning_same_repo _ Hk)
                   (fun _ s' R => history_same_repo _ _ _ _ H R)
                   (fun _ s' R => history_same_repo _ _ _ _ H R))
                (original_versioning_reports _ s1)) | |].
    + now intros.
    + intros e s' [H' _]. now left.
  - intros s1 [H [v Hv]]. apply (wp_pres same_release); [apply updateChangelog_same_release | |];
      intros x s' R.
    + split; [exact (history_same_release _ _ _ _ H R)|]. exists v.
      now rewrite (proj2 (proj2 (proj2 R))).
    + left. exact (history_same_release _ _ _ _ H R).
  - intros s1 [H [v Hv]]. now apply (original_commitAndTag_once v).
  - intros s1 H. apply wp_one_release; [apply original_push_same_release | exact H].
  - intros s1 H. apply wp_one_release; [apply original_publishToNpm_same_release | exact H].
  - intros s1 H. apply wp_one_release; [apply original_publishToGitHub_same_release | exact H].
  - intros s1 H. apply wp_one_release; [apply original_verification_same_release | exact H].
  - intros s1 s' H (R & _). exact (one_release_same_release _ _ _ _ H R).
  - intros e s1 s' H (R & _). exact (one_release_same_release _ _ _ _ H R).
Qed.
End OneRelease.

(** X4: a run of either script whose release kind is a single word
    ([patch] when no argument is given), whichever commands fail, creates
    at most one commit and at most one tag: the commits and tags it leaves
    are those it found, or those with the commit
    [chore(release): v<version>] on top, or those with that commit and the
    tag [v<version>] on top, [<version>] being the version in the report.
    The kind has to be a single word: the scripts splice it into the
    command line of [npm version] unchecked, and a kind that hides
    [--no-git-tag-version] from npm makes npm commit and tag as well, as
    [spliced_kind_commits_twice] shows. *)
Theorem run_creates_at_most_one_commit_and_tag env arg w :
  single_word (match arg with Some k => k | None => "patch" end) = true ->
  at_most_one_release (tags w) (commits w) (snd (ReleaseFixed.run env arg (fresh env w)))
  /\ at_most_one_release (tags w) (commits w) (snd (Release.run env arg (fresh env w))).
Proof.
  intros Hk.
  split; [apply fixed_run_one_release | apply original_run_one_release];
    solve [exact Hk | now split].
Qed.

Lemma run_creates_at_most_one_commit_and_tag_witness :
  single_word "patch" = true
  /\ at_most_one_release [] [] (snd (ReleaseFixed.run (calm "1.0.1") None
                                      (fresh (calm "1.0.1") (checkout "1.0.0" [] []))))
  /\ at_most_one_release [] [] (snd (Release.run (calm "1.0.1") None
                                      (fresh (calm "1.0.1") (checkout "1.0.0" [] [])))).
Proof.
  split; [reflexivity|].
  apply (run_creates_at_most_one_commit_and_tag (calm "1.0.1") None (checkout "1.0.0" [] [])).
  reflexivity.
Defined.

(** A kind that is not a single word: with [patch #] the shell drops
    [--no-git-tag-version], [npm version] commits and tags on its own,
    and the reworked script adds its release commit on top: two commits,
    and a tag that [git tag -a] did not create. *)
Lemma spliced_kind_commits_twice :
  let env := spliced "1.0.1" in
  let s' := snd (ReleaseFixed.run env (Some "patch #") (fresh env (checkout "1.0.0" [] []))) in
  single_word "patch #" = false
  /\ commits (world s') = ["chore(release): v1.0.1"; "1.0.1"]
  /\ tags (world s') = ["v1.0.1"]
  /\ events_of is_bump_or_tag s' = [Exec (NpmVersion "patch #") true]
  /\ ~ at_most_one_release [] [] s'.
Proof.
  cbv zeta.
  assert (Hc : commits (world (snd (ReleaseFixed.run (spliced "1.0.1") (Some "patch #")
                                      (fresh (spliced "1.0.1") (checkout "1.0.0" [] [])))))
               = ["chore(release): v1.0.1"; "1.0.1"]) by (vm_compute; reflexivity).
  split; [reflexivity|]. split; [exact Hc|].
  split; [vm_compute; reflexivity|]. split; [vm_compute; reflexivity|].
  intros [[_ H] | (v & _ & H & _)]; rewrite Hc in H; discriminate H.
Qed.

(** ** The failures a run survives *)

Section Survives.
Variable env : Env.
Variable P : Event -> bool.

Lemma survives_keeps A (m : Js A) : pres (keeps P) m -> survives P m.
Proof.
  intros Hm s. apply (wp_pres (keeps P)); [exact Hm | | easy].
  intros a s' K. exact (keeps_events K).
Qed.

Lemma survives_throw A e : survives P (@throw A e).
Proof. intro s. exact I. Qed.

Lemma survives_bind A B (m : Js A) (k : A -> Js B) :
  survives P m -> (forall a, survives P (k a)) -> survives P (bind m k).
Proof.
  intros Hm Hk s. apply wp_bind. apply (wp_mono _ _ _ _ _ _ (Hm s)); [| easy].
  intros a s1 H1. apply (wp_mono _ _ _ _ _ _ (Hk a s1)); [| easy].
  intros b s2 H2. congruence.
Qed.

(** A handler that goes on: the guarded part must not have produced an
    event of [P]. *)
Lemma survives_try_soft A (m : Js A) h :
  pres (keeps P) m -> (forall e, survives P (h e)) -> survives P (try_catch m h).
Proof.
  intros Hm Hh s. apply wp_try_catch.
  apply (wp_pres (keeps P)); [exact Hm | |].
  - intros a s' K. exact (keeps_events K).
  - intros e s' K. apply (wp_mono _ _ _ _ _ _ (Hh e s')); [| easy].
    intros a s2 H2. rewrite H2. exact (keeps_events K).
Qed.

(** A handler that throws again. *)
Lemma survives_try_rethrow A (m : Js A) h :
  survives P m -> (forall e s, exists e', fst (h e s) = Throw e') ->
  survives P (try_catch m h).
Proof.
  intros Hm Hh s. apply wp_try_catch.
  apply (wp_mono _ _ _ _ _ _ (Hm s)); [easy|].
  intros e s' _. unfold wp. destruct (Hh e s') as [e' He'].
  destruct (h e s') as [[a|e''] s2]; [discriminate | exact I].
Qed.

Lemma survives_execSync c : P (Exec c true) = false -> survives P (execSync env c).
Proof.
  intros HP s. unfold wp.
  destruct (execSync_trace env c s) as (ok & Ht & Hok).
  destruct (execSync env c s) as [[out|e] s'] eqn:E; [| exact I].
  cbn [snd fst] in *. unfold events_of. rewrite Ht. cbn [filter].
  destruct ok; [now rewrite HP|].
  destruct Hok as [_ Hok]. discriminate Hok. now exists out.
Qed.
End Survives.

Ltac survives_tac :=
  repeat
    (cbv beta zeta;
     lazymatch goal with
     | |- survives _ (bind _ _) => apply survives_bind; [| intro]
     | |- survives _ (try_catch _ (fun _ => throw _)) =>
         apply survives_try_rethrow; [| intros; eexists; reflexivity]
     | |- survives _ (try_catch _ _) =>
         apply survives_try_soft; [unfold Js.error; keeps_tac | intro]
     | |- survives _ (execSync _ _) => apply survives_execSync; reflexivity
     | |- survives _ (throw _) => apply survives_throw
     | |- survives _ (if ?b then _ else _) => destruct b
     | |- survives _ (match ?x with _ => _ end) => destruct x
     | |- survives _ _ => solve [apply survives_keeps; keeps_tac]
     end).

Section Tolerated.
Variable env : Env.

Lemma fixed_queryVersion_survives pkg n :
  survives (is_failure_outside fixed_tolerates) (ReleaseFixed.queryVersion env pkg n).
Proof.
  induction n as [|n IH]; cbn [ReleaseFixed.queryVersion]; survives_tac. exact IH.
Qed.

Lemma fixed_steps_survive k :
  survives (is_failure_outside fixed_tolerates) (ReleaseFixed.steps env k).
Proof.
  pose proof fixed_queryVersion_survives as Hq.
  unfold ReleaseFixed.steps, ReleaseFixed.preVerification,
    ReleaseFixed.dependenciesAndTests, ReleaseFixed.build, ReleaseFixed.versioning,
    updateChangelog, collectChanges, ReleaseFixed.commitAndTag, ReleaseFixed.push,
    ReleaseFixed.publishToNpm, ReleaseFixed.publishToGitHub, ReleaseFixed.verification.
  survives_tac; try apply Hq.
Qed.

Lemma original_steps_survive k :
  survives (is_failure_outside original_tolerates) (Release.steps env k).
Proof.
  unfold Release.steps, Release.preVerification,
    Release.dependenciesAndTests, Release.build, Release.versioning,
    updateChangelog, collectChanges, Release.commitAndTag, Release.push,
    Release.publishToNpm, Release.publishToGitHub, Release.verification.
  survives_tac.
Qed.

Lemma log_each_survives P l :
  (forall st line, P (Console st line) = false) ->
  survives P (ReleaseFixed.log_each env l).
Proof.
  intros HP. apply survives_keeps.
  induction l as [|u l IH]; cbn [ReleaseFixed.log_each].
  - apply keeps_ret.
  - apply keeps_bind; [apply keeps_log; intro; apply HP | intro; exact IH].
Qed.

Lemma fixed_run_survives arg :
  survives (is_failure_outside fixed_tolerates) (ReleaseFixed.run env arg).
Proof.
  pose proof fixed_steps_survive as Hs.
  pose proof (log_each_survives (is_failure_outside fixed_tolerates)) as Hl.
  unfold ReleaseFixed.run. cbv zeta.
  apply survives_try_rethrow; [| intros; eexists; reflexivity].
  unfold generateReport.
  survives_tac; first [apply Hs | apply Hl; reflexivity].
Qed.

Lemma original_run_survives arg :
  survives (is_failure_outside original_tolerates) (Release.run env arg).
Proof.
  pose proof original_steps_survive as Hs.
  unfold Release.run. cbv zeta.
  apply survives_bind; [survives_tac | intros _].
  apply survives_try_rethrow; [| intros; eexists; reflexivity].
  unfold generateReport.
  survives_tac; apply Hs.
Qed.
End Tolerated.

(** X5: a run that returns has seen no command fail except those whose
    failure the script catches: for the reworked script the tests,
    [git describe], the commit with hooks, the publication to GitHub
    Packages and the two registry queries; for [scripts/release.js] the
    tests, [git describe], the commit with hooks, the tag query and the
    push of the tags.  The failure of any other command makes [run]
    throw. *)
Theorem run_returns_only_past_tolerated_failures env arg s c :
  (fst (ReleaseFixed.run env arg s) = Return tt ->
   In (Exec c false) (trace (world (snd (ReleaseFixed.run env arg s)))) ->
   fixed_tolerates c = true \/ In (Exec c false) (trace (world s)))
  /\ (fst (Release.run env arg s) = Return tt ->
      In (Exec c false) (trace (world (snd (Release.run env arg s)))) ->
      original_tolerates c = true \/ In (Exec c false) (trace (world s))).
Proof.
  split; intros Hret Hin.
  - destruct (fixed_tolerates c) eqn:Ec; [now left | right].
    pose proof (wp_returns _ _ _ _ _ (fixed_run_survives env arg s) Hret) as H.
    assert (Hf : In (Exec c false)
                    (events_of (is_failure_outside fixed_tolerates)
                       (snd (ReleaseFixed.run env arg s)))).
    { apply filter_In. split; [exact Hin | cbn; now rewrite Ec]. }
    rewrite H in Hf. now apply filter_In in Hf.
  - destruct (original_tolerates c) eqn:Ec; [now left | right].
    pose proof (wp_returns _ _ _ _ _ (original_run_survives env arg s) Hret) as H.
    assert (Hf : In (Exec c false)
                    (events_of (is_failure_outside original_tolerates)
                       (snd (Release.run env arg s)))).
    { apply filter_In. split; [exact Hin | cbn; now rewrite Ec]. }
    rewrite H in Hf. now apply filter_In in Hf.
Qed.

(** ** The branch that is pushed *)

Lemma same_branch_refl s : same_branch s s.
Proof. reflexivity. Qed.

Lemma same_branch_trans a b c : same_branch a b -> same_branch b c -> same_branch a c.
Proof. unfold same_branch. congruence. Qed.

Section Branch.
Variable env : Env.

Ltac branch_leaf :=
  idtac;
  lazymatch goal with
  | |- pres _ (execSync _ _) => intro; unfold same_branch; now rewrite execSync_this
  | |- pres _ _ => intro; reflexivity
  end.

Ltac branch_tac := frame_tac same_branch_refl same_branch_trans branch_leaf.

Lemma fixed_dependenciesAndTests_same_branch :
  pres same_branch (ReleaseFixed.dependenciesAndTests env).
Proof. unfold ReleaseFixed.dependenciesAndTests. branch_tac. Qed.

Lemma fixed_build_same_branch : pres same_branch (ReleaseFixed.build env).
Proof. unfold ReleaseFixed.build. branch_tac. Qed.

Lemma fixed_versioning_same_branch k : pres same_branch (ReleaseFixed.versioning env k).
Proof. unfold ReleaseFixed.versioning. branch_tac. Qed.

Lemma updateChangelog_same_branch : pres same_branch (updateChangelog env).
Proof. unfold updateChangelog, collectChanges. branch_tac. Qed.

Lemma fixed_commitAndTag_same_branch : pres same_branch (ReleaseFixed.commitAndTag env).
Proof. unfold ReleaseFixed.commitAndTag. branch_tac. Qed.

(** Pre-verification returns only on [master] or [main], and has then
    recorded the branch. *)
Lemma fixed_preVerification_branch s :
  wp (ReleaseFixed.preVerification env)
     (fun _ => on_release_branch (trim (stdout env GitCurrentBranch)))
     (fun _ _ => True) s.
Proof.
  unfold ReleaseFixed.preVerification. repeat wp_step.
  apply wp_execSync; [easy | intros _; cbn [effect]].
  set (b := trim (stdout env GitCurrentBranch)).
  repeat wp_step.
  destruct (negb (b =? "master") && negb (b =? "main")) eqn:Eb; [exact I|].
  match goal with
  | |- wp _ _ _ ?st =>
      assert (Hb : on_release_branch b st)
  end.
  { split; [reflexivity|].
    apply andb_false_iff in Eb as [Eb|Eb]; apply negb_false_iff, String.eqb_eq in Eb; auto. }
  apply (wp_pres same_branch); [branch_tac | | easy].
  intros _ s' R. destruct Hb as [Hb Hm]. split; [| exact Hm]. now rewrite R.
Qed.

Section Other.
Variable b : string.

Lemma fixed_queryVersion_other pkg n :
  pres (keeps (is_push_of_other b)) (ReleaseFixed.queryVersion env pkg n).
Proof.
  induction n as [|n IH]; cbn [ReleaseFixed.queryVersion]; keeps_tac. exact IH.
Qed.

Lemma execSync_push_other ok : is_push_of_other b (Exec (GitPush b) ok) = false.
Proof. cbn. now rewrite String.eqb_refl. Qed.

Lemma fixed_push_other s :
  currentBranch (this s) = Some b ->
  keeps (is_push_of_other b) s (snd (ReleaseFixed.push env s)).
Proof.
  intros Hb.
  assert (H : wp (ReleaseFixed.push env)
                (fun _ => keeps (is_push_of_other b) s)
                (fun _ => keeps (is_push_of_other b) s) s).
  { unfold ReleaseFixed.push. do 4 wp_step. fields. rewrite Hb. cbn [show].
    match goal with
    | |- wp ?m _ _ ?st =>
        assert (K0 : keeps (is_push_of_other b) s st)
          by (apply (keeps_one_event _ (Console Stdout
                       ("[" ++ now env ++ "] " ++ "=== PASO 7: Push ===")));
              reflexivity);
        apply (wp_pres (keeps (is_push_of_other b)))
    end.
    - keeps_tac. apply keeps_execSync. exact execSync_push_other.
    - intros _ s' K. exact (keeps_trans _ _ _ _ K0 K).
    - intros _ s' K. exact (keeps_trans _ _ _ _ K0 K). }
  unfold wp in H. now destruct (ReleaseFixed.push env s) as [[a|e] s'].
Qed.

Lemma fixed_before_push_other k :
  pres (keeps (is_push_of_other b)) (ReleaseFixed.preVerification env)
  /\ pres (keeps (is_push_of_other b)) (ReleaseFixed.dependenciesAndTests env)
  /\ pres (keeps (is_push_of_other b)) (ReleaseFixed.build env)
  /\ pres (keeps (is_push_of_other b)) (ReleaseFixed.versioning env k)
  /\ pres (keeps (is_push_of_other b)) (updateChangelog env)
  /\ pres (keeps (is_push_of_other b)) (ReleaseFixed.commitAndTag env).
Proof.
  unfold ReleaseFixed.preVerification, ReleaseFixed.dependenciesAndTests,
    ReleaseFixed.build, ReleaseFixed.versioning, updateChangelog, collectChanges,
    ReleaseFixed.commitAndTag.
  repeat match goal with |- _ /\ _ => split end; keeps_tac.
Qed.

Lemma fixed_after_push_other :
  pres (keeps (is_push_of_other b)) (ReleaseFixed.publishToNpm env)
  /\ pres (keeps (is_push_of_other b)) (ReleaseFixed.publishToGitHub env)
  /\ pres (keeps (is_push_of_other b)) (ReleaseFixed.verification env).
Proof.
  pose proof fixed_queryVersion_other as Hq.
  unfold ReleaseFixed.publishToNpm, ReleaseFixed.publishToGitHub,
    ReleaseFixed.verification.
  repeat match goal with |- _ /\ _ => split end; keeps_tac; apply Hq.
Qed.
End Other.

(** Before the push: the branch is recorded and no other branch has been
    pushed. *)
Lemma wp_branch_step {A} (m : Js A) b L s :
  pres same_branch m -> pres (keeps (is_push_of_other b)) m ->
  on_release_branch b s /\ events_of (is_push_of_other b) s = L ->
  wp m (fun _ s' => on_release_branch b s' /\ events_of (is_push_of_other b) s' = L)
       (fun _ s' => events_of (is_push_of_other b) s' = L) s.
Proof.
  intros Hb Hk [[H1 H2] H3]. specialize (Hb s). specialize (Hk s).
  unfold wp. destruct (m s) as [[a|e] s']; cbn [snd] in *.
  - split; [split; [now rewrite Hb | exact H2] | now rewrite (keeps_events Hk)].
  - now rewrite (keeps_events Hk).
Qed.

Lemma wp_other_step {A} (m : Js A) b L s :
  pres (keeps (is_push_of_other b)) m ->
  events_of (is_push_of_other b) s = L ->
  wp m (fun _ s' => events_of (is_push_of_other b) s' = L)
       (fun _ s' => events_of (is_push_of_other b) s' = L) s.
Proof.
  intros Hk H. apply (wp_pres (keeps (is_push_of_other b))); [exact Hk | |];
    intros x s' K; now rewrite (keeps_events K).
Qed.

Lemma quiet_other b s s' :
  closing s s' -> events_of (is_push_of_other b) s' = events_of (is_push_of_other b) s.
Proof. intros (_ & _ & Hq). now apply Hq. Qed.

Lemma quiet_push s s' :
  closing s s' -> events_of is_branch_push s' = events_of is_branch_push s.
Proof. intros (_ & _ & Hq). now apply Hq. Qed.

Lemma fixed_preVerification_push :
  pres (keeps is_branch_push) (ReleaseFixed.preVerification env).
Proof. unfold ReleaseFixed.preVerification. keeps_tac. Qed.

(** The reworked script pushes no branch but the one it stands on, and
    pushes only on [master] or [main]. *)
Lemma fixed_run_pushes_branch arg s :
  let b := trim (stdout env GitCurrentBranch) in
  let s' := snd (ReleaseFixed.run env arg s) in
  events_of (is_push_of_other b) s' = events_of (is_push_of_other b) s
  /\ ((b = "master" \/ b = "main")
      \/ events_of is_branch_push s' = events_of is_branch_push s).
Proof.
  cbv zeta. set (b := trim (stdout env GitCurrentBranch)).
  set (L := events_of (is_push_of_other b) s).
  set (Lp := events_of is_branch_push s).
  set (okb := b = "master" \/ b = "main").
  set (J := fun s' : State =>
              events_of (is_push_of_other b) s' = L
              /\ (okb \/ events_of is_branch_push s' = Lp)).
  destruct (fixed_before_push_other b (match arg with Some k => k | None => "patch" end))
    as (K1 & K2 & K3 & K4 & K5 & K6).
  destruct (fixed_after_push_other b) as (K8 & K9 & K10).
  assert (Hstep : forall A (m : Js A) s1,
            pres same_branch m -> pres (keeps (is_push_of_other b)) m ->
            on_release_branch b s1 /\ events_of (is_push_of_other b) s1 = L ->
            wp m (fun _ s' => on_release_branch b s'
                              /\ events_of (is_push_of_other b) s' = L)
                 (fun _ => J) s1).
  { intros A m s1 Hb Hk H. eapply wp_mono; [exact (wp_branch_step m b L s1 Hb Hk H) | |].
    - now intros.
    - intros e s2 H2. split; [exact H2 | left; exact (proj2 (proj1 H))]. }
  assert (Hlate : forall A (m : Js A) s1,
            pres (keeps (is_push_of_other b)) m ->
            okb /\ events_of (is_push_of_other b) s1 = L ->
            wp m (fun _ s' => okb /\ events_of (is_push_of_other b) s' = L)
                 (fun _ => J) s1).
  { intros A m s1 Hk [Ho H]. eapply wp_mono; [exact (wp_other_step m b L s1 Hk H) | |].
    - intros a s2 H2. now split.
    - intros e s2 H2. split; [exact H2 | now left]. }
  change (J (snd (ReleaseFixed.run env arg s))). apply wp_final.
  apply (fixed_run_wp env arg s
           (fun s' => on_release_branch b s' /\ events_of (is_push_of_other b) s' = L)
           (fun s' => on_release_branch b s' /\ events_of (is_push_of_other b) s' = L)
           (fun s' => on_release_branch b s' /\ events_of (is_push_of_other b) s' = L)
           (fun s' => on_release_branch b s' /\ events_of (is_push_of_other b) s' = L)
           (fun s' => on_release_branch b s' /\ events_of (is_push_of_other b) s' = L)
           (fun s' => on_release_branch b s' /\ events_of (is_push_of_other b) s' = L)
           (fun s' => okb /\ events_of (is_push_of_other b) s' = L)
           (fun s' => okb /\ events_of (is_push_of_other b) s' = L)
           (fun s' => okb /\ events_of (is_push_of_other b) s' = L)
           (fun s' => okb /\ events_of (is_push_of_other b) s' = L)
           J (fun _ => J) (fun _ => J)).
  - pose proof (fixed_preVerification_branch s) as Hb.
    pose proof (K1 s) as Ko. pose proof (fixed_preVerification_push s) as Kp.
    fold b in Hb. unfold wp in *.
    destruct (ReleaseFixed.preVerification env s) as [[a|e] s1]; cbn [snd] in *.
    + split; [exact Hb | exact (keeps_events Ko)].
    + split; [exact (keeps_events Ko) | right; exact (keeps_events Kp)].
  - intros s1 H. apply Hstep; [apply fixed_dependenciesAndTests_same_branch | exact K2 | exact H].
  - intros s1 H. apply Hstep; [apply fixed_build_same_branch | exact K3 | exact H].
  - intros s1 H. apply Hstep; [apply fixed_versioning_same_branch | exact K4 | exact H].
  - intros s1 H. apply Hstep; [apply updateChangelog_same_branch | exact K5 | exact H].
  - intros s1 H. apply Hstep; [apply fixed_commitAndTag_same_branch | exact K6 | exact H].
  - intros s1 [[Hb Ho] H]. pose proof (fixed_push_other b s1 Hb) as K.
    unfold wp. destruct (ReleaseFixed.push env s1) as [[a|e] s2]; cbn [snd] in K.
    + split; [exact Ho | now rewrite (keeps_events K)].
    + split; [now rewrite (keeps_events K) | now left].
  - intros s1 H. now apply Hlate.
  - intros s1 H. now apply Hlate.
  - intros s1 H. now apply Hlate.
  - intros s1 s2 [Ho H] Hc. split; [now rewrite (quiet_other b _ _ Hc) | now left].
  - intros e s1 s2 [H Ho] Hc. split; [now rewrite (quiet_other b _ _ Hc)|].
    destruct Ho as [Ho|Ho]; [now left | right]. now rewrite (quiet_push _ _ Hc).
Qed.

(** [scripts/release.js] pushes no branch but [master]. *)
Lemma original_run_pushes_master arg :
  pres (keeps (is_push_of_other "master")) (Release.run env arg).
Proof.
  unfold Release.run, Release.steps, Release.preVerification,
    Release.dependenciesAndTests, Release.build, Release.versioning,
    updateChangelog, collectChanges, Release.commitAndTag, Release.push,
    Release.publishToNpm, Release.publishToGitHub, Release.verification,
    generateReport.
  keeps_tac.
Qed.
End Branch.

(** X6: the reworked script pushes only the branch the checkout stands
    on, and only when that is [master] or [main]; [scripts/release.js]
    pushes [master] whatever the branch, also when the checkout stands on
    [main]. *)
Theorem pushed_branch env arg w b ok :
  trace w = [] ->
  (In (Exec (GitPush b) ok)
      (trace (world (snd (ReleaseFixed.run env arg (fresh env w))))) ->
   b = trim (stdout env GitCurrentBranch) /\ (b = "master" \/ b = "main"))
  /\ (In (Exec (GitPush b) ok)
         (trace (world (snd (Release.run env arg (fresh env w))))) ->
      b = "master").
Proof.
  intros Hw.
  assert (H0 : forall P, events_of P (fresh env w) = []).
  { intro P. unfold events_of. cbn. now rewrite Hw. }
  assert (Hother : forall c (s : State),
            events_of (is_push_of_other c) s = [] ->
            In (Exec (GitPush b) ok) (trace (world s)) -> b = c).
  { intros c s He Hin. destruct (b =? c) eqn:Ebc; [now apply String.eqb_eq|].
    assert (Hf : In (Exec (GitPush b) ok) (events_of (is_push_of_other c) s)).
    { apply filter_In. split; [exact Hin | cbn; now rewrite Ebc]. }
    rewrite He in Hf. destruct Hf. }
  split; intros Hin.
  - destruct (fixed_run_pushes_branch env arg (fresh env w)) as [H1 H2].
    rewrite H0 in H1, H2.
    pose proof (Hother _ _ H1 Hin) as ->. split; [reflexivity|].
    destruct H2 as [H2|H2]; [exact H2|].
    assert (Hf : In (Exec (GitPush (trim (stdout env GitCurrentBranch))) ok)
                    (events_of is_branch_push
                       (snd (ReleaseFixed.run env arg (fresh env w))))).
    { apply filter_In. now split. }
    rewrite H2 in Hf. destruct Hf.
  - pose proof (keeps_events (original_run_pushes_master env arg (fresh env w))) as H1.
    rewrite H0 in H1. exact (Hother _ _ H1 Hin).
Qed.

Lemma pushed_branch_witness :
  let env := on_branch "main" (calm "1.0.0") in
  let w := checkout "1.0.0" [] [] in
  (In (Exec (GitPush "main") true)
      (trace (world (snd (ReleaseFixed.run env None (fresh env w))))) ->
   "main" = trim (stdout env GitCurrentBranch) /\ ("main" = "master" \/ "main" = "main"))
  /\ (In (Exec (GitPush "main") true)
         (trace (world (snd (Release.run env None (fresh env w))))) ->
      "main" = "master").
Proof.
  apply (pushed_branch (on_branch "main" (calm "1.0.0")) None
           (checkout "1.0.0" [] []) "main" true).
  reflexivity.
Defined.

(** ** What has happened before a publication *)

Lemma installed_lasting : lasting installed.
Proof. intros s s' H [new E]. unfold installed. rewrite E. apply in_or_app. now right. Qed.

Lemma pushed_lasting : lasting pushed.
Proof.
  intros s s' [[b H1] H2] [new E]. unfold pushed. rewrite E.
  split; [exists b |]; apply in_or_app; now right.
Qed.

Lemma lasting_and G1 G2 : lasting G1 -> lasting G2 -> lasting (fun s => G1 s /\ G2 s).
Proof. intros H1 H2 s s' [A B] E. split; [exact (H1 _ _ A E) | exact (H2 _ _ B E)]. Qed.

Lemma keeps_extends P s s' : keeps P s s' -> extends s s'.
Proof. now intros (_ & _ & _ & H). Qed.

Lemma github_among_publish s :
  events_of is_publish s = [] -> events_of is_github_publish s = [].
Proof.
  unfold events_of. induction (trace (world s)) as [|e l IH]; [reflexivity|].
  cbn [filter]. destruct e as [[] ?| | |]; cbn; try discriminate; exact IH.
Qed.

(** Steps through a computation up to the next command or branch. *)
Ltac wp_steps := repeat first [wp_step | progress cbv beta].

Section Gate.
Variable env : Env.

(** [execSync] by what it adds to the trace. *)
Lemma wp_execSync_trace c (Q : string -> State -> Prop) (E : string -> State -> Prop) s :
  (forall out s', this s' = this s ->
     trace (world s') = Exec c true :: trace (world s) -> Q out s') ->
  (forall e s', this s' = this s ->
     trace (world s') = Exec c false :: trace (world s) -> E e s') ->
  wp (execSync env c) Q E s.
Proof.
  intros HQ HE. unfold wp.
  pose proof (execSync_this env c s) as Ht.
  destruct (execSync_trace env c s) as (ok & Hs & Hok).
  destruct (execSync env c s) as [[out|e] s']; cbn [fst snd] in *.
  - apply HQ; [exact Ht|]. rewrite Hs. f_equal. f_equal. apply Hok. now exists out.
  - apply HE; [exact Ht|]. rewrite Hs. destruct ok; [| reflexivity].
    destruct Hok as [Hok _]. destruct (Hok eq_refl) as [out H]. discriminate H.
Qed.

(** A step that issues no publish command, before the publication. *)
Lemma wp_before_publish {A} (m : Js A) (G : State -> Prop) s :
  pres (keeps is_publish) m -> lasting G ->
  events_of is_publish s = [] /\ G s ->
  wp m (fun _ s' => events_of is_publish s' = [] /\ G s')
       (fun _ s' => events_of is_publish s' = []) s.
Proof.
  intros Hk HG [H0 Hg]. apply (wp_pres (keeps is_publish)); [exact Hk | |]; intros x s' K.
  - split; [now rewrite (keeps_events K) | exact (HG _ _ Hg (keeps_extends _ _ _ K))].
  - now rewrite (keeps_events K).
Qed.

(** A step that only adds to the trace, after the publication to npm. *)
Lemma wp_after_publish {A} (m : Js A) (G : State -> Prop) s :
  pres (keeps nothing) m -> lasting G ->
  G s ->
  wp m (fun _ => G) (fun _ => G) s.
Proof.
  intros Hk HG Hg. apply (wp_pres (keeps nothing)); [exact Hk | |]; intros x s' K;
    exact (HG _ _ Hg (keeps_extends _ _ _ K)).
Qed.

(** The tests step returns only after [npm ci] has exited normally. *)
Lemma fixed_dependenciesAndTests_installed s :
  wp (ReleaseFixed.dependenciesAndTests env) (fun _ => installed) (fun _ _ => True) s.
Proof.
  unfold ReleaseFixed.dependenciesAndTests. repeat wp_step.
  apply wp_execSync_trace; [| intros; repeat wp_step; exact I].
  intros out s1 _ Ht. wp_step.
  apply (wp_pres (keeps nothing)); [keeps_tac | | easy].
  intros _ s2 K. apply (keeps_In _ K). unfold installed. rewrite Ht. now left.
Qed.

Lemma original_dependenciesAndTests_installed s :
  wp (Release.dependenciesAndTests env) (fun _ => installed) (fun _ _ => True) s.
Proof.
  unfold Release.dependenciesAndTests. repeat wp_step.
  apply wp_execSync_trace; [| easy].
  intros out s1 _ Ht.
  apply (wp_pres (keeps nothing)); [keeps_tac | | easy].
  intros _ s2 K. apply (keeps_In _ K). unfold installed. rewrite Ht. now left.
Qed.

(** The push step of the reworked script returns only after both pushes
    have exited normally. *)
Lemma fixed_push_pushed s :
  wp (ReleaseFixed.push env) (fun _ => pushed) (fun _ _ => True) s.
Proof.
  unfold ReleaseFixed.push. wp_steps.
  apply wp_execSync_trace; [| intros; wp_steps; exact I].
  intros out s1 _ Ht1. wp_steps.
  apply wp_execSync_trace; [| intros; wp_steps; exact I].
  intros out2 s2 _ Ht2. wp_steps.
  apply wp_execSync_trace; [| easy].
  intros out3 s3 _ Ht3. wp_steps.
  unfold pushed. fields. rewrite Ht3. fields. rewrite Ht2. fields. rewrite Ht1.
  split; [exists (show (currentBranch (this s)))|]; cbn; tauto.
Qed.

Lemma npm_published_lasting G : lasting G -> lasting (npm_published env G).
Proof.
  intros HG s s' (Ht & Hg & Hp) E. split; [exact Ht|]. split; [exact (HG _ _ Hg E)|].
  destruct E as [new E]. rewrite E. apply in_or_app. now right.
Qed.

Lemma npm_published_behind G s : npm_published env G s -> published_behind env G s.
Proof. intros (Ht & Hg & Hp). right. split; [exact Ht|]. split; [exact Hg | now right]. Qed.

Lemma fixed_publishToNpm_gate G s :
  lasting G -> events_of is_publish s = [] -> G s ->
  wp (ReleaseFixed.publishToNpm env) (fun _ => npm_published env G)
     (fun _ => published_behind env G) s.
Proof.
  intros HG H0 Hg. unfold ReleaseFixed.publishToNpm, ReleaseFixed.token_missing.
  wp_steps.
  destruct (NPM_TOKEN env) as [t|] eqn:Et; [destruct (truthy t) eqn:Ett; cbn [negb]|];
    try (wp_steps; left; exact H0).
  assert (Htok : token_set env) by (exists t; now split).
  wp_steps. apply wp_execSync_trace.
  - intros out s1 _ Ht. wp_steps. split; [exact Htok|]. split.
    + apply (HG s); [exact Hg|]. unfold extends. fields. rewrite Ht. fields.
      now eexists [_; _; _].
    + fields. rewrite Ht. cbn. tauto.
  - intros e s1 _ Ht. wp_steps. right. split; [exact Htok|]. split.
    + apply (HG s); [exact Hg|]. unfold extends. rewrite Ht. fields. now eexists [_; _].
    + left. unfold events_of. rewrite Ht. cbn. now apply github_among_publish.
Qed.

Lemma original_publishToNpm_gate G s :
  lasting G -> events_of is_publish s = [] -> G s ->
  wp (Release.publishToNpm env) (fun _ => npm_published env G)
     (fun _ => published_behind env G) s.
Proof.
  intros HG H0 Hg. unfold Release.publishToNpm, Release.token_missing.
  wp_steps.
  destruct (NPM_TOKEN env) as [t|] eqn:Et; [destruct (truthy t) eqn:Ett; cbn [negb]|];
    try (wp_steps; left; exact H0).
  assert (Htok : token_set env) by (exists t; now split).
  wp_steps. apply wp_execSync_trace.
  - intros out s1 _ Ht. wp_steps. split; [exact Htok|]. split.
    + apply (HG s); [exact Hg|]. unfold extends. fields. rewrite Ht. fields.
      now eexists [_; _; _].
    + fields. rewrite Ht. cbn. tauto.
  - intros e s1 _ Ht. right. split; [exact Htok|]. split.
    + apply (HG s); [exact Hg|]. unfold extends. rewrite Ht. fields. now eexists [_; _].
    + left. unfold events_of. rewrite Ht. cbn. now apply github_among_publish.
Qed.

Lemma fixed_before_publish k :
  pres (keeps is_publish) (ReleaseFixed.preVerification env)
  /\ pres (keeps is_publish) (ReleaseFixed.dependenciesAndTests env)
  /\ pres (keeps is_publish) (ReleaseFixed.build env)
  /\ pres (keeps is_publish) (ReleaseFixed.versioning env k)
  /\ pres (keeps is_publish) (updateChangelog env)
  /\ pres (keeps is_publish) (ReleaseFixed.commitAndTag env)
  /\ pres (keeps is_publish) (ReleaseFixed.push env).
Proof.
  unfold ReleaseFixed.preVerification, ReleaseFixed.dependenciesAndTests,
    ReleaseFixed.build, ReleaseFixed.versioning, updateChangelog, collectChanges,
    ReleaseFixed.commitAndTag, ReleaseFixed.push.
  repeat match goal with |- _ /\ _ => split end; keeps_tac.
Qed.

Lemma original_before_publish k :
  pres (keeps is_publish) (Release.preVerification env)
  /\ pres (keeps is_publish) (Release.dependenciesAndTests env)
  /\ pres (keeps is_publish) (Release.build env)
  /\ pres (keeps is_publish) (Release.versioning env k)
  /\ pres (keeps is_publish) (updateChangelog env)
  /\ pres (keeps is_publish) (Release.commitAndTag env)
  /\ pres (keeps is_publish) (Release.push env).
Proof.
  unfold Release.preVerification, Release.dependenciesAndTests,
    Release.build, Release.versioning, updateChangelog, collectChanges,
    Release.commitAndTag, Release.push.
  repeat match goal with |- _ /\ _ => split end; keeps_tac.
Qed.

Lemma queryVersion_extends pkg n :
  pres (keeps nothing) (ReleaseFixed.queryVersion env pkg n).
Proof.
  induction n as [|n IH]; cbn [ReleaseFixed.queryVersion]; keeps_tac. exact IH.
Qed.

Lemma after_publish_extends :
  pres (keeps nothing) (ReleaseFixed.publishToGitHub env)
  /\ pres (keeps nothing) (ReleaseFixed.verification env)
  /\ pres (keeps nothing) (Release.publishToGitHub env)
  /\ pres (keeps nothing) (Release.verification env).
Proof.
  pose proof queryVersion_extends as Hq.
  unfold ReleaseFixed.publishToGitHub, ReleaseFixed.verification,
    Release.publishToGitHub, Release.verification.
  repeat match goal with |- _ /\ _ => split end; keeps_tac; apply Hq.
Qed.

Lemma published_behind_closing G s s' :
  lasting G -> published_behind env G s -> closing s s' -> published_behind env G s'.
Proof.
  intros HG [H|(Ht & Hg & H)] (_ & (_ & Hext) & Hq).
  - left. now rewrite (Hq is_publish).
  - right. split; [exact Ht|]. split; [exact (HG _ _ Hg Hext)|].
    destruct H as [H|H]; [left; now rewrite (Hq is_github_publish) | right].
    destruct Hext as [new E]. rewrite E. apply in_or_app. now right.
Qed.

Lemma stable_before_publish G :
  lasting G -> stable (fun s => events_of is_publish s = [] /\ G s).
Proof.
  intros HG st l s [H0 Hg]. split; [exact H0|].
  apply (HG s); [exact Hg | now exists [Console st l]].
Qed.

Lemma stable_lasting G : lasting G -> stable G.
Proof. intros HG st l s Hg. apply (HG s); [exact Hg | now exists [Console st l]]. Qed.

Lemma true_lasting : lasting (fun _ => True).
Proof. now intros s s' _ _. Qed.

Lemma fixed_run_gate arg s :
  events_of is_publish s = [] ->
  published_behind env (fun s' => installed s' /\ pushed s')
    (snd (ReleaseFixed.run env arg s)).
Proof.
  intros H0. set (G := fun s' => installed s' /\ pushed s').
  assert (HG : lasting G) by (apply lasting_and; [apply installed_lasting | apply pushed_lasting]).
  destruct (fixed_before_publish (match arg with Some k => k | None => "patch" end))
    as (K1 & K2 & K3 & K4 & K5 & K6 & K7).
  destruct after_publish_extends as (K9 & K10 & _).
  assert (Hbefore : forall A (m : Js A) (G' : State -> Prop) s1,
            pres (keeps is_publish) m -> lasting G' ->
            events_of is_publish s1 = [] /\ G' s1 ->
            wp m (fun _ s' => events_of is_publish s' = [] /\ G' s')
                 (fun _ => published_behind env G) s1).
  { intros A m G' s1 Hk HG' H.
    eapply wp_mono; [exact (wp_before_publish m G' s1 Hk HG' H) | now intros |].
    intros e s2 H2. now left. }
  assert (Hafter : forall A (m : Js A) s1,
            pres (keeps nothing) m -> npm_published env G s1 ->
            wp m (fun _ => npm_published env G) (fun _ => published_behind env G) s1).
  { intros A m s1 Hk H.
    eapply wp_mono;
      [exact (wp_after_publish m _ s1 Hk (npm_published_lasting G HG) H) | now intros |].
    intros e s2 H2. now apply npm_published_behind. }
  apply wp_final.
  apply (fixed_run_wp env arg s
           (fun s' => events_of is_publish s' = [] /\ True)
           (fun s' => events_of is_publish s' = [] /\ installed s')
           (fun s' => events_of is_publish s' = [] /\ installed s')
           (fun s' => events_of is_publish s' = [] /\ installed s')
           (fun s' => events_of is_publish s' = [] /\ installed s')
           (fun s' => events_of is_publish s' = [] /\ installed s')
           (fun s' => events_of is_publish s' = [] /\ G s')
           (npm_published env G) (npm_published env G) (npm_published env G)
           (published_behind env G)
           (fun _ => published_behind env G) (fun _ => published_behind env G)).
  - apply Hbefore; [exact K1 | apply true_lasting | now split].
  - intros s1 [H _].
    pose proof (wp_and _ _ _ _ _ _
                  (Hbefore _ _ (fun _ => True) s1 K2 true_lasting (conj H I))
                  (fixed_dependenciesAndTests_installed s1)) as Hw.
    eapply wp_mono; [exact Hw | |]; cbv beta.
    + intros _ s2 [[A _] B]. now split.
    + now intros e s2 [A _].
  - intros s1 H. apply Hbefore; [exact K3 | apply installed_lasting | exact H].
  - intros s1 H. apply Hbefore; [exact K4 | apply installed_lasting | exact H].
  - intros s1 H. apply Hbefore; [exact K5 | apply installed_lasting | exact H].
  - intros s1 H. apply Hbefore; [exact K6 | apply installed_lasting | exact H].
  - intros s1 H.
    pose proof (wp_and _ _ _ _ _ _
                  (Hbefore _ _ installed s1 K7 installed_lasting H)
                  (fixed_push_pushed s1)) as Hw.
    eapply wp_mono; [exact Hw | |]; cbv beta.
    + intros _ s2 [[A B] C]. split; [exact A | now split].
    + now intros e s2 [A _].
  - intros s1 [H Hg]. now apply fixed_publishToNpm_gate.
  - intros s1 H. now apply Hafter.
  - intros s1 H. now apply Hafter.
  - intros s1 s2 H Hc. exact (published_behind_closing G _ _ HG (npm_published_behind G _ H) Hc).
  - intros e s1 s2 H Hc. exact (published_behind_closing G _ _ HG H Hc).
Qed.

Lemma original_run_gate arg s :
  events_of is_publish s = [] ->
  published_behind env installed (snd (Release.run env arg s)).
Proof.
  intros H0. set (G := installed).
  assert (HG : lasting G) by apply installed_lasting.
  destruct (original_before_publish (match arg with Some k => k | None => "patch" end))
    as (K1 & K2 & K3 & K4 & K5 & K6 & K7).
  destruct after_publish_extends as (_ & _ & K9 & K10).
  assert (Hbefore : forall A (m : Js A) (G' : State -> Prop) s1,
            pres (keeps is_publish) m -> lasting G' ->
            events_of is_publish s1 = [] /\ G' s1 ->
            wp m (fun _ s' => events_of is_publish s' = [] /\ G' s')
                 (fun _ => published_behind env G) s1).
  { intros A m G' s1 Hk HG' H.
    eapply wp_mono; [exact (wp_before_publish m G' s1 Hk HG' H) | now intros |].
    intros e s2 H2. now left. }
  assert (Hafter : forall A (m : Js A) s1,
            pres (keeps nothing) m -> npm_published env G s1 ->
            wp m (fun _ => npm_published env G) (fun _ => published_behind env G) s1).
  { intros A m s1 Hk H.
    eapply wp_mono;
      [exact (wp_after_publish m _ s1 Hk (npm_published_lasting G HG) H) | now intros |].
    intros e s2 H2. now apply npm_published_behind. }
  apply wp_final.
  apply (original_run_wp env arg s
           (fun s' => events_of is_publish s' = [] /\ True)
           (fun s' => events_of is_publish s' = [] /\ True)
           (fun s' => events_of is_publish s' = [] /\ installed s')
           (fun s' => events_of is_publish s' = [] /\ installed s')
           (fun s' => events_of is_publish s' = [] /\ installed s')
           (fun s' => events_of is_publish s' = [] /\ installed s')
           (fun s' => events_of is_publish s' = [] /\ installed s')
           (fun s' => events_of is_publish s' = [] /\ installed s')
           (npm_published env G) (npm_published env G) (npm_published env G)
           (published_behind env G)
           (fun _ => published_behind env G) (fun _ => published_behind env G));
    try (apply stable_before_publish; first [apply true_lasting | apply installed_lasting]);
    try (apply stable_lasting, npm_published_lasting, HG).
  - now split.
  - intros s1 H. apply Hbefore; [exact K1 | apply true_lasting | exact H].
  - intros s1 [H _].
    pose proof (wp_and _ _ _ _ _ _
                  (Hbefore _ _ (fun _ => True) s1 K2 true_lasting (conj H I))
                  (original_dependenciesAndTests_installed s1)) as Hw.
    eapply wp_mono; [exact Hw | |]; cbv beta.
    + intros _ s2 [[A _] B]. now split.
    + now intros e s2 [A _].
  - intros s1 H. apply Hbefore; [exact K3 | apply installed_lasting | exact H].
  - intros s1 H. apply Hbefore; [exact K4 | apply installed_lasting | exact H].
  - intros s1 H. apply Hbefore; [exact K5 | apply installed_lasting | exact H].
  - intros s1 H. apply Hbefore; [exact K6 | apply installed_lasting | exact H].
  - intros s1 H. apply Hbefore; [exact K7 | apply installed_lasting | exact H].
  - intros s1 [H Hg]. now apply original_publishToNpm_gate.
  - intros s1 H. now apply Hafter.
  - intros s1 H. now apply Hafter.
  - intros s1 s2 H Hc. exact (published_behind_closing G _ _ HG (npm_published_behind G _ H) Hc).
  - intros e s1 s2 H Hc. exact (published_behind_closing G _ _ HG H Hc).
Qed.
End Gate.

(** X7: in either script a publish command is issued only with
    [NPM_TOKEN] set and after [npm ci] has exited normally, and the
    publication to GitHub Packages is attempted only after a successful
    publication to npm.  In the reworked script a publish command is
    moreover issued only after the push of a branch and the push of the
    tags have both exited normally. *)
Theorem publication_comes_last env arg w ok :
  trace w = [] ->
  let fixed := snd (ReleaseFixed.run env arg (fresh env w)) in
  let original := snd (Release.run env arg (fresh env w)) in
  (events_of is_publish fixed <> [] ->
   token_set env /\ installed fixed /\ pushed fixed)
  /\ (In (Exec NpmPublishGitHub ok) (trace (world fixed)) ->
      In (Exec NpmPublish true) (trace (world fixed)))
  /\ (events_of is_publish original <> [] -> token_set env /\ installed original)
  /\ (In (Exec NpmPublishGitHub ok) (trace (world original)) ->
      In (Exec NpmPublish true) (trace (world original))).
Proof.
  intros Hw. cbv zeta.
  assert (H0 : events_of is_publish (fresh env w) = []).
  { unfold events_of. cbn. now rewrite Hw. }
  assert (Hgh : forall s, In (Exec NpmPublishGitHub ok) (trace (world s)) ->
                  events_of is_github_publish s <> []
                  /\ events_of is_publish s <> []).
  { intros s Hin.
    assert (H1 : In (Exec NpmPublishGitHub ok) (events_of is_github_publish s))
      by (apply filter_In; now split).
    assert (H2 : In (Exec NpmPublishGitHub ok) (events_of is_publish s))
      by (apply filter_In; now split).
    split; intros E; [rewrite E in H1 | rewrite E in H2]; contradiction. }
  pose proof (fixed_run_gate env arg _ H0) as Hf.
  pose proof (original_run_gate env arg _ H0) as Ho.
  split; [| split; [| split]].
  - intros Hne. destruct Hf as [Hf|(Ht & [Hi Hp] & _)]; [contradiction|].
    split; [exact Ht | split; [exact Hi | exact Hp]].
  - intros Hin. destruct (Hgh _ Hin) as [N1 N2].
    destruct Hf as [Hf|(_ & _ & [Hf|Hf])]; [contradiction | contradiction | exact Hf].
  - intros Hne. destruct Ho as [Ho|(Ht & Hi & _)]; [contradiction|].
    split; [exact Ht | exact Hi].
  - intros Hin. destruct (Hgh _ Hin) as [N1 N2].
    destruct Ho as [Ho|(_ & _ & [Ho|Ho])]; [contradiction | contradiction | exact Ho].
Qed.

Lemma publication_comes_last_witness :
  let env := calm "1.0.1" in
  let w := checkout "1.0.0" [] [] in
  let fixed := snd (ReleaseFixed.run env None (fresh env w)) in
  let original := snd (Release.run env None (fresh env w)) in
  (events_of is_publish fixed <> [] ->
   token_set env /\ installed fixed /\ pushed fixed)
  /\ (In (Exec NpmPublishGitHub true) (trace (world fixed)) ->
      In (Exec NpmPublish true) (trace (world fixed)))
  /\ (events_of is_publish original <> [] -> token_set env /\ installed original)
  /\ (In (Exec NpmPublishGitHub true) (trace (world original)) ->
      In (Exec NpmPublish true) (trace (world original))).
Proof.
  apply (publication_comes_last (calm "1.0.1") None (checkout "1.0.0" [] []) true).
  reflexivity.
Defined.

(** ** The versions pre-verification accepts *)

(** [join] undoes [split], for any separator. *)
Lemma join_split_sep sep s : join (String sep "") (split sep s) = s.
Proof.
  induction s as [|c r IH]; [reflexivity|].
  cbn [split]. destruct (Ascii.eqb_spec c sep) as [->|Hc].
  - rewrite join_cons by apply split_nonempty. cbn [append]. now rewrite IH.
  - pose proof (split_nonempty sep r) as Hne.
    destruct (split sep r) as [|l ls]; [congruence|].
    destruct ls as [|l' ls'].
    + cbn in *. congruence.
    + change (join (String sep "") (String c l :: l' :: ls'))
        with (String c (l ++ String sep "" ++ join (String sep "") (l' :: ls'))).
      f_equal. exact IH.
Qed.

Lemma all_digits_split a :
  Semver.all_digits a = true -> split Semver.dot_char a = [a].
Proof.
  induction a as [|c r IH]; [reflexivity|]. cbn [Semver.all_digits split].
  intros H. apply andb_true_iff in H as [Hc Hr].
  destruct (Ascii.eqb_spec c Semver.dot_char) as [->|_]; [discriminate Hc|].
  now rewrite (IH Hr).
Qed.

Lemma all_digits_split_app a rest :
  Semver.all_digits a = true ->
  split Semver.dot_char (a ++ "." ++ rest) = a :: split Semver.dot_char rest.
Proof.
  induction a as [|c r IH]; [reflexivity|]. cbn [Semver.all_digits].
  intros H. apply andb_true_iff in H as [Hc Hr].
  cbn [append split].
  destruct (Ascii.eqb_spec c Semver.dot_char) as [->|_]; [discriminate Hc|].
  change (r ++ String "." rest) with (r ++ "." ++ rest).
  now rewrite (IH Hr).
Qed.

(** The test on the dot-separated parts decides the regular expression. *)
Lemma versionRegex_test_plain v :
  Semver.versionRegex_test v = true <-> plain_version v.
Proof.
  unfold Semver.versionRegex_test, plain_version. split.
  - intros H. pose proof (join_split_sep Semver.dot_char v) as Hj.
    destruct (split Semver.dot_char v) as [|a [|b [|c [|d l]]]]; try discriminate.
    apply andb_true_iff in H as [H Hc]. apply andb_true_iff in H as [Ha Hb].
    exists a, b, c. repeat (split; [assumption|]). symmetry. exact Hj.
  - intros (a & b & c & Ha & Hb & Hc & ->).
    pose proof Ha as Ha'. pose proof Hb as Hb'. pose proof Hc as Hc'.
    unfold Semver.digits1 in Ha', Hb', Hc'.
    apply andb_true_iff in Ha' as [_ Ha']. apply andb_true_iff in Hb' as [_ Hb'].
    apply andb_true_iff in Hc' as [_ Hc'].
    rewrite (all_digits_split_app a _ Ha'), (all_digits_split_app b _ Hb'),
      (all_digits_split c Hc').
    now rewrite Ha, Hb, Hc.
Qed.

Section Accepts.
Variable env : Env.
Hypothesis Hwork : tools_work env.

Ltac wp_works :=
  apply wp_execSync;
  [intros ? Hf;
   match type of Hf with
   | fails _ _ ?c = _ => rewrite (Hwork _ c eq_refl) in Hf
   end; discriminate
  | intros _; cbn [effect]; fields].

Lemma fixed_preVerification_decides s :
  wrong_branch env = false -> dirty (world s) = [] ->
  let v := version (normalize env (manifest (world s))) in
  wp (ReleaseFixed.preVerification env)
     (fun _ _ => Semver.versionRegex_test v = true)
     (fun e _ => Semver.versionRegex_test v = false
                 /\ e = "Versión '" ++ v ++ "' no sigue formato semver X.Y.Z") s.
Proof.
  intros Hb Hd. cbv zeta. unfold ReleaseFixed.preVerification.
  repeat wp_step. wp_works.
  unfold wrong_branch in Hb. cbv zeta in Hb. rewrite Hb.
  repeat wp_step. wp_works. rewrite porcelain_truthy, Hd.
  repeat wp_step. wp_works. repeat wp_step. fields.
  destruct (manifest_eqb _ _) eqn:Em; fields; dirty_fields; fields.
  - apply manifest_eqb_eq in Em. rewrite Em.
    destruct (Semver.versionRegex_test (version (manifest (world s)))) eqn:Ev; cbn [negb];
      repeat wp_step; [reflexivity | now split].
  - destruct (Semver.versionRegex_test _) eqn:Ev; cbn [negb];
      repeat wp_step; [reflexivity | now split].
Qed.

Lemma original_preVerification_decides s :
  wrong_branch env = false -> dirty (world s) = [] ->
  let v := version (normalize env (manifest (world s))) in
  wp (Release.preVerification env)
     (fun _ _ => Semver.versionRegex_test v = true)
     (fun e _ => Semver.versionRegex_test v = false
                 /\ e = "Versión '" ++ v ++ "' no sigue formato semver X.Y.Z") s.
Proof.
  intros Hb Hd. cbv zeta. unfold Release.preVerification.
  repeat wp_step. wp_works.
  unfold wrong_branch in Hb. cbv zeta in Hb. rewrite Hb.
  repeat wp_step. wp_works. rewrite porcelain_truthy, Hd.
  repeat wp_step. wp_works. repeat wp_step. fields.
  destruct (manifest_eqb _ _) eqn:Em; fields; dirty_fields; fields.
  - apply manifest_eqb_eq in Em. rewrite Em.
    destruct (Semver.versionRegex_test (version (manifest (world s)))) eqn:Ev; cbn [negb];
      repeat wp_step; [reflexivity | now split].
  - destruct (Semver.versionRegex_test _) eqn:Ev; cbn [negb];
      repeat wp_step; [reflexivity | now split].
Qed.

(** From a decision by [wp] to the outcome. *)
Lemma decided (m : Js unit) (b : bool) (msg : string) s :
  wp m (fun _ _ => b = true) (fun e _ => b = false /\ e = msg) s ->
  (fst (m s) = Return tt <-> b = true)
  /\ (b = false -> fst (m s) = Throw msg).
Proof.
  unfold wp. destruct (m s) as [[[]|e] s']; cbn [fst].
  - intros ->. split; [tauto | discriminate].
  - intros [-> ->]. split; [split; discriminate | reflexivity].
Qed.
End Accepts.

(** X8: on a release branch with a clean tree and working tools,
    pre-verification of either script returns exactly when the version
    left in [package.json] by [npm pkg fix] consists of three non-empty
    runs of decimal digits joined by dots; any other version (a [v]
    prefix, a pre-release suffix, two or four parts) makes it throw
    the message naming the version. *)
Theorem preVerification_accepts_exactly_plain_versions env s :
  tools_work env -> wrong_branch env = false -> dirty (world s) = [] ->
  let v := version (normalize env (manifest (world s))) in
  let msg := "Versión '" ++ v ++ "' no sigue formato semver X.Y.Z" in
  (fst (ReleaseFixed.preVerification env s) = Return tt <-> plain_version v)
  /\ (~ plain_version v -> fst (ReleaseFixed.preVerification env s) = Throw msg)
  /\ (fst (Release.preVerification env s) = Return tt <-> plain_version v)
  /\ (~ plain_version v -> fst (Release.preVerification env s) = Throw msg).
Proof.
  intros Hwork Hb Hd. cbv zeta.
  set (v := version (normalize env (manifest (world s)))).
  destruct (decided _ _ _ _ (fixed_preVerification_decides env Hwork s Hb Hd)) as [F1 F2].
  destruct (decided _ _ _ _ (original_preVerification_decides env Hwork s Hb Hd)) as [O1 O2].
  fold v in F1, F2, O1, O2.
  assert (Hn : ~ plain_version v -> Semver.versionRegex_test v = false).
  { intros Hn. destruct (Semver.versionRegex_test v) eqn:E; [| reflexivity].
    destruct Hn. now apply versionRegex_test_plain. }
  split; [| split; [| split]].
  - rewrite F1. apply versionRegex_test_plain.
  - intros Hp. exact (F2 (Hn Hp)).
  - rewrite O1. apply versionRegex_test_plain.
  - intros Hp. exact (O2 (Hn Hp)).
Qed.

Lemma preVerification_accepts_exactly_plain_versions_witness :
  let env := calm "1.0.0" in
  let s := fresh env (checkout "1.0.0-beta.1" [] []) in
  let msg := "Versión '1.0.0-beta.1' no sigue formato semver X.Y.Z" in
  (fst (ReleaseFixed.preVerification env s) = Return tt <-> plain_version "1.0.0-beta.1")
  /\ (~ plain_version "1.0.0-beta.1" -> fst (ReleaseFixed.preVerification env s) = Throw msg)
  /\ (fst (Release.preVerification env s) = Return tt <-> plain_version "1.0.0-beta.1")
  /\ (~ plain_version "1.0.0-beta.1" -> fst (Release.preVerification env s) = Throw msg).
Proof.
  apply (preVerification_accepts_exactly_plain_versions (calm "1.0.0")
           (fresh (calm "1.0.0") (checkout "1.0.0-beta.1" [] []))).
  - intros n c _. reflexivity.
  - reflexivity.
  - reflexivity.
Defined.

(** ** The changelog of a first release *)

(** X9: in a repository without tags the changelog step never asks git
    for the commits: whatever the tools do, it returns, records two
    warnings, and the section it inserts lists the single item
    [- Release automático]. *)
Theorem first_release_changelog env s :
  tags (world s) = [] ->
  let s' := snd (updateChangelog env s) in
  fst (updateChangelog env s) = Return tt
  /\ files (world s') "CHANGELOG.md"
     = Some (Changelog.insertEntry (changelog_file s)
               ("## [" ++ show (r_version (report (this s))) ++ "] - " ++ today env
                ++ nl ++ nl ++ "### Changed" ++ nl ++ "- Release automático" ++ nl ++ nl))
  /\ warnings (this s')
     = (warnings (this s) ++ ["No se encontraron tags anteriores";
                              "No se encontraron cambios desde el último tag"])%list
  /\ events_of is_history_query s' = events_of is_history_query s.
Proof.
  intros HT. cbv zeta.
  assert (H : wp (updateChangelog env)
                (fun _ s' =>
                   files (world s') "CHANGELOG.md"
                   = Some (Changelog.insertEntry (changelog_file s)
                             (Changelog.newEntry (show (r_version (report (this s))))
                                (today env) []))
                   /\ warnings (this s')
                      = (warnings (this s) ++ ["No se encontraron tags anteriores";
                                               "No se encontraron cambios desde el último tag"])%list
                   /\ events_of is_history_query s' = events_of is_history_query s)
                never s).
  { unfold updateChangelog. repeat wp_step.
    apply wp_execSync; [intros msg _ | intros _; cbn [effect]; fields; rewrite HT];
      repeat wp_step; unfold collectChanges; cbn [truthy]; repeat wp_step;
      cbn [List.length Nat.eqb]; repeat wp_step; fields;
      unfold changelog_file;
      (destruct (files (world s) "CHANGELOG.md") as [C|] eqn:EC;
       [apply wp_readFileSync; fields; [intros c Hc | congruence];
        assert (c = C) as -> by congruence
       | ]; repeat wp_step; apply wp_writeFileSync; wp_steps;
       (split; [fields; now rewrite writeFileSync_files|]);
       (split; [fields; rewrite writeFileSync_this; fields; now rewrite <- app_assoc|]);
       unfold events_of; fields; now rewrite writeFileSync_trace). }
  unfold wp in H. destruct (updateChangelog env s) as [[[]|e] s']; [| destruct H].
  cbn [fst snd]. split; [reflexivity | exact H].
Qed.

Lemma first_release_changelog_witness :
  let s' := snd (updateChangelog (calm "1.0.1") changelog_state) in
  fst (updateChangelog (calm "1.0.1") changelog_state) = Return tt
  /\ files (world s') "CHANGELOG.md"
     = Some (Changelog.insertEntry (changelog_file changelog_state)
               ("## [" ++ show (r_version (report (this changelog_state))) ++ "] - "
                ++ today (calm "1.0.1")
                ++ nl ++ nl ++ "### Changed" ++ nl ++ "- Release automático" ++ nl ++ nl))
  /\ warnings (this s')
     = (warnings (this changelog_state)
        ++ ["No se encontraron tags anteriores";
            "No se encontraron cambios desde el último tag"])%list
  /\ events_of is_history_query s' = events_of is_history_query changelog_state.
Proof.
  apply (first_release_changelog (calm "1.0.1") changelog_state). reflexivity.
Defined.

(** ** A package without scope *)

Lemma same_name_refl s : same_name s s.
Proof. reflexivity. Qed.

Lemma same_name_trans a b c : same_name a b -> same_name b c -> same_name a c.
Proof. unfold same_name. congruence. Qed.

Section Unscoped.
Variable env : Env.

Lemma effect_name c w :
  (match c with NpmPkgFix => false | _ => true end) = true ->
  name (manifest (snd (effect env c w))) = name (manifest w).
Proof.
  intros Hc. destruct c; try discriminate; cbn [effect];
    try reflexivity;
    try (destruct (npm_version _ _ _));
    try (destruct (tags w));
    try (destruct (existsb _ _));
    cbn [snd]; cbv zeta; try (destruct (single_word _));
    rewrite ?(proj1 (npm_commits_fields _ _ _ _)), ?(proj1 (mark_dirty_fields _ _ _));
    reflexivity.
Qed.

Lemma execSync_same_name c s :
  (match c with NpmPkgFix => false | _ => true end) = true ->
  same_name s (snd (execSync env c s)).
Proof.
  intros Hc. unfold same_name, execSync.
  destruct (fails env _ c); [reflexivity|].
  pose proof (effect_name c (tick (world s)) Hc) as H.
  destruct (effect env c _) as [[out|e] w']; exact H.
Qed.

Lemma writeFileSync_same_name p c s : same_name s (snd (writeFileSync env p c s)).
Proof. unfold same_name; now rewrite (proj1 (writeFileSync_same_release env p c s)). Qed.

Ltac name_leaf :=
  idtac;
  lazymatch goal with
  | |- pres _ (execSync _ _) => intro; apply execSync_same_name; reflexivity
  | |- pres _ (writeFileSync _ _ _) => intro; apply writeFileSync_same_name
  | |- pres _ _ => intro; reflexivity
  end.

Ltac name_tac := frame_tac same_name_refl same_name_trans name_leaf.

Lemma fixed_steps_same_name k :
  pres same_name (ReleaseFixed.dependenciesAndTests env)
  /\ pres same_name (ReleaseFixed.build env)
  /\ pres same_name (ReleaseFixed.versioning env k)
  /\ pres same_name (updateChangelog env)
  /\ pres same_name (ReleaseFixed.commitAndTag env)
  /\ pres same_name (ReleaseFixed.push env)
  /\ pres same_name (ReleaseFixed.publishToNpm env).
Proof.
  unfold ReleaseFixed.dependenciesAndTests, ReleaseFixed.build, ReleaseFixed.versioning,
    updateChangelog, collectChanges, ReleaseFixed.commitAndTag, ReleaseFixed.push,
    ReleaseFixed.publishToNpm.
  repeat match goal with |- _ /\ _ => split end; name_tac.
Qed.

Lemma original_steps_same_name k :
  pres same_name (Release.dependenciesAndTests env)
  /\ pres same_name (Release.build env)
  /\ pres same_name (Release.versioning env k)
  /\ pres same_name (updateChangelog env)
  /\ pres same_name (Release.commitAndTag env)
  /\ pres same_name (Release.push env)
  /\ pres same_name (Release.publishToNpm env).
Proof.
  unfold Release.dependenciesAndTests, Release.build, Release.versioning,
    updateChangelog, collectChanges, Release.commitAndTag, Release.push,
    Release.publishToNpm.
  repeat match goal with |- _ /\ _ => split end; name_tac.
Qed.

(** Pre-verification returns only with the manifest [npm pkg fix] makes. *)
Lemma fixed_preVerification_normalizes s :
  wp (ReleaseFixed.preVerification env)
     (fun _ s' => manifest (world s') = normalize env (manifest (world s)))
     (fun _ _ => True) s.
Proof.
  unfold ReleaseFixed.preVerification. wp_steps.
  apply wp_execSync; [easy | intros _; cbn [effect]; fields]. wp_steps.
  destruct (_ && _); wp_steps; [exact I|].
  apply wp_execSync; [easy | intros _; cbn [effect]; fields]. wp_steps.
  destruct (truthy _); wp_steps; [exact I|].
  apply wp_execSync; [easy | intros _; cbn [effect]; fields]. wp_steps.
  match goal with |- context [if negb ?b then _ else _] => destruct b end;
    cbn [negb]; wp_steps; [| exact I].
  fields. destruct (manifest_eqb _ _) eqn:Em; fields; dirty_fields; fields; [| reflexivity].
  now apply manifest_eqb_eq in Em.
Qed.

Lemma original_preVerification_normalizes s :
  wp (Release.preVerification env)
     (fun _ s' => manifest (world s') = normalize env (manifest (world s)))
     (fun _ _ => True) s.
Proof.
  unfold Release.preVerification. wp_steps.
  apply wp_execSync; [easy | intros _; cbn [effect]; fields]. wp_steps.
  destruct (_ && _); wp_steps; [exact I|].
  apply wp_execSync; [easy | intros _; cbn [effect]; fields]. wp_steps.
  destruct (truthy _); wp_steps; [exact I|].
  apply wp_execSync; [easy | intros _; cbn [effect]; fields]. wp_steps.
  match goal with |- context [if negb ?b then _ else _] => destruct b end;
    cbn [negb]; wp_steps; [| exact I].
  fields. destruct (manifest_eqb _ _) eqn:Em; fields; dirty_fields; fields; [| reflexivity].
  now apply manifest_eqb_eq in Em.
Qed.

(** Without a [/] in the package name step 9 issues no command. *)
Lemma fixed_publishToGitHub_unscoped L s :
  includes (name (manifest (world s))) "/" = false ->
  events_of is_github_publish s = L ->
  wp (ReleaseFixed.publishToGitHub env)
     (fun _ s' => events_of is_github_publish s' = L)
     (fun _ s' => events_of is_github_publish s' = L) s.
Proof.
  intros Hn HL. unfold ReleaseFixed.publishToGitHub. wp_steps. fields. rewrite Hn.
  wp_steps. exact HL.
Qed.

Lemma original_publishToGitHub_unscoped L s :
  includes (name (manifest (world s))) "/" = false ->
  events_of is_github_publish s = L ->
  wp (Release.publishToGitHub env)
     (fun _ s' => events_of is_github_publish s' = L)
     (fun _ s' => events_of is_github_publish s' = L) s.
Proof.
  intros Hn HL. unfold Release.publishToGitHub. wp_steps. fields. rewrite Hn.
  wp_steps. exact HL.
Qed.

Lemma fixed_steps_no_github k :
  pres (keeps is_github_publish) (ReleaseFixed.preVerification env)
  /\ pres (keeps is_github_publish) (ReleaseFixed.dependenciesAndTests env)
  /\ pres (keeps is_github_publish) (ReleaseFixed.build env)
  /\ pres (keeps is_github_publish) (ReleaseFixed.versioning env k)
  /\ pres (keeps is_github_publish) (updateChangelog env)
  /\ pres (keeps is_github_publish) (ReleaseFixed.commitAndTag env)
  /\ pres (keeps is_github_publish) (ReleaseFixed.push env)
  /\ pres (keeps is_github_publish) (ReleaseFixed.publishToNpm env)
  /\ pres (keeps is_github_publish) (ReleaseFixed.verification env).
Proof.
  assert (Hq : forall pkg n,
            pres (keeps is_github_publish) (ReleaseFixed.queryVersion env pkg n)).
  { intros pkg n. induction n as [|n IH]; cbn [ReleaseFixed.queryVersion]; keeps_tac.
    exact IH. }
  unfold ReleaseFixed.preVerification, ReleaseFixed.dependenciesAndTests,
    ReleaseFixed.build, ReleaseFixed.versioning, updateChangelog, collectChanges,
    ReleaseFixed.commitAndTag, ReleaseFixed.push, ReleaseFixed.publishToNpm,
    ReleaseFixed.verification.
  repeat match goal with |- _ /\ _ => split end; keeps_tac; apply Hq.
Qed.

Lemma original_steps_no_github k :
  pres (keeps is_github_publish) (Release.preVerification env)
  /\ pres (keeps is_github_publish) (Release.dependenciesAndTests env)
  /\ pres (keeps is_github_publish) (Release.build env)
  /\ pres (keeps is_github_publish) (Release.versioning env k)
  /\ pres (keeps is_github_publish) (updateChangelog env)
  /\ pres (keeps is_github_publish) (Release.commitAndTag env)
  /\ pres (keeps is_github_publish) (Release.push env)
  /\ pres (keeps is_github_publish) (Release.publishToNpm env)
  /\ pres (keeps is_github_publish) (Release.verification env).
Proof.
  unfold Release.preVerification, Release.dependenciesAndTests,
    Release.build, Release.versioning, updateChangelog, collectChanges,
    Release.commitAndTag, Release.push, Release.publishToNpm,
    Release.verification.
  repeat match goal with |- _ /\ _ => split end; keeps_tac.
Qed.

(** A step that keeps the package name and issues no publication to
    GitHub Packages. *)
Lemma wp_named_step {A} (m : Js A) n L s :
  pres same_name m -> pres (keeps is_github_publish) m ->
  name (manifest (world s)) = n /\ events_of is_github_publish s = L ->
  wp m (fun _ s' => name (manifest (world s')) = n /\ events_of is_github_publish s' = L)
       (fun _ s' => events_of is_github_publish s' = L) s.
Proof.
  intros Hn Hk [H1 H2]. specialize (Hn s). specialize (Hk s). unfold wp.
  destruct (m s) as [[a|e] s']; cbn [snd] in *.
  - split; [now rewrite Hn | now rewrite (keeps_events Hk)].
  - now rewrite (keeps_events Hk).
Qed.

Lemma fixed_run_unscoped arg s :
  includes (name (normalize env (manifest (world s)))) "/" = false ->
  events_of is_github_publish (snd (ReleaseFixed.run env arg s))
  = events_of is_github_publish s.
Proof.
  intros Hn. set (n := name (normalize env (manifest (world s)))) in *.
  set (L := events_of is_github_publish s).
  destruct (fixed_steps_no_github (match arg with Some k => k | None => "patch" end))
    as (K1 & K2 & K3 & K4 & K5 & K6 & K7 & K8 & K10).
  destruct (fixed_steps_same_name (match arg with Some k => k | None => "patch" end))
    as (N2 & N3 & N4 & N5 & N6 & N7 & N8).
  set (J := fun s' : State => events_of is_github_publish s' = L).
  set (P := fun s' : State => name (manifest (world s')) = n /\ J s').
  change (J (snd (ReleaseFixed.run env arg s))). apply wp_final.
  apply (fixed_run_wp env arg s P P P P P P P P J J J (fun _ => J) (fun _ => J)).
  - pose proof (fixed_preVerification_normalizes s) as Hm. pose proof (K1 s) as Hk.
    unfold wp in *. destruct (ReleaseFixed.preVerification env s) as [[a|e] s1];
      cbn [snd] in *.
    + split; [unfold n; now rewrite Hm | exact (keeps_events Hk)].
    + exact (keeps_events Hk).
  - intros s1 H. now apply wp_named_step.
  - intros s1 H. now apply wp_named_step.
  - intros s1 H. now apply wp_named_step.
  - intros s1 H. now apply wp_named_step.
  - intros s1 H. now apply wp_named_step.
  - intros s1 H. now apply wp_named_step.
  - intros s1 H. now apply wp_named_step.
  - intros s1 [H1 H2]. apply fixed_publishToGitHub_unscoped; [now rewrite H1 | exact H2].
  - intros s1 H. apply (wp_pres (keeps is_github_publish)); [exact K10 | |];
      intros x s2 K; unfold J; now rewrite (keeps_events K).
  - intros s1 s2 H (_ & _ & Hq). unfold J. now rewrite (Hq is_github_publish).
  - intros e s1 s2 H (_ & _ & Hq). unfold J. now rewrite (Hq is_github_publish).
Qed.

Lemma original_run_unscoped arg s :
  includes (name (normalize env (manifest (world s)))) "/" = false ->
  events_of is_github_publish (snd (Release.run env arg s))
  = events_of is_github_publish s.
Proof.
  intros Hn. set (n := name (normalize env (manifest (world s)))) in *.
  set (L := events_of is_github_publish s).
  destruct (original_steps_no_github (match arg with Some k => k | None => "patch" end))
    as (K1 & K2 & K3 & K4 & K5 & K6 & K7 & K8 & K10).
  destruct (original_steps_same_name (match arg with Some k => k | None => "patch" end))
    as (N2 & N3 & N4 & N5 & N6 & N7 & N8).
  set (J := fun s' : State => events_of is_github_publish s' = L).
  set (P := fun s' : State => name (manifest (world s')) = n /\ J s').
  set (P0 := fun s' : State =>
               name (normalize env (manifest (world s'))) = n /\ J s').
  change (J (snd (Release.run env arg s))). apply wp_final.
  apply (original_run_wp env arg s P0 P P P P P P P P J J J (fun _ => J) (fun _ => J));
    try (intros st l s1 H; exact H).
  - now split.
  - intros s1 [H1 H2]. pose proof (original_preVerification_normalizes s1) as Hm.
    pose proof (K1 s1) as Hk.
    unfold wp in *. destruct (Release.preVerification env s1) as [[a|e] s2];
      cbn [snd] in *.
    + split; [now rewrite Hm | unfold J; now rewrite (keeps_events Hk)].
    + unfold J. now rewrite (keeps_events Hk).
  - intros s1 H. now apply wp_named_step.
  - intros s1 H. now apply wp_named_step.
  - intros s1 H. now apply wp_named_step.
  - intros s1 H. now apply wp_named_step.
  - intros s1 H. now apply wp_named_step.
  - intros s1 H. now apply wp_named_step.
  - intros s1 H. now apply wp_named_step.
  - intros s1 [H1 H2]. apply original_publishToGitHub_unscoped; [now rewrite H1 | exact H2].
  - intros s1 H. apply (wp_pres (keeps is_github_publish)); [exact K10 | |];
      intros x s2 K; unfold J; now rewrite (keeps_events K).
  - intros s1 s2 H (_ & _ & Hq). unfold J. now rewrite (Hq is_github_publish).
  - intros e s1 s2 H (_ & _ & Hq). unfold J. now rewrite (Hq is_github_publish).
Qed.
End Unscoped.

(** X10: when the package name [npm pkg fix] leaves in [package.json]
    has no [/], no run of either script issues the publication to GitHub
    Packages, whatever the tools do and whether or not an [.npmrc]
    exists. *)
Theorem unscoped_package_never_goes_to_github env arg w ok :
  includes (name (normalize env (manifest w))) "/" = false ->
  trace w = [] ->
  ~ In (Exec NpmPublishGitHub ok)
       (trace (world (snd (ReleaseFixed.run env arg (fresh env w)))))
  /\ ~ In (Exec NpmPublishGitHub ok)
          (trace (world (snd (Release.run env arg (fresh env w))))).
Proof.
  intros Hn Hw.
  assert (H0 : events_of is_github_publish (fresh env w) = []).
  { unfold events_of. cbn. now rewrite Hw. }
  assert (Hno : forall s, events_of is_github_publish s = [] ->
                  ~ In (Exec NpmPublishGitHub ok) (trace (world s))).
  { intros s He Hin.
    assert (Hf : In (Exec NpmPublishGitHub ok) (events_of is_github_publish s))
      by (apply filter_In; now split).
    rewrite He in Hf. exact Hf. }
  split; apply Hno.
  - rewrite (fixed_run_unscoped env arg (fresh env w) Hn). exact H0.
  - rewrite (original_run_unscoped env arg (fresh env w) Hn). exact H0.
Qed.

Lemma unscoped_package_never_goes_to_github_witness :
  let env := calm "1.0.1" in
  let w := checkout "1.0.0" [] [] in
  ~ In (Exec NpmPublishGitHub true)
       (trace (world (snd (ReleaseFixed.run env None (fresh env w)))))
  /\ ~ In (Exec NpmPublishGitHub true)
          (trace (world (snd (Release.run env None (fresh env w))))).
Proof.
  apply (unscoped_package_never_goes_to_github (calm "1.0.1") None
           (checkout "1.0.0" [] []) true); reflexivity.
Defined.

(** ** The registries listed in the report *)

Lemma same_findings_refl s : same_findings s s.
Proof.
  exists (status (report (this s))), (issues (report (this s))).
  now destruct (report (this s)).
Qed.

Lemma same_findings_trans a b c :
  same_findings a b -> same_findings b c -> same_findings a c.
Proof. intros (s1 & l1 & E1) (s2 & l2 & E2). exists s2, l2. now rewrite E2, E1. Qed.

Lemma same_urls_refl s : same_urls s s.
Proof. reflexivity. Qed.

Lemma same_urls_trans a b c : same_urls a b -> same_urls b c -> same_urls a c.
Proof. unfold same_urls. congruence. Qed.

Section Findings.
Variable env : Env.

Lemma same_findings_report s s' :
  report (this s') = report (this s) -> same_findings s s'.
Proof. intros E. unfold same_findings. rewrite E. apply same_findings_refl. Qed.

Ltac findings_leaf :=
  idtac;
  lazymatch goal with
  | |- pres _ (writeFileSync _ _ _) =>
      intro; apply same_findings_report; now rewrite writeFileSync_this
  | |- pres _ _ =>
      intro; first [apply same_findings_report; reflexivity
                   | eexists; eexists; reflexivity]
  end.

Ltac findings_tac := frame_tac same_findings_refl same_findings_trans findings_leaf.

Lemma generateReport_findings : pres same_findings (generateReport env).
Proof. unfold generateReport. findings_tac. Qed.

Lemma log_each_findings l : pres same_findings (ReleaseFixed.log_each env l).
Proof. induction l as [|u l IH]; cbn [ReleaseFixed.log_each]; findings_tac; apply IH. Qed.

Lemma fixed_report_findings : pres same_findings (generateReport env ;; epilogue env).
Proof.
  pose proof generateReport_findings as Hg. pose proof log_each_findings as Hl.
  unfold epilogue.
  frame_tac same_findings_refl same_findings_trans
    ltac:(idtac; first [apply Hg | apply Hl | findings_leaf]).
Qed.

Lemma fixed_catch_findings message :
  pres same_findings
    (error ("Error en el proceso: " ++ message) ;; generateReport env ;;
     @throw unit message).
Proof.
  pose proof generateReport_findings as Hg.
  frame_tac same_findings_refl same_findings_trans
    ltac:(idtac; first [apply Hg | findings_leaf]).
Qed.

Lemma original_report_findings :
  pres same_findings
    (console Stdout "📋 DEBUG: Ejecutando generateReport()" ;;
     generateReport env ;;
     Js.log env "🎉 ¡Proceso de liberación completado exitosamente!" ;;
     r <- get_report ;;
     Js.log env ("Versión publicada: " ++ show (r_version r)) ;;
     Js.log env ("Commit: " ++ show (commitSha r))).
Proof.
  pose proof generateReport_findings as Hg.
  frame_tac same_findings_refl same_findings_trans
    ltac:(idtac; first [apply Hg | findings_leaf]).
Qed.

Lemma original_catch_findings message :
  pres same_findings
    (console Stderr ("❌ DEBUG: Error en el proceso: " ++ message) ;;
     console Stderr ("❌ DEBUG: Stack trace: Error: " ++ message) ;;
     generateReport env ;; @throw unit message).
Proof.
  pose proof generateReport_findings as Hg.
  frame_tac same_findings_refl same_findings_trans
    ltac:(idtac; first [apply Hg | findings_leaf]).
Qed.

Lemma fixed_catch_wp_findings e s (E : string -> State -> Prop) :
  (forall s', closing s s' -> same_findings s s' -> E e s') ->
  wp (error ("Error en el proceso: " ++ e) ;; generateReport env ;; @throw unit e)
     never E s.
Proof.
  intros HE. pose proof (fixed_catch_closing env e s) as Hc.
  pose proof (fixed_catch_findings e s) as Hf. revert Hc Hf. unfold wp.
  unfold bind, error, console, modify. cbv beta iota. unfold bind. cbv beta iota.
  match goal with
  | |- context [generateReport env ?st] =>
      destruct (generateReport_spec env st) as (s2 & -> & _)
  end.
  unfold throw. cbn [snd]. exact (HE _).
Qed.

Lemma original_catch_wp_findings e s (E : string -> State -> Prop) :
  (forall s', closing s s' -> same_findings s s' -> E e s') ->
  wp (console Stderr ("❌ DEBUG: Error en el proceso: " ++ e) ;;
      console Stderr ("❌ DEBUG: Stack trace: Error: " ++ e) ;;
      generateReport env ;; @throw unit e)
     never E s.
Proof.
  intros HE. pose proof (original_catch_closing env e s) as Hc.
  pose proof (original_catch_findings e s) as Hf. revert Hc Hf. unfold wp.
  unfold bind, console, modify. cbv beta iota.
  match goal with
  | |- context [generateReport env ?st] =>
      destruct (generateReport_spec env st) as (s2 & -> & _)
  end.
  unfold throw. cbn [snd]. exact (HE _).
Qed.

(** As [fixed_run_wp], with what the report leaves of the findings. *)
Lemma fixed_run_wp_findings arg s
    (P1 P2 P3 P4 P5 P6 P7 P8 P9 P10 Qf : State -> Prop) (F Ef : string -> State -> Prop) :
  let k := match arg with Some k => k | None => "patch" end in
  wp (ReleaseFixed.preVerification env) (fun _ => P1) F s ->
  (forall s, P1 s -> wp (ReleaseFixed.dependenciesAndTests env) (fun _ => P2) F s) ->
  (forall s, P2 s -> wp (ReleaseFixed.build env) (fun _ => P3) F s) ->
  (forall s, P3 s -> wp (ReleaseFixed.versioning env k) (fun _ => P4) F s) ->
  (forall s, P4 s -> wp (updateChangelog env) (fun _ => P5) F s) ->
  (forall s, P5 s -> wp (ReleaseFixed.commitAndTag env) (fun _ => P6) F s) ->
  (forall s, P6 s -> wp (ReleaseFixed.push env) (fun _ => P7) F s) ->
  (forall s, P7 s -> wp (ReleaseFixed.publishToNpm env) (fun _ => P8) F s) ->
  (forall s, P8 s -> wp (ReleaseFixed.publishToGitHub env) (fun _ => P9) F s) ->
  (forall s, P9 s -> wp (ReleaseFixed.verification env) (fun _ => P10) F s) ->
  (forall s s', P10 s -> closing s s' -> same_findings s s' -> Qf s') ->
  (forall e s s', F e s -> closing s s' -> same_findings s s' -> Ef e s') ->
  wp (ReleaseFixed.run env arg) (fun _ => Qf) Ef s.
Proof.
  intros k H1 H2 H3 H4 H5 H6 H7 H8 H9 H10 HQ HE.
  assert (Hcatch : forall e s1, F e s1 ->
            wp (error ("Error en el proceso: " ++ e) ;; generateReport env ;; @throw unit e)
               (fun _ => Qf) Ef s1).
  { intros e s1 Hf.
    eapply wp_mono;
      [apply fixed_catch_wp_findings; intros s' Hc Hr; exact (HE _ _ _ Hf Hc Hr) | |].
    - intros a s' [].
    - now intros. }
  rewrite run_eq. fold k. apply wp_try_catch. apply wp_bind. unfold ReleaseFixed.steps.
  eapply wp_seq; [exact H1 | | exact Hcatch]. intros a1 s1 Q1. cbv beta in Q1.
  eapply wp_seq; [exact (H2 _ Q1) | | exact Hcatch]. intros a2 s2 Q2. cbv beta in Q2.
  eapply wp_seq; [exact (H3 _ Q2) | | exact Hcatch]. intros a3 s3 Q3. cbv beta in Q3.
  eapply wp_seq; [exact (H4 _ Q3) | | exact Hcatch]. intros a4 s4 Q4. cbv beta in Q4.
  eapply wp_seq; [exact (H5 _ Q4) | | exact Hcatch]. intros a5 s5 Q5. cbv beta in Q5.
  eapply wp_seq; [exact (H6 _ Q5) | | exact Hcatch]. intros a6 s6 Q6. cbv beta in Q6.
  eapply wp_seq; [exact (H7 _ Q6) | | exact Hcatch]. intros a7 s7 Q7. cbv beta in Q7.
  eapply wp_seq; [exact (H8 _ Q7) | | exact Hcatch]. intros a8 s8 Q8. cbv beta in Q8.
  eapply wp_seq; [exact (H9 _ Q8) | | exact Hcatch]. intros a9 s9 Q9. cbv beta in Q9.
  eapply wp_mono; [exact (H10 _ Q9) | | exact Hcatch]. intros a10 s10 Q10. cbv beta in Q10.
  pose proof (fixed_report_closing env s10) as Hc.
  pose proof (fixed_report_findings s10) as Hr.
  unfold wp, bind in *.
  destruct (generateReport_spec env s10) as (s11 & Eg & _). rewrite Eg in *.
  destruct (epilogue_spec env s11) as [Ee _].
  destruct (epilogue env s11) as [[[]|e] s12]; [| discriminate Ee].
  cbn [snd] in Hc, Hr. exact (HQ _ _ Q10 Hc Hr).
Qed.

(** As [original_run_wp], with what the report leaves of the findings. *)
Lemma original_run_wp_findings arg s
    (P0 P1 P2 P3 P4 P5 P6 P7 P8 P9 P10 Qf : State -> Prop) (F Ef : string -> State -> Prop) :
  let k := match arg with Some k => k | None => "patch" end in
  P0 s ->
  stable P0 -> stable P1 -> stable P2 -> stable P3 -> stable P4 ->
  stable P5 -> stable P6 -> stable P7 -> stable P8 -> stable P9 ->
  (forall s, P0 s -> wp (Release.preVerification env) (fun _ => P1) F s) ->
  (forall s, P1 s -> wp (Release.dependenciesAndTests env) (fun _ => P2) F s) ->
  (forall s, P2 s -> wp (Release.build env) (fun _ => P3) F s) ->
  (forall s, P3 s -> wp (Release.versioning env k) (fun _ => P4) F s) ->
  (forall s, P4 s -> wp (updateChangelog env) (fun _ => P5) F s) ->
  (forall s, P5 s -> wp (Release.commitAndTag env) (fun _ => P6) F s) ->
  (forall s, P6 s -> wp (Release.push env) (fun _ => P7) F s) ->
  (forall s, P7 s -> wp (Release.publishToNpm env) (fun _ => P8) F s) ->
  (forall s, P8 s -> wp (Release.publishToGitHub env) (fun _ => P9) F s) ->
  (forall s, P9 s -> wp (Release.verification env) (fun _ => P10) F s) ->
  (forall s s', P10 s -> closing s s' -> same_findings s s' -> Qf s') ->
  (forall e s s', F e s -> closing s s' -> same_findings s s' -> Ef e s') ->
  wp (Release.run env arg) (fun _ => Qf) Ef s.
Proof.
  intros k Hs S0 S1 S2 S3 S4 S5 S6 S7 S8 S9 H1 H2 H3 H4 H5 H6 H7 H8 H9 H10 HQ HE.
  assert (Hcatch : forall e s1, F e s1 ->
            wp (console Stderr ("❌ DEBUG: Error en el proceso: " ++ e) ;;
                console Stderr ("❌ DEBUG: Stack trace: Error: " ++ e) ;;
                generateReport env ;; @throw unit e)
               (fun _ => Qf) Ef s1).
  { intros e s1 Hf.
    eapply wp_mono;
      [apply original_catch_wp_findings; intros s' Hc Hr; exact (HE _ _ _ Hf Hc Hr) | |].
    - intros a s' [].
    - now intros. }
  unfold Release.run. fold k. cbv zeta.
  wp_step. wp_step. apply wp_try_catch. apply wp_bind. unfold Release.steps.
  wp_step. wp_step.
  eapply wp_seq; [apply H1; now apply S0, S0 | | exact Hcatch].
  intros a1 s1 Q1. cbv beta in Q1. wp_step. wp_step.
  eapply wp_seq; [apply H2; now apply S1 | | exact Hcatch].
  intros a2 s2 Q2. cbv beta in Q2. wp_step. wp_step.
  eapply wp_seq; [apply H3; now apply S2 | | exact Hcatch].
  intros a3 s3 Q3. cbv beta in Q3. wp_step. wp_step.
  eapply wp_seq; [apply H4; now apply S3 | | exact Hcatch].
  intros a4 s4 Q4. cbv beta in Q4. wp_step. wp_step.
  eapply wp_seq; [apply H5; now apply S4 | | exact Hcatch].
  intros a5 s5 Q5. cbv beta in Q5. wp_step. wp_step.
  eapply wp_seq; [apply H6; now apply S5 | | exact Hcatch].
  intros a6 s6 Q6. cbv beta in Q6. wp_step. wp_step.
  eapply wp_seq; [apply H7; now apply S6 | | exact Hcatch].
  intros a7 s7 Q7. cbv beta in Q7. wp_step. wp_step.
  eapply wp_seq; [apply H8; now apply S7 | | exact Hcatch].
  intros a8 s8 Q8. cbv beta in Q8. wp_step. wp_step.
  eapply wp_seq; [apply H9; now apply S8 | | exact Hcatch].
  intros a9 s9 Q9. cbv beta in Q9. wp_step. wp_step.
  eapply wp_mono; [apply H10; now apply S9 | | exact Hcatch].
  intros a10 s10 Q10. cbv beta in Q10.
  pose proof (original_report_closing env s10) as Hc.
  pose proof (original_report_findings s10) as Hr. revert Hc Hr.
  unfold wp, bind, console, Js.log, modify, get_report, gets. cbv beta iota.
  match goal with
  | |- context [generateReport env ?st] =>
      destruct (generateReport_spec env st) as (s11 & -> & _)
  end.
  cbn [snd]. exact (HQ _ _ Q10).
Qed.
End Findings.

Lemma unlisted_match n s : unlisted s -> urls_match n s.
Proof. intros [H1 H2]. unfold urls_match. now rewrite H1, H2. Qed.

Section Registries.
Variable env : Env.

Ltac urls_leaf :=
  idtac;
  lazymatch goal with
  | |- pres _ (execSync _ _) => intro; unfold same_urls; now rewrite execSync_this
  | |- pres _ _ => intro; reflexivity
  end.

Ltac urls_tac := frame_tac same_urls_refl same_urls_trans urls_leaf.

Lemma fixed_queryVersion_same_name pkg n :
  pres same_name (ReleaseFixed.queryVersion env pkg n).
Proof.
  induction n as [|n IH]; cbn [ReleaseFixed.queryVersion];
    frame_tac same_name_refl same_name_trans
      ltac:(idtac; lazymatch goal with
                   | |- pres _ (execSync _ _) =>
                       intro; apply execSync_same_name; reflexivity
                   | |- pres _ (ReleaseFixed.queryVersion _ _ _) => exact IH
                   | |- pres _ _ => intro; reflexivity
                   end).
Qed.

Lemma fixed_verification_same_name : pres same_name (ReleaseFixed.verification env).
Proof.
  pose proof fixed_queryVersion_same_name as Hq.
  unfold ReleaseFixed.verification.
  frame_tac same_name_refl same_name_trans
    ltac:(idtac; lazymatch goal with
                 | |- pres _ (execSync _ _) =>
                     intro; apply execSync_same_name; reflexivity
                 | |- pres _ (ReleaseFixed.queryVersion _ _ _) => apply Hq
                 | |- pres _ _ => intro; reflexivity
                 end).
Qed.

Lemma fixed_queryVersion_same_urls pkg n :
  pres same_urls (ReleaseFixed.queryVersion env pkg n).
Proof.
  induction n as [|n IH]; cbn [ReleaseFixed.queryVersion];
    frame_tac same_urls_refl same_urls_trans
      ltac:(idtac; first [exact IH | urls_leaf]).
Qed.

Lemma fixed_steps_same_urls k :
  pres same_urls (ReleaseFixed.preVerification env)
  /\ pres same_urls (ReleaseFixed.dependenciesAndTests env)
  /\ pres same_urls (ReleaseFixed.build env)
  /\ pres same_urls (ReleaseFixed.versioning env k)
  /\ pres same_urls (updateChangelog env)
  /\ pres same_urls (ReleaseFixed.commitAndTag env)
  /\ pres same_urls (ReleaseFixed.push env)
  /\ pres same_urls (ReleaseFixed.verification env).
Proof.
  pose proof fixed_queryVersion_same_urls as Hq.
  unfold ReleaseFixed.preVerification, ReleaseFixed.dependenciesAndTests,
    ReleaseFixed.build, ReleaseFixed.versioning, updateChangelog, collectChanges,
    ReleaseFixed.commitAndTag, ReleaseFixed.push, ReleaseFixed.verification.
  repeat match goal with |- _ /\ _ => split end;
    frame_tac same_urls_refl same_urls_trans ltac:(idtac; first [apply Hq | urls_leaf]).
Qed.

Lemma original_steps_same_urls k :
  pres same_urls (Release.preVerification env)
  /\ pres same_urls (Release.dependenciesAndTests env)
  /\ pres same_urls (Release.build env)
  /\ pres same_urls (Release.versioning env k)
  /\ pres same_urls (updateChangelog env)
  /\ pres same_urls (Release.commitAndTag env)
  /\ pres same_urls (Release.push env)
  /\ pres same_urls (Release.verification env).
Proof.
  unfold Release.preVerification, Release.dependenciesAndTests,
    Release.build, Release.versioning, updateChangelog, collectChanges,
    Release.commitAndTag, Release.push, Release.verification.
  repeat match goal with |- _ /\ _ => split end; urls_tac.
Qed.

Lemma fixed_steps_unpublished k :
  pres (keeps is_published) (ReleaseFixed.preVerification env)
  /\ pres (keeps is_published) (ReleaseFixed.dependenciesAndTests env)
  /\ pres (keeps is_published) (ReleaseFixed.build env)
  /\ pres (keeps is_published) (ReleaseFixed.versioning env k)
  /\ pres (keeps is_published) (updateChangelog env)
  /\ pres (keeps is_published) (ReleaseFixed.commitAndTag env)
  /\ pres (keeps is_published) (ReleaseFixed.push env)
  /\ pres (keeps is_published) (ReleaseFixed.verification env).
Proof.
  assert (Hq : forall pkg n,
            pres (keeps is_published) (ReleaseFixed.queryVersion env pkg n)).
  { intros pkg n. induction n as [|n IH]; cbn [ReleaseFixed.queryVersion]; keeps_tac.
    exact IH. }
  unfold ReleaseFixed.preVerification, ReleaseFixed.dependenciesAndTests,
    ReleaseFixed.build, ReleaseFixed.versioning, updateChangelog, collectChanges,
    ReleaseFixed.commitAndTag, ReleaseFixed.push, ReleaseFixed.verification.
  repeat match goal with |- _ /\ _ => split end; keeps_tac; apply Hq.
Qed.

Lemma original_steps_unpublished k :
  pres (keeps is_published) (Release.preVerification env)
  /\ pres (keeps is_published) (Release.dependenciesAndTests env)
  /\ pres (keeps is_published) (Release.build env)
  /\ pres (keeps is_published) (Release.versioning env k)
  /\ pres (keeps is_published) (updateChangelog env)
  /\ pres (keeps is_published) (Release.commitAndTag env)
  /\ pres (keeps is_published) (Release.push env)
  /\ pres (keeps is_published) (Release.verification env).
Proof.
  unfold Release.preVerification, Release.dependenciesAndTests,
    Release.build, Release.versioning, updateChangelog, collectChanges,
    Release.commitAndTag, Release.push, Release.verification.
  repeat match goal with |- _ /\ _ => split end; keeps_tac.
Qed.

(** A step that lists no registry and publishes nothing. *)
Lemma wp_unlisted_step {A} (m : Js A) s :
  pres same_urls m -> pres (keeps is_published) m -> unlisted s ->
  wp m (fun _ => unlisted) (fun _ => unlisted) s.
Proof.
  intros Hu Hk [H1 H2]. specialize (Hu s). specialize (Hk s). unfold wp, unlisted.
  destruct (m s) as [[a|e] s']; cbn [snd] in *;
    (split; [now rewrite Hu | now rewrite (keeps_events Hk)]).
Qed.

(** One more publication, with its address listed. *)
Lemma urls_match_published n e s s' :
  is_published e = true ->
  urls_match n s ->
  registryUrls (report (this s')) = (registryUrls (report (this s)) ++ [registry_url n e])%list ->
  events_of is_published s' = e :: events_of is_published s ->
  urls_match n s'.
Proof.
  intros He Hm Hu Hev. unfold urls_match in *. rewrite Hu, Hev, Hm.
  cbn [rev]. now rewrite map_app.
Qed.

Lemma fixed_publishToNpm_lists s :
  unlisted s ->
  wp (ReleaseFixed.publishToNpm env)
     (fun _ s' => urls_match (name (manifest (world s'))) s')
     (fun _ s' => urls_match (name (manifest (world s'))) s') s.
Proof.
  intros Hs. pose proof Hs as [H1 H2]. unfold ReleaseFixed.publishToNpm. wp_steps.
  destruct (ReleaseFixed.token_missing env); wp_steps;
    [apply unlisted_match; exact Hs|].
  apply wp_execSync; [intros msg _ | intros _; cbn [effect]; fields]; wp_steps.
  - apply unlisted_match. split; [exact H1 | exact H2].
  - fields. eapply (urls_match_published _ (Exec NpmPublish true) s);
      [reflexivity | apply unlisted_match; exact Hs | reflexivity | reflexivity].
Qed.

Lemma original_publishToNpm_lists s :
  unlisted s ->
  wp (Release.publishToNpm env)
     (fun _ => urls_match "create-python-modern")
     (fun _ => urls_match "create-python-modern") s.
Proof.
  intros Hs. pose proof Hs as [H1 H2]. unfold Release.publishToNpm. wp_steps.
  destruct (Release.token_missing env); wp_steps;
    [apply unlisted_match; exact Hs|].
  apply wp_execSync; [intros msg _ | intros _; cbn [effect]; fields]; wp_steps.
  - apply unlisted_match. split; [exact H1 | exact H2].
  - eapply (urls_match_published _ (Exec NpmPublish true) s);
      [reflexivity | apply unlisted_match; exact Hs | reflexivity | reflexivity].
Qed.

Lemma fixed_publishToGitHub_lists s :
  urls_match (name (manifest (world s))) s ->
  wp (ReleaseFixed.publishToGitHub env)
     (fun _ s' => urls_match (name (manifest (world s'))) s')
     (fun _ s' => urls_match (name (manifest (world s'))) s') s.
Proof.
  intros Hs. unfold ReleaseFixed.publishToGitHub. wp_steps. fields.
  destruct (includes (name (manifest (world s))) "/"); wp_steps; [| exact Hs].
  fields. destruct (files (world s) ".npmrc") as [c|] eqn:Ec; wp_steps; [| exact Hs].
  apply wp_readFileSync; fields; [intros c' Hc' | congruence]. wp_steps.
  destruct (includes c' "npm.pkg.github.com"); wp_steps; [| exact Hs].
  apply wp_execSync; [intros msg _ | intros _; cbn [effect]; fields]; wp_steps.
  - exact Hs.
  - eapply (urls_match_published _ (Exec NpmPublishGitHub true) s);
      [reflexivity | exact Hs | reflexivity | reflexivity].
Qed.

Lemma original_publishToGitHub_lists s :
  urls_match "create-python-modern" s ->
  wp (Release.publishToGitHub env)
     (fun _ => urls_match "create-python-modern")
     (fun _ => urls_match "create-python-modern") s.
Proof.
  intros Hs. unfold Release.publishToGitHub. wp_steps. fields.
  destruct (includes (name (manifest (world s))) "/"); wp_steps; [| exact Hs].
  fields. destruct (files (world s) ".npmrc") as [c|] eqn:Ec; wp_steps; [| exact Hs].
  apply wp_execSync; [intros msg _ | intros _; cbn [effect]; fields]; wp_steps.
  - exact Hs.
  - eapply (urls_match_published _ (Exec NpmPublishGitHub true) s);
      [reflexivity | exact Hs | reflexivity | reflexivity].
Qed.

(** What the report and the closing lines leave of the list. *)
Lemma urls_match_closing s s' :
  urls_match (name (manifest (world s))) s -> closing s s' -> same_findings s s' ->
  urls_match (name (manifest (world s'))) s'.
Proof.
  intros Hm ((Hman & _) & _ & Hq) (st & l & Hr). unfold urls_match in *.
  rewrite Hman, Hr, (Hq is_published) by reflexivity. exact Hm.
Qed.

Lemma urls_match_closing_original n s s' :
  urls_match n s -> closing s s' -> same_findings s s' -> urls_match n s'.
Proof.
  intros Hm (_ & _ & Hq) (st & l & Hr). unfold urls_match in *.
  rewrite Hr, (Hq is_published) by reflexivity. exact Hm.
Qed.

Lemma fixed_run_lists arg s :
  unlisted s ->
  let s' := snd (ReleaseFixed.run env arg s) in
  urls_match (name (manifest (world s'))) s'.
Proof.
  intros Hs. cbv zeta.
  destruct (fixed_steps_same_urls (match arg with Some k => k | None => "patch" end))
    as (U1 & U2 & U3 & U4 & U5 & U6 & U7 & U10).
  destruct (fixed_steps_unpublished (match arg with Some k => k | None => "patch" end))
    as (K1 & K2 & K3 & K4 & K5 & K6 & K7 & K10).
  set (M := fun s' : State => urls_match (name (manifest (world s'))) s').
  assert (Hstep : forall A (m : Js A) s1,
            pres same_urls m -> pres (keeps is_published) m -> unlisted s1 ->
            wp m (fun _ => unlisted) (fun _ => M) s1).
  { intros A m s1 Hu Hk H1.
    eapply wp_mono; [exact (wp_unlisted_step m s1 Hu Hk H1) | now intros |].
    intros e s2 H2. now apply unlisted_match. }
  change (M (snd (ReleaseFixed.run env arg s))). apply wp_final.
  apply (fixed_run_wp_findings env arg s
           unlisted unlisted unlisted unlisted unlisted unlisted unlisted
           M M M M (fun _ => M) (fun _ => M)).
  - now apply Hstep.
  - intros s1 H. now apply Hstep.
  - intros s1 H. now apply Hstep.
  - intros s1 H. now apply Hstep.
  - intros s1 H. now apply Hstep.
  - intros s1 H. now apply Hstep.
  - intros s1 H. now apply Hstep.
  - intros s1 H. now apply fixed_publishToNpm_lists.
  - intros s1 H. now apply fixed_publishToGitHub_lists.
  - intros s1 H. pose proof (U10 s1) as Hu. pose proof (K10 s1) as Hk.
    pose proof (fixed_verification_same_name s1) as Hn.
    unfold wp. unfold M, urls_match, same_urls, same_name in *.
    destruct (ReleaseFixed.verification env s1) as [[a|e] s2]; cbn [snd] in *;
      now rewrite Hu, Hn, (keeps_events Hk).
  - intros s1 s2 H Hc Hr. exact (urls_match_closing _ _ H Hc Hr).
  - intros e s1 s2 H Hc Hr. exact (urls_match_closing _ _ H Hc Hr).
Qed.

Lemma original_run_lists arg s :
  unlisted s ->
  urls_match "create-python-modern" (snd (Release.run env arg s)).
Proof.
  intros Hs.
  destruct (original_steps_same_urls (match arg with Some k => k | None => "patch" end))
    as (U1 & U2 & U3 & U4 & U5 & U6 & U7 & U10).
  destruct (original_steps_unpublished (match arg with Some k => k | None => "patch" end))
    as (K1 & K2 & K3 & K4 & K5 & K6 & K7 & K10).
  set (M := urls_match "create-python-modern").
  assert (Hstep : forall A (m : Js A) s1,
            pres same_urls m -> pres (keeps is_published) m -> unlisted s1 ->
            wp m (fun _ => unlisted) (fun _ => M) s1).
  { intros A m s1 Hu Hk H1.
    eapply wp_mono; [exact (wp_unlisted_step m s1 Hu Hk H1) | now intros |].
    intros e s2 H2. now apply unlisted_match. }
  apply wp_final.
  apply (original_run_wp_findings env arg s
           unlisted unlisted unlisted unlisted unlisted unlisted unlisted unlisted
           M M M M (fun _ => M) (fun _ => M));
    try (intros st l s1 H; exact H).
  - exact Hs.
  - intros s1 H. now apply Hstep.
  - intros s1 H. now apply Hstep.
  - intros s1 H. now apply Hstep.
  - intros s1 H. now apply Hstep.
  - intros s1 H. now apply Hstep.
  - intros s1 H. now apply Hstep.
  - intros s1 H. now apply Hstep.
  - intros s1 H. now apply original_publishToNpm_lists.
  - intros s1 H. now apply original_publishToGitHub_lists.
  - intros s1 H. pose proof (U10 s1) as Hu. pose proof (K10 s1) as Hk.
    unfold wp. unfold M, urls_match, same_urls in *.
    destruct (Release.verification env s1) as [[a|e] s2]; cbn [snd] in *;
      now rewrite Hu, (keeps_events Hk).
  - intros s1 s2 H Hc Hr. exact (urls_match_closing_original _ _ _ H Hc Hr).
  - intros e s1 s2 H Hc Hr. exact (urls_match_closing_original _ _ _ H Hc Hr).
Qed.
End Registries.

(** X11: after any run, returned or thrown, the registries listed in the
    report are exactly those of the publications that succeeded, in the
    order made: the npm address for a successful [npm publish], the
    GitHub Packages address for a successful publication there.  The
    reworked script builds the npm address from the package name in
    [package.json]; [scripts/release.js] lists the address of
    [create-python-modern] whatever the package is called. *)
Theorem report_lists_successful_publications env arg w :
  trace w = [] ->
  let fixed := snd (ReleaseFixed.run env arg (fresh env w)) in
  let original := snd (Release.run env arg (fresh env w)) in
  registryUrls (report (this fixed))
  = map (registry_url (name (manifest (world fixed)))) (rev (events_of is_published fixed))
  /\ registryUrls (report (this original))
     = map (registry_url "create-python-modern") (rev (events_of is_published original)).
Proof.
  intros Hw. cbv zeta.
  assert (H0 : unlisted (fresh env w)).
  { split; [reflexivity|]. unfold events_of. cbn. now rewrite Hw. }
  split; [exact (fixed_run_lists env arg _ H0) | exact (original_run_lists env arg _ H0)].
Qed.

Lemma report_lists_successful_publications_witness :
  let env := calm "1.0.1" in
  let w := checkout "1.0.0" [] [] in
  let fixed := snd (ReleaseFixed.run env None (fresh env w)) in
  let original := snd (Release.run env None (fresh env w)) in
  registryUrls (report (this fixed))
  = map (registry_url (name (manifest (world fixed)))) (rev (events_of is_published fixed))
  /\ registryUrls (report (this original))
     = map (registry_url "create-python-modern") (rev (events_of is_published original)).
Proof.
  apply (report_lists_successful_publications (calm "1.0.1") None (checkout "1.0.0" [] [])).
  reflexivity.
Defined.

(** ** The attempts to commit *)

Lemma commit_attempts_weaken env s : commit_attempts env true s -> commit_attempts env false s.
Proof.
  intros [H|[(ok & H & _)|(ok & n & msg & H & _ & Hf)]].
  - now left.
  - right. left. exists ok. split; [exact H | discriminate].
  - right. right. exists ok, n, msg. split; [exact H|]. split; [discriminate | exact Hf].
Qed.

(** What the steps after the commit leave of the attempts. *)
Lemma commit_attempts_kept env strict s s' :
  commit_attempts env strict s ->
  r_version (report (this s')) = r_version (report (this s)) ->
  events_of is_commit s' = events_of is_commit s ->
  commit_attempts env strict s'.
Proof. unfold commit_attempts. cbv zeta. intros H -> ->. exact H. Qed.

Lemma same_version_refl s : same_version s s.
Proof. reflexivity. Qed.

Lemma same_version_trans a b c : same_version a b -> same_version b c -> same_version a c.
Proof. unfold same_version. congruence. Qed.

Section Attempts.
Variable env : Env.

Ltac version_leaf :=
  idtac;
  lazymatch goal with
  | |- pres _ (execSync _ _) => intro; unfold same_version; now rewrite execSync_this
  | |- pres _ _ => intro; reflexivity
  end.

Ltac version_tac := frame_tac same_version_refl same_version_trans version_leaf.

Lemma wp_commit_kept {A} (m : Js A) strict s :
  pres same_version m -> pres (keeps is_commit) m ->
  commit_attempts env strict s ->
  wp m (fun _ => commit_attempts env strict) (fun _ => commit_attempts env false) s.
Proof.
  intros Hr Hk H. specialize (Hr s). specialize (Hk s). unfold wp.
  destruct (m s) as [[a|e] s']; cbn [snd] in *.
  - exact (commit_attempts_kept _ _ _ _ H Hr (keeps_events Hk)).
  - destruct strict; [apply commit_attempts_weaken|];
      exact (commit_attempts_kept _ _ _ _ H Hr (keeps_events Hk)).
Qed.

Ltac commits_simpl :=
  unfold events_of; fields;
  repeat match goal with
         | H : trace (world _) = _ |- _ => rewrite H; fields
         end;
  cbn [filter is_commit].

(** [git commit] fails only when the tool does. *)
Lemma wp_execSync_commit nv m (Q : string -> State -> Prop) (E : string -> State -> Prop) s :
  (forall out s', this s' = this s ->
     trace (world s') = Exec (GitCommit nv m) true :: trace (world s) -> Q out s') ->
  (forall msg s', fails env (clock (world s)) (GitCommit nv m) = Some msg ->
     this s' = this s ->
     trace (world s') = Exec (GitCommit nv m) false :: trace (world s) -> E msg s') ->
  wp (execSync env (GitCommit nv m)) Q E s.
Proof.
  intros HQ HE. apply wp_execSync.
  - intros msg Hf. now apply HE.
  - intros _. cbn [effect]. now apply HQ.
Qed.

(** The commit part of step 6, the same in both scripts, before [rest]. *)
Lemma commit_part_attempts (rest : string -> Js unit) s :
  (forall v, pres same_version (rest v)) ->
  (forall v, pres (keeps is_commit) (rest v)) ->
  events_of is_commit s = [] ->
  wp (r <- get_report ;;
      try_catch
        (execSync env (GitCommit false ("chore(release): v" ++ show (r_version r))) ;; ret tt)
        (fun message =>
           if includes message "pre-commit" then
             warn "Hook pre-commit no encontrado - usando --no-verify" ;;
             execSync env (GitCommit true ("chore(release): v" ++ show (r_version r))) ;;
             update_report (push_issue "Hooks de pre-commit no ejecutados") ;;
             update_report (push_solution "Se recomienda ejecutar hooks de calidad manualmente")
           else throw message) ;;
      rest (show (r_version r)))
     (fun _ => commit_attempts env true) (fun _ => commit_attempts env false) s.
Proof.
  intros Hv Hk H0. unfold events_of in H0. wp_steps.
  set (v := show (r_version (report (this s)))).
  apply wp_execSync_commit.
  - intros o3 s3 T3 Ht3. wp_steps. apply wp_commit_kept; [apply Hv | apply Hk |].
    right. left. exists true. split; [| reflexivity].
    rewrite T3. fold v. commits_simpl. now rewrite H0.
  - intros msg s3 Hf T3 Ht3. wp_steps.
    destruct (includes msg "pre-commit") eqn:Ei; wp_steps.
    + apply wp_execSync_commit.
      * intros o4 s4 T4 Ht4. wp_steps. apply wp_commit_kept; [apply Hv | apply Hk |].
        right. right. exists true, (clock (world s)), msg.
        unfold same_version. fields. rewrite T4. fields. rewrite T3. fold v.
        split; [commits_simpl; now rewrite H0|].
        split; [reflexivity | split; [exact Hf | exact Ei]].
      * intros msg' s4 Hf' T4 Ht4.
        right. right. exists false, (clock (world s)), msg.
        rewrite T4. fields. rewrite T3. fold v.
        split; [commits_simpl; now rewrite H0|].
        split; [discriminate | split; [exact Hf | exact Ei]].
    + right. left. exists false. rewrite T3. fold v.
      split; [commits_simpl; now rewrite H0 | discriminate].
Qed.

Lemma fixed_commitAndTag_attempts s :
  events_of is_commit s = [] ->
  wp (ReleaseFixed.commitAndTag env)
     (fun _ => commit_attempts env true) (fun _ => commit_attempts env false) s.
Proof.
  intros H0. unfold ReleaseFixed.commitAndTag. wp_steps.
  apply wp_execSync_trace; intros o1 s1 T1 Ht1; [| left; commits_simpl; exact H0].
  wp_steps.
  apply wp_execSync_trace; intros o2 s2 T2 Ht2; [| left; commits_simpl; exact H0].
  wp_steps.
  destruct (negb (truthy (trim o2))); [wp_steps; left; commits_simpl; exact H0|].
  apply (commit_part_attempts
           (fun v =>
              out <- execSync env (GitTagList ("v" ++ v)) ;;
              (if truthy (trim out) then
                 Js.log env ("ℹ️  Tag v" ++ v ++ " ya existe - omitiendo creación")
               else
                 execSync env (GitTagAnnotated ("v" ++ v) ("Release v" ++ v)) ;;
                 Js.log env ("✅ Tag creado: v" ++ v)) ;;
              Js.log env ("✅ Commit procesado: " ++ "chore(release): v" ++ v))).
  - intro v. version_tac.
  - intro v. keeps_tac.
  - commits_simpl. exact H0.
Qed.

Lemma original_commitAndTag_attempts s :
  events_of is_commit s = [] ->
  wp (Release.commitAndTag env)
     (fun _ => commit_attempts env true) (fun _ => commit_attempts env false) s.
Proof.
  intros H0. unfold Release.commitAndTag. wp_steps.
  apply wp_execSync_trace; intros o1 s1 T1 Ht1; [| left; commits_simpl; exact H0].
  wp_steps.
  apply wp_execSync_trace; intros o2 s2 T2 Ht2; [| left; commits_simpl; exact H0].
  wp_steps.
  destruct (negb (truthy (trim o2))); [wp_steps; left; commits_simpl; exact H0|].
  apply (commit_part_attempts
           (fun v =>
              try_catch
                (execSync env (GitTagList ("v" ++ v)) ;;
                 Js.log env ("ℹ️  Tag v" ++ v ++ " ya existe - omitiendo creación"))
                (fun _ =>
                   execSync env (GitTagAnnotated ("v" ++ v) ("Release v" ++ v)) ;;
                   Js.log env ("✅ Tag creado: v" ++ v)) ;;
              Js.log env ("✅ Commit procesado: " ++ "chore(release): v" ++ v))).
  - intro v. version_tac.
  - intro v. keeps_tac.
  - commits_simpl. exact H0.
Qed.

Lemma fixed_steps_no_commit k :
  pres (keeps is_commit) (ReleaseFixed.preVerification env)
  /\ pres (keeps is_commit) (ReleaseFixed.dependenciesAndTests env)
  /\ pres (keeps is_commit) (ReleaseFixed.build env)
  /\ pres (keeps is_commit) (ReleaseFixed.versioning env k)
  /\ pres (keeps is_commit) (updateChangelog env)
  /\ pres (keeps is_commit) (ReleaseFixed.push env)
  /\ pres (keeps is_commit) (ReleaseFixed.publishToNpm env)
  /\ pres (keeps is_commit) (ReleaseFixed.publishToGitHub env)
  /\ pres (keeps is_commit) (ReleaseFixed.verification env).
Proof.
  assert (Hq : forall pkg n, pres (keeps is_commit) (ReleaseFixed.queryVersion env pkg n)).
  { intros pkg n. induction n as [|n IH]; cbn [ReleaseFixed.queryVersion]; keeps_tac.
    exact IH. }
  unfold ReleaseFixed.preVerification, ReleaseFixed.dependenciesAndTests,
    ReleaseFixed.build, ReleaseFixed.versioning, updateChangelog, collectChanges,
    ReleaseFixed.push, ReleaseFixed.publishToNpm, ReleaseFixed.publishToGitHub,
    ReleaseFixed.verification.
  repeat match goal with |- _ /\ _ => split end; keeps_tac; apply Hq.
Qed.

Lemma original_steps_no_commit k :
  pres (keeps is_commit) (Release.preVerification env)
  /\ pres (keeps is_commit) (Release.dependenciesAndTests env)
  /\ pres (keeps is_commit) (Release.build env)
  /\ pres (keeps is_commit) (Release.versioning env k)
  /\ pres (keeps is_commit) (updateChangelog env)
  /\ pres (keeps is_commit) (Release.push env)
  /\ pres (keeps is_commit) (Release.publishToNpm env)
  /\ pres (keeps is_commit) (Release.publishToGitHub env)
  /\ pres (keeps is_commit) (Release.verification env).
Proof.
  unfold Release.preVerification, Release.dependenciesAndTests,
    Release.build, Release.versioning, updateChangelog, collectChanges,
    Release.push, Release.publishToNpm, Release.publishToGitHub,
    Release.verification.
  repeat match goal with |- _ /\ _ => split end; keeps_tac.
Qed.

Lemma same_release_version {A} (m : Js A) : pres same_release m -> pres same_version m.
Proof. intros H s. exact (proj2 (proj2 (proj2 (H s)))). Qed.

Lemma wp_uncommitted {A} (m : Js A) s :
  pres (keeps is_commit) m -> events_of is_commit s = [] ->
  wp m (fun _ s' => events_of is_commit s' = []) (fun _ => commit_attempts env false) s.
Proof.
  intros Hk H0. apply (wp_pres (keeps is_commit)); [exact Hk | |]; intros x s' K.
  - now rewrite (keeps_events K).
  - left. now rewrite (keeps_events K).
Qed.

Lemma commit_attempts_closing strict s s' :
  commit_attempts env strict s -> closing s s' -> commit_attempts env strict s'.
Proof.
  intros H ((_ & _ & _ & Hv) & _ & Hq).
  apply (commit_attempts_kept _ _ _ _ H Hv). now apply Hq.
Qed.

Lemma fixed_run_attempts arg s :
  events_of is_commit s = [] ->
  wp (ReleaseFixed.run env arg)
     (fun _ => commit_attempts env true) (fun _ => commit_attempts env false) s.
Proof.
  intros H0.
  destruct (fixed_steps_no_commit (match arg with Some k => k | None => "patch" end))
    as (K1 & K2 & K3 & K4 & K5 & K7 & K8 & K9 & K10).
  set (U := fun s' : State => events_of is_commit s' = []).
  apply (fixed_run_wp env arg s U U U U U
           (commit_attempts env true) (commit_attempts env true)
           (commit_attempts env true) (commit_attempts env true)
           (commit_attempts env true) (commit_attempts env true)
           (fun _ => commit_attempts env false) (fun _ => commit_attempts env false)).
  - now apply wp_uncommitted.
  - intros s1 H. now apply wp_uncommitted.
  - intros s1 H. now apply wp_uncommitted.
  - intros s1 H. now apply wp_uncommitted.
  - intros s1 H. now apply wp_uncommitted.
  - intros s1 H. now apply fixed_commitAndTag_attempts.
  - intros s1 H. apply wp_commit_kept;
      [apply same_release_version, fixed_push_same_release | exact K7 | exact H].
  - intros s1 H. apply wp_commit_kept;
      [apply same_release_version, fixed_publishToNpm_same_release | exact K8 | exact H].
  - intros s1 H. apply wp_commit_kept;
      [apply same_release_version, fixed_publishToGitHub_same_release | exact K9 | exact H].
  - intros s1 H. apply wp_commit_kept;
      [apply same_release_version, fixed_verification_same_release | exact K10 | exact H].
  - intros s1 s2 H Hc. exact (commit_attempts_closing _ _ _ H Hc).
  - intros e s1 s2 H Hc. exact (commit_attempts_closing _ _ _ H Hc).
Qed.

Lemma original_run_attempts arg s :
  events_of is_commit s = [] ->
  wp (Release.run env arg)
     (fun _ => commit_attempts env true) (fun _ => commit_attempts env false) s.
Proof.
  intros H0.
  destruct (original_steps_no_commit (match arg with Some k => k | None => "patch" end))
    as (K1 & K2 & K3 & K4 & K5 & K7 & K8 & K9 & K10).
  set (U := fun s' : State => events_of is_commit s' = []).
  apply (original_run_wp env arg s U U U U U U
           (commit_attempts env true) (commit_attempts env true)
           (commit_attempts env true) (commit_attempts env true)
           (commit_attempts env true) (commit_attempts env true)
           (fun _ => commit_attempts env false) (fun _ => commit_attempts env false));
    try (intros st l s1 H; exact H).
  - exact H0.
  - intros s1 H. now apply wp_uncommitted.
  - intros s1 H. now apply wp_uncommitted.
  - intros s1 H. now apply wp_uncommitted.
  - intros s1 H. now apply wp_uncommitted.
  - intros s1 H. now apply wp_uncommitted.
  - intros s1 H. now apply original_commitAndTag_attempts.
  - intros s1 H. apply wp_commit_kept;
      [apply same_release_version, original_push_same_release | exact K7 | exact H].
  - intros s1 H. apply wp_commit_kept;
      [apply same_release_version, original_publishToNpm_same_release | exact K8 | exact H].
  - intros s1 H. apply wp_commit_kept;
      [apply same_release_version, original_publishToGitHub_same_release | exact K9 | exact H].
  - intros s1 H. apply wp_commit_kept;
      [apply same_release_version, original_verification_same_release | exact K10 | exact H].
  - intros s1 s2 H Hc. exact (commit_attempts_closing _ _ _ H Hc).
  - intros e s1 s2 H Hc. exact (commit_attempts_closing _ _ _ H Hc).
Qed.
End Attempts.

(** X12: in a run of either script the commit is attempted at most
    twice.  The second attempt is the one with [--no-verify] and the same
    message; it is made only when the plain commit failed with a message
    that mentions [pre-commit].  When the run returns, the last attempt
    made has succeeded. *)
Theorem commit_retried_only_for_hooks env arg w :
  trace w = [] ->
  let fixed := ReleaseFixed.run env arg (fresh env w) in
  let original := Release.run env arg (fresh env w) in
  commit_attempts env false (snd fixed)
  /\ (fst fixed = Return tt -> commit_attempts env true (snd fixed))
  /\ commit_attempts env false (snd original)
  /\ (fst original = Return tt -> commit_attempts env true (snd original)).
Proof.
  intros Hw. cbv zeta.
  assert (H0 : events_of is_commit (fresh env w) = []).
  { unfold events_of. cbn. now rewrite Hw. }
  pose proof (fixed_run_attempts env arg _ H0) as Hf.
  pose proof (original_run_attempts env arg _ H0) as Ho.
  unfold wp in Hf, Ho.
  destruct (ReleaseFixed.run env arg (fresh env w)) as [[[]|e1] s1];
    destruct (Release.run env arg (fresh env w)) as [[[]|e2] s2]; cbn [fst snd];
    repeat match goal with |- _ /\ _ => split end;
    try discriminate; try (intros _; assumption);
    try assumption; now apply commit_attempts_weaken.
Qed.

Lemma commit_retried_only_for_hooks_witness :
  let env := calm "1.0.1" in
  let w := checkout "1.0.0" [] [] in
  let fixed := ReleaseFixed.run env None (fresh env w) in
  let original := Release.run env None (fresh env w) in
  commit_attempts env false (snd fixed)
  /\ (fst fixed = Return tt -> commit_attempts env true (snd fixed))
  /\ commit_attempts env false (snd original)
  /\ (fst original = Return tt -> commit_attempts env true (snd original)).
Proof.
  apply (commit_retried_only_for_hooks (calm "1.0.1") None (checkout "1.0.0" [] [])).
  reflexivity.
Defined.

(** ** Step 9 publishes or warns *)

Lemma cons_neq {A} (x : A) l : x :: l <> l.
Proof. intros H. apply (f_equal (@List.length A)) in H. cbn in H. lia. Qed.

Lemma publication_failed_apart s s' :
  publication_failed s s' -> ~ (github_published s s' \/ github_skipped s s').
Proof.
  intros [H _] [[H' _] | [H' _]]; rewrite H in H'.
  - discriminate H'.
  - exact (cons_neq _ _ H').
Qed.

(** X13: step 9 of the reworked script never throws: it publishes to
    GitHub Packages and records no warning, or it issues no publication
    and records one warning (no scope in the package name, no [.npmrc],
    an [.npmrc] that does not name the registry), or the publication it
    issued failed and it records one warning.  Step 9 of
    [scripts/release.js] throws exactly when the publication it issued
    failed, recording no warning then, and returns exactly when it has
    published without warning or issued nothing and recorded one
    warning. *)
Theorem github_step_publishes_or_warns env s :
  let f := ReleaseFixed.publishToGitHub env s in
  let o := Release.publishToGitHub env s in
  (fst f = Return tt
   /\ (github_published s (snd f) \/ github_skipped s (snd f)
       \/ publication_failed_warned s (snd f)))
  /\ (fst o = Return tt <-> github_published s (snd o) \/ github_skipped s (snd o))
  /\ ((exists e, fst o = Throw e) <-> publication_failed s (snd o)).
Proof.
  cbv zeta. split.
  - assert (H : wp (ReleaseFixed.publishToGitHub env)
                  (fun _ s' => github_published s s' \/ github_skipped s s'
                               \/ publication_failed_warned s s') never s).
    { unfold ReleaseFixed.publishToGitHub. wp_steps. fields.
      destruct (includes (name (manifest (world s))) "/"); wp_steps;
        [| right; left; split; [reflexivity | now eexists]].
      fields. destruct (files (world s) ".npmrc") as [c|] eqn:Ec; wp_steps;
        [| right; left; split; [reflexivity | now eexists]].
      apply wp_readFileSync; fields; [intros c' Hc' | congruence]. wp_steps.
      destruct (includes c' "npm.pkg.github.com"); wp_steps;
        [| right; left; split; [reflexivity | now eexists]].
      apply wp_execSync_trace; intros o s1 T1 Ht1; wp_steps.
      - left. unfold github_published, events_of. fields. rewrite Ht1, T1. now split.
      - right. right. unfold publication_failed_warned, events_of. fields.
        rewrite Ht1, T1. split; [reflexivity | now eexists]. }
    unfold wp in H.
    destruct (ReleaseFixed.publishToGitHub env s) as [[[]|e] s']; [now split | destruct H].
  - assert (H : wp (Release.publishToGitHub env)
                  (fun _ s' => github_published s s' \/ github_skipped s s')
                  (fun _ => publication_failed s) s).
    { unfold Release.publishToGitHub. wp_steps. fields.
      destruct (includes (name (manifest (world s))) "/"); wp_steps;
        [| right; split; [reflexivity | now eexists]].
      fields. destruct (files (world s) ".npmrc") as [c|] eqn:Ec; wp_steps;
        [| right; split; [reflexivity | now eexists]].
      apply wp_execSync_trace; intros o s1 T1 Ht1; wp_steps.
      - left. unfold github_published, events_of. fields. rewrite Ht1, T1. now split.
      - unfold publication_failed, events_of. rewrite Ht1, T1. now split. }
    unfold wp in H.
    destruct (Release.publishToGitHub env s) as [[[]|e] s']; cbn [fst snd] in *.
    + split; [now split|]. split; [intros [e E]; discriminate E|].
      intros Hf. now destruct (publication_failed_apart _ _ Hf).
    + split; [split; [discriminate|] | split; [now intros | now exists e]].
      intros Hp. now destruct (publication_failed_apart _ _ H).
Qed.

Lemma github_step_publishes_or_warns_witness :
  let env := github_failing "1.0.0" in
  let s := fresh env (scoped_checkout "1.0.0") in
  (fst (ReleaseFixed.publishToGitHub env s) = Return tt
   /\ publication_failed_warned s (snd (ReleaseFixed.publishToGitHub env s)))
  /\ (exists e, fst (Release.publishToGitHub env s) = Throw e)
  /\ publication_failed s (snd (Release.publishToGitHub env s)).
Proof.
  cbv zeta.
  destruct (github_step_publishes_or_warns (github_failing "1.0.0")
              (fresh (github_failing "1.0.0") (scoped_checkout "1.0.0")))
    as ((Hr & _) & _ & Ht).
  split; [split; [exact Hr|] | split].
  - split; [reflexivity | now eexists].
  - now eexists.
  - apply Ht. now eexists.
Defined.

(** ** The check script *)

Lemma untouched_refl s : untouched s s.
Proof. now repeat split. Qed.

Lemma untouched_trans a b c : untouched a b -> untouched b c -> untouched a c.
Proof.
  intros (A1 & (A2 & A3 & A4 & A5 & A6) & A7) (B1 & (B2 & B3 & B4 & B5 & B6) & B7).
  repeat split; congruence.
Qed.

Section CheckScript.
Variable env : Env.

Lemma execSync_untouched c s :
  is_check_query c = true -> untouched s (snd (execSync env c s)).
Proof.
  intros Hc. unfold untouched, same_tree, events_of, execSync.
  destruct (fails env _ c); cbn [snd]; fields.
  - destruct c; try discriminate; now repeat split.
  - destruct c; try discriminate; cbn [effect]; fields; now repeat split.
Qed.

Ltac untouched_leaf :=
  idtac;
  lazymatch goal with
  | |- pres _ (execSync _ _) => intro; apply execSync_untouched; reflexivity
  | |- pres _ _ => intro; now repeat split
  end.

Lemma checks_untouched : pres untouched (TestRelease.checks env).
Proof.
  unfold TestRelease.checks.
  frame_tac untouched_refl untouched_trans untouched_leaf.
Qed.

Lemma checks_queries_only : pres (keeps is_other_command) (TestRelease.checks env).
Proof. unfold TestRelease.checks. keeps_tac. Qed.

Lemma main_eq s :
  TestRelease.main env s
  = match TestRelease.checks env
            (with_world (record (Console Stdout
               ("🔍 [TEST] Iniciando verificación del script de release..." ++ nl))) s) with
    | (Return _, s') => (0, s')
    | (Throw message, s') =>
        (1, with_world (record (Console Stderr ("❌ ERROR: " ++ message))) s')
    end.
Proof. reflexivity. Qed.
End CheckScript.

(** X14: the check script changes nothing: whatever the tools do, it
    leaves the manifest, the files, the changed paths, the commits and
    the tags as they were, writes no file, and the only commands it runs
    are the queries for the branch, the status and the tag. *)
Theorem check_script_changes_nothing env s :
  let s' := snd (TestRelease.main env s) in
  same_tree s s'
  /\ events_of is_mutation s' = events_of is_mutation s
  /\ events_of is_other_command s' = events_of is_other_command s.
Proof.
  cbv zeta. rewrite main_eq.
  set (s0 := with_world (record _) s).
  pose proof (checks_untouched env s0) as (_ & Ht & Hm).
  pose proof (keeps_events (checks_queries_only env s0)) as Hq.
  destruct (TestRelease.checks env s0) as [[a|e] s1]; cbn [snd] in *;
    (split; [exact Ht | split; [exact Hm | exact Hq]]).
Qed.

Section Predicts.
Variable env : Env.
Hypothesis Hwork : tools_work env.

Ltac wp_works :=
  apply wp_execSync;
  [intros ? Hf;
   match type of Hf with
   | fails _ _ ?c = _ => rewrite (Hwork _ c eq_refl) in Hf
   end; discriminate
  | intros _; cbn [effect]; fields].

Lemma token_missing_set : TestRelease.token_missing env = false <-> token_set env.
Proof.
  unfold TestRelease.token_missing, token_set. destruct (NPM_TOKEN env) as [t|].
  - split.
    + intros H. exists t. split; [reflexivity | now apply negb_false_iff].
    + intros (t' & [= <-] & H). now rewrite H.
  - split; [discriminate | intros (t' & H & _); discriminate].
Qed.

Lemma checks_decides s :
  wp (TestRelease.checks env)
     (fun _ _ => negb (TestRelease.token_missing env) && checkout_ready env s = true)
     (fun _ _ => negb (TestRelease.token_missing env) && checkout_ready env s = false) s.
Proof.
  unfold TestRelease.checks, checkout_ready, wrong_branch. wp_steps.
  destruct (TestRelease.token_missing env); cbn [negb andb]; wp_steps; [reflexivity|].
  wp_works. wp_steps.
  destruct (negb (_ =? "master") && negb (_ =? "main")); cbn [negb andb]; wp_steps;
    [reflexivity|].
  wp_works. wp_steps.
  destruct (truthy (trim (porcelain (dirty (world s))))); cbn [negb andb]; wp_steps;
    [reflexivity|].
  fields.
  destruct (Semver.versionRegex_test (version (manifest (world s)))); cbn [negb];
    wp_steps; [| reflexivity].
  apply wp_execSync_trace; intros; wp_steps; reflexivity.
Qed.

Lemma fixed_preVerification_ready s :
  normalize env (manifest (world s)) = manifest (world s) ->
  wp (ReleaseFixed.preVerification env)
     (fun _ _ => checkout_ready env s = true)
     (fun _ _ => checkout_ready env s = false) s.
Proof.
  intros Hn. unfold ReleaseFixed.preVerification, checkout_ready, wrong_branch. wp_steps.
  wp_works. wp_steps.
  destruct (negb (_ =? "master") && negb (_ =? "main")); cbn [negb andb]; wp_steps;
    [reflexivity|].
  wp_works. wp_steps.
  destruct (truthy (trim (porcelain (dirty (world s))))); cbn [negb andb]; wp_steps;
    [reflexivity|].
  wp_works. wp_steps. fields. rewrite Hn.
  assert (Em : manifest_eqb (manifest (world s)) (manifest (world s)) = true).
  { unfold manifest_eqb. now rewrite !String.eqb_refl, Bool.eqb_reflx. }
  rewrite Em. fields.
  destruct (Semver.versionRegex_test (version (manifest (world s)))); cbn [negb];
    wp_steps; reflexivity.
Qed.

Lemma original_preVerification_ready s :
  normalize env (manifest (world s)) = manifest (world s) ->
  wp (Release.preVerification env)
     (fun _ _ => checkout_ready env s = true)
     (fun _ _ => checkout_ready env s = false) s.
Proof.
  intros Hn. unfold Release.preVerification, checkout_ready, wrong_branch. wp_steps.
  wp_works. wp_steps.
  destruct (negb (_ =? "master") && negb (_ =? "main")); cbn [negb andb]; wp_steps;
    [reflexivity|].
  wp_works. wp_steps.
  destruct (truthy (trim (porcelain (dirty (world s))))); cbn [negb andb]; wp_steps;
    [reflexivity|].
  wp_works. wp_steps. fields. rewrite Hn.
  assert (Em : manifest_eqb (manifest (world s)) (manifest (world s)) = true).
  { unfold manifest_eqb. now rewrite !String.eqb_refl, Bool.eqb_reflx. }
  rewrite Em. fields.
  destruct (Semver.versionRegex_test (version (manifest (world s)))); cbn [negb];
    wp_steps; reflexivity.
Qed.

Lemma returns_iff (m : Js unit) (b : bool) s :
  wp m (fun _ _ => b = true) (fun _ _ => b = false) s ->
  (fst (m s) = Return tt <-> b = true).
Proof.
  unfold wp. destruct (m s) as [[[]|e] s']; cbn [fst]; intros ->;
    split; try reflexivity; discriminate.
Qed.

Lemma main_exit s :
  fst (TestRelease.main env s) = 0
  <-> negb (TestRelease.token_missing env) && checkout_ready env s = true.
Proof.
  rewrite main_eq.
  set (s0 := with_world (record _) s).
  pose proof (returns_iff _ _ _ (checks_decides s0)) as H.
  change (checkout_ready env s0) with (checkout_ready env s) in H.
  rewrite <- H.
  destruct (TestRelease.checks env s0) as [[[]|e] s1]; cbn [fst];
    split; try reflexivity; discriminate.
Qed.
End Predicts.

(** X15: with working tools and a [package.json] that [npm pkg fix]
    leaves as it is, the check script exits with code 0 exactly when
    [NPM_TOKEN] is set and pre-verification, of either release script,
    passes on the same checkout. *)
Theorem check_script_predicts_preVerification env s :
  tools_work env ->
  normalize env (manifest (world s)) = manifest (world s) ->
  (fst (TestRelease.main env s) = 0
   <-> token_set env /\ fst (ReleaseFixed.preVerification env s) = Return tt)
  /\ (fst (TestRelease.main env s) = 0
      <-> token_set env /\ fst (Release.preVerification env s) = Return tt).
Proof.
  intros Hwork Hn.
  pose proof (main_exit env Hwork s) as Hm.
  pose proof (returns_iff _ _ _ (fixed_preVerification_ready env Hwork s Hn)) as Hf.
  pose proof (returns_iff _ _ _ (original_preVerification_ready env Hwork s Hn)) as Ho.
  pose proof (token_missing_set env) as Ht.
  rewrite Hf, Ho, Hm, <- Ht, andb_true_iff, negb_true_iff. tauto.
Qed.

Lemma check_script_predicts_preVerification_witness :
  let env := calm "1.0.0" in
  let s := fresh env (checkout "1.0.0" [] []) in
  (fst (TestRelease.main env s) = 0
   <-> token_set env /\ fst (ReleaseFixed.preVerification env s) = Return tt)
  /\ (fst (TestRelease.main env s) = 0
      <-> token_set env /\ fst (Release.preVerification env s) = Return tt).
Proof.
  apply (check_script_predicts_preVerification (calm "1.0.0")
           (fresh (calm "1.0.0") (checkout "1.0.0" [] []))).
  - intros n c _. reflexivity.
  - reflexivity.
Defined.

Section TagLine.
Variable env : Env.
Hypothesis Htools : tools_ok env.

Ltac wp_ok :=
  apply wp_execSync;
  [intros ? Hf; rewrite Htools in Hf; discriminate
  | intros _; cbn [effect]; fields].

Lemma checks_tag_line s :
  wp (TestRelease.checks env)
     (fun _ s' =>
        In (Console Stdout ("✅ Tag v" ++ version (manifest (world s)) ++ " ya existe" ++ nl))
           (trace (world s')))
     (fun _ _ => True) s.
Proof.
  unfold TestRelease.checks. wp_steps.
  destruct (TestRelease.token_missing env); wp_steps; [exact I|].
  wp_ok. wp_steps.
  destruct (negb (_ =? "master") && negb (_ =? "main")); wp_steps; [exact I|].
  wp_ok. wp_steps.
  destruct (truthy _); wp_steps; [exact I|].
  fields.
  destruct (Semver.versionRegex_test (version (manifest (world s)))); cbn [negb];
    wp_steps; [| exact I].
  wp_ok. wp_steps. fields. cbn [In]. tauto.
Qed.
End TagLine.

(** X16: when every tool works and the check script exits with code 0,
    it has printed that the tag of the current version already exists,
    whether or not the repository has that tag: [git tag -l] exits
    normally when no tag matches, and the script looks at the exit status
    only. *)
Theorem check_script_always_finds_the_tag env s :
  tools_ok env ->
  fst (TestRelease.main env s) = 0 ->
  In (Console Stdout ("✅ Tag v" ++ version (manifest (world s)) ++ " ya existe" ++ nl))
     (trace (world (snd (TestRelease.main env s)))).
Proof.
  intros Htools. rewrite main_eq.
  set (s0 := with_world (record _) s).
  pose proof (checks_tag_line env Htools s0) as H. unfold wp in H.
  destruct (TestRelease.checks env s0) as [[[]|e] s1]; cbn [fst snd]; [| discriminate].
  intros _. exact H.
Qed.

Lemma check_script_always_finds_the_tag_witness :
  tags (world (fresh (calm "1.0.0") (checkout "1.0.0" [] []))) = []
  /\ In (Console Stdout ("✅ Tag v1.0.0 ya existe" ++ nl))
        (trace (world (snd (TestRelease.main (calm "1.0.0")
                              (fresh (calm "1.0.0") (checkout "1.0.0" [] [])))))).
Proof.
  split; [reflexivity|].
  apply (check_script_always_finds_the_tag (calm "1.0.0")
           (fresh (calm "1.0.0") (checkout "1.0.0" [] []))).
  - intros n c. reflexivity.
  - reflexivity.
Defined.

(** ** The build step *)

Section Build.
Variable env : Env.

Lemma fixed_steps_no_build k :
  pres (keeps is_build) (ReleaseFixed.preVerification env)
  /\ pres (keeps is_build) (ReleaseFixed.dependenciesAndTests env)
  /\ pres (keeps is_build) (ReleaseFixed.versioning env k)
  /\ pres (keeps is_build) (updateChangelog env)
  /\ pres (keeps is_build) (ReleaseFixed.commitAndTag env)
  /\ pres (keeps is_build) (ReleaseFixed.push env)
  /\ pres (keeps is_build) (ReleaseFixed.publishToNpm env)
  /\ pres (keeps is_build) (ReleaseFixed.publishToGitHub env)
  /\ pres (keeps is_build) (ReleaseFixed.verification env).
Proof.
  assert (Hq : forall pkg n, pres (keeps is_build) (ReleaseFixed.queryVersion env pkg n)).
  { intros pkg n. induction n as [|n IH]; cbn [ReleaseFixed.queryVersion]; keeps_tac.
    exact IH. }
  unfold ReleaseFixed.preVerification, ReleaseFixed.dependenciesAndTests,
    ReleaseFixed.versioning, updateChangelog, collectChanges,
    ReleaseFixed.commitAndTag, ReleaseFixed.push, ReleaseFixed.publishToNpm,
    ReleaseFixed.publishToGitHub, ReleaseFixed.verification.
  repeat match goal with |- _ /\ _ => split end; keeps_tac; apply Hq.
Qed.

Lemma original_steps_no_build k :
  pres (keeps is_build) (Release.preVerification env)
  /\ pres (keeps is_build) (Release.dependenciesAndTests env)
  /\ pres (keeps is_build) (Release.versioning env k)
  /\ pres (keeps is_build) (updateChangelog env)
  /\ pres (keeps is_build) (Release.commitAndTag env)
  /\ pres (keeps is_build) (Release.push env)
  /\ pres (keeps is_build) (Release.publishToNpm env)
  /\ pres (keeps is_build) (Release.publishToGitHub env)
  /\ pres (keeps is_build) (Release.verification env).
Proof.
  unfold Release.preVerification, Release.dependenciesAndTests,
    Release.versioning, updateChangelog, collectChanges,
    Release.commitAndTag, Release.push, Release.publishToNpm,
    Release.publishToGitHub, Release.verification.
  repeat match goal with |- _ /\ _ => split end; keeps_tac.
Qed.

Lemma fixed_build_once s :
  events_of is_build s = [] ->
  wp (ReleaseFixed.build env)
     (fun _ => built_once (scripts_build (manifest (world s))))
     (fun _ => built_once (scripts_build (manifest (world s)))) s.
Proof.
  intros H0. unfold ReleaseFixed.build. wp_steps. fields.
  destruct (scripts_build (manifest (world s))); wp_steps; [| now left].
  apply wp_execSync_trace; intros o s1 T1 Ht1; wp_steps;
    right; (split; [reflexivity|]); eexists; unfold events_of in *; fields;
    rewrite Ht1; fields; cbn [filter is_build]; now rewrite H0.
Qed.

Lemma original_build_once s :
  events_of is_build s = [] ->
  wp (Release.build env)
     (fun _ => built_once (scripts_build (manifest (world s))))
     (fun _ => built_once (scripts_build (manifest (world s)))) s.
Proof.
  intros H0. unfold Release.build. wp_steps. fields.
  destruct (scripts_build (manifest (world s))); wp_steps; [| now left].
  apply wp_execSync_trace; intros o s1 T1 Ht1; wp_steps;
    right; (split; [reflexivity|]); eexists; unfold events_of in *; fields;
    rewrite Ht1; fields; cbn [filter is_build]; now rewrite H0.
Qed.

Lemma wp_built {A} (m : Js A) b s :
  pres (keeps is_build) m -> built_once b s ->
  wp m (fun _ => built_once b) (fun _ => built_once b) s.
Proof.
  intros Hk H. apply (wp_pres (keeps is_build)); [exact Hk | |]; intros x s' K;
    unfold built_once; now rewrite (keeps_events K).
Qed.

Lemma wp_unbuilt {A} (m : Js A) m0 b s :
  pres same_release m -> pres (keeps is_build) m ->
  manifest (world s) = m0 /\ events_of is_build s = [] ->
  wp m (fun _ s' => manifest (world s') = m0 /\ events_of is_build s' = [])
       (fun _ => built_once b) s.
Proof.
  intros Hr Hk [H1 H2]. specialize (Hr s). specialize (Hk s). unfold wp.
  destruct (m s) as [[a|e] s']; cbn [snd] in *.
  - split; [now rewrite (proj1 Hr) | now rewrite (keeps_events Hk)].
  - left. now rewrite (keeps_events Hk).
Qed.

Lemma built_once_closing b s s' : built_once b s -> closing s s' -> built_once b s'.
Proof. intros H (_ & _ & Hq). unfold built_once. now rewrite (Hq is_build). Qed.

Lemma fixed_run_builds_once arg s :
  events_of is_build s = [] ->
  built_once (scripts_build (normalize env (manifest (world s))))
    (snd (ReleaseFixed.run env arg s)).
Proof.
  intros H0. set (m0 := normalize env (manifest (world s))).
  destruct (fixed_steps_no_build (match arg with Some k => k | None => "patch" end))
    as (K1 & K2 & K4 & K5 & K6 & K7 & K8 & K9 & K10).
  set (B := built_once (scripts_build m0)).
  set (U := fun s' : State => manifest (world s') = m0 /\ events_of is_build s' = []).
  apply wp_final.
  apply (fixed_run_wp env arg s U U B B B B B B B B B (fun _ => B) (fun _ => B)).
  - pose proof (fixed_preVerification_normalizes env s) as Hm. pose proof (K1 s) as Hk.
    unfold wp in *. destruct (ReleaseFixed.preVerification env s) as [[a|e] s1];
      cbn [snd] in *.
    + split; [exact Hm | now rewrite (keeps_events Hk)].
    + left. now rewrite (keeps_events Hk).
  - intros s1 H. apply wp_unbuilt;
      [apply fixed_dependenciesAndTests_same_release | exact K2 | exact H].
  - intros s1 [H1 H2]. unfold B. rewrite <- H1. now apply fixed_build_once.
  - intros s1 H. now apply wp_built.
  - intros s1 H. now apply wp_built.
  - intros s1 H. now apply wp_built.
  - intros s1 H. now apply wp_built.
  - intros s1 H. now apply wp_built.
  - intros s1 H. now apply wp_built.
  - intros s1 H. now apply wp_built.
  - intros s1 s2 H Hc. exact (built_once_closing _ _ _ H Hc).
  - intros e s1 s2 H Hc. exact (built_once_closing _ _ _ H Hc).
Qed.

Lemma original_run_builds_once arg s :
  events_of is_build s = [] ->
  built_once (scripts_build (normalize env (manifest (world s))))
    (snd (Release.run env arg s)).
Proof.
  intros H0. set (m0 := normalize env (manifest (world s))).
  destruct (original_steps_no_build (match arg with Some k => k | None => "patch" end))
    as (K1 & K2 & K4 & K5 & K6 & K7 & K8 & K9 & K10).
  set (B := built_once (scripts_build m0)).
  set (U := fun s' : State => manifest (world s') = m0 /\ events_of is_build s' = []).
  set (U0 := fun s' : State =>
               normalize env (manifest (world s')) = m0 /\ events_of is_build s' = []).
  apply wp_final.
  apply (original_run_wp env arg s U0 U U B B B B B B B B B (fun _ => B) (fun _ => B));
    try (intros st l s1 H; exact H).
  - now split.
  - intros s1 [H1 H2]. pose proof (original_preVerification_normalizes env s1) as Hm.
    pose proof (K1 s1) as Hk.
    unfold wp in *. destruct (Release.preVerification env s1) as [[a|e] s2];
      cbn [snd] in *.
    + split; [now rewrite Hm | now rewrite (keeps_events Hk)].
    + left. now rewrite (keeps_events Hk).
  - intros s1 H. apply wp_unbuilt;
      [apply original_dependenciesAndTests_same_release | exact K2 | exact H].
  - intros s1 [H1 H2]. unfold B. rewrite <- H1. now apply original_build_once.
  - intros s1 H. now apply wp_built.
  - intros s1 H. now apply wp_built.
  - intros s1 H. now apply wp_built.
  - intros s1 H. now apply wp_built.
  - intros s1 H. now apply wp_built.
  - intros s1 H. now apply wp_built.
  - intros s1 H. now apply wp_built.
  - intros s1 s2 H Hc. exact (built_once_closing _ _ _ H Hc).
  - intros e s1 s2 H Hc. exact (built_once_closing _ _ _ H Hc).
Qed.
End Build.

(** X17: a run of either script issues [npm run build] at most once, and
    only when the [package.json] that [npm pkg fix] leaves has a [build]
    script; without one the step is skipped, whatever the tools do. *)
Theorem build_issued_once_if_scripted env arg w :
  trace w = [] ->
  let b := scripts_build (normalize env (manifest w)) in
  built_once b (snd (ReleaseFixed.run env arg (fresh env w)))
  /\ built_once b (snd (Release.run env arg (fresh env w))).
Proof.
  intros Hw. cbv zeta.
  assert (H0 : events_of is_build (fresh env w) = []).
  { unfold events_of. cbn. now rewrite Hw. }
  split; [exact (fixed_run_builds_once env arg _ H0)
         | exact (original_run_builds_once env arg _ H0)].
Qed.

Lemma build_issued_once_if_scripted_witness :
  let env := calm "1.0.1" in
  let w := checkout "1.0.0" [] [] in
  built_once (scripts_build (normalize env (manifest w)))
    (snd (ReleaseFixed.run env None (fresh env w)))
  /\ built_once (scripts_build (normalize env (manifest w)))
       (snd (Release.run env None (fresh env w))).
Proof.
  apply (build_issued_once_if_scripted (calm "1.0.1") None (checkout "1.0.0" [] [])).
  reflexivity.
Defined.

(** ** A release of any kind from an untagged version *)

(** X18: with working tools, on a release branch and a clean checkout
    whose version [v] is plain and untagged, [package.json] not being
    ignored by git and [CHANGELOG.md] being there, the reworked [run], for
    a release kind that is a single word and that [npm version] accepts
    and turns into [v'], leaves the manifest at [v'], one more commit
    [chore(release): v<v'>], one more tag [v<v'>], created by
    [git tag -a], and the changelog with the section of [v'] inserted,
    provided [v'] is not yet tagged and its printed form reads back
    without quotes or surrounding blanks.  The kind has to be a single
    word, as the scripts splice it into the command line unchecked. *)
Theorem fixed_release_of_untagged_version env arg w v v' C0 :
  tools_ok env ->
  wrong_branch env = false -> dirty w = [] ->
  version (normalize env (manifest w)) = v ->
  Semver.versionRegex_test v = true ->
  single_word (match arg with Some k => k | None => "patch" end) = true ->
  npm_version env (match arg with Some k => k | None => "patch" end) v = Some v' ->
  removeQuotes (trim (dq ++ v' ++ dq ++ nl)) = v' ->
  ~ In ("v" ++ v) (tags w) -> ~ In ("v" ++ v') (tags w) ->
  ignored env "package.json" = false ->
  files w "CHANGELOG.md" = Some C0 ->
  cut env w C0 v' (snd (ReleaseFixed.run env arg (fresh env w))).
Proof.
  intros Htools Hb Hd Hn Hv Hword Hk Hback Ht Ht' Hi HC.
  now apply (fixed_release_untagged env Htools arg w v v' C0).
Qed.

Lemma fixed_release_of_untagged_version_witness :
  cut (calm "2.0.0") (checkout "1.4.2" ["v1.4.1"] ["chore(release): v1.4.1"]) changelog0 "2.0.0"
    (snd (ReleaseFixed.run (calm "2.0.0") (Some "major")
            (fresh (calm "2.0.0")
               (checkout "1.4.2" ["v1.4.1"] ["chore(release): v1.4.1"])))).
Proof.
  apply (fixed_release_of_untagged_version (calm "2.0.0") (Some "major")
           (checkout "1.4.2" ["v1.4.1"] ["chore(release): v1.4.1"])
           "1.4.2" "2.0.0" changelog0).
  - intros n c. reflexivity.
  - reflexivity.
  - reflexivity.
  - reflexivity.
  - reflexivity.
  - reflexivity.
  - reflexivity.
  - reflexivity.
  - cbn. intros [H|[]]. discriminate H.
  - cbn. intros [H|[]]. discriminate H.
  - reflexivity.
  - reflexivity.
Defined.
